(* ===== verification/_CoqProject ===== *)
-Q . S2P
Prelude.v
Prog.v
Go.v
Dns.v
Api.v
Fleet.v
Json.v
Azure.v
Effects.v
Deps.v
Protocols.v
ApiServer.v
System.v
Coverage.v
Conditions.v
ObjectMeta.v
AzureErrors.v
ApiRetry.v
TimeFormat.v
UniqueName.v
MemberServiceExport.v
HubInternalServiceExport.v
HubServiceImport.v
HubInternalServiceImport.v
HubEndpointSliceExport.v
MemberEndpointSlice.v
MemberEndpointSliceImport.v
MemberEndpointSliceExport.v
MemberInternalServiceImport.v
MemberServiceImport.v
MemberAgent.v
HubClaims.v
MemberInternalServiceExport.v
MultiClusterServiceController.v
Conc.v
Float64.v
Defaulter.v
TrafficManagerProfileController.v
HubMemberCluster.v
TrafficManagerBackendController.v
TrafficManagerBackendWatches.v
CrdInstaller.v
HttpClient.v
HubConfig.v
MemberInternalMemberCluster.v
MemberInternalMemberClusterV1Beta1.v
MemberInternalMemberClusterV1Alpha1.v
Schemes.v
Managers.v
Shutdown.v
GoHeap.v
GoCopy.v
ApiJson.v
ApiMachinery.v
ApiV1Alpha1.v
ApiV1Beta1.v
ApiTypes.v
