(* ===== verification/Prelude.v ===== *)
(** * Fleet networking: a verification development

    The repository is the networking part of a Kubernetes fleet: a hub cluster
    and member clusters.  Services are exported from member clusters, the hub
    merges the exports, other members import them, and Azure Traffic Manager
    profiles of the hub spread traffic over the exported Services.  The code is a
    set of controllers that read and write objects of the API servers until the
    objects agree; this development models them call by call and proves what
    they keep true whatever the servers answer.

    ** The program and the files that model it

    Exports.  In a member cluster [pkg/controllers/member/serviceexport] turns a
    ServiceExport into an InternalServiceExport in the hub
    ([MemberServiceExport]), and [member/endpointslice] the slices of the Service
    into EndpointSliceExports ([MemberEndpointSlice]).  In the hub
    [hub/internalserviceexport] lists the exporting clusters in a ServiceImport
    ([HubInternalServiceExport]), [hub/serviceimport] settles which ports the
    Service has and which exports are in conflict ([HubServiceImport]), and
    [hub/endpointsliceexport] distributes the slices to the clusters that have
    imported the Service ([HubEndpointSliceExport]).  Back in the member
    [member/internalserviceexport] reports the conflict condition
    ([MemberInternalServiceExport]) and [member/endpointsliceexport] removes
    exports of slices that do not exist any more ([MemberEndpointSliceExport]).

    Imports.  [pkg/controllers/multiclusterservice] makes the ServiceImport and
    the derived Service of a MultiClusterService
    ([MultiClusterServiceController]); [member/serviceimport] asks the hub for
    the import with an InternalServiceImport ([MemberServiceImport]);
    [hub/internalserviceimport] grants it to one cluster
    ([HubInternalServiceImport]); [member/internalserviceimport] copies the
    status back ([MemberInternalServiceImport]); [member/endpointsliceimport]
    writes the slices of the derived Service ([MemberEndpointSliceImport]).

    Membership.  [member/internalmembercluster] sends heartbeats and cleans up
    when the cluster leaves ([MemberInternalMemberCluster] with what both API
    versions share, [MemberInternalMemberClusterV1Beta1],
    [MemberInternalMemberClusterV1Alpha1]); [hub/membercluster] releases what a
    lost cluster leaves behind ([HubMemberCluster]).

    Traffic Manager.  [hub/trafficmanagerprofile] programs Azure profiles
    ([TrafficManagerProfileController]), [hub/trafficmanagerbackend] their
    endpoints ([TrafficManagerBackendController], with the event handlers of its
    watches in [TrafficManagerBackendWatches]).  The weights are computed in
    64-bit integers and in doubles, modelled in [Float64]; [Defaulter] has the
    defaults of the API types.

    Programs.  [Managers] has [main] of the three controller managers of [cmd/]
    and the [SetupWithManager] methods of all controllers, [Schemes] the [init]
    functions that register the API types, [Shutdown] the goroutines of an agent
    until its process ends, [MemberAgent] and [HubClaims] the controllers for
    exports and imports of the member agent and of the hub at work on the
    servers, [CrdInstaller] the installer of the definitions in
    [cmd/net-crd-installer].

    Packages of [pkg/common]: [UniqueName] (over [Dns], the name formats of
    Kubernetes), [Conditions], [ObjectMeta] (with [metrics]), [AzureErrors],
    [ApiRetry], [HttpClient] (with [env]) and [HubConfig].  The types of [api/]
    are in [Fleet], those of Kubernetes that the code uses in [Api], those of the
    Azure SDK in [Azure].

    The API packages as Go code.  [ApiV1Alpha1] and [ApiV1Beta1] have every type
    of [api/] with the Go types and the JSON tags of its fields, and every method
    of [zz_generated.deepcopy.go], statement by statement.  They are written in
    the language of [GoHeap] (Go types, and a memory of cells that pointers,
    slices and maps refer to) and [GoCopy] (the statements of the generated
    methods and what they do to the memory); [ApiJson] has what [encoding/json]
    does with values of these types, [ApiMachinery] the types of k8s.io as
    parameters, and [ApiTypes] the theorems on both packages.

    ** How the code is modelled

    A Go function that calls nothing is a Gallina function.  One that calls
    a server, the clock, the random source or the scheduler is a [prog] ([Prog]):
    a tree whose nodes are calls and whose branches are the answers; a value is
    returned, or the program panics.  The calls of the controllers are the
    constructors of [eff] ([Effects]); [HttpClient], [HubConfig] and [Managers]
    have signatures of their own.  Errors are values of [error] ([Go]).  The Go
    packages of the standard library that the code relies on are defined: parts
    of [strings], [strconv], [time] ([Go], [TimeFormat]), [encoding/json]
    ([Json]), [encoding/base64] and [net/textproto] ([HubConfig]), [net/http]
    ([HttpClient]), [math] on doubles ([Float64]), [errgroup] ([Conc]).
    Pointers that may be nil are options, and so are maps and slices where nil
    makes a difference; only the API packages are modelled over a memory with
    sharing, where it is shown that a generated copy shares nothing with its
    original, so that copies are values elsewhere.  Iteration over a map takes an order that the
    environment chooses.  Integers are [Z] with the wrap-around of their width
    written out where it can occur (weights, durations, jitter).

    Libraries outside the repository are parameters, as type classes, most in [Deps]:
    [ControllerUtil] (finalizers, [CreateOrUpdate], conditions, retries),
    [FleetCondition], [FleetCluster], [Wait], [Location], [Serializer],
    [FloatConversion], [hubconfig.Retry], [SchemeLibrary] ([Schemes]), and [Codecs]
    and [Machinery] for the types of k8s.io ([ApiJson], [ApiMachinery]).  What is relied on is stated in the
    class of laws beside each, in terms of documented behaviour; [Reference]
    and the [Demo] modules give implementations that satisfy the laws and run.

    ** What the theorems say

    Protocols.  For every controller there is a record of what a round has
    learnt ([knowledge]) and a [protocol]: which calls are allowed in a state of
    knowledge, which answers are relied on (that of a server about the object
    asked for, [serverAnswer] in [Protocols]), and what is learnt.  [wp] says that
    a round makes allowed calls only, whatever the answers, does not panic, and
    ends in a given relation between its result and its knowledge;
    [wp_adequate] turns this into a statement on all runs, [wp_run] on runs
    against a state machine.  The theorems [Reconcile_follows_..._protocol] are
    of this form: finalizers are stored before anything is made that they must
    clean up and given up after the server accepted its deletion or did not find
    it, nothing is written that the objects read do not ask for, foreign objects
    are not touched, a round without an error has done what there was to do, and
    one that asks to be repeated has a reason.  An object whose deletion is
    accepted stays until its own finalizers are gone; the protocols call it
    deleted.  The protocols state their conditions with predicates of their own,
    not with the functions of the code.

    Systems.  [ApiServer] has executable API servers; [System] runs a family of
    controllers against them, interleaved at each call, with crashes, lost
    answers and other clients; [Coverage] derives from protocols that an object
    in the hub has a finalizer on its owner.  [MemberAgent] applies this to the
    controllers for exports and imports: [agent_keeps_cover] holds in all
    reachable states.  [HubClaims] applies it to the controllers of the hub, with
    any number of workers for InternalServiceImports: at any time at most one
    cluster has the claim of a ServiceImport, and a claim never passes from one
    cluster to another without having been given up ([hub_claims_are_exclusive]).

    Functions.  The shares of the weights are exact ([Float64] shows that the
    rounding of the doubles does no harm); programming an Azure profile
    converges; unique names are made of their components and valid; the cluster
    list is a set; the classification of exports is a partition; annotations and
    times survive being written and read, and the certificate and the header
    fields in the environment reach the configuration of the client
    ([environment_values_survive]), whose round tripper adds them to the
    requests ([RoundTrip_adds_headers]); watches reach exactly the objects
    concerned.

    API packages.  Every generated copy method ends, leaves the memory it found as
    it was, and makes a copy with the same contents that shares no cell with the
    original ([generated_copies_are_independent]); every object of both versions
    whose times and ports their own encodings can express, written as JSON and
    read back, is the same but for empty fields that omitempty drops and pointers
    to what is written as null ([api_objects_survive_json]).

    Programs.  A manager is started only with the controllers that the flags ask
    for, an index for every field that these select by and a scheme with every
    type they watch, and the manager of the hub in an agent with the
    configuration of the environment ([hub_manager_starts_ready],
    [agents_start_ready]); the
    installer ends with success only after everything asked for is installed; the process of an agent
    ends after both of its managers, in at most 12 steps of its goroutines, and
    is never stuck ([agent_shuts_down]).

    The remaining theorems show behaviour that is surprising: a panic on an
    annotation without a map and an import that stays unresolved, both for all
    servers ([claim_panics_on_null_annotation],
    [conflict_not_found_leaves_unresolved]), and in single runs a condition that
    is written forever, a deadline that passes between two readings of the clock
    and names that collide.

    ** Bounds

    Programs are finite trees, so that every round ends; loops are folds over the
    lists they range over.  Retries are bounded by the library that makes them.
    The fuel of the JSON reader and of the trimming of strings ([Json], [Go]) is
    the length of their input, which each step shortens; the round trip of the
    annotations shows that it is enough.
    [UniqueName] truncates to the lengths of RFC 1123 and 1035.  The theorem on
    weights covers backend weights and export weights from 0 to 1000 and totals
    below 2^53, which 64-bit arithmetic and doubles hold exactly.

    ** Assumptions

    A read returns the stored object: the caches of controller-runtime, which can
    be late, are not modelled, while conflicts, failures with and without effect
    and crashes are.  A controller handles one request at a time, except for the
    workers of [HubClaims].  Case mapping
    is that of ASCII.  Accesses of goroutines to a shared variable are
    interleaved, one word at a time; the logs are left out.

    ** Not modelled

    The registration of metrics with their library, the parsing of command lines,
    and the message texts of logs: calls of libraries without a decision of their
    own.  The end-to-end framework and the fake providers
    under [test/] test the program and are not part of it.  Stale caches are left
    out because the code relies on the conflict checks of the API server, not on
    a bound for their age. *)

From stdpp Require Export base list gmap strings option pretty.
From stdpp Require Import fin_maps sorting.
From Stdlib Require Export ZArith Lia.
From Stdlib Require Ascii.
Export Stdlib.Strings.Ascii (ascii, Ascii).
Export (notations) Stdlib.Strings.Ascii.

(** ** Automation shared by the components

    [fleet] holds the lemmas that close the routine goals of the development;
    [fleet_wp] holds the specifications of the functions the controllers call,
    used by the symbolic execution tactic of [Prog]. *)
Create HintDb fleet.
Create HintDb fleet_wp.

(** [if b then _ else _] and [match] on options in hypotheses and goal, with
    the equations the branches give. *)
Ltac split_match :=
  match goal with
  | H : context [match ?x with _ => _ end] |- _ => destruct x eqn:?; simplify_eq/=
  | |- context [match ?x with _ => _ end] => destruct x eqn:?; simplify_eq/=
  end.

(** ** Booleans and decisions *)

Lemma bool_decide_refl {A} `{EqDecision A} (x : A) : bool_decide (x = x) = true.
Proof. by apply bool_decide_eq_true_2. Qed.
Create Rewrite HintDb fleet_rw.
#[export] Hint Rewrite @bool_decide_refl : fleet_rw.

(** ** Options *)

(** Dereference of a Go pointer that is known to be set. *)
Definition deref {A} (d : A) (o : option A) : A := default d o.

(** ** Lists *)

(** [permute code l] is a permutation of [l] chosen by [code], read as
    successive choices of the next element (the Lehmer code).  It stands for
    the orders the Go runtime leaves open: iteration over a map, and the order
    in which the goroutines of an errgroup get to run.  Missing choices take
    the first remaining element. *)
Fixpoint pick {A} (n : nat) (x : A) (l : list A) : A * list A :=
  match n, l with
  | 0, _ | _, [] => (x, l)
  | S n, y :: l => let '(z, r) := pick n y l in (z, x :: r)
  end.

Fixpoint permute_aux {A} (fuel : nat) (code : list nat) (l : list A) : list A :=
  match fuel, l with
  | S fuel, x :: l =>
      let '(z, r) := pick (hd 0 code `mod` S (length l)) x l in
      z :: permute_aux fuel (tl code) r
  | _, _ => []
  end.

Definition permute {A} (code : list nat) (l : list A) : list A :=
  permute_aux (length l) code l.

Lemma pick_Permutation {A} n (x : A) l z r :
  pick n x l = (z, r) → x :: l ≡ₚ z :: r.
Proof.
  revert x l z r. induction n as [|n IH]; intros x [|y l] z r; simpl;
    try (intros [= <- <-]; done).
  destruct (pick n y l) as [z' r'] eqn:Hp. intros [= <- <-].
  rewrite (IH _ _ _ _ Hp). apply Permutation_swap.
Qed.

Lemma permute_aux_Permutation {A} fuel code (l : list A) :
  length l ≤ fuel → permute_aux fuel code l ≡ₚ l.
Proof.
  revert code l. induction fuel as [|fuel IH]; intros code [|x l] Hl; simpl in *;
    try done; try lia.
  destruct (pick _ x l) as [z r] eqn:Hp.
  pose proof (pick_Permutation _ _ _ _ _ Hp) as HP.
  apply Permutation_length in HP as Hlen. simpl in Hlen.
  rewrite IH by lia. by symmetry.
Qed.

Lemma permute_Permutation {A} code (l : list A) : permute code l ≡ₚ l.
Proof. by apply permute_aux_Permutation. Qed.

Lemma elem_of_permute {A} code (l : list A) x : x ∈ permute code l ↔ x ∈ l.
Proof. by rewrite permute_Permutation. Qed.

Lemma permute_nil {A} code (l : list A) : permute code l = [] ↔ l = [].
Proof.
  split; intros H.
  - apply Permutation_nil. rewrite <- H. by rewrite permute_Permutation.
  - by subst.
Qed.

(** ** Strings *)

Lemma str_app_cons a s1 s2 : String a s1 +:+ s2 = String a (s1 +:+ s2).
Proof. done. Qed.

Lemma str_app_nil_r s : s +:+ "" = s.
Proof. induction s as [|a s IH]; [done|]. by rewrite str_app_cons, IH. Qed.

Lemma str_app_assoc s1 s2 s3 : (s1 +:+ s2) +:+ s3 = s1 +:+ (s2 +:+ s3).
Proof. induction s1 as [|a s IH]; [done|]. by rewrite !str_app_cons, IH. Qed.

Lemma str_length_app s1 s2 :
  String.length (s1 +:+ s2) = String.length s1 + String.length s2.
Proof. induction s1 as [|a s IH]; [done|]. rewrite str_app_cons. simpl. by rewrite IH. Qed.

Lemma str_app_inj s s1 s2 : s +:+ s1 = s +:+ s2 → s1 = s2.
Proof. induction s as [|a s IH]; [done|]. rewrite !str_app_cons. intros [= Hs]. auto. Qed.

Lemma str_prefix_app s1 s2 : String.prefix s1 (s1 +:+ s2) = true.
Proof.
  induction s1 as [|a s IH]; [by destruct s2|].
  rewrite str_app_cons. simpl. by destruct (Ascii.ascii_dec a a).
Qed.

(** Predicates that agree on the elements of a list filter it alike. *)
Lemma filter_ext_elem {A} (P Q : A → Prop) `{!∀ x, Decision (P x), !∀ x, Decision (Q x)} (l : list A) :
  (∀ x, x ∈ l → P x ↔ Q x) → filter P l = filter Q l.
Proof.
  induction l as [|x l IH]; intros Hpq; [done|].
  rewrite !filter_cons, IH by (intros; apply Hpq; by right).
  destruct (Hpq x) as [H1 H2]; [by left|]. by do 2 case_decide; auto; exfalso; auto.
Qed.

Lemma filter_none {A} (P : A → Prop) `{!∀ x, Decision (P x)} (l : list A) :
  (∀ x, x ∈ l → ¬ P x) → filter P l = [].
Proof.
  induction l as [|x l IH]; intros Hl; [done|]. rewrite filter_cons_False by (apply Hl; by left).
  apply IH. intros y Hy. apply Hl. by right.
Qed.
Lemma length_omap_le {A B} (f : A → option B) (l : list A) : length (omap f l) ≤ length l.
Proof. induction l as [|x l IH]; simpl; [done|]. destruct (f x); [apply le_n_S, IH|apply le_S, IH]. Qed.

(** A map built by setting distinct keys one after the other. *)
Lemma foldl_insert (l : list (string * string)) (m : gmap string string) :
  NoDup l.*1 → foldl (λ m kv, <[kv.1 := kv.2]> m) m l = list_to_map l ∪ m.
Proof.
  revert m. induction l as [|[k v] l IH]; intros m; simpl; [by rewrite map_empty_union|].
  intros [Hk Hnd]%NoDup_cons. rewrite IH by done. rewrite <- insert_union_r; [by rewrite insert_union_l|].
  by apply not_elem_of_list_to_map_1.
Qed.
