(* ===== verification/Prog.v ===== *)
(** * Programs that talk to an environment

    A controller of the repository is a function that calls the Kubernetes API
    servers, Azure, the clock and the random source, and decides what to do
    next from what they answer.  [prog E A] is such a function: a finite tree
    whose inner nodes are calls of the signature [E] and whose continuations
    take the answer.  Nothing is assumed of the answers here. *)

From S2P Require Import Prelude.

(** The outcome of a run: the value the Go function returns, or a Go panic. *)
Inductive outcome (A : Type) : Type :=
| Done (a : A)
| Panicked (msg : string).
Arguments Done {A} a.
Arguments Panicked {A} msg.

Inductive prog (E : Type → Type) (A : Type) : Type :=
| Ret (a : A)
| Panic (msg : string)
| Vis (X : Type) (e : E X) (k : X → prog E A).
Arguments Ret {E A} a.
Arguments Panic {E A} msg.
Arguments Vis {E A X} e k.

Section monad.
Context {E : Type → Type}.

Fixpoint bind {A B} (f : A → prog E B) (p : prog E A) : prog E B :=
  match p with
  | Ret a => f a
  | Panic m => Panic m
  | Vis e k => Vis e (λ x, bind f (k x))
  end.

#[global] Instance prog_ret : MRet (prog E) := @Ret E.
#[global] Instance prog_bind : MBind (prog E) := @bind.

Lemma ret_bind {A B} (a : A) (f : A → prog E B) : (mret a ≫= f) = f a.
Proof. done. Qed.

(** One call. *)
Definition call {X} (e : E X) : prog E X := Vis e Ret.

(** A Go [for ... range] loop that threads a state and can return early with
    a value of type [R]: [inl r] leaves the enclosing function with [r]. *)
Fixpoint for_range {A S R} (body : A → S → prog E (R + S)) (l : list A) (s : S)
  : prog E (R + S) :=
  match l with
  | [] => mret (inr s)
  | a :: l =>
      r ← body a s;
      match r with
      | inl early => mret (inl early)
      | inr s' => for_range body l s'
      end
  end.
End monad.

(** ** Runs of a program *)

(** One exchange with the environment. *)
Inductive event (E : Type → Type) : Type :=
| Ev (X : Type) (e : E X) (x : X).
Arguments Ev {E X} e x.

Section semantics.
Context {E : Type → Type}.

(** [exec p t o]: the program can exchange exactly the calls and answers of
    [t] with its environment and then end with [o]. *)
Fixpoint exec {A} (p : prog E A) (t : list (event E)) (o : outcome A) : Prop :=
  match p with
  | Ret a => t = [] ∧ o = Done a
  | Panic m => t = [] ∧ o = Panicked m
  | Vis e k => ∃ x t', t = Ev e x :: t' ∧ exec (k x) t' o
  end.

(** Running a program against an environment that is a state machine. *)
Fixpoint run {A W} (h : ∀ X, E X → W → X * W) (p : prog E A) (w : W) : outcome A * W :=
  match p with
  | Ret a => (Done a, w)
  | Panic m => (Panicked m, w)
  | Vis e k => let '(x, w') := h _ e w in run h (k x) w'
  end.

Lemma run_bind {A B W} (h : ∀ X, E X → W → X * W) (f : A → prog E B) p w :
  run h (p ≫= f) w =
  match run h p w with
  | (Done a, w') => run h (f a) w'
  | (Panicked m, w') => (Panicked m, w')
  end.
Proof.
  unfold mbind, prog_bind. revert w.
  induction p as [a|m|X e k IH]; intros w; simpl; [done|done|].
  destruct (h X e w) as [x w']. apply IH.
Qed.
Lemma run_call {X W} (h : ∀ X, E X → W → X * W) (e : E X) w :
  run h (call e) w = let '(x, w') := h X e w in (Done x, w').
Proof. done. Qed.
End semantics.

(** ** Protocols and weakest preconditions

    A protocol watches the exchange through a state of its own.  [allowed] is
    what the program may call in a state, [answer] is what the environment is
    relied on to answer, [next] is how the exchange moves the state.
    [wp P p s Q]: started in the state [s], the program only makes allowed
    calls as long as the environment answers as relied on, it does not panic,
    and it ends with a value and a state in [Q]. *)
Record protocol (E : Type → Type) (S : Type) : Type := Protocol {
  allowed : ∀ X, E X → S → Prop;
  answer : ∀ X, E X → S → X → Prop;
  next : ∀ X, E X → X → S → S;
}.
Arguments Protocol {E S}.
Arguments allowed {E S} _ {X}.
Arguments answer {E S} _ {X}.
Arguments next {E S} _ {X}.

Section wp.
Context {E : Type → Type} {S : Type}.
Implicit Types (P : protocol E S) (s : S).

Fixpoint wp {A} P (p : prog E A) (s : S) (Q : A → S → Prop) : Prop :=
  match p with
  | Ret a => Q a s
  | Panic _ => False
  | Vis e k => allowed P e s ∧ ∀ x, answer P e s x → wp P (k x) (next P e x s) Q
  end.

Lemma wp_ret {A} P (a : A) s (Q : A → S → Prop) : Q a s → wp P (mret a) s Q.
Proof. done. Qed.

Lemma wp_mono {A} P (p : prog E A) s (Q Q' : A → S → Prop) :
  wp P p s Q → (∀ a s', Q a s' → Q' a s') → wp P p s Q'.
Proof.
  intros Hp HQ. revert s Hp. induction p as [a|m|X e k IH]; intros s; simpl; auto.
  intros [Hal Hk]. split; auto.
Qed.

Lemma wp_bind {A B} P (p : prog E A) (f : A → prog E B) s (Q : B → S → Prop) :
  wp P p s (λ a s', wp P (f a) s' Q) → wp P (p ≫= f) s Q.
Proof.
  unfold mbind, prog_bind. revert s.
  induction p as [a|m|X e k IH]; intros s; simpl; [done|done|].
  intros [Hal Hk]. split; auto.
Qed.

Lemma wp_bind_inv {A B} P (p : prog E A) (f : A → prog E B) s (Q : B → S → Prop) :
  wp P (p ≫= f) s Q → wp P p s (λ a s', wp P (f a) s' Q).
Proof.
  unfold mbind, prog_bind. revert s.
  induction p as [a|m|X e k IH]; intros s; simpl; [done|done|].
  intros [Hal Hk]. split; auto.
Qed.

Lemma wp_call {X} P (e : E X) s (Q : X → S → Prop) :
  allowed P e s → (∀ x, answer P e s x → Q x (next P e x s)) → wp P (call e) s Q.
Proof. done. Qed.

(** The loop rule: [I] holds of the remaining elements, the loop variable and
    the protocol state before each round. *)
Lemma wp_for_range {A T R} P (body : A → T → prog E (R + T))
    (I : list A → T → S → Prop) l t s (Q : R + T → S → Prop) :
  (∀ a l' t s, I (a :: l') t s →
     wp P (body a t) s (λ r s', match r with
                                | inl early => Q (inl early) s'
                                | inr t' => I l' t' s'
                                end)) →
  (∀ t s, I [] t s → Q (inr t) s) →
  I l t s → wp P (for_range body l t) s Q.
Proof.
  intros Hb Hend. revert t s. induction l as [|a l IH]; intros t s HI; simpl.
  - by apply wp_ret, Hend.
  - apply wp_bind. eapply wp_mono; [by apply Hb|].
    intros [early|t'] s'; [by intros; apply wp_ret|]. apply IH.
Qed.

(** *** Adequacy: what a weakest precondition says of the runs *)

(** The state after an exchange. *)
Fixpoint after P (s : S) (t : list (event E)) : S :=
  match t with
  | [] => s
  | Ev e x :: t => after P (next P e x s) t
  end.

(** The environment answered as relied on. *)
Fixpoint honest P (s : S) (t : list (event E)) : Prop :=
  match t with
  | [] => True
  | Ev e x :: t => answer P e s x ∧ honest P (next P e x s) t
  end.

Definition call_allowed P (ev : event E) (s : S) : Prop :=
  match ev with Ev e _ => allowed P e s end.

Theorem wp_adequate {A} P (p : prog E A) s Q t o :
  wp P p s Q → exec p t o → honest P s t →
  (∀ t1 ev t2, t = t1 ++ ev :: t2 → call_allowed P ev (after P s t1)) ∧
  ∃ a, o = Done a ∧ Q a (after P s t).
Proof.
  revert s t. induction p as [a|m|X e k IH]; intros s t; simpl.
  - intros HQ [-> ->] _. split; [|by eauto]. by intros [|? ?] ? ? Ht.
  - done.
  - intros [Hal Hk] (x & t' & -> & Hex) [Hans Hh].
    destruct (IH x _ t' (Hk _ Hans) Hex Hh) as [Hok Hend]. split; [|done].
    intros [|ev1 t1] ev t2 Ht.
    + apply (f_equal head) in Ht. simpl in Ht. injection Ht as <-. done.
    + pose proof (f_equal tail Ht) as Ht1. simpl in Ht1.
      apply (f_equal head) in Ht. simpl in Ht. injection Ht as <-. eauto.
Qed.

(** Against a state machine that answers as relied on, in lockstep with the
    protocol state, the run ends in [Q]. *)
Theorem wp_run {A W} P (h : ∀ X, E X → W → X * W) (Rel : S → W → Prop)
    (p : prog E A) s w Q :
  (∀ X (e : E X) s w, Rel s w →
     answer P e s (h X e w).1 ∧ Rel (next P e (h X e w).1 s) (h X e w).2) →
  wp P p s Q → Rel s w →
  ∃ a w' s', run h p w = (Done a, w') ∧ Rel s' w' ∧ Q a s'.
Proof.
  intros Hh. revert s w. induction p as [a|m|X e k IH]; intros s w; simpl.
  - intros HQ HR. by exists a, w, s.
  - done.
  - intros [_ Hk] HR. destruct (Hh X e s w HR) as [Hans HR'].
    destruct (h X e w) as [x w'] eqn:Hhe; simpl in *. by eapply IH; eauto.
Qed.
End wp.

(** A round that follows a protocol follows every other one whose states are
    related, which allows as much and relies on as much. *)
Lemma wp_refine {E A S S'} (P : protocol E S) (P' : protocol E S') (sim : S → S' → Prop)
    (p : prog E A) s s' (Q : A → S → Prop) :
  (∀ X (e : E X) s s', sim s s' → allowed P e s → allowed P' e s' ∧
     ∀ x, answer P' e s' x → answer P e s x ∧ sim (next P e x s) (next P' e x s')) →
  sim s s' → wp P p s Q → wp P' p s' (λ a s', ∃ s, sim s s' ∧ Q a s).
Proof.
  intros Hsim. revert s s'. induction p as [a|m|X e k IH]; intros s s' Hs; simpl; [by eauto|done|].
  intros [Hal Hk]. destruct (Hsim X e s s' Hs Hal) as [Hal' Hx]. split; [done|].
  intros x Ha. destruct (Hx x Ha) as [Ha' Hs']. by eapply IH, Hk.
Qed.

(** A program whose calls are some of those of a larger signature. *)
Fixpoint translate {E F : Type → Type} (f : ∀ X, E X → F X) {A} (p : prog E A) : prog F A :=
  match p with
  | Ret a => Ret a
  | Panic m => Panic m
  | Vis e k => Vis (f _ e) (λ x, translate f (k x))
  end.
Lemma wp_translate {E F A S S'} (f : ∀ X, E X → F X) (P : protocol E S) (P' : protocol F S')
    (sim : S → S' → Prop) (p : prog E A) s s' (Q : A → S → Prop) :
  (∀ X (e : E X) s s', sim s s' → allowed P e s → allowed P' (f X e) s' ∧
     ∀ x, answer P' (f X e) s' x → answer P e s x ∧ sim (next P e x s) (next P' (f X e) x s')) →
  sim s s' → wp P p s Q → wp P' (translate f p) s' (λ a s', ∃ s, sim s s' ∧ Q a s).
Proof.
  intros Hsim. revert s s'. induction p as [a|m|X e k IH]; intros s s' Hs; simpl; [by eauto|done|].
  intros [Hal Hk]. destruct (Hsim X e s s' Hs Hal) as [Hal' Hx]. split; [done|].
  intros x Ha. destruct (Hx x Ha) as [Ha' Hs']. by eapply IH, Hk.
Qed.

Arguments wp {E S A} P p s Q : simpl never.
Arguments call : simpl never.
Arguments bind : simpl never.
Arguments prog_bind : simpl never.
Arguments prog_ret : simpl never.

(** ** Symbolic execution

    [wp_step] runs one construct of the program: a bind, a call, a return, a
    conditional.  Functions with a specification in [fleet_wp] are replaced by
    it, the others have to be unfolded by the caller. *)
Ltac wp_step :=
  lazymatch goal with
  | |- wp _ (_ ≫= _) _ _ => apply wp_bind
  | |- wp _ (mret _) _ _ => apply wp_ret
  | |- wp _ (Ret _) _ _ => apply wp_ret
  | |- wp _ (call _) _ _ => apply wp_call; [simpl|intros ? ?; simpl]
  | |- wp _ (match ?x with _ => _ end) _ _ => destruct x eqn:?
  | |- wp _ (let '(_, _) := ?x in _) _ _ => destruct x eqn:?
  | |- wp _ _ _ _ => progress cbv beta zeta
  end.
