(* ===== verification/Go.v ===== *)
(** * What the controllers use of the Go language and its standard library

    Errors ([errors], [fmt.Errorf]), [strconv], [strings], nil-able maps and
    time.  Strings are byte strings as in Go; the case mappings of [strings]
    are the ASCII ones, which is the alphabet of Kubernetes and Azure resource
    names. *)

From S2P Require Import Prelude Prog.

(** ** Errors *)

(** The classes of API server errors the code distinguishes
    ([metav1.StatusReason]). *)
Inductive StatusReason :=
| ReasonNotFound | ReasonAlreadyExists | ReasonConflict
| ReasonTimeout | ReasonServerTimeout | ReasonTooManyRequests
| ReasonOther (reason : string).

#[export] Instance StatusReason_eq_dec : EqDecision StatusReason.
Proof. solve_decision. Defined.

(** A non-nil Go error; a value of type [error] in Go is an [option error].
    The details of a status error are a pointer: [None] when they are nil. *)
Inductive error :=
| StatusError (reason : StatusReason) (detailsKind : option string) (msg : string)
| ResponseError (statusCode : Z) (msg : string)
| ErrorString (msg : string)
| WrapError (msg : string) (err : error)
| JoinError (errs : list error).

(** [errors.As]: the first error of the chain the test recognises, depth
    first. *)
Fixpoint errors_As {A} (test : error → option A) (err : error) : option A :=
  match test err with
  | Some a => Some a
  | None =>
      match err with
      | WrapError _ err => errors_As test err
      | JoinError errs =>
          (fix go (es : list error) : option A :=
             match es with
             | [] => None
             | e :: es => match errors_As test e with
                          | Some a => Some a
                          | None => go es
                          end
             end) errs
      | _ => None
      end
  end.

Definition asStatusError : error → option (StatusReason * option string) :=
  errors_As (λ e, match e with StatusError r k _ => Some (r, k) | _ => None end).
Definition asResponseError : error → option Z :=
  errors_As (λ e, match e with ResponseError c _ => Some c | _ => None end).

(** [err.Error()]. *)
Fixpoint errorString (err : error) : string :=
  match err with
  | StatusError _ _ msg | ResponseError _ msg | ErrorString msg => msg
  | WrapError msg err => msg +:+ ": " +:+ errorString err
  | JoinError errs =>
      (fix go (es : list error) : string :=
         match es with
         | [] => ""
         | [e] => errorString e
         | e :: es => errorString e +:+ String "010"%char "" +:+ go es
         end) errs
  end.

(** The [%v] verb on an error. *)
Definition formatError (err : option error) : string :=
  match err with Some e => errorString e | None => "<nil>" end.

(** [apierrors.IsNotFound] and its siblings test the reason of the first
    status error of the chain; they are false on nil. *)
Definition hasReason (r : StatusReason) (err : error) : bool :=
  match asStatusError err with
  | Some (r', _) => bool_decide (r = r')
  | None => false
  end.
Definition IsNotFound := hasReason ReasonNotFound.
Definition IsAlreadyExists := hasReason ReasonAlreadyExists.
Definition IsConflict := hasReason ReasonConflict.
Definition IsTimeout := hasReason ReasonTimeout.
Definition IsServerTimeout := hasReason ReasonServerTimeout.
Definition IsTooManyRequests := hasReason ReasonTooManyRequests.

(** [client.IgnoreNotFound]. *)
Definition IgnoreNotFound (err : option error) : option error :=
  match err with
  | Some e => if IsNotFound e then None else Some e
  | None => None
  end.

(** ** Time *)

(** An instant or a duration in nanoseconds; the zero [metav1.Time] is
    [None]. *)
Definition Time := Z.
Definition Duration := Z.
Definition Millisecond : Duration := 1000000%Z.
Definition Second : Duration := 1000000000%Z.
Definition Minute : Duration := (60 * Second)%Z.

(** [Duration.Milliseconds]: integer division truncated towards zero. *)
Definition Milliseconds (d : Duration) : Z := Z.quot d Millisecond.

(** [t.Sub(u)] saturates at the range of a [Duration]. *)
Definition Sub (t u : Time) : Duration :=
  Z.max (- 2 ^ 63) (Z.min (2 ^ 63 - 1) (t - u)).

(** ** [int64] arithmetic *)

(** The result of an operation wraps around. *)
Definition wrap64 (z : Z) : Z := ((z + 2 ^ 63) mod 2 ^ 64 - 2 ^ 63)%Z.
Lemma wrap64_id z : (- 2 ^ 63 ≤ z < 2 ^ 63)%Z → wrap64 z = z.
Proof. intros. unfold wrap64. rewrite Z.mod_small by lia. lia. Qed.
(** Arithmetic on [int32]. *)
Definition wrap32 (z : Z) : Z := ((z + 2 ^ 31) mod 2 ^ 32 - 2 ^ 31)%Z.
Lemma wrap32_id z : (- 2 ^ 31 ≤ z < 2 ^ 31)%Z → wrap32 z = z.
Proof. intros. unfold wrap32. rewrite Z.mod_small by lia. lia. Qed.

(** ** Nil-able maps *)

Abbreviation gomap := (option (gmap string string)).

Definition map_get (m : gomap) (k : string) : option string := m ≫= lookup k.
(** [m[k]] with the zero value for an absent key. *)
Definition map_getz (m : gomap) (k : string) : string := default "" (map_get m k).
(** [delete(m, k)] is a no-op on a nil map. *)
Definition map_delete (m : gomap) (k : string) : gomap := delete k <$> m.
(** [if m == nil { m = map[string]string{} }]. *)
Definition map_init (m : gomap) : gomap := Some (default ∅ m).
(** [m[k] = v]; assignment to an entry of a nil map panics. *)
Definition map_set {E} (m : gomap) (k v : string) : prog E gomap :=
  match m with
  | Some g => mret (Some (<[k := v]> g))
  | None => Panic "assignment to entry in nil map"
  end.

Lemma map_get_some (m : gmap string string) k : map_get (Some m) k = m !! k.
Proof. done. Qed.
Lemma map_get_delete_eq m k : map_get (map_delete m k) k = None.
Proof. destruct m as [m|]; simpl; [apply lookup_delete_eq|done]. Qed.
Lemma map_get_delete_ne m k k' : k ≠ k' → map_get (map_delete m k) k' = map_get m k'.
Proof. destruct m as [m|]; simpl; [by apply lookup_delete_ne|done]. Qed.
Lemma map_get_init m k : map_get (map_init m) k = map_get m k.
Proof. destruct m; simpl; [done|apply lookup_empty]. Qed.
#[export] Hint Rewrite map_get_delete_eq map_get_init : fleet_rw.

(** [*p]; dereferencing nil panics. *)
Definition derefPtr {E A} (p : option A) : prog E A :=
  match p with Some a => mret a | None => Panic "nil pointer dereference" end.

(** ** [strconv] *)

Definition isDigit (c : ascii) : bool :=
  let n := Ascii.nat_of_ascii c in (48 <=? n) && (n <=? 57).

Fixpoint parseDigits (s : string) (acc : Z) : option Z :=
  match s with
  | EmptyString => Some acc
  | String c s =>
      if isDigit c then parseDigits s (acc * 10 + (Z.of_nat (Ascii.nat_of_ascii c) - 48))%Z
      else None
  end.

Definition minInt64 : Z := (- 2 ^ 63)%Z.
Definition maxInt64 : Z := (2 ^ 63 - 1)%Z.

(** [strconv.ParseInt(s, 10, 64)], and [strconv.Atoi] on a 64-bit platform:
    an optional sign, at least one digit, and a value in the range. *)
Definition ParseInt (s : string) : option Z :=
  let '(neg, digits) :=
    match s with
    | String "+" s => (false, s)
    | String "-" s => (true, s)
    | s => (false, s)
    end in
  match digits with
  | EmptyString => None
  | _ =>
      n ← parseDigits digits 0;
      let z := if neg : bool then - n else n in
      if bool_decide (minInt64 ≤ z ≤ maxInt64)%Z then Some z else None
  end%Z.
Definition Atoi := ParseInt.

(** [strconv.FormatInt(i, 10)] and the [%d] verb. *)
Definition FormatInt (z : Z) : string := pretty z.

Lemma pretty_digit d : (d < 10)%N → isDigit (pretty_N_char d) = true ∧
  (Z.of_nat (Ascii.nat_of_ascii (pretty_N_char d)) - 48 = Z.of_N d)%Z.
Proof.
  intros Hd. assert (d = 0 ∨ d = 1 ∨ d = 2 ∨ d = 3 ∨ d = 4 ∨ d = 5 ∨ d = 6 ∨ d = 7 ∨ d = 8 ∨ d = 9)%N
    as Hcases by lia. by destruct_or! Hcases; subst.
Qed.
Lemma parseDigits_pretty n s : parseDigits (pretty_N_go n s) 0 = parseDigits s (Z.of_N n).
Proof.
  revert s. induction (N.lt_wf_0 n) as [n _ IH]. intros s. destruct (decide (n = 0%N)) as [->|Hn].
  { by rewrite pretty_N_go_0. }
  rewrite pretty_N_go_step by lia. rewrite IH by (apply N.div_lt; lia). simpl.
  destruct (pretty_digit (n mod 10)) as [-> ->]; [by apply N.mod_lt|]. f_equal.
  pose proof (N.div_mod n 10). lia.
Qed.
Lemma pretty_head n s : (0 < n)%N → ∃ c s', pretty_N_go n s = String c s' ∧ isDigit c = true.
Proof.
  revert s. induction (N.lt_wf_0 n) as [n _ IH]. intros s Hn. rewrite pretty_N_go_step by lia.
  destruct (decide (n / 10 = 0)%N) as [->|Hq].
  - rewrite pretty_N_go_0. eexists _, _. split; [done|]. by apply pretty_digit, N.mod_lt.
  - apply IH; [by apply N.div_lt|by apply N.neq_0_lt_0].
Qed.
Lemma pretty_N_nonempty (n : N) : pretty n ≠ "".
Proof.
  destruct n as [|n]; [done|]. change (pretty (N.pos n)) with (pretty_N_go (N.pos n) "").
  by destruct (pretty_head (N.pos n) "" ltac:(done)) as (c & s & -> & _).
Qed.
(** What [FormatInt] prints is read back by [ParseInt]. *)
Lemma ParseInt_FormatInt z :
  ParseInt (FormatInt z) = if bool_decide (minInt64 ≤ z ≤ maxInt64)%Z then Some z else None.
Proof.
  destruct z as [|n|n]; [done|..]; unfold FormatInt, pretty, pretty_Z.
  all: change (pretty n) with (pretty_N_go (N.pos n) "").
  all: destruct (pretty_head (N.pos n) "" ltac:(done)) as (c & s & Hs & Hc).
  all: pose proof (parseDigits_pretty (N.pos n) "") as Hp; rewrite Hs in *.
  - unfold ParseInt. destruct c as [[] [] [] [] [] [] [] []]; try done; by rewrite Hp.
  - change (ParseInt _) with (n ← parseDigits (String c s) 0;
      if bool_decide (minInt64 ≤ - n ≤ maxInt64)%Z then Some (- n)%Z else None). by rewrite Hp.
Qed.

(** [strconv.ParseBool]. *)
Definition ParseBool (s : string) : option bool :=
  if bool_decide (s ∈ ["1"; "t"; "T"; "TRUE"; "true"; "True"]) then Some true
  else if bool_decide (s ∈ ["0"; "f"; "F"; "FALSE"; "false"; "False"]) then Some false
  else None.

(** The [%q] verb on printable ASCII: quotes and backslashes are escaped. *)
Fixpoint quoteRest (s : string) : string :=
  match s with
  | EmptyString => String "034" EmptyString
  | String c s => if bool_decide (c = "034"%char ∨ c = "092"%char)
                  then String "092" (String c (quoteRest s)) else String c (quoteRest s)
  end.
Definition Quote (s : string) : string := String "034" (quoteRest s).

(** ** [strings] *)

Definition HasPrefix (s prefix : string) : bool := String.prefix prefix s.
Lemma HasPrefix_spec s prefix : HasPrefix s prefix = true ↔ ∃ rest, s = prefix +:+ rest.
Proof.
  unfold HasPrefix. revert s. induction prefix as [|c prefix IH]; intros s; simpl.
  - split; [by exists s|by destruct s].
  - destruct s as [|c' s]; [by split; [|intros [? ?]]|].
    simpl. destruct (Ascii.ascii_dec c c') as [->|Hne].
    + rewrite IH. split; intros [rest Hr]; exists rest; [by rewrite Hr|by injection Hr].
    + split; [done|]. intros [rest [= <- _]]. done.
Qed.

Definition lowerAscii (c : ascii) : ascii :=
  let n := Ascii.nat_of_ascii c in
  if (65 <=? n) && (n <=? 90) then Ascii.ascii_of_nat (n + 32) else c.
Fixpoint ToLower (s : string) : string :=
  match s with
  | EmptyString => EmptyString
  | String c s => String (lowerAscii c) (ToLower s)
  end.
Definition EqualFold (s t : string) : bool := bool_decide (ToLower s = ToLower t).

(** [strings.ReplaceAll(s, ".", "")]. *)
Fixpoint removeChar (d : ascii) (s : string) : string :=
  match s with
  | EmptyString => EmptyString
  | String c s => if bool_decide (c = d) then removeChar d s else String c (removeChar d s)
  end.

(** The slice [s[:n]] of a string; callers keep [n] within the length. *)
Fixpoint str_take (n : nat) (s : string) : string :=
  match n, s with
  | S n, String c s => String c (str_take n s)
  | _, _ => EmptyString
  end.

(** [strings.TrimSpace]: the UTF-8 encodings of the white space code points. *)
Definition spaceEncodings : list (list nat) :=
  [[9]; [10]; [11]; [12]; [13]; [32]; [194; 133]; [194; 160]; [225; 154; 128]] ++
  ((λ n, [226; 128; n]) <$> seq 128 11) ++
  [[226; 128; 168]; [226; 128; 169]; [226; 128; 175]; [226; 129; 159]; [227; 128; 128]].

Fixpoint strip (p l : list nat) : option (list nat) :=
  match p, l with
  | [], l => Some l
  | x :: p, y :: l => if x =? y then strip p l else None
  | _, _ => None
  end.
Definition stripAny (ps : list (list nat)) (l : list nat) : option (list nat) :=
  list_find (λ o, is_Some o) ((λ p, strip p l) <$> ps) ≫= snd.
Fixpoint trimAll (fuel : nat) (ps : list (list nat)) (l : list nat) : list nat :=
  match fuel with
  | 0 => l
  | S fuel => match stripAny ps l with
              | Some l' => trimAll fuel ps l'
              | None => l
              end
  end.
Definition TrimSpace (s : string) : string :=
  let l := Ascii.nat_of_ascii <$> String.list_ascii_of_string s in
  let l := trimAll (length l) spaceEncodings l in
  let l := reverse (trimAll (length l) (reverse <$> spaceEncodings) (reverse l)) in
  String.string_of_list_ascii (Ascii.ascii_of_nat <$> l).

Example TrimSpace_ex : TrimSpace "  my rg " = "my rg".
Proof. reflexivity. Qed.
Example Atoi_ex :
  Atoi "1000" = Some 1000%Z ∧ Atoi "-3" = Some (-3)%Z ∧ Atoi "" = None ∧ Atoi "+" = None ∧
  Atoi "1_0" = None ∧ Atoi "9223372036854775808" = None ∧
  Atoi "-9223372036854775808" = Some minInt64.
Proof. repeat split; reflexivity. Qed.

(** [strings.ReplaceAll] of a one-character string by a one-character string. *)
Fixpoint ReplaceChar (old new : ascii) (s : string) : string :=
  match s with
  | EmptyString => EmptyString
  | String c s => String (if decide (c = old) then new else c) (ReplaceChar old new s)
  end.
