(* ===== verification/Dns.v ===== *)
(** * DNS names

    [k8s.io/apimachinery/pkg/util/validation] is not part of the repository:
    its three validators are the fields of [Validation], and what is relied on
    is that they report no error exactly for the names of RFC 1123 and RFC 1035
    within the length limits, stated with the automata of the documented
    regular expressions. *)

From S2P Require Import Prelude Prog Go.

Definition DNS1123SubdomainMaxLength := 253.
Definition DNS1123LabelMaxLength := 63.
Definition DNS1035LabelMaxLength := 63.

(** ** The automata *)

Definition isLower (c : ascii) : bool :=
  let n := Ascii.nat_of_ascii c in (97 <=? n) && (n <=? 122).
Definition isAlnum (c : ascii) : bool := isLower c || isDigit c.

(** Where a name can stand: at the start of a label, after an alphanumeric
    character, after a dash. *)
Inductive dnsState := Start | Alnum | Dash.
#[export] Instance dnsState_eq_dec : EqDecision dnsState.
Proof. solve_decision. Defined.

Definition dnsStep (dots : bool) (st : dnsState) (c : ascii) : option dnsState :=
  if isAlnum c then Some Alnum
  else if bool_decide (c = "-"%char)
       then match st with Start => None | _ => Some Dash end
  else if dots && bool_decide (c = "."%char)
       then match st with Alnum => Some Start | _ => None end
  else None.
Fixpoint dnsRun (dots : bool) (st : dnsState) (s : string) : option dnsState :=
  match s with
  | EmptyString => Some st
  | String c s => st' ← dnsStep dots st c; dnsRun dots st' s
  end.
Definition startsWith (p : ascii → bool) (s : string) : bool :=
  match s with String c _ => p c | EmptyString => false end.

(** [[a-z0-9]([-a-z0-9]*[a-z0-9])?], the same with dots between labels, and
    [[a-z]([-a-z0-9]*[a-z0-9])?]. *)
Definition dns1123Label (s : string) : bool :=
  bool_decide (dnsRun false Start s = Some Alnum) &&
  (String.length s <=? DNS1123LabelMaxLength).
Definition dns1123Subdomain (s : string) : bool :=
  bool_decide (dnsRun true Start s = Some Alnum) &&
  (String.length s <=? DNS1123SubdomainMaxLength).
Definition dns1035Label (s : string) : bool :=
  bool_decide (dnsRun false Start s = Some Alnum) && startsWith isLower s &&
  (String.length s <=? DNS1035LabelMaxLength).

(** ** The library *)

Class Validation := {
  IsDNS1123Subdomain : string → list string;
  IsDNS1123Label : string → list string;
  IsDNS1035Label : string → list string;
}.
Class ValidationLaws `{Validation} : Prop := {
  IsDNS1123Subdomain_spec s : IsDNS1123Subdomain s = [] ↔ dns1123Subdomain s = true;
  IsDNS1123Label_spec s : IsDNS1123Label s = [] ↔ dns1123Label s = true;
  IsDNS1035Label_spec s : IsDNS1035Label s = [] ↔ dns1035Label s = true;
}.

Module ReferenceDns.
Definition report (ok : bool) : list string := if ok then [] else ["invalid"].
#[export] Instance validation : Validation := {|
  IsDNS1123Subdomain s := report (dns1123Subdomain s);
  IsDNS1123Label s := report (dns1123Label s);
  IsDNS1035Label s := report (dns1035Label s) |}.
#[export] Instance validation_laws : ValidationLaws.
Proof. split; intros s; simpl; unfold report; by destruct (_ s). Qed.
End ReferenceDns.

(** ** Runs of the automata *)

Lemma dnsRun_app dots st s1 s2 :
  dnsRun dots st (s1 +:+ s2) = (dnsRun dots st s1 ≫= λ st', dnsRun dots st' s2).
Proof.
  revert st. induction s1 as [|c s1 IH]; intros st; [done|]. rewrite str_app_cons. simpl.
  destruct (dnsStep dots st c); simpl; [apply IH|done].
Qed.

(** A string that starts with an alphanumeric character is read alike
    everywhere; what can be read at the start of a label is such a string. *)
Lemma dnsRun_alnum dots st s :
  startsWith isAlnum s = true → dnsRun dots st s = dnsRun dots Start s.
Proof. destruct s as [|c s]; [done|]. simpl. intros Hc. unfold dnsStep. by rewrite Hc. Qed.
Lemma dnsRun_startsWith dots s st :
  dnsRun dots Start s = Some st → s ≠ "" → startsWith isAlnum s = true.
Proof.
  destruct s as [|c s]; [done|]. intros Hrun _. simpl in *. unfold dnsStep in *.
  destruct (isAlnum c); [done|]. exfalso. repeat (case_match; try done).
Qed.

(** A prefix of a readable string is readable. *)
Lemma str_take_app n s : ∃ s', s = str_take n s +:+ s'.
Proof.
  revert s. induction n as [|n IH]; intros [|c s]; simpl; [by exists ""|by eexists|by exists ""|].
  destruct (IH s) as [s' Hs]. exists s'. rewrite str_app_cons. congruence.
Qed.
Lemma dnsRun_take dots st n s st' :
  dnsRun dots st s = Some st' → is_Some (dnsRun dots st (str_take n s)).
Proof.
  destruct (str_take_app n s) as [s' Hs]. rewrite Hs at 1. rewrite dnsRun_app.
  destruct (dnsRun dots st (str_take n s)); [by eauto|done].
Qed.
Lemma str_take_length n s : String.length (str_take n s) = min n (String.length s).
Proof. revert s. induction n as [|n IH]; intros [|c s]; simpl; [done..|]. by rewrite IH. Qed.
Lemma str_take_all n s : String.length s ≤ n → str_take n s = s.
Proof.
  revert s. induction n as [|n IH]; intros [|c s]; simpl; try done; [lia|].
  intros. rewrite IH; [done|lia].
Qed.
Lemma str_take_nonempty n s : s ≠ "" → n ≠ 0 → str_take n s ≠ "".
Proof. by destruct n, s. Qed.
Lemma startsWith_take p n s : n ≠ 0 → startsWith p (str_take n s) = startsWith p s.
Proof. by destruct n, s. Qed.
Lemma startsWith_app p s1 s2 : s1 ≠ "" → startsWith p (s1 +:+ s2) = startsWith p s1.
Proof. by destruct s1. Qed.

(** A readable string stands at the start of a label only if it is empty or
    ends in a dot. *)
Fixpoint endsIn (d : ascii) (s : string) : bool :=
  match s with
  | EmptyString => false
  | String c EmptyString => bool_decide (c = d)
  | String _ s => endsIn d s
  end.
Lemma dnsRun_endsIn dots st s st' :
  dnsRun dots st s = Some st' → s ≠ "" → st' = Start ↔ endsIn "." s = true.
Proof.
  revert st. induction s as [|c s IH]; intros st; [done|]. simpl.
  destruct (dnsStep dots st c) as [st1|] eqn:Hstep; [simpl|done].
  destruct s as [|c' s].
  - intros [= <-] _. unfold dnsStep in Hstep. rewrite bool_decide_eq_true.
    destruct (isAlnum c) eqn:Ha; [injection Hstep as <-; split; [done|by intros ->]|].
    case_bool_decide as Hc; [subst c; by destruct st; simplify_eq|].
    destruct (dots && _) eqn:Hd; [|done]. apply andb_true_iff in Hd as [_ Hd%bool_decide_eq_true].
    by destruct st; simplify_eq.
  - intros Hrun _. by apply (IH st1).
Qed.

(** Without dots no label ends early. *)
Lemma dnsStep_no_dots st c st' : dnsStep false st c = Some st' → st' ≠ Start.
Proof. unfold dnsStep. intros Hs. by repeat (case_match; simplify_eq/=). Qed.
Lemma dnsRun_no_dots st s st' : dnsRun false st s = Some st' → s ≠ "" → st' ≠ Start.
Proof.
  revert st. induction s as [|c s IH]; intros st; [done|]. simpl.
  destruct (dnsStep false st c) as [st1|] eqn:Hstep; [simpl|done].
  destruct s; [intros [= <-] _; by eapply dnsStep_no_dots|]. intros ? _. by eapply IH.
Qed.
Lemma dnsRun_dots st s st' : dnsRun false st s = Some st' → dnsRun true st s = Some st'.
Proof.
  revert st. induction s as [|c s IH]; intros st; [done|]. simpl. unfold dnsStep. simpl.
  destruct (isAlnum c); simpl; [apply IH|]. destruct (bool_decide _); [|done].
  destruct st; [done|apply IH..].
Qed.

(** Dropping the dots of a name gives a name without dots that starts with the
    same character. *)
Lemma isAlnum_dot : isAlnum "." = false.
Proof. reflexivity. Qed.
Lemma dnsRun_removeDots st st1 s st' :
  dnsRun true st s = Some st' → (st = Start → st1 = Start ∨ st1 = Alnum) → (st ≠ Start → st1 = st) →
  ∃ st1', dnsRun false st1 (removeChar "." s) = Some st1' ∧
          (st' = Start → st1' = Start ∨ st1' = Alnum) ∧ (st' ≠ Start → st1' = st').
Proof.
  revert st st1. induction s as [|c s IH]; intros st st1; simpl; [intros [= <-]; by eauto|].
  destruct (dnsStep true st c) as [st2|] eqn:Hstep; [simpl|done]. intros Hrun H1 H2.
  unfold dnsStep in Hstep. destruct (isAlnum c) eqn:Ha.
  - rewrite bool_decide_eq_false_2 by (intros ->; by rewrite isAlnum_dot in Ha). simpl.
    unfold dnsStep at 1. rewrite Ha. simpl. injection Hstep as <-. by apply (IH Alnum).
  - case_bool_decide as Hdash.
    + destruct st; [done|rewrite (H2 ltac:(done))..]; injection Hstep as <-;
        (rewrite bool_decide_eq_false_2 by (by subst)); simpl; unfold dnsStep at 1;
        rewrite Ha, bool_decide_eq_true_2 by done; by apply (IH Dash).
    + destruct (true && _) eqn:Hdot; [|done]. simpl in Hdot.
      rewrite Hdot. destruct st; [done| |done]. injection Hstep as <-.
      rewrite (H2 ltac:(done)). apply (IH Start); [done|by right|done].
Qed.
Lemma removeDots_label s :
  dnsRun true Start s = Some Alnum →
  dnsRun false Start (removeChar "." s) = Some Alnum ∧
  ∀ p, startsWith p (removeChar "." s) = startsWith p s.
Proof.
  intros Hrun. split.
  - destruct (dnsRun_removeDots Start Start s Alnum Hrun) as (st & -> & _ & Hst); [by left|done|].
    by rewrite Hst.
  - intros p. destruct s as [|c s]; [done|]. simpl in *. unfold dnsStep in Hrun.
    destruct (isAlnum c) eqn:Ha.
    + rewrite bool_decide_eq_false_2; [done|]. intros ->. by rewrite isAlnum_dot in Ha.
    + exfalso. repeat (case_match; try done).
Qed.

(** ** UUIDs *)

(** A UUID in its canonical form starts with eight lower case hexadecimal
    digits. *)
Definition isHex (c : ascii) : bool :=
  let n := Ascii.nat_of_ascii c in isDigit c || (97 <=? n) && (n <=? 102).
Fixpoint hexPrefix (n : nat) (s : string) : bool :=
  match n, s with
  | O, _ => true
  | S n, String c s => isHex c && hexPrefix n s
  | S _, EmptyString => false
  end.
Definition wellFormedUUID (u : string) : Prop := hexPrefix 8 u = true.

Lemma isHex_alnum c : isHex c = true → isAlnum c = true.
Proof.
  unfold isHex, isAlnum, isLower. rewrite !orb_true_iff, !andb_true_iff, !Nat.leb_le.
  intros [?|[??]]; [by right|left; lia].
Qed.
Lemma hexPrefix_run dots st n s :
  hexPrefix (S n) s = true → dnsRun dots st (str_take (S n) s) = Some Alnum.
Proof.
  revert st s. induction n as [|n IH]; intros st [|c s] Hp; try done; simpl in Hp;
    apply andb_true_iff in Hp as [Hc%isHex_alnum Hp].
  - simpl. unfold dnsStep. by rewrite Hc.
  - change (str_take _ _) with (String c (str_take (S n) s)). cbn [dnsRun]. unfold dnsStep.
    rewrite Hc. by apply IH.
Qed.
Lemma hexPrefix_length n s : hexPrefix n s = true → n ≤ String.length s.
Proof.
  revert s. induction n as [|n IH]; intros [|c s]; simpl; try lia.
  intros [_ Hp]%andb_true_iff. apply IH in Hp. lia.
Qed.
Lemma hexPrefix_le n m s : hexPrefix m s = true → n ≤ m → hexPrefix n s = true.
Proof.
  revert m s. induction n as [|n IH]; intros m s Hp Hle; [done|].
  destruct m as [|m], s as [|c s]; simpl in *; [lia|lia|done|].
  apply andb_true_iff in Hp as [-> Hp]. simpl. eapply IH; [exact Hp|lia].
Qed.
