(* ===== verification/Api.v ===== *)
(** * The objects the controllers exchange

    The Kubernetes types the controllers read and write, reduced to the fields
    the code or its comparisons look at, and the custom resources of
    [api/v1alpha1] and [api/v1beta1].  A slice is a list (nil and empty slices
    are the same value, as in [equality.Semantic.DeepEqual]), a pointer is an
    option, a string-based enumeration is a string with named constants. *)

From S2P Require Import Prelude Prog Go.

(** ** [metav1] *)

Record NamespacedName := { nn_Namespace : string; nn_Name : string }.
#[export] Instance NamespacedName_eq_dec : EqDecision NamespacedName.
Proof. solve_decision. Defined.
#[export] Instance NamespacedName_countable : Countable NamespacedName.
Proof.
  apply (inj_countable' (λ n, (nn_Namespace n, nn_Name n))
           (λ p, {| nn_Namespace := p.1; nn_Name := p.2 |})). by intros [].
Defined.

(** [types.NamespacedName.String]. *)
Definition NamespacedName_String (n : NamespacedName) : string :=
  nn_Namespace n +:+ "/" +:+ nn_Name n.

Record TypeMeta := { tm_Kind : string; tm_APIVersion : string }.
#[export] Instance TypeMeta_eq_dec : EqDecision TypeMeta.
Proof. solve_decision. Defined.

Record OwnerReference := {
  or_APIVersion : string;
  or_Kind : string;
  or_Name : string;
  or_UID : string;
  or_Controller : option bool;
}.
#[export] Instance OwnerReference_eq_dec : EqDecision OwnerReference.
Proof. solve_decision. Defined.

Record ObjectMeta := {
  om_Name : string;
  om_Namespace : string;
  om_UID : string;
  om_ResourceVersion : string;
  om_Generation : Z;
  om_CreationTimestamp : option Time;
  om_DeletionTimestamp : option Time;
  om_Labels : gomap;
  om_Annotations : gomap;
  om_OwnerReferences : list OwnerReference;
  om_Finalizers : list string;
}.
#[export] Instance ObjectMeta_eq_dec : EqDecision ObjectMeta.
Proof. solve_decision. Defined.

(** [metav1.ObjectMeta{Namespace: ns, Name: n}]. *)
Definition newObjectMeta (ns n : string) : ObjectMeta := {|
  om_Name := n; om_Namespace := ns; om_UID := ""; om_ResourceVersion := "";
  om_Generation := 0; om_CreationTimestamp := None; om_DeletionTimestamp := None;
  om_Labels := None; om_Annotations := None; om_OwnerReferences := [];
  om_Finalizers := [] |}.

Definition setFinalizers (f : list string) (m : ObjectMeta) : ObjectMeta := {|
  om_Name := om_Name m; om_Namespace := om_Namespace m; om_UID := om_UID m;
  om_ResourceVersion := om_ResourceVersion m; om_Generation := om_Generation m;
  om_CreationTimestamp := om_CreationTimestamp m;
  om_DeletionTimestamp := om_DeletionTimestamp m; om_Labels := om_Labels m;
  om_Annotations := om_Annotations m; om_OwnerReferences := om_OwnerReferences m;
  om_Finalizers := f |}.
Definition setAnnotations (a : gomap) (m : ObjectMeta) : ObjectMeta := {|
  om_Name := om_Name m; om_Namespace := om_Namespace m; om_UID := om_UID m;
  om_ResourceVersion := om_ResourceVersion m; om_Generation := om_Generation m;
  om_CreationTimestamp := om_CreationTimestamp m;
  om_DeletionTimestamp := om_DeletionTimestamp m; om_Labels := om_Labels m;
  om_Annotations := a; om_OwnerReferences := om_OwnerReferences m;
  om_Finalizers := om_Finalizers m |}.
Definition setLabels (l : gomap) (m : ObjectMeta) : ObjectMeta := {|
  om_Name := om_Name m; om_Namespace := om_Namespace m; om_UID := om_UID m;
  om_ResourceVersion := om_ResourceVersion m; om_Generation := om_Generation m;
  om_CreationTimestamp := om_CreationTimestamp m;
  om_DeletionTimestamp := om_DeletionTimestamp m; om_Labels := l;
  om_Annotations := om_Annotations m; om_OwnerReferences := om_OwnerReferences m;
  om_Finalizers := om_Finalizers m |}.
Definition setOwnerReferences (o : list OwnerReference) (m : ObjectMeta) : ObjectMeta := {|
  om_Name := om_Name m; om_Namespace := om_Namespace m; om_UID := om_UID m;
  om_ResourceVersion := om_ResourceVersion m; om_Generation := om_Generation m;
  om_CreationTimestamp := om_CreationTimestamp m;
  om_DeletionTimestamp := om_DeletionTimestamp m; om_Labels := om_Labels m;
  om_Annotations := om_Annotations m; om_OwnerReferences := o;
  om_Finalizers := om_Finalizers m |}.

Definition metaKey (m : ObjectMeta) : NamespacedName :=
  {| nn_Namespace := om_Namespace m; nn_Name := om_Name m |}.

(** [client.Object]: what the API machinery needs of a resource. *)
Class Object (T : Type) := {
  objectMeta : T → ObjectMeta;
  setObjectMeta : ObjectMeta → T → T;
  setObjectMeta_get : ∀ m o, objectMeta (setObjectMeta m o) = m;
}.
Definition objectKey {T} `{Object T} (o : T) : NamespacedName := metaKey (objectMeta o).
Definition updMeta {T} `{Object T} (f : ObjectMeta → ObjectMeta) (o : T) : T :=
  setObjectMeta (f (objectMeta o)) o.
Definition isDeleting {T} `{Object T} (o : T) : bool :=
  bool_decide (om_DeletionTimestamp (objectMeta o) ≠ None).
Definition finalizersOf {T} `{Object T} (o : T) : list string := om_Finalizers (objectMeta o).

Arguments objectKey : simpl never.
Arguments updMeta : simpl never.
Arguments isDeleting : simpl never.
Arguments finalizersOf : simpl never.

(** [metav1.ConditionStatus]. *)
Definition ConditionTrue := "True".
Definition ConditionFalse := "False".
Definition ConditionUnknown := "Unknown".

Record Condition := {
  c_Type : string;
  c_Status : string;
  c_ObservedGeneration : Z;
  c_LastTransitionTime : option Time;
  c_Reason : string;
  c_Message : string;
}.
#[export] Instance Condition_eq_dec : EqDecision Condition.
Proof. solve_decision. Defined.

(** ** [corev1] *)

Inductive IntOrString := FromInt (i : Z) | FromString (s : string).
#[export] Instance IntOrString_eq_dec : EqDecision IntOrString.
Proof. solve_decision. Defined.

Definition ServiceTypeLoadBalancer := "LoadBalancer".
Definition ServiceTypeExternalName := "ExternalName".

Record CoreServicePort := {
  csp_Name : string;
  csp_Protocol : string;
  csp_AppProtocol : option string;
  csp_Port : Z;
  csp_TargetPort : IntOrString;
  csp_NodePort : Z;
}.
#[export] Instance CoreServicePort_eq_dec : EqDecision CoreServicePort.
Proof. solve_decision. Defined.

Record LoadBalancerIngress := { lbi_IP : string; lbi_Hostname : string }.
#[export] Instance LoadBalancerIngress_eq_dec : EqDecision LoadBalancerIngress.
Proof. solve_decision. Defined.

Record Service := {
  svc_TypeMeta : TypeMeta;
  svc_ObjectMeta : ObjectMeta;
  svc_Type : string;
  svc_ClusterIP : string;
  svc_Ports : list CoreServicePort;
  svc_Ingress : list LoadBalancerIngress;   (* Status.LoadBalancer.Ingress *)
}.
#[export] Instance Service_eq_dec : EqDecision Service.
Proof. solve_decision. Defined.
#[export] Program Instance Service_Object : Object Service := {|
  objectMeta := svc_ObjectMeta;
  setObjectMeta m o := {| svc_TypeMeta := svc_TypeMeta o; svc_ObjectMeta := m;
    svc_Type := svc_Type o; svc_ClusterIP := svc_ClusterIP o; svc_Ports := svc_Ports o;
    svc_Ingress := svc_Ingress o |} |}.
Next Obligation. done. Qed.

(** ** [discoveryv1] *)

Definition AddressTypeIPv4 := "IPv4".
Definition LabelServiceName := "kubernetes.io/service-name".
Definition LabelManagedBy := "endpointslice.kubernetes.io/managed-by".

Record DiscoveryEndpoint := {
  de_Addresses : list string;
  de_Ready : option bool;               (* Conditions.Ready *)
}.
#[export] Instance DiscoveryEndpoint_eq_dec : EqDecision DiscoveryEndpoint.
Proof. solve_decision. Defined.

Record EndpointPort := {
  ep_Name : option string;
  ep_Protocol : option string;
  ep_Port : option Z;
  ep_AppProtocol : option string;
}.
#[export] Instance EndpointPort_eq_dec : EqDecision EndpointPort.
Proof. solve_decision. Defined.

Record EndpointSlice := {
  es_TypeMeta : TypeMeta;
  es_ObjectMeta : ObjectMeta;
  es_AddressType : string;
  es_Endpoints : list DiscoveryEndpoint;
  es_Ports : list EndpointPort;
}.
#[export] Instance EndpointSlice_eq_dec : EqDecision EndpointSlice.
Proof. solve_decision. Defined.
#[export] Program Instance EndpointSlice_Object : Object EndpointSlice := {|
  objectMeta := es_ObjectMeta;
  setObjectMeta m o := {| es_TypeMeta := es_TypeMeta o; es_ObjectMeta := m;
    es_AddressType := es_AddressType o; es_Endpoints := es_Endpoints o;
    es_Ports := es_Ports o |} |}.
Next Obligation. done. Qed.
