(* ===== verification/Fleet.v ===== *)
(** * The custom resources of the fleet

    The types of [api/v1alpha1] and [api/v1beta1] the controllers use, field by
    field, with the conversions declared beside them. *)

From S2P Require Import Prelude Prog Go Api.

(** ** [api/v1alpha1/common_types.go] *)

Record ExportedObjectReference := {
  ref_ClusterID : string;
  ref_APIVersion : string;
  ref_Kind : string;
  ref_Namespace : string;
  ref_Name : string;
  ref_ResourceVersion : string;
  ref_Generation : Z;
  ref_UID : string;
  ref_NamespacedName : string;
  ref_ExportedSince : option Time;
}.
#[export] Instance ExportedObjectReference_eq_dec : EqDecision ExportedObjectReference.
Proof. solve_decision. Defined.

Definition FromMetaObjects (clusterID : string) (typeMeta : TypeMeta) (objMeta : ObjectMeta)
    (exportedSince : option Time) : ExportedObjectReference := {|
  ref_ClusterID := clusterID;
  ref_APIVersion := tm_APIVersion typeMeta;
  ref_Kind := tm_Kind typeMeta;
  ref_Namespace := om_Namespace objMeta;
  ref_Name := om_Name objMeta;
  ref_ResourceVersion := om_ResourceVersion objMeta;
  ref_Generation := om_Generation objMeta;
  ref_UID := om_UID objMeta;
  ref_NamespacedName := NamespacedName_String
    {| nn_Namespace := om_Namespace objMeta; nn_Name := om_Name objMeta |};
  ref_ExportedSince := exportedSince |}.

Definition UpdateFromMetaObject (objMeta : ObjectMeta) (exportedSince : option Time)
    (e : ExportedObjectReference) : ExportedObjectReference := {|
  ref_ClusterID := ref_ClusterID e;
  ref_APIVersion := ref_APIVersion e;
  ref_Kind := ref_Kind e;
  ref_Namespace := ref_Namespace e;
  ref_Name := ref_Name e;
  ref_ResourceVersion := om_ResourceVersion objMeta;
  ref_Generation := om_Generation objMeta;
  ref_UID := ref_UID e;
  ref_NamespacedName := ref_NamespacedName e;
  ref_ExportedSince := exportedSince |}.

(** The zero value of the struct. *)
Definition emptyReference : ExportedObjectReference := {|
  ref_ClusterID := ""; ref_APIVersion := ""; ref_Kind := ""; ref_Namespace := "";
  ref_Name := ""; ref_ResourceVersion := ""; ref_Generation := 0; ref_UID := "";
  ref_NamespacedName := ""; ref_ExportedSince := None |}.

(** [ServiceInUseBy]: which member clusters import a Service, by the hub
    namespace reserved to each; a nil Go map is [None]. *)
Record ServiceInUseBy := { MemberClusters : gomap }.
#[export] Instance ServiceInUseBy_eq_dec : EqDecision ServiceInUseBy.
Proof. solve_decision. Defined.

(** ** Service exports and imports *)

Record ServicePort := {
  sp_Name : string;
  sp_Protocol : string;
  sp_AppProtocol : option string;
  sp_Port : Z;
  sp_TargetPort : IntOrString;
}.
#[export] Instance ServicePort_eq_dec : EqDecision ServicePort.
Proof. solve_decision. Defined.

Definition ToServicePort (p : ServicePort) : CoreServicePort := {|
  csp_Name := sp_Name p;
  csp_Protocol := sp_Protocol p;
  csp_AppProtocol := sp_AppProtocol p;
  csp_Port := sp_Port p;
  csp_TargetPort := sp_TargetPort p;
  csp_NodePort := 0 |}.

Definition ServiceExportValid := "Valid".
Definition ServiceExportConflict := "Conflict".

Record ServiceExport := {
  se_TypeMeta : TypeMeta;
  se_ObjectMeta : ObjectMeta;
  se_Conditions : list Condition;       (* Status.Conditions *)
}.
#[export] Instance ServiceExport_eq_dec : EqDecision ServiceExport.
Proof. solve_decision. Defined.
#[export] Program Instance ServiceExport_Object : Object ServiceExport := {|
  objectMeta := se_ObjectMeta;
  setObjectMeta m o := {| se_TypeMeta := se_TypeMeta o; se_ObjectMeta := m;
    se_Conditions := se_Conditions o |} |}.
Next Obligation. done. Qed.
Definition setExportConditions (cs : list Condition) (o : ServiceExport) : ServiceExport :=
  {| se_TypeMeta := se_TypeMeta o; se_ObjectMeta := se_ObjectMeta o; se_Conditions := cs |}.

Record InternalServiceExportSpec := {
  ise_Ports : list ServicePort;
  ise_ServiceReference : ExportedObjectReference;
  ise_Type : string;
  ise_IsDNSLabelConfigured : bool;
  ise_IsInternalLoadBalancer : bool;
  ise_PublicIPResourceID : option string;
  ise_Weight : option Z;
}.
#[export] Instance InternalServiceExportSpec_eq_dec : EqDecision InternalServiceExportSpec.
Proof. solve_decision. Defined.

Record InternalServiceExport := {
  ise_TypeMeta : TypeMeta;
  ise_ObjectMeta : ObjectMeta;
  ise_Spec : InternalServiceExportSpec;
  ise_Conditions : list Condition;      (* Status.Conditions *)
}.
#[export] Instance InternalServiceExport_eq_dec : EqDecision InternalServiceExport.
Proof. solve_decision. Defined.
#[export] Program Instance InternalServiceExport_Object : Object InternalServiceExport := {|
  objectMeta := ise_ObjectMeta;
  setObjectMeta m o := {| ise_TypeMeta := ise_TypeMeta o; ise_ObjectMeta := m;
    ise_Spec := ise_Spec o; ise_Conditions := ise_Conditions o |} |}.
Next Obligation. done. Qed.
Definition setInternalExportConditions (cs : list Condition) (o : InternalServiceExport)
    : InternalServiceExport :=
  {| ise_TypeMeta := ise_TypeMeta o; ise_ObjectMeta := ise_ObjectMeta o;
     ise_Spec := ise_Spec o; ise_Conditions := cs |}.
Definition setInternalExportSpec (s : InternalServiceExportSpec) (o : InternalServiceExport)
    : InternalServiceExport :=
  {| ise_TypeMeta := ise_TypeMeta o; ise_ObjectMeta := ise_ObjectMeta o;
     ise_Spec := s; ise_Conditions := ise_Conditions o |}.

Definition ClusterSetIP := "ClusterSetIP".

Record ClusterStatus := { cs_Cluster : string }.
#[export] Instance ClusterStatus_eq_dec : EqDecision ClusterStatus.
Proof. solve_decision. Defined.

Record ServiceImportStatus := {
  sis_IPs : list string;
  sis_Type : string;
  sis_SessionAffinity : string;
  sis_SessionAffinityConfig : option (option (option Z)); (* ClientIP.TimeoutSeconds *)
  sis_Ports : list ServicePort;
  sis_Clusters : list ClusterStatus;
}.
#[export] Instance ServiceImportStatus_eq_dec : EqDecision ServiceImportStatus.
Proof. solve_decision. Defined.
Definition emptyServiceImportStatus : ServiceImportStatus := {|
  sis_IPs := []; sis_Type := ""; sis_SessionAffinity := "";
  sis_SessionAffinityConfig := None; sis_Ports := []; sis_Clusters := [] |}.

Record ServiceImport := {
  si_TypeMeta : TypeMeta;
  si_ObjectMeta : ObjectMeta;
  si_Status : ServiceImportStatus;
}.
#[export] Instance ServiceImport_eq_dec : EqDecision ServiceImport.
Proof. solve_decision. Defined.
#[export] Program Instance ServiceImport_Object : Object ServiceImport := {|
  objectMeta := si_ObjectMeta;
  setObjectMeta m o := {| si_TypeMeta := si_TypeMeta o; si_ObjectMeta := m;
    si_Status := si_Status o |} |}.
Next Obligation. done. Qed.
Definition setImportStatus (s : ServiceImportStatus) (o : ServiceImport) : ServiceImport :=
  {| si_TypeMeta := si_TypeMeta o; si_ObjectMeta := si_ObjectMeta o; si_Status := s |}.
Definition setImportClusters (cs : list ClusterStatus) (o : ServiceImport) : ServiceImport :=
  setImportStatus {| sis_IPs := sis_IPs (si_Status o); sis_Type := sis_Type (si_Status o);
    sis_SessionAffinity := sis_SessionAffinity (si_Status o);
    sis_SessionAffinityConfig := sis_SessionAffinityConfig (si_Status o);
    sis_Ports := sis_Ports (si_Status o); sis_Clusters := cs |} o.

Record InternalServiceImport := {
  isi_TypeMeta : TypeMeta;
  isi_ObjectMeta : ObjectMeta;
  isi_ServiceImportReference : ExportedObjectReference;   (* Spec *)
  isi_Status : ServiceImportStatus;
}.
#[export] Instance InternalServiceImport_eq_dec : EqDecision InternalServiceImport.
Proof. solve_decision. Defined.
#[export] Program Instance InternalServiceImport_Object : Object InternalServiceImport := {|
  objectMeta := isi_ObjectMeta;
  setObjectMeta m o := {| isi_TypeMeta := isi_TypeMeta o; isi_ObjectMeta := m;
    isi_ServiceImportReference := isi_ServiceImportReference o;
    isi_Status := isi_Status o |} |}.
Next Obligation. done. Qed.
Definition setInternalImportReference (r : ExportedObjectReference) (o : InternalServiceImport)
    : InternalServiceImport :=
  {| isi_TypeMeta := isi_TypeMeta o; isi_ObjectMeta := isi_ObjectMeta o;
     isi_ServiceImportReference := r; isi_Status := isi_Status o |}.
Definition setInternalImportStatus (s : ServiceImportStatus) (o : InternalServiceImport)
    : InternalServiceImport :=
  {| isi_TypeMeta := isi_TypeMeta o; isi_ObjectMeta := isi_ObjectMeta o;
     isi_ServiceImportReference := isi_ServiceImportReference o; isi_Status := s |}.

(** ** Endpoint slices in transit *)

Record Endpoint := { ep_Addresses : list string }.
#[export] Instance Endpoint_eq_dec : EqDecision Endpoint.
Proof. solve_decision. Defined.

Record OwnerServiceReference := {
  osr_Namespace : string;
  osr_Name : string;
  osr_NamespacedName : string;
}.
#[export] Instance OwnerServiceReference_eq_dec : EqDecision OwnerServiceReference.
Proof. solve_decision. Defined.

Record EndpointSliceExportSpec := {
  ese_AddressType : string;
  ese_Endpoints : list Endpoint;
  ese_Ports : list EndpointPort;
  ese_EndpointSliceReference : ExportedObjectReference;
  ese_OwnerServiceReference : OwnerServiceReference;
}.
#[export] Instance EndpointSliceExportSpec_eq_dec : EqDecision EndpointSliceExportSpec.
Proof. solve_decision. Defined.
Definition emptySliceSpec : EndpointSliceExportSpec := {|
  ese_AddressType := ""; ese_Endpoints := []; ese_Ports := [];
  ese_EndpointSliceReference := emptyReference;
  ese_OwnerServiceReference :=
    {| osr_Namespace := ""; osr_Name := ""; osr_NamespacedName := "" |} |}.

Record EndpointSliceExport := {
  ese_TypeMeta : TypeMeta;
  ese_ObjectMeta : ObjectMeta;
  ese_Spec : EndpointSliceExportSpec;
}.
#[export] Instance EndpointSliceExport_eq_dec : EqDecision EndpointSliceExport.
Proof. solve_decision. Defined.
#[export] Program Instance EndpointSliceExport_Object : Object EndpointSliceExport := {|
  objectMeta := ese_ObjectMeta;
  setObjectMeta m o := {| ese_TypeMeta := ese_TypeMeta o; ese_ObjectMeta := m;
    ese_Spec := ese_Spec o |} |}.
Next Obligation. done. Qed.
Definition setSliceExportSpec (s : EndpointSliceExportSpec) (o : EndpointSliceExport)
    : EndpointSliceExport :=
  {| ese_TypeMeta := ese_TypeMeta o; ese_ObjectMeta := ese_ObjectMeta o; ese_Spec := s |}.

Record EndpointSliceImport := {
  esi_TypeMeta : TypeMeta;
  esi_ObjectMeta : ObjectMeta;
  esi_Spec : EndpointSliceExportSpec;
}.
#[export] Instance EndpointSliceImport_eq_dec : EqDecision EndpointSliceImport.
Proof. solve_decision. Defined.
#[export] Program Instance EndpointSliceImport_Object : Object EndpointSliceImport := {|
  objectMeta := esi_ObjectMeta;
  setObjectMeta m o := {| esi_TypeMeta := esi_TypeMeta o; esi_ObjectMeta := m;
    esi_Spec := esi_Spec o |} |}.
Next Obligation. done. Qed.
Definition setSliceImportSpec (s : EndpointSliceExportSpec) (o : EndpointSliceImport)
    : EndpointSliceImport :=
  {| esi_TypeMeta := esi_TypeMeta o; esi_ObjectMeta := esi_ObjectMeta o; esi_Spec := s |}.

(** ** Multi-cluster services *)

Definition MultiClusterServiceValid := "Valid".

Record MultiClusterService := {
  mcs_TypeMeta : TypeMeta;
  mcs_ObjectMeta : ObjectMeta;
  mcs_ServiceImport : string;                   (* Spec.ServiceImport.Name *)
  mcs_LoadBalancer : list LoadBalancerIngress;  (* Status.LoadBalancer.Ingress *)
  mcs_Conditions : list Condition;              (* Status.Conditions *)
}.
#[export] Instance MultiClusterService_eq_dec : EqDecision MultiClusterService.
Proof. solve_decision. Defined.
#[export] Program Instance MultiClusterService_Object : Object MultiClusterService := {|
  objectMeta := mcs_ObjectMeta;
  setObjectMeta m o := {| mcs_TypeMeta := mcs_TypeMeta o; mcs_ObjectMeta := m;
    mcs_ServiceImport := mcs_ServiceImport o; mcs_LoadBalancer := mcs_LoadBalancer o;
    mcs_Conditions := mcs_Conditions o |} |}.
Next Obligation. done. Qed.
Definition setMcsStatus (lb : list LoadBalancerIngress) (cs : list Condition)
    (o : MultiClusterService) : MultiClusterService :=
  {| mcs_TypeMeta := mcs_TypeMeta o; mcs_ObjectMeta := mcs_ObjectMeta o;
     mcs_ServiceImport := mcs_ServiceImport o; mcs_LoadBalancer := lb; mcs_Conditions := cs |}.

(** ** Traffic manager ([api/v1beta1]) *)

Record MonitorConfigCustomHeader := { mch_Name : string; mch_Value : string }.
#[export] Instance MonitorConfigCustomHeader_eq_dec : EqDecision MonitorConfigCustomHeader.
Proof. solve_decision. Defined.

Definition TrafficManagerMonitorProtocolHTTP := "HTTP".
Definition TrafficManagerMonitorProtocolHTTPS := "HTTPS".
Definition TrafficManagerMonitorProtocolTCP := "TCP".

Record MonitorConfig := {
  mc_IntervalInSeconds : option Z;
  mc_Path : option string;
  mc_Port : option Z;
  mc_Protocol : option string;
  mc_CustomHeaders : list MonitorConfigCustomHeader;
  mc_TimeoutInSeconds : option Z;
  mc_ToleratedNumberOfFailures : option Z;
}.
#[export] Instance MonitorConfig_eq_dec : EqDecision MonitorConfig.
Proof. solve_decision. Defined.

Definition TrafficManagerProfileConditionProgrammed := "Programmed".
Definition TrafficManagerProfileReasonProgrammed := "Programmed".
Definition TrafficManagerProfileReasonInvalid := "Invalid".
Definition TrafficManagerProfileReasonDNSNameNotAvailable := "DNSNameNotAvailable".
Definition TrafficManagerProfileReasonPending := "Pending".

Record TrafficManagerProfile := {
  tmp_TypeMeta : TypeMeta;
  tmp_ObjectMeta : ObjectMeta;
  tmp_ResourceGroup : string;                 (* Spec *)
  tmp_MonitorConfig : option MonitorConfig;
  tmp_DNSName : option string;                (* Status *)
  tmp_ResourceID : string;
  tmp_Conditions : list Condition;
}.
#[export] Instance TrafficManagerProfile_eq_dec : EqDecision TrafficManagerProfile.
Proof. solve_decision. Defined.
#[export] Program Instance TrafficManagerProfile_Object : Object TrafficManagerProfile := {|
  objectMeta := tmp_ObjectMeta;
  setObjectMeta m o := {| tmp_TypeMeta := tmp_TypeMeta o; tmp_ObjectMeta := m;
    tmp_ResourceGroup := tmp_ResourceGroup o; tmp_MonitorConfig := tmp_MonitorConfig o;
    tmp_DNSName := tmp_DNSName o; tmp_ResourceID := tmp_ResourceID o;
    tmp_Conditions := tmp_Conditions o |} |}.
Next Obligation. done. Qed.

Record FromCluster := { fc_Cluster : string; fc_Weight : option Z }.
#[export] Instance FromCluster_eq_dec : EqDecision FromCluster.
Proof. solve_decision. Defined.

Record TrafficManagerEndpointStatus := {
  tes_Name : string;
  tes_ResourceID : string;
  tes_Weight : option Z;
  tes_Target : option string;
  tes_From : option FromCluster;
}.
#[export] Instance TrafficManagerEndpointStatus_eq_dec : EqDecision TrafficManagerEndpointStatus.
Proof. solve_decision. Defined.

Definition TrafficManagerBackendConditionAccepted := "Accepted".
Definition TrafficManagerBackendReasonAccepted := "Accepted".
Definition TrafficManagerBackendReasonInvalid := "Invalid".
Definition TrafficManagerBackendReasonPending := "Pending".

Record TrafficManagerBackend := {
  tmb_TypeMeta : TypeMeta;
  tmb_ObjectMeta : ObjectMeta;
  tmb_Profile : string;                       (* Spec.Profile.Name *)
  tmb_Backend : string;                       (* Spec.Backend.Name *)
  tmb_Weight : option Z;                      (* Spec.Weight *)
  tmb_Endpoints : list TrafficManagerEndpointStatus;  (* Status *)
  tmb_Conditions : list Condition;
}.
#[export] Instance TrafficManagerBackend_eq_dec : EqDecision TrafficManagerBackend.
Proof. solve_decision. Defined.
#[export] Program Instance TrafficManagerBackend_Object : Object TrafficManagerBackend := {|
  objectMeta := tmb_ObjectMeta;
  setObjectMeta m o := {| tmb_TypeMeta := tmb_TypeMeta o; tmb_ObjectMeta := m;
    tmb_Profile := tmb_Profile o; tmb_Backend := tmb_Backend o; tmb_Weight := tmb_Weight o;
    tmb_Endpoints := tmb_Endpoints o; tmb_Conditions := tmb_Conditions o |} |}.
Next Obligation. done. Qed.
Definition setBackendStatus (es : list TrafficManagerEndpointStatus) (cs : list Condition)
    (o : TrafficManagerBackend) : TrafficManagerBackend :=
  {| tmb_TypeMeta := tmb_TypeMeta o; tmb_ObjectMeta := tmb_ObjectMeta o;
     tmb_Profile := tmb_Profile o; tmb_Backend := tmb_Backend o; tmb_Weight := tmb_Weight o;
     tmb_Endpoints := es; tmb_Conditions := cs |}.
