(* ===== verification/Json.v ===== *)
(** * [encoding/json] as the controllers use it

    A JSON reader with Go's grammar and nesting limit, the writer of strings
    and of sorted maps, and [json.Marshal] and [json.Unmarshal] for the
    [ServiceInUseBy] annotation.  Bytes outside ASCII are kept as they are:
    annotations are valid UTF-8. *)

From S2P Require Import Prelude Prog Go Api Fleet.

Inductive json :=
| JNull
| JBool (b : bool)
| JNumber (literal : string)
| JString (s : string)
| JArray (elems : list json)
| JObject (members : list (string * json)).

Definition code (c : ascii) : Z := Z.of_nat (Ascii.nat_of_ascii c).
Definition chr (z : Z) : ascii := Ascii.ascii_of_nat (Z.to_nat z).
Definition quote : ascii := "034".
Definition backslash : ascii := "\".

(** ** Strings *)

Definition hexValue (c : ascii) : option Z :=
  let n := code c in
  if (48 <=? n)%Z && (n <=? 57)%Z then Some (n - 48)%Z
  else if (97 <=? n)%Z && (n <=? 102)%Z then Some (n - 87)%Z
  else if (65 <=? n)%Z && (n <=? 70)%Z then Some (n - 55)%Z
  else None.
Definition hex4 (a b c d : ascii) : option Z :=
  a ← hexValue a; b ← hexValue b; c ← hexValue c; d ← hexValue d;
  Some (4096 * a + 256 * b + 16 * c + d)%Z.

(** UTF-8 encoding of a code point. *)
Definition utf8 (r : Z) : string :=
  if (r <? 128)%Z then String (chr r) EmptyString
  else if (r <? 2048)%Z
  then String (chr (192 + r / 64)) (String (chr (128 + r mod 64)) EmptyString)
  else if (r <? 65536)%Z
  then String (chr (224 + r / 4096)) (String (chr (128 + r / 64 mod 64))
         (String (chr (128 + r mod 64)) EmptyString))
  else String (chr (240 + r / 262144)) (String (chr (128 + r / 4096 mod 64))
         (String (chr (128 + r / 64 mod 64)) (String (chr (128 + r mod 64)) EmptyString))).
Definition replacement : Z := 65533.
Definition isHigh (r : Z) : bool := (55296 <=? r)%Z && (r <? 56320)%Z.
Definition isLow (r : Z) : bool := (56320 <=? r)%Z && (r <? 57344)%Z.

Definition prepend (p : string) (r : option (string * string)) : option (string * string) :=
  match r with Some (s, rest) => Some (p +:+ s, rest) | None => None end.

(** The rest of a string literal, after the opening quote. *)
Fixpoint parseString (s : string) : option (string * string) :=
  match s with
  | EmptyString => None
  | String c s =>
      if decide (c = quote) then Some (EmptyString, s)
      else if decide (c = backslash) then
        match s with
        | String "u" (String a (String b (String c (String d s)))) =>
            match hex4 a b c d with
            | None => None
            | Some r =>
                if isHigh r then
                  match s with
                  | String "\" (String "u" (String a (String b (String c (String d s'))))) =>
                      match hex4 a b c d with
                      | Some r' =>
                          if isLow r'
                          then prepend (utf8 (65536 + (r - 55296) * 1024 + (r' - 56320))%Z)
                                 (parseString s')
                          else prepend (utf8 replacement) (parseString s)
                      | None => None
                      end
                  | _ => prepend (utf8 replacement) (parseString s)
                  end
                else prepend (utf8 (if isLow r then replacement else r)) (parseString s)
            end
        | String "034" s => prepend (String quote EmptyString) (parseString s)
        | String "\" s => prepend (String backslash EmptyString) (parseString s)
        | String "/" s => prepend (String "/" EmptyString) (parseString s)
        | String "b" s => prepend (String (chr 8) EmptyString) (parseString s)
        | String "f" s => prepend (String (chr 12) EmptyString) (parseString s)
        | String "n" s => prepend (String (chr 10) EmptyString) (parseString s)
        | String "r" s => prepend (String (chr 13) EmptyString) (parseString s)
        | String "t" s => prepend (String (chr 9) EmptyString) (parseString s)
        | _ => None
        end
      else if (code c <? 32)%Z then None
      else prepend (String c EmptyString) (parseString s)
  end.

(** ** Numbers *)

Fixpoint spanDigits (s : string) : string * string :=
  match s with
  | String c s' => if isDigit c then let '(d, r) := spanDigits s' in (String c d, r)
                   else (EmptyString, s)
  | EmptyString => (EmptyString, s)
  end.
Definition digits1 (s : string) : option (string * string) :=
  match spanDigits s with (EmptyString, _) => None | (d, r) => Some (d, r) end.

Definition parseNumber (s : string) : option (string * string) :=
  let '(sign, s) := match s with String "-" s => ("-", s) | s => (EmptyString, s) end in
  '(int, s) ← match s with
              | String "0" s => Some ("0", s)
              | s => digits1 s
              end;
  '(frac, s) ← match s with
               | String "." s => '(d, s) ← digits1 s; Some ("." +:+ d, s)
               | s => Some (EmptyString, s)
               end;
  '(exp, s) ← match s with
              | String "e" s | String "E" s =>
                  let '(sg, s) := match s with
                                  | String "+" s => ("+", s)
                                  | String "-" s => ("-", s)
                                  | s => (EmptyString, s)
                                  end in
                  '(d, s) ← digits1 s; Some ("e" +:+ sg +:+ d, s)
              | s => Some (EmptyString, s)
              end;
  Some (sign +:+ int +:+ frac +:+ exp, s).

(** ** Values *)

Fixpoint skipSpace (s : string) : string :=
  match s with
  | String " " s' | String "009" s' | String "010" s' | String "013" s' => skipSpace s'
  | s => s
  end.

(** [maxNestingDepth]. *)
Definition maxNestingDepth : N := 10000.

(** The fuel bounds the number of characters read and is never the reason of a
    failure when it is at least the length of the text; [depth] is the nesting
    of the value. *)
Fixpoint parseValue (fuel : nat) (depth : N) (s : string) : option (json * string) :=
  match fuel with
  | O => None
  | S fuel =>
      match skipSpace s with
      | String "n" (String "u" (String "l" (String "l" s))) => Some (JNull, s)
      | String "t" (String "r" (String "u" (String "e" s))) => Some (JBool true, s)
      | String "f" (String "a" (String "l" (String "s" (String "e" s)))) =>
          Some (JBool false, s)
      | String "034" s => '(v, s) ← parseString s; Some (JString v, s)
      | String "[" s =>
          if (maxNestingDepth <=? depth)%N then None else
          match skipSpace s with
          | String "]" s => Some (JArray [], s)
          | s => '(vs, s) ← parseElements fuel (N.succ depth) s; Some (JArray vs, s)
          end
      | String "{" s =>
          if (maxNestingDepth <=? depth)%N then None else
          match skipSpace s with
          | String "}" s => Some (JObject [], s)
          | s => '(ms, s) ← parseMembers fuel (N.succ depth) s; Some (JObject ms, s)
          end
      | s => '(n, s) ← parseNumber s; Some (JNumber n, s)
      end
  end
with parseElements (fuel : nat) (depth : N) (s : string) : option (list json * string) :=
  match fuel with
  | O => None
  | S fuel =>
      '(v, s) ← parseValue fuel depth s;
      match skipSpace s with
      | String "," s => '(vs, s) ← parseElements fuel depth s; Some (v :: vs, s)
      | String "]" s => Some ([v], s)
      | _ => None
      end
  end
with parseMembers (fuel : nat) (depth : N) (s : string)
    : option (list (string * json) * string) :=
  match fuel with
  | O => None
  | S fuel =>
      match skipSpace s with
      | String "034" s =>
          '(k, s) ← parseString s;
          match skipSpace s with
          | String ":" s =>
              '(v, s) ← parseValue fuel depth s;
              match skipSpace s with
              | String "," s => '(ms, s) ← parseMembers fuel depth s; Some ((k, v) :: ms, s)
              | String "}" s => Some ([(k, v)], s)
              | _ => None
              end
          | _ => None
          end
      | _ => None
      end
  end.

Definition parse (s : string) : option json :=
  '(v, rest) ← parseValue (S (2 * String.length s)) 0 s;
  match skipSpace rest with EmptyString => Some v | _ => None end.

(** ** [json.Unmarshal] into a [ServiceInUseBy] *)

(** The elements of the map: a string, or null, which leaves the zero value;
    anything else is a type error. *)
Fixpoint decodeClusters (ms : list (string * json)) (m : gmap string string)
    : option (gmap string string) :=
  match ms with
  | [] => Some m
  | (k, JString v) :: ms => decodeClusters ms (<[k := v]> m)
  | (k, JNull) :: ms => decodeClusters ms (<[k := ""]> m)
  | _ => None
  end.

(** The fields: a name is matched without regard to case, an object is added to
    the map, null resets it, other fields are skipped. *)
Fixpoint decodeFields (ms : list (string * json)) (m : gomap) : option gomap :=
  match ms with
  | [] => Some m
  | (k, v) :: ms =>
      if EqualFold k "MemberClusters" then
        match v with
        | JNull => decodeFields ms None
        | JObject cs => m ← decodeClusters cs (default ∅ m); decodeFields ms (Some m)
        | _ => None
        end
      else decodeFields ms m
  end.

Definition UnmarshalServiceInUseBy (data : string) : option ServiceInUseBy :=
  v ← parse data;
  match v with
  | JNull => Some {| MemberClusters := None |}
  | JObject ms => m ← decodeFields ms None; Some {| MemberClusters := m |}
  | _ => None
  end.

(** ** [json.Marshal] *)

Definition hexDigit (n : Z) : ascii := chr (if (n <? 10)%Z then 48 + n else 87 + n)%Z.

Definition escapeChar (c : ascii) (rest : string) : string :=
  if decide (c = quote) then String backslash (String quote rest)
  else if decide (c = backslash) then String backslash (String backslash rest)
  else if decide (code c = 8%Z) then String backslash (String "b" rest)
  else if decide (code c = 12%Z) then String backslash (String "f" rest)
  else if decide (code c = 10%Z) then String backslash (String "n" rest)
  else if decide (code c = 13%Z) then String backslash (String "r" rest)
  else if decide (code c = 9%Z) then String backslash (String "t" rest)
  else if (code c <? 32)%Z || bool_decide (c = "<"%char) || bool_decide (c = ">"%char) ||
          bool_decide (c = "&"%char)
  then String backslash (String "u" (String "0" (String "0"
         (String (hexDigit (code c / 16)) (String (hexDigit (code c mod 16)) rest)))))
  else String c rest.
Fixpoint escape (s rest : string) : string :=
  match s with
  | EmptyString => rest
  | String c s => escapeChar c (escape s rest)
  end.
Definition encodeString (s rest : string) : string :=
  String quote (escape s (String quote rest)).

(** Map keys are written in byte order. *)
Fixpoint insertSorted (kv : string * string) (l : list (string * string)) : list (string * string) :=
  match l with
  | [] => [kv]
  | kv' :: l' => if String.leb kv.1 kv'.1 then kv :: l else kv' :: insertSorted kv l'
  end.
Definition sortedEntries (m : gmap string string) : list (string * string) :=
  foldr insertSorted [] (map_to_list m).

Fixpoint encodeMembers (l : list (string * string)) (rest : string) : string :=
  match l with
  | [] => String "}" rest
  | [(k, v)] => encodeString k (String ":" (encodeString v (String "}" rest)))
  | (k, v) :: l =>
      encodeString k (String ":" (encodeString v (String "," (encodeMembers l rest))))
  end.

Definition MarshalServiceInUseBy (u : ServiceInUseBy) : string :=
  String "{" (encodeString "MemberClusters" (String ":"
    match MemberClusters u with
    | None => "null" +:+ "}"
    | Some m => String "{" (encodeMembers (sortedEntries m) "}")
    end)).

(** ** The round trip *)

Lemma parseString_escapeChar c s :
  parseString (escapeChar c s) = prepend (String c EmptyString) (parseString s).
Proof. destruct c as [[] [] [] [] [] [] [] []]; reflexivity. Qed.

Lemma parseString_escape s rest :
  parseString (escape s (String quote rest)) = Some (s, rest).
Proof. induction s as [|c s IH]; [done|]. simpl. by rewrite parseString_escapeChar, IH. Qed.

Lemma escape_length s rest : String.length rest ≤ String.length (escape s rest).
Proof.
  induction s as [|c s IH]; [done|]. simpl. etrans; [exact IH|].
  unfold escapeChar. repeat case_match; simpl; lia.
Qed.
Lemma encodeString_length s rest : 2 + String.length rest ≤ String.length (encodeString s rest).
Proof. simpl. pose proof (escape_length s (String quote rest)). simpl in *. lia. Qed.

Lemma encodeMembers_length l rest :
  S (length l + String.length rest) ≤ String.length (encodeMembers l rest).
Proof.
  induction l as [|[k v] l IH]; [done|].
  destruct l as [|kv l].
  - cbn [encodeMembers length].
    pose proof (encodeString_length k (String ":" (encodeString v (String "}" rest)))).
    pose proof (encodeString_length v (String "}" rest)). cbn [String.length] in *. lia.
  - change (encodeMembers ((k, v) :: kv :: l) rest) with
      (encodeString k (String ":" (encodeString v (String "," (encodeMembers (kv :: l) rest))))).
    set (t := encodeMembers (kv :: l) rest) in *.
    pose proof (encodeString_length k (String ":" (encodeString v (String "," t)))).
    pose proof (encodeString_length v (String "," t)). cbn [String.length length] in *. lia.
Qed.

Lemma parseValue_encodeString fuel depth s rest :
  parseValue (S fuel) depth (encodeString s rest) = Some (JString s, rest).
Proof.
  change (parseValue (S fuel) depth (encodeString s rest)) with
    ('(v, s) ← parseString (escape s (String quote rest)); Some (JString v, s)).
  by rewrite parseString_escape.
Qed.

Definition asMember (kv : string * string) : string * json := (kv.1, JString kv.2).

(** One member: its name, its value, and the separator that follows it. *)
Lemma parseMembers_key fuel depth k t :
  parseMembers (S fuel) depth (encodeString k (String ":" t)) =
  ('(v, s) ← parseValue fuel depth t;
   match skipSpace s with
   | String "," s => '(ms, s) ← parseMembers fuel depth s; Some ((k, v) :: ms, s)
   | String "}" s => Some ([(k, v)], s)
   | _ => None
   end).
Proof.
  change (parseMembers (S fuel) depth (encodeString k (String ":" t))) with
    ('(k, s) ← parseString (escape k (String quote (String ":" t)));
     match skipSpace s with
     | String ":" s =>
         '(v, s) ← parseValue fuel depth s;
         match skipSpace s with
         | String "," s => '(ms, s) ← parseMembers fuel depth s; Some ((k, v) :: ms, s)
         | String "}" s => Some ([(k, v)], s)
         | _ => None
         end
     | _ => None
     end).
  by rewrite parseString_escape.
Qed.
Lemma parseMembers_member fuel depth k v rest :
  parseMembers (S (S fuel)) depth (encodeString k (String ":" (encodeString v rest))) =
  match skipSpace rest with
  | String "," s => '(ms, s) ← parseMembers (S fuel) depth s; Some ((k, JString v) :: ms, s)
  | String "}" s => Some ([(k, JString v)], s)
  | _ => None
  end.
Proof. by rewrite parseMembers_key, parseValue_encodeString. Qed.

Lemma parseMembers_encode l fuel depth rest :
  l ≠ [] → length l < fuel →
  parseMembers fuel depth (encodeMembers l rest) = Some (asMember <$> l, rest).
Proof.
  revert fuel. induction l as [|[k v] l IH]; intros fuel Hne Hf; [done|].
  destruct fuel as [|[|fuel]]; [simpl in Hf; lia..|]. destruct l as [|kv l].
  - apply parseMembers_member.
  - change (encodeMembers ((k, v) :: kv :: l) rest) with
      (encodeString k (String ":" (encodeString v (String "," (encodeMembers (kv :: l) rest))))).
    rewrite parseMembers_member. cbn [skipSpace].
    rewrite IH by (simpl in *; (done || lia)). done.
Qed.

Lemma insertSorted_perm kv l : insertSorted kv l ≡ₚ kv :: l.
Proof.
  induction l as [|kv' l IH]; [done|]. simpl. case_match; [done|]. rewrite IH. by constructor.
Qed.
Lemma sortedEntries_perm m : sortedEntries m ≡ₚ map_to_list m.
Proof.
  unfold sortedEntries. induction (map_to_list m) as [|kv l IH]; [done|]. simpl.
  by rewrite insertSorted_perm, IH.
Qed.

Lemma decodeClusters_members l m :
  decodeClusters (asMember <$> l) m = Some (foldl (λ m kv, <[kv.1 := kv.2]> m) m l).
Proof. revert m. induction l as [|[k v] l IH]; intros m; [done|]. simpl. apply IH. Qed.

Lemma decodeClusters_sorted (m : gmap string string) :
  decodeClusters (asMember <$> sortedEntries m) ∅ = Some m.
Proof.
  assert (NoDup (sortedEntries m).*1) as Hnd.
  { rewrite sortedEntries_perm. apply NoDup_fst_map_to_list. }
  rewrite decodeClusters_members, foldl_insert by (done || set_solver).
  rewrite (right_id_L ∅ (∪)). f_equal.
  rewrite (list_to_map_proper _ (map_to_list m)); [apply list_to_map_to_list|done|].
  apply sortedEntries_perm.
Qed.

(** An object of strings, as a value. *)
Lemma parseValue_object l fuel depth rest :
  (depth < maxNestingDepth)%N → S (length l) < fuel →
  parseValue fuel depth (String "{" (encodeMembers l rest)) = Some (JObject (asMember <$> l), rest).
Proof.
  intros Hd Hf. destruct fuel as [|fuel]; [lia|].
  destruct l as [|kv l].
  - simpl. by rewrite (proj2 (N.leb_gt _ _)).
  - assert (parseMembers fuel (N.succ depth) (encodeMembers (kv :: l) rest) =
            Some (asMember <$> kv :: l, rest)) as Hm
      by (apply parseMembers_encode; [done|simpl in *; lia]).
    assert (∃ t, encodeMembers (kv :: l) rest = String quote t) as [t Ht]
      by (destruct kv, l; by eexists).
    rewrite Ht in Hm |- *. cbn [parseValue skipSpace].
    rewrite (proj2 (N.leb_gt _ _)) by done.
    change (skipSpace (String quote t)) with (String quote t). unfold quote in *. by rewrite Hm.
Qed.

Lemma Unmarshal_Marshal u : UnmarshalServiceInUseBy (MarshalServiceInUseBy u) = Some u.
Proof.
  destruct u as [[m|]]; [|by vm_compute]. unfold UnmarshalServiceInUseBy, parse, MarshalServiceInUseBy.
  cbn [MemberClusters].
  set (obj := String "{" (encodeMembers (sortedEntries m) "}")).
  set (text := String "{" (encodeString "MemberClusters" (String ":" obj))).
  assert (length (sortedEntries m) + 8 ≤ 2 * String.length text) as Hlen.
  { pose proof (encodeString_length "MemberClusters" (String ":" obj)).
    pose proof (encodeMembers_length (sortedEntries m) "}"). subst text obj.
    cbn [String.length] in *. lia. }
  destruct (2 * String.length text) as [|fuel] eqn:Hfuel; [lia|].
  assert (parseValue (S (S fuel)) 0 text =
          Some (JObject [("MemberClusters", JObject (asMember <$> sortedEntries m))], EmptyString))
    as ->.
  { subst text.
    change (parseValue (S (S fuel)) 0 (String "{" (encodeString "MemberClusters" (String ":" obj))))
      with ('(ms, s) ← parseMembers (S fuel) 1 (encodeString "MemberClusters" (String ":" obj));
            Some (JObject ms, s)).
    rewrite parseMembers_key. subst obj. by rewrite parseValue_object by (done || lia). }
  cbn [mbind option_bind skipSpace decodeFields].
  change (EqualFold "MemberClusters" "MemberClusters") with true. cbn [default].
  by rewrite decodeClusters_sorted.
Qed.
