(* ===== verification/Azure.v ===== *)
(** * Azure resources

    The fields of the [armnetwork] and [armtrafficmanager] resources that the
    controllers read and write.  Every field of these SDK types is a pointer. *)

From S2P Require Import Prelude Prog Go.

(** [armnetwork.PublicIPAddress]; [pip_Properties] is nil or holds the address
    and the DNS label. *)
Record PublicIPProperties := {
  pipp_IPAddress : option string;
  pipp_DNSSettings : option (option string);   (* DNSSettings.DomainNameLabel *)
}.
#[export] Instance PublicIPProperties_eq_dec : EqDecision PublicIPProperties.
Proof. solve_decision. Defined.
Record PublicIPAddress := {
  pip_ID : option string;
  pip_Properties : option PublicIPProperties;
}.
#[export] Instance PublicIPAddress_eq_dec : EqDecision PublicIPAddress.
Proof. solve_decision. Defined.

(** ** [armtrafficmanager] *)

Definition EndpointTypeAzureEndpoints := "AzureEndpoints".
Definition EndpointStatusEnabled := "Enabled".
Definition ProfileStatusEnabled := "Enabled".
Definition TrafficRoutingMethodWeighted := "Weighted".

Record AtmEndpointProperties := {
  aep_TargetResourceID : option string;
  aep_EndpointStatus : option string;
  aep_Weight : option Z;
  aep_Target : option string;
}.
#[export] Instance AtmEndpointProperties_eq_dec : EqDecision AtmEndpointProperties.
Proof. solve_decision. Defined.

Record AtmEndpoint := {
  ae_ID : option string;
  ae_Name : option string;
  ae_Type : option string;
  ae_Properties : option AtmEndpointProperties;
}.
#[export] Instance AtmEndpoint_eq_dec : EqDecision AtmEndpoint.
Proof. solve_decision. Defined.

Record AtmDNSConfig := {
  dns_RelativeName : option string;
  dns_TTL : option Z;
  dns_Fqdn : option string;
}.
#[export] Instance AtmDNSConfig_eq_dec : EqDecision AtmDNSConfig.
Proof. solve_decision. Defined.

Record AtmCustomHeader := { ach_Name : option string; ach_Value : option string }.
#[export] Instance AtmCustomHeader_eq_dec : EqDecision AtmCustomHeader.
Proof. solve_decision. Defined.

Record AtmMonitorConfig := {
  amc_IntervalInSeconds : option Z;
  amc_Path : option string;
  amc_Port : option Z;
  amc_Protocol : option string;
  amc_TimeoutInSeconds : option Z;
  amc_ToleratedNumberOfFailures : option Z;
  amc_CustomHeaders : list AtmCustomHeader;
}.
#[export] Instance AtmMonitorConfig_eq_dec : EqDecision AtmMonitorConfig.
Proof. solve_decision. Defined.

Record AtmProfileProperties := {
  app_DNSConfig : option AtmDNSConfig;
  app_Endpoints : list AtmEndpoint;
  app_MonitorConfig : option AtmMonitorConfig;
  app_ProfileStatus : option string;
  app_TrafficRoutingMethod : option string;
}.
#[export] Instance AtmProfileProperties_eq_dec : EqDecision AtmProfileProperties.
Proof. solve_decision. Defined.

Record AtmProfile := {
  ap_ID : option string;
  ap_Name : option string;
  ap_Location : option string;
  ap_Tags : option (gmap string (option string));
  ap_Properties : option AtmProfileProperties;
}.
#[export] Instance AtmProfile_eq_dec : EqDecision AtmProfile.
Proof. solve_decision. Defined.
