(* ===== verification/Effects.v ===== *)
(** * What a controller can ask its environment

    The calls the reconcilers make: the two API servers through
    [client.Client], Azure through its SDK clients, the event recorder, the
    clock, the random source, the metrics registry, and the two sources of
    nondeterminism of the Go runtime (the order in which a map is ranged over
    and the interleaving of goroutines). *)

From stdpp Require Import sorting.
From S2P Require Import Prelude Prog Go Api Fleet Azure.

(** A reconciler in a member cluster talks to two API servers. *)
Inductive cluster := Member | Hub.
#[export] Instance cluster_eq_dec : EqDecision cluster.
Proof. solve_decision. Defined.

(** ** Resources *)

(** [clusterv1beta1.MemberCluster] of the fleet repository; the controllers
    only look at its metadata. *)
Record MemberCluster := { mcl_ObjectMeta : ObjectMeta }.
#[export] Instance MemberCluster_eq_dec : EqDecision MemberCluster.
Proof. solve_decision. Defined.
#[export] Program Instance MemberCluster_Object : Object MemberCluster := {|
  objectMeta := mcl_ObjectMeta;
  setObjectMeta m _ := {| mcl_ObjectMeta := m |} |}.
Next Obligation. done. Qed.

(** One entry of [status.agentStatus] of an InternalMemberCluster. *)
Record AgentStatus := {
  as_Type : string;
  as_Conditions : list Condition;
  as_LastReceivedHeartbeat : option Time;
}.
#[export] Instance AgentStatus_eq_dec : EqDecision AgentStatus.
Proof. solve_decision. Defined.

(** [InternalMemberCluster] (v1alpha1 and v1beta1 agree on these fields). *)
Record InternalMemberCluster := {
  imc_ObjectMeta : ObjectMeta;
  imc_State : string;                     (* Spec.State *)
  imc_HeartbeatPeriodSeconds : Z;         (* Spec, int32 *)
  imc_AgentStatus : list AgentStatus;     (* Status *)
}.
#[export] Instance InternalMemberCluster_eq_dec : EqDecision InternalMemberCluster.
Proof. solve_decision. Defined.
#[export] Program Instance InternalMemberCluster_Object : Object InternalMemberCluster := {|
  objectMeta := imc_ObjectMeta;
  setObjectMeta m o := {| imc_ObjectMeta := m; imc_State := imc_State o;
    imc_HeartbeatPeriodSeconds := imc_HeartbeatPeriodSeconds o;
    imc_AgentStatus := imc_AgentStatus o |} |}.
Next Obligation. done. Qed.

(** [apiextensionsv1.CustomResourceDefinition]; of the specification the code
    looks at the group and copies the rest. *)
Record CustomResourceDefinition := {
  crd_ObjectMeta : ObjectMeta;
  crd_Group : string;                     (* Spec.Group *)
  crd_Spec : string;                      (* the rest of Spec *)
  crd_Status : string;
}.
#[export] Instance CustomResourceDefinition_eq_dec : EqDecision CustomResourceDefinition.
Proof. solve_decision. Defined.
#[export] Program Instance CustomResourceDefinition_Object : Object CustomResourceDefinition := {|
  objectMeta := crd_ObjectMeta;
  setObjectMeta m o := {| crd_ObjectMeta := m; crd_Group := crd_Group o; crd_Spec := crd_Spec o;
    crd_Status := crd_Status o |} |}.
Next Obligation. done. Qed.

Inductive kind :=
| KService | KEndpointSlice | KServiceExport | KInternalServiceExport
| KServiceImport | KInternalServiceImport | KEndpointSliceExport
| KEndpointSliceImport | KMultiClusterService | KTrafficManagerProfile
| KTrafficManagerBackend | KMemberCluster | KInternalMemberCluster
| KCustomResourceDefinition.
#[export] Instance kind_eq_dec : EqDecision kind.
Proof. solve_decision. Defined.

Definition obj (k : kind) : Type :=
  match k with
  | KService => Service
  | KEndpointSlice => EndpointSlice
  | KServiceExport => ServiceExport
  | KInternalServiceExport => InternalServiceExport
  | KServiceImport => ServiceImport
  | KInternalServiceImport => InternalServiceImport
  | KEndpointSliceExport => EndpointSliceExport
  | KEndpointSliceImport => EndpointSliceImport
  | KMultiClusterService => MultiClusterService
  | KTrafficManagerProfile => TrafficManagerProfile
  | KTrafficManagerBackend => TrafficManagerBackend
  | KMemberCluster => MemberCluster
  | KInternalMemberCluster => InternalMemberCluster
  | KCustomResourceDefinition => CustomResourceDefinition
  end.
#[export] Instance obj_eq_dec k : EqDecision (obj k).
Proof. destruct k; simpl; apply _. Defined.
#[export] Instance obj_Object k : Object (obj k) | 100.
Proof. destruct k; simpl; apply _. Defined.

(** The part of an object that [Update] leaves alone and [StatusUpdate]
    writes: [withStatusOf old new] is [new] with the status of [old]. *)
Definition withStatusOf {k} : obj k → obj k → obj k :=
  match k return obj k → obj k → obj k with
  | KService => λ old new, {| svc_TypeMeta := svc_TypeMeta new;
      svc_ObjectMeta := svc_ObjectMeta new; svc_Type := svc_Type new;
      svc_ClusterIP := svc_ClusterIP new; svc_Ports := svc_Ports new;
      svc_Ingress := svc_Ingress old |}
  | KServiceExport => λ old new, setExportConditions (se_Conditions old) new
  | KInternalServiceExport => λ old new, setInternalExportConditions (ise_Conditions old) new
  | KServiceImport => λ old new, setImportStatus (si_Status old) new
  | KInternalServiceImport => λ old new, setInternalImportStatus (isi_Status old) new
  | KMultiClusterService => λ old new, setMcsStatus (mcs_LoadBalancer old) (mcs_Conditions old) new
  | KTrafficManagerProfile => λ old new, {| tmp_TypeMeta := tmp_TypeMeta new;
      tmp_ObjectMeta := tmp_ObjectMeta new; tmp_ResourceGroup := tmp_ResourceGroup new;
      tmp_MonitorConfig := tmp_MonitorConfig new; tmp_DNSName := tmp_DNSName old;
      tmp_ResourceID := tmp_ResourceID old; tmp_Conditions := tmp_Conditions old |}
  | KTrafficManagerBackend => λ old new,
      setBackendStatus (tmb_Endpoints old) (tmb_Conditions old) new
  | KInternalMemberCluster => λ old new, {| imc_ObjectMeta := imc_ObjectMeta new;
      imc_State := imc_State new;
      imc_HeartbeatPeriodSeconds := imc_HeartbeatPeriodSeconds new;
      imc_AgentStatus := imc_AgentStatus old |}
  | KCustomResourceDefinition => λ old new, {| crd_ObjectMeta := crd_ObjectMeta new;
      crd_Group := crd_Group new; crd_Spec := crd_Spec new; crd_Status := crd_Status old |}
  | KEndpointSlice | KEndpointSliceExport | KEndpointSliceImport | KMemberCluster =>
      λ old new, new
  end.

(** [client.ListOptions]: a namespace, field selectors and label selectors. *)
Record ListOptions := {
  lo_Namespace : option string;
  lo_Fields : list (string * string);
  lo_Labels : list (string * string);
}.
Definition InNamespace (ns : string) : ListOptions :=
  {| lo_Namespace := Some ns; lo_Fields := []; lo_Labels := [] |}.
Definition MatchingFields (fs : list (string * string)) : ListOptions :=
  {| lo_Namespace := None; lo_Fields := fs; lo_Labels := [] |}.

(** ** Calls *)

Inductive eff : Type → Type :=
(* client.Client *)
| EGet (c : cluster) (k : kind) (key : NamespacedName) : eff (error + obj k)
| EList (c : cluster) (k : kind) (opts : ListOptions) : eff (error + list (obj k))
| ECreate (c : cluster) (k : kind) (o : obj k) : eff (error + obj k)
| EUpdate (c : cluster) (k : kind) (o : obj k) : eff (error + obj k)
| EStatusUpdate (c : cluster) (k : kind) (o : obj k) : eff (error + obj k)
| EDelete (c : cluster) (k : kind) (key : NamespacedName) : eff (option error)
(* record.EventRecorder *)
| EEvent (eventType reason message : string) : eff unit
(* time.Now, uuid.NewUUID, rand.Intn *)
| ENow : eff Time
| EUUID : eff string
| EIntn (n : Z) : eff Z
(* prometheus *)
| EMetric (name : string) (labels : list string) (value : Z) : eff unit
| EMetricDelete (name : string) (labels : list (string * string)) : eff unit
(* the Go runtime *)
| EOrder : eff (list nat)
| EGoroutine : eff bool
| EFirst : eff nat
(* Azure *)
| EPublicIPList (rg : string) : eff (error + list PublicIPAddress)
| EProfileGet (rg name : string) : eff (error + AtmProfile)
| EProfileCreateOrUpdate (rg name : string) (p : AtmProfile) : eff (error + AtmProfile)
| EProfileDelete (rg name : string) : eff (option error)
| EEndpointDelete (rg profile endpoint : string) : eff (option error)
| EEndpointCreateOrUpdate (rg profile endpoint : string) (e : AtmEndpoint)
    : eff (error + AtmEndpoint).

Abbreviation IO := (prog eff).

(** ** The client as the controllers use it

    A failed call leaves the caller's object as it was built; a successful one
    overwrites it with the server's answer. *)
Definition Get (c : cluster) (k : kind) (key : NamespacedName) : IO (error + obj k) :=
  call (EGet c k key).
Definition List (c : cluster) (k : kind) (opts : ListOptions) : IO (error + list (obj k)) :=
  call (EList c k opts).
Definition overwrite {A} (o : A) (r : error + A) : option error * A :=
  match r with inl err => (Some err, o) | inr o' => (None, o') end.
Definition Create (c : cluster) (k : kind) (o : obj k) : IO (option error * obj k) :=
  r ← call (ECreate c k o); mret (overwrite o r).
Definition Update (c : cluster) (k : kind) (o : obj k) : IO (option error * obj k) :=
  r ← call (EUpdate c k o); mret (overwrite o r).
Definition StatusUpdate (c : cluster) (k : kind) (o : obj k) : IO (option error * obj k) :=
  r ← call (EStatusUpdate c k o); mret (overwrite o r).
Definition Delete (c : cluster) (k : kind) (o : obj k) : IO (option error) :=
  call (EDelete c k (objectKey o)).
Definition Event (eventType reason message : string) : IO unit :=
  call (EEvent eventType reason message).
Definition EventTypeNormal := "Normal".
Definition EventTypeWarning := "Warning".
Definition Now : IO Time := call ENow.

(** [ctrl.Result]. *)
Record Result := { Requeue : bool; RequeueAfter : Duration }.
Definition emptyResult : Result := {| Requeue := false; RequeueAfter := 0%Z |}.

(** [for k, v := range m] visits the entries in an order the runtime picks. *)
Definition rangeMap {A} (m : gmap string A) : IO (list (string * A)) :=
  order ← call EOrder; mret (permute order (map_to_list m)).

(** [sort.Slice(l, less)] leaves the order of equivalent elements open: some
    arrangement of the slice is sorted stably. *)
Definition mayPrecede {A} (less : A → A → bool) (x y : A) : Prop := less y x = false.
#[export] Instance mayPrecede_dec {A} (less : A → A → bool) : RelDecision (mayPrecede less) :=
  λ x y, decide (less y x = false).
Definition sortSlice {A} (less : A → A → bool) (l : list A) : IO (list A) :=
  order ← call EOrder; mret (merge_sort (mayPrecede less) (permute order l)).

Lemma wp_sortSlice {S A} (P : protocol eff S) (less : A → A → bool) l s Q :
  Transitive (mayPrecede less) → Total (mayPrecede less) → allowed P EOrder s →
  (∀ code l', l' ≡ₚ l → StronglySorted (mayPrecede less) l' → Q l' (next P EOrder code s)) →
  wp P (sortSlice less l) s Q.
Proof.
  intros ?? Hal HQ. apply wp_bind, wp_call; [done|]. intros code _. apply wp_ret, HQ.
  - by rewrite merge_sort_Permutation, permute_Permutation.
  - by apply StronglySorted_merge_sort.
Qed.

(** Programs are run by the rules of [wp], not by [simpl]. *)
Arguments mbind {_ _ _ _} _ _ : simpl never.
