(* ===== verification/Deps.v ===== *)
(** * The libraries the controllers are built on

    controller-runtime, apimachinery, client-go and the fleet utilities are not
    part of the repository: their operations are the fields of classes, and
    what the controllers rely on is the documented behaviour stated as the laws
    of [ControllerUtilLaws].  [Reference] shows that the laws can hold. *)

From S2P Require Import Prelude Prog Go Api Fleet Azure Effects.

(** ** controller-runtime, apimachinery and client-go *)

Class ControllerUtil := {
  (* controllerutil *)
  ContainsFinalizer : list string → string → bool;
  AddFinalizer : list string → string → list string;
  RemoveFinalizer : list string → string → list string;
  CreateOrUpdate (c : cluster) (k : kind) (o : obj k)
    (mutate : obj k → IO (option error * obj k)) : IO (option error * obj k);
  (* meta: the conditions after the call, made at the given instant *)
  FindStatusCondition : list Condition → string → option Condition;
  setCondition : Time → list Condition → Condition → list Condition;
  (* retry.OnError; [fn] may assign the variables it captures, of type [A] *)
  OnError {A : Type} (retriable : error → bool) (fn : A → IO (option error * A)) (a : A)
    : IO (option error * A);
}.

(** The same on an object. *)
Definition hasFinalizer `{ControllerUtil} {T} `{Object T} (o : T) (f : string) : bool :=
  ContainsFinalizer (finalizersOf o) f.
Definition addFinalizer `{ControllerUtil} {T} `{Object T} (o : T) (f : string) : T :=
  updMeta (λ m, setFinalizers (AddFinalizer (om_Finalizers m) f) m) o.
Definition removeFinalizer `{ControllerUtil} {T} `{Object T} (o : T) (f : string) : T :=
  updMeta (λ m, setFinalizers (RemoveFinalizer (om_Finalizers m) f) m) o.

Arguments hasFinalizer : simpl never.
Arguments addFinalizer : simpl never.
Arguments removeFinalizer : simpl never.

(** [meta.SetStatusCondition] reads the clock. *)
Definition SetStatusCondition `{ControllerUtil} (cs : list Condition) (c : Condition)
    : IO (list Condition) :=
  now ← Now; mret (setCondition now cs c).

(** [cond] with another transition time: what [SetStatusCondition] leaves of
    the condition it is given. *)
Definition sameCondition (c c' : Condition) : Prop :=
  c_Type c' = c_Type c ∧ c_Status c' = c_Status c ∧ c_Reason c' = c_Reason c ∧
  c_Message c' = c_Message c ∧ c_ObservedGeneration c' = c_ObservedGeneration c.

(** What [CreateOrUpdate] does with the object [f] leaves behind: [missing]
    tells whether the object was found. *)
Definition afterMutate {S} (P : protocol eff S) (c : cluster) (k : kind)
    (key : NamespacedName) (current : option (obj k))
    (Q : option error * obj k → S → Prop) (r : option error * obj k) (s : S) : Prop :=
  match r with
  | (Some err, o) => Q (Some err, o) s
  | (None, o) =>
      objectKey o = key ∧
      match current with
      | None => allowed P (ECreate c k o) s ∧
          ∀ r, answer P (ECreate c k o) s r → Q (overwrite o r) (next P (ECreate c k o) r s)
      | Some cur =>
          (o = cur → Q (None, o) s) ∧
          (o ≠ cur → allowed P (EUpdate c k o) s ∧
             ∀ r, answer P (EUpdate c k o) s r → Q (overwrite o r) (next P (EUpdate c k o) r s))
      end
  end.

Class ControllerUtilLaws `{ControllerUtil} : Prop := {
  ContainsFinalizer_spec fs f : ContainsFinalizer fs f = true ↔ f ∈ fs;
  AddFinalizer_spec fs f f' : f' ∈ AddFinalizer fs f ↔ f' ∈ fs ∨ f' = f;
  RemoveFinalizer_spec fs f f' : f' ∈ RemoveFinalizer fs f ↔ f' ∈ fs ∧ f' ≠ f;
  (* the condition of the type, when there is one *)
  FindStatusCondition_some cs t c :
    FindStatusCondition cs t = Some c → c ∈ cs ∧ c_Type c = t;
  FindStatusCondition_none cs t :
    FindStatusCondition cs t = None ↔ ∀ c, c ∈ cs → c_Type c ≠ t;
  (* the condition of its type is the given one, up to the transition time,
     and the other types keep theirs *)
  setCondition_same now cs c :
    ∃ c', FindStatusCondition (setCondition now cs c) (c_Type c) = Some c' ∧ sameCondition c c';
  setCondition_other now cs c t :
    t ≠ c_Type c → FindStatusCondition (setCondition now cs c) t = FindStatusCondition cs t;
  (* read the object; create what [mutate] makes of an absent one, update a
     found one that [mutate] changed; [mutate] may not change the key *)
  CreateOrUpdate_wp S (P : protocol eff S) c k o f s Q :
    allowed P (EGet c k (objectKey o)) s →
    (∀ r, answer P (EGet c k (objectKey o)) s r →
       match r with
       | inl err =>
           if IsNotFound err
           then wp P (f o) (next P (EGet c k (objectKey o)) r s)
                  (afterMutate P c k (objectKey o) None Q)
           else Q (Some err, o) (next P (EGet c k (objectKey o)) r s)
       | inr cur =>
           wp P (f cur) (next P (EGet c k (objectKey o)) r s)
             (afterMutate P c k (objectKey o) (Some cur) Q)
       end) →
    wp P (CreateOrUpdate c k o f) s Q;
  (* one attempt or more, another one only after a retriable error; the
     outcome is that of the last attempt *)
  OnError_wp S (P : protocol eff S) A retriable (fn : A → IO (option error * A)) a s
      (I : A → S → Prop) (Q : option error * A → S → Prop) :
    (∀ a s, I a s → wp P (fn a) s (λ r s', Q r s' ∧
       match r.1 with Some err => retriable err = true → I r.2 s' | None => True end)) →
    I a s → wp P (OnError retriable fn a) s Q;
}.

Section finalizers.
Context `{!ControllerUtil, !ControllerUtilLaws} {T : Type} `{!Object T}.

Lemma hasFinalizer_spec (o : T) f : hasFinalizer o f = true ↔ f ∈ finalizersOf o.
Proof. apply ContainsFinalizer_spec. Qed.
Lemma hasFinalizer_false (o : T) f : hasFinalizer o f = false ↔ f ∉ finalizersOf o.
Proof. rewrite <-hasFinalizer_spec. by destruct (hasFinalizer o f). Qed.
Lemma addFinalizer_spec (o : T) f f' :
  f' ∈ finalizersOf (addFinalizer o f) ↔ f' ∈ finalizersOf o ∨ f' = f.
Proof.
  unfold addFinalizer, updMeta, finalizersOf. rewrite setObjectMeta_get. apply AddFinalizer_spec.
Qed.
Lemma removeFinalizer_spec (o : T) f f' :
  f' ∈ finalizersOf (removeFinalizer o f) ↔ f' ∈ finalizersOf o ∧ f' ≠ f.
Proof.
  unfold removeFinalizer, updMeta, finalizersOf. rewrite setObjectMeta_get.
  apply RemoveFinalizer_spec.
Qed.
Lemma addFinalizer_key (o : T) f : objectKey (addFinalizer o f) = objectKey o.
Proof. unfold addFinalizer, updMeta, objectKey. by rewrite setObjectMeta_get. Qed.
Lemma removeFinalizer_key (o : T) f : objectKey (removeFinalizer o f) = objectKey o.
Proof. unfold removeFinalizer, updMeta, objectKey. by rewrite setObjectMeta_get. Qed.
End finalizers.
#[export] Hint Rewrite @addFinalizer_key @removeFinalizer_key : fleet_rw.

(** ** The fleet utilities *)

(** [go.goms.io/fleet/pkg/utils/controller]: wrappers that classify an error. *)
Class FleetUtil := {
  NewAPIServerError : bool → error → option error;
  NewUpdateIgnoreConflictError : error → option error;
  NewUnexpectedBehaviorError : error → option error;
}.
(** An error stays an error. *)
Class FleetUtilLaws `{FleetUtil} : Prop := {
  NewAPIServerError_some cached err : is_Some (NewAPIServerError cached err);
  NewUpdateIgnoreConflictError_some err : is_Some (NewUpdateIgnoreConflictError err);
  NewUnexpectedBehaviorError_some err : is_Some (NewUnexpectedBehaviorError err);
}.

(** [runtime/serializer]: the universal deserializer of a scheme that knows the
    CustomResourceDefinitions; it also returns the kind that it found. *)
Inductive runtimeObject :=
| CRDObject (crd : CustomResourceDefinition)
| OtherObject.
Class Serializer := {
  Decode : string → error + (runtimeObject * string);
}.

(** [go.goms.io/fleet/pkg/utils/condition]: the verdict of a condition that was
    observed at the given generation. *)
Class FleetCondition := {
  IsConditionStatusTrue : option Condition → Z → bool;
  IsConditionStatusFalse : option Condition → Z → bool;
  fleetEqualConditionIgnoreReason : option Condition → option Condition → bool;
}.
Class FleetConditionLaws `{FleetCondition} : Prop := {
  IsConditionStatusTrue_spec c g : IsConditionStatusTrue c g = true ↔
    ∃ c', c = Some c' ∧ c_Status c' = ConditionTrue ∧ c_ObservedGeneration c' = g;
  IsConditionStatusFalse_spec c g : IsConditionStatusFalse c g = true ↔
    ∃ c', c = Some c' ∧ c_Status c' = ConditionFalse ∧ c_ObservedGeneration c' = g;
}.

(** [go.goms.io/fleet/apis/cluster]: the states of a member cluster, the agents
    that run in it, and the search for the status of an agent, which returns a
    pointer into the list (an index), after appending an entry when there is
    none. *)
Class FleetCluster := {
  ClusterStateJoin : string;
  ClusterStateLeave : string;
  AgentJoined : string;
  MultiClusterServiceAgent : string;
  ServiceExportImportAgent : string;
  GetAgentStatus : list AgentStatus → string → list AgentStatus * nat;
}.
Class FleetClusterLaws `{FleetCluster} : Prop := {
  states_differ : ClusterStateJoin ≠ ClusterStateLeave;
  agents_differ : MultiClusterServiceAgent ≠ ServiceExportImportAgent;
  GetAgentStatus_spec l t : let '(l', i) := GetAgentStatus l t in
    ∃ before a after, l' = before ++ a :: after ∧ i = length before ∧ as_Type a = t ∧
      (∀ b, b ∈ before → as_Type b ≠ t) ∧ (l = l' ∨ l = before ∧ after = []);
}.

(** ** Waiting *)

(** [wait.Backoff]; the factor and the jitter in percent. *)
Record Backoff := {
  bo_Steps : Z;
  bo_Duration : Duration;
  bo_Factor : Z;
  bo_Jitter : Z;
  bo_Cap : Duration;
}.
(** [wait.Interrupted], [wait.ErrorInterrupted] and
    [wait.ExponentialBackoffWithContext]: the condition may assign the variables
    it captures, of type [A]. *)
Class Wait := {
  Interrupted : error → bool;
  ErrorInterrupted : error → error;
  ExponentialBackoffWithContext {A : Type} (backoff : Backoff)
    (condition : A → IO (bool * option error * A)) (a : A) : IO (option error * A);
}.
Class WaitLaws `{Wait} : Prop := {
  ErrorInterrupted_spec err : Interrupted (ErrorInterrupted err) = true;
  (* attempts until the condition is true or fails, or the steps are used up or
     the context ends, which gives an error that tells so *)
  ExponentialBackoffWithContext_wp S (P : protocol eff S) A backoff
      (condition : A → IO (bool * option error * A)) a s
      (I : A → S → Prop) (Q : option error * A → S → Prop) :
    (∀ a s, I a s → wp P (condition a) s (λ '(done, err, a') s',
       match err with
       | Some err => Q (Some err, a') s'
       | None => if done : bool then Q (None, a') s' else I a' s'
       end)) →
    (∀ err a s, I a s → Interrupted err = true → Q (Some err, a) s) →
    I a s → wp P (ExponentialBackoffWithContext backoff condition a) s Q;
}.

(** ** The local time zone *)

(** The offset in seconds of [time.Local] at an instant. *)
Class Location := { zoneOffset : Time → Z }.
Class LocationLaws `{Location} : Prop := {
  zoneOffset_minutes t : (zoneOffset t mod 60 = 0)%Z;
  zoneOffset_day t : (Z.abs (zoneOffset t) ≤ 86400)%Z;
}.

(** ** An implementation that meets the laws *)

Module Reference.
Fixpoint findCondition (cs : list Condition) (t : string) : option Condition :=
  match cs with
  | [] => None
  | c :: cs => if decide (c_Type c = t) then Some c else findCondition cs t
  end.

Definition withTime (t : option Time) (c : Condition) : Condition :=
  {| c_Type := c_Type c; c_Status := c_Status c;
     c_ObservedGeneration := c_ObservedGeneration c; c_LastTransitionTime := t;
     c_Reason := c_Reason c; c_Message := c_Message c |}.

Fixpoint insertCondition (now : Time) (cs : list Condition) (c : Condition) : list Condition :=
  match cs with
  | [] => [withTime (Some (default now (c_LastTransitionTime c))) c]
  | old :: cs =>
      if decide (c_Type old = c_Type c)
      then withTime (if decide (c_Status old = c_Status c) then c_LastTransitionTime old
                     else Some (default now (c_LastTransitionTime c))) c :: cs
      else old :: insertCondition now cs c
  end.

Definition createOrUpdate (c : cluster) (k : kind) (o : obj k)
    (f : obj k → IO (option error * obj k)) : IO (option error * obj k) :=
  let checked (r : option error * obj k) : option error * obj k :=
    match r with
    | (None, o') => if decide (objectKey o' = objectKey o) then (None, o')
                    else (Some (ErrorString "MutateFn cannot mutate object name and/or object namespace"), o')
    | r => r
    end in
  got ← Get c k (objectKey o);
  match got with
  | inl err =>
      if IsNotFound err
      then r ← f o;
           match checked r with (None, o') => Create c k o' | r => mret r end
      else mret (Some err, o)
  | inr cur =>
      r ← f cur;
      match checked r with
      | (None, o') => if decide (o' = cur) then mret (None, o') else Update c k o'
      | r => mret r
      end
  end.

(** Up to five attempts. *)
Fixpoint onError {A} (attempts : nat) (retriable : error → bool)
    (fn : A → IO (option error * A)) (a : A) : IO (option error * A) :=
  match attempts with
  | O => fn a
  | S attempts =>
      r ← fn a;
      match r.1 with
      | Some err => if retriable err then onError attempts retriable fn r.2 else mret r
      | None => mret r
      end
  end.

#[export] Instance util : ControllerUtil := {|
  ContainsFinalizer fs f := bool_decide (f ∈ fs);
  AddFinalizer fs f := if decide (f ∈ fs) then fs else fs ++ [f];
  RemoveFinalizer fs f := filter (λ f', f' ≠ f) fs;
  CreateOrUpdate := createOrUpdate;
  FindStatusCondition := findCondition;
  setCondition := insertCondition;
  OnError A := onError 4;
|}.

Lemma findCondition_none cs t : findCondition cs t = None ↔ ∀ c, c ∈ cs → c_Type c ≠ t.
Proof.
  induction cs as [|c cs IH]; simpl; [set_solver|].
  case_decide; [split; [done|intros Hc; exfalso; by apply (Hc c); [left|]]|].
  rewrite IH. set_solver.
Qed.

Lemma findCondition_insert_other now cs c t :
  t ≠ c_Type c → findCondition (insertCondition now cs c) t = findCondition cs t.
Proof.
  intros Ht. induction cs as [|old cs IH]; simpl; [by rewrite decide_False|].
  destruct (decide (c_Type old = c_Type c)) as [Heq|]; simpl; [|by rewrite IH].
  rewrite Heq. by rewrite !decide_False.
Qed.

Lemma createOrUpdate_wp S (P : protocol eff S) c k o f s Q :
  allowed P (EGet c k (objectKey o)) s →
  (∀ r, answer P (EGet c k (objectKey o)) s r →
     match r with
     | inl err =>
         if IsNotFound err
         then wp P (f o) (next P (EGet c k (objectKey o)) r s)
                (afterMutate P c k (objectKey o) None Q)
         else Q (Some err, o) (next P (EGet c k (objectKey o)) r s)
     | inr cur =>
         wp P (f cur) (next P (EGet c k (objectKey o)) r s)
           (afterMutate P c k (objectKey o) (Some cur) Q)
     end) →
  wp P (createOrUpdate c k o f) s Q.
Proof.
  intros Hget Hrest. unfold createOrUpdate, Get, Create, Update.
  apply wp_bind, wp_call; [done|]. intros r Hr. specialize (Hrest r Hr).
  destruct r as [err|cur]; simpl.
  - destruct (IsNotFound err); [|done].
    apply wp_bind. eapply wp_mono; [exact Hrest|]. intros [[e|] o'] s2; simpl; [done|].
    intros (Hkey & Hal & Hans). rewrite decide_True by done.
    by apply wp_bind, wp_call.
  - apply wp_bind. eapply wp_mono; [exact Hrest|]. intros [[e|] o'] s2; simpl; [done|].
    intros (Hkey & Hsame & Hdiff). rewrite decide_True by done.
    destruct (decide (o' = cur)); [by apply Hsame|].
    destruct Hdiff; [done|]. by apply wp_bind, wp_call.
Qed.

Lemma onError_wp n S (P : protocol eff S) A retriable (fn : A → IO (option error * A)) a s
    (I : A → S → Prop) (Q : option error * A → S → Prop) :
  (∀ a s, I a s → wp P (fn a) s (λ r s', Q r s' ∧
     match r.1 with Some err => retriable err = true → I r.2 s' | None => True end)) →
  I a s → wp P (onError n retriable fn a) s Q.
Proof.
  intros Hfn. revert a s. induction n as [|n IH]; intros a s HI; simpl.
  - eapply wp_mono; [by apply Hfn|]. by intros ?? [? _].
  - apply wp_bind. eapply wp_mono; [by apply Hfn|]. intros [[err|] a'] s' [HQ Hre]; [|done].
    simpl in *. destruct (retriable err); [|done]. by apply IH, Hre.
Qed.

#[export] Instance laws : ControllerUtilLaws.
Proof.
  constructor.
  - intros fs f. apply bool_decide_eq_true.
  - intros fs f f'. simpl. case_decide; set_solver.
  - intros fs f f'. simpl. rewrite list_elem_of_filter. set_solver.
  - intros cs t c. simpl. induction cs as [|c' cs IH]; simpl; [done|].
    case_decide as Hc; [intros [= <-]; split; [by left|done]|].
    intros Hf. destruct (IH Hf). split; [by right|done].
  - apply findCondition_none.
  - intros now cs c. simpl. induction cs as [|old cs IH]; simpl.
    + rewrite decide_True by done. by eexists.
    + destruct (decide (c_Type old = c_Type c)) eqn:Hd; simpl.
      * rewrite decide_True by done. by eexists.
      * by rewrite Hd.
  - intros; by apply findCondition_insert_other.
  - intros; by apply createOrUpdate_wp.
  - intros; by eapply onError_wp.
Qed.

#[export] Instance fleetUtil : FleetUtil := {|
  NewAPIServerError _ err := Some (WrapError "an error occurred when communicating with the API server" err);
  NewUpdateIgnoreConflictError err := Some (WrapError "failed to update" err);
  NewUnexpectedBehaviorError err := Some (WrapError "unexpected behavior" err);
|}.
#[export] Instance fleetUtil_laws : FleetUtilLaws.
Proof. split; intros; by eexists. Qed.

Definition hasStatus (st : string) (c : option Condition) (g : Z) : bool :=
  match c with
  | Some c => bool_decide (c_Status c = st) && (c_ObservedGeneration c =? g)%Z
  | None => false
  end.
#[export] Instance fleetCondition : FleetCondition := {|
  IsConditionStatusTrue := hasStatus ConditionTrue;
  IsConditionStatusFalse := hasStatus ConditionFalse;
  fleetEqualConditionIgnoreReason c c' :=
    match c, c' with
    | None, None => true
    | Some c, Some c' => bool_decide (c_Status c = c_Status c' ∧ c_Type c = c_Type c' ∧
        c_ObservedGeneration c = c_ObservedGeneration c')
    | _, _ => false
    end |}.
#[export] Instance fleetCondition_laws : FleetConditionLaws.
Proof.
  split; intros [c|] g; simpl; [|naive_solver| |naive_solver];
    rewrite andb_true_iff, bool_decide_eq_true, Z.eqb_eq; naive_solver.
Qed.

(** The entry of the agent and its position. *)
Fixpoint agentStatus (l : list AgentStatus) (t : string) : list AgentStatus * nat :=
  match l with
  | [] => ([{| as_Type := t; as_Conditions := []; as_LastReceivedHeartbeat := None |}], 0)
  | a :: l => if decide (as_Type a = t) then (a :: l, 0)
              else let '(l', i) := agentStatus l t in (a :: l', S i)
  end.
#[export] Instance fleetCluster : FleetCluster := {|
  ClusterStateJoin := "Join"; ClusterStateLeave := "Leave"; AgentJoined := "Joined";
  MultiClusterServiceAgent := "MultiClusterServiceAgent";
  ServiceExportImportAgent := "ServiceExportImportAgent";
  GetAgentStatus := agentStatus |}.
#[export] Instance fleetCluster_laws : FleetClusterLaws.
Proof.
  split; [done|done|]. intros l t. simpl. induction l as [|a l IH]; simpl.
  { eexists [], _, []. split; [done|]. split; [done|]. split; [done|]. split; [set_solver|by right]. }
  destruct (decide (as_Type a = t)) as [Ha|Ha].
  - exists [], a, l. do 3 (split; [done|]). split; [set_solver|by left].
  - destruct (agentStatus l t) as [l' i]. destruct IH as (before & b & after & -> & -> & Hb & Hne & Hl).
    exists (a :: before), b, after. do 3 (split; [done|]). split; [set_solver|].
    destruct Hl as [->|[-> ->]]; [by left|by right].
Qed.

(** As many attempts as there are steps. *)
Fixpoint attempts {A} (steps : nat) (condition : A → IO (bool * option error * A)) (a : A)
    : IO (option error * A) :=
  match steps with
  | O => mret (Some (ErrorString "timed out waiting for the condition"), a)
  | S steps =>
      '(done, err, a) ← condition a;
      match err with
      | Some err => mret (Some err, a)
      | None => if done : bool then mret (None, a) else attempts steps condition a
      end
  end.
#[export] Instance wait : Wait := {|
  Interrupted err := match err with
                     | ErrorString m => bool_decide (m = "timed out waiting for the condition")
                     | _ => false
                     end;
  ErrorInterrupted _ := ErrorString "timed out waiting for the condition";
  ExponentialBackoffWithContext A backoff := attempts (Z.to_nat (bo_Steps backoff)) |}.
#[export] Instance wait_laws : WaitLaws.
Proof.
  split; [done|].
  intros S P A backoff condition a s I Q Hc Hi. simpl. revert a s.
  induction (Z.to_nat (bo_Steps backoff)) as [|n IH]; intros a s HI; simpl.
  - by apply wp_ret, Hi.
  - apply wp_bind. eapply wp_mono; [by apply Hc|]. intros [[done [err|]] a'] s' HQ; [by apply wp_ret|].
    destruct done; [by apply wp_ret|by apply IH].
Qed.

#[export] Instance utc : Location := {| zoneOffset _ := 0%Z |}.
#[export] Instance utc_laws : LocationLaws.
Proof. by constructor. Qed.
End Reference.
