(* ===== verification/Protocols.v ===== *)
(** * Rules for the client calls, and what is relied on of the servers *)

From S2P Require Import Prelude Prog Go Dns Api Fleet Azure Effects Deps.

(** ** Weakest preconditions of the client calls *)

Section rules.
Context {S : Type} (P : protocol eff S).

Lemma wp_Get c k key s Q :
  allowed P (EGet c k key) s →
  (∀ r, answer P (EGet c k key) s r → Q r (next P (EGet c k key) r s)) →
  wp P (Get c k key) s Q.
Proof. apply wp_call. Qed.
Lemma wp_List c k opts s Q :
  allowed P (EList c k opts) s →
  (∀ r, answer P (EList c k opts) s r → Q r (next P (EList c k opts) r s)) →
  wp P (List c k opts) s Q.
Proof. apply wp_call. Qed.
Lemma wp_Create c k o s Q :
  allowed P (ECreate c k o) s →
  (∀ r, answer P (ECreate c k o) s r → Q (overwrite o r) (next P (ECreate c k o) r s)) →
  wp P (Create c k o) s Q.
Proof. intros. by apply wp_bind, wp_call. Qed.
Lemma wp_Update c k o s Q :
  allowed P (EUpdate c k o) s →
  (∀ r, answer P (EUpdate c k o) s r → Q (overwrite o r) (next P (EUpdate c k o) r s)) →
  wp P (Update c k o) s Q.
Proof. intros. by apply wp_bind, wp_call. Qed.
Lemma wp_StatusUpdate c k o s Q :
  allowed P (EStatusUpdate c k o) s →
  (∀ r, answer P (EStatusUpdate c k o) s r →
     Q (overwrite o r) (next P (EStatusUpdate c k o) r s)) →
  wp P (StatusUpdate c k o) s Q.
Proof. intros. by apply wp_bind, wp_call. Qed.
Lemma wp_Delete c k o s Q :
  allowed P (EDelete c k (objectKey o)) s →
  (∀ r, answer P (EDelete c k (objectKey o)) s r →
     Q r (next P (EDelete c k (objectKey o)) r s)) →
  wp P (Delete c k o) s Q.
Proof. apply wp_call. Qed.
Lemma wp_Event t reason m s Q :
  allowed P (EEvent t reason m) s →
  (∀ r, answer P (EEvent t reason m) s r → Q r (next P (EEvent t reason m) r s)) →
  wp P (Event t reason m) s Q.
Proof. apply wp_call. Qed.
Lemma wp_Now s Q :
  allowed P ENow s → (∀ r, answer P ENow s r → Q r (next P ENow r s)) → wp P Now s Q.
Proof. apply wp_call. Qed.
Lemma wp_SetStatusCondition `{!ControllerUtil} cs c s Q :
  allowed P ENow s →
  (∀ now, answer P ENow s now → Q (setCondition now cs c) (next P ENow now s)) →
  wp P (SetStatusCondition cs c) s Q.
Proof. intros. by apply wp_bind, wp_Now. Qed.
End rules.

(** [wp_call_step] runs one client call: the call is allowed, then its answer. *)
Ltac wp_call_step :=
  lazymatch goal with
  | |- wp _ (Get _ _ _) _ _ => apply wp_Get
  | |- wp _ (List _ _ _) _ _ => apply wp_List
  | |- wp _ (Create _ _ _) _ _ => apply wp_Create
  | |- wp _ (Update _ _ _) _ _ => apply wp_Update
  | |- wp _ (StatusUpdate _ _ _) _ _ => apply wp_StatusUpdate
  | |- wp _ (Delete _ _ _) _ _ => apply wp_Delete
  | |- wp _ (Event _ _ _) _ _ => apply wp_Event
  | |- wp _ Now _ _ => apply wp_Now
  | |- wp _ (SetStatusCondition _ _) _ _ => apply wp_SetStatusCondition
  | |- wp _ (call _) _ _ => apply wp_call
  end.

(** ** What is relied on of the servers *)

(** A status error of an API server names the resource it is about. *)
Definition wellFormedError (err : error) : Prop :=
  match asStatusError err with
  | Some (_, None) => False
  | Some (_, Some kind) => kind ≠ "Service"
  | None => True
  end.

(** The object of an answer to a write: the server sets the version, the
    generation and the timestamps, optimistic concurrency keeps the rest of the
    metadata. *)
Definition sameMeta (m m' : ObjectMeta) : Prop :=
  om_Name m' = om_Name m ∧ om_Namespace m' = om_Namespace m ∧
  om_Labels m' = om_Labels m ∧ om_Annotations m' = om_Annotations m ∧
  om_OwnerReferences m' = om_OwnerReferences m ∧ om_Finalizers m' = om_Finalizers m.

Definition answersWrite {k} (o : obj k) (r : error + obj k) : Prop :=
  match r with
  | inl err => wellFormedError err
  | inr o' => sameMeta (objectMeta o) (objectMeta o')
  end.

(** A status update stores the status it is given. *)
Definition answersStatus {k} (o : obj k) (r : error + obj k) : Prop :=
  answersWrite o r ∧
  match r with
  | inl _ => True
  | inr o' => ∀ z, withStatusOf o' z = withStatusOf o z
  end.

Definition matchesSelector (m : ObjectMeta) (opts : ListOptions) : Prop :=
  (∀ ns, lo_Namespace opts = Some ns → om_Namespace m = ns) ∧
  (∀ l v, (l, v) ∈ lo_Labels opts → map_get (om_Labels m) l = Some v).

Definition serverAnswer {X} (e : eff X) : X → Prop :=
  match e in eff X return X → Prop with
  | EGet c k key => λ r,
      match r with inl err => wellFormedError err | inr o => objectKey o = key end
  | EList c k opts => λ r,
      match r with
      | inl err => wellFormedError err
      | inr os => ∀ o, o ∈ os → matchesSelector (objectMeta o) opts
      end
  | ECreate c k o => answersWrite o
  | EUpdate c k o => answersWrite o
  | EStatusUpdate c k o => answersStatus o
  | EDelete c k key => λ r, match r with Some err => wellFormedError err | None => True end
  | EUUID => wellFormedUUID
  | EIntn n => λ i, (0 ≤ i < n)%Z
  | EPublicIPList rg => λ r,
      match r with
      | inl err => asStatusError err = None
      | inr pips => ∀ pip, pip ∈ pips → is_Some (pip_ID pip)
      end
  | EProfileGet _ _ | EProfileCreateOrUpdate _ _ _ => λ r,
      match r with inl err => asStatusError err = None | inr p => is_Some (ap_Name p) end
  | EEndpointCreateOrUpdate _ _ _ _ => λ r,
      match r with
      | inl err => asStatusError err = None
      | inr e => is_Some (ae_Name e) ∧ is_Some (ae_Properties e)
      end
  | _ => λ _, True
  end.

Lemma sameMeta_key {T} `{Object T} (o o' : T) :
  sameMeta (objectMeta o) (objectMeta o') → objectKey o' = objectKey o.
Proof. intros (Hn & Hns & _). unfold objectKey, metaKey. by rewrite Hn, Hns. Qed.
Lemma sameMeta_finalizers {T} `{Object T} (o o' : T) :
  sameMeta (objectMeta o) (objectMeta o') → finalizersOf o' = finalizersOf o.
Proof. intros (_ & _ & _ & _ & _ & Hf). exact Hf. Qed.
#[export] Hint Resolve sameMeta_key sameMeta_finalizers : fleet.

(** An object to be written that was made from one that was read: the server
    refuses it if the stored object has changed since. *)
Definition basedOn {T} `{Object T} (o o' : T) : Prop :=
  objectKey o' = objectKey o ∧
  om_ResourceVersion (objectMeta o') = om_ResourceVersion (objectMeta o) ∧
  om_DeletionTimestamp (objectMeta o') = om_DeletionTimestamp (objectMeta o).
Lemma basedOn_updMeta {T} `{Object T} f (o : T) :
  (∀ m, metaKey (f m) = metaKey m ∧ om_ResourceVersion (f m) = om_ResourceVersion m ∧
        om_DeletionTimestamp (f m) = om_DeletionTimestamp m) → basedOn o (updMeta f o).
Proof.
  intros Hf. unfold basedOn, objectKey, updMeta. rewrite setObjectMeta_get. apply Hf.
Qed.
Lemma basedOn_deleting {T} `{Object T} (o o' : T) : basedOn o o' → isDeleting o' = isDeleting o.
Proof. unfold isDeleting. by intros (_ & _ & ->). Qed.
#[export] Instance basedOn_trans {T} `{Object T} : Transitive basedOn.
Proof. intros o1 o2 o3 (? & ? & ?) (? & ? & ?). repeat split; by etrans. Qed.

(** What is stored after a finalizer was written. *)
Section finalizers.
Context {util : ControllerUtil} {laws : ControllerUtilLaws} {T : Type} `{!Object T}.

Lemma addFinalizer_stored (o o' : T) f :
  sameMeta (objectMeta (addFinalizer o f)) (objectMeta o') →
  f ∈ finalizersOf o' ∧ objectKey o' = objectKey o.
Proof.
  intros Hm. rewrite (sameMeta_finalizers _ _ Hm), (sameMeta_key _ _ Hm), addFinalizer_key.
  split; [|done]. apply addFinalizer_spec. by right.
Qed.
Lemma removeFinalizer_stored (o o' : T) f :
  sameMeta (objectMeta (removeFinalizer o f)) (objectMeta o') →
  f ∉ finalizersOf o' ∧ objectKey o' = objectKey o.
Proof.
  intros Hm. rewrite (sameMeta_finalizers _ _ Hm), (sameMeta_key _ _ Hm), removeFinalizer_key.
  split; [|done]. rewrite removeFinalizer_spec. by intros [_ []].
Qed.
Lemma addFinalizer_has (o : T) f : f ∈ finalizersOf (addFinalizer o f).
Proof. apply addFinalizer_spec. by right. Qed.
Lemma addFinalizer_deleting (o : T) f : isDeleting (addFinalizer o f) = isDeleting o.
Proof. unfold isDeleting, addFinalizer, updMeta. by rewrite setObjectMeta_get. Qed.
Lemma removeFinalizer_deleting (o : T) f : isDeleting (removeFinalizer o f) = isDeleting o.
Proof. unfold isDeleting, removeFinalizer, updMeta. by rewrite setObjectMeta_get. Qed.
Lemma basedOn_addFinalizer (o : T) f : basedOn o (addFinalizer o f).
Proof. by apply basedOn_updMeta. Qed.
Lemma basedOn_removeFinalizer (o : T) f : basedOn o (removeFinalizer o f).
Proof. by apply basedOn_updMeta. Qed.
End finalizers.
#[export] Hint Rewrite @addFinalizer_deleting @removeFinalizer_deleting : fleet_rw.
#[export] Hint Resolve addFinalizer_has : fleet.
