(* ===== verification/ApiServer.v ===== *)
(** * A pair of API servers

    An executable model of the documented behaviour of the Kubernetes API
    server, one store per cluster: optimistic concurrency on the resource
    version, the status subresource, and deletion that waits for finalizers.
    Runs of the controllers against it evaluate by computation.  Azure and the
    other sources are parameters of a world. *)

From S2P Require Import Prelude Prog Go Api Fleet Azure Effects Deps.

(** ** Stores *)

Definition store := ∀ k : kind, gmap NamespacedName (obj k).
Definition emptyStore : store := λ _, ∅.

Definition storeAlter (k : kind) (f : gmap NamespacedName (obj k) → gmap NamespacedName (obj k))
    (st : store) : store :=
  λ k', match decide (k = k') with
        | left e => eq_rect k (λ k, gmap NamespacedName (obj k)) (f (st k)) k' e
        | right _ => st k'
        end.

Lemma storeAlter_eq k f st : storeAlter k f st k = f (st k).
Proof.
  unfold storeAlter. destruct (decide (k = k)) as [e|]; [|done].
  by rewrite (Eqdep_dec.UIP_dec kind_eq_dec e eq_refl).
Qed.
Lemma storeAlter_ne k k' f st : k ≠ k' → storeAlter k f st k' = st k'.
Proof. intros. unfold storeAlter. by destruct (decide (k = k')). Qed.

Record world := {
  w_member : store;
  w_hub : store;
  w_version : N;
  w_clock : Time;
}.
Definition emptyWorld : world :=
  {| w_member := emptyStore; w_hub := emptyStore; w_version := 1; w_clock := 0%Z |}.
Definition storeOf (c : cluster) (w : world) : store :=
  match c with Member => w_member w | Hub => w_hub w end.
Definition setStore (c : cluster) (st : store) (w : world) : world :=
  match c with
  | Member => {| w_member := st; w_hub := w_hub w;
                 w_version := N.succ (w_version w); w_clock := w_clock w |}
  | Hub => {| w_member := w_member w; w_hub := st;
              w_version := N.succ (w_version w); w_clock := w_clock w |}
  end.

(** Every object is stored under its key. *)
Definition keyed (w : world) : Prop :=
  ∀ c k key o, storeOf c w k !! key = Some o → objectKey o = key.

(** ** Requests *)

Definition errNotFound : error := StatusError ReasonNotFound (Some "resource") "not found".
Definition errAlreadyExists : error :=
  StatusError ReasonAlreadyExists (Some "resource") "already exists".
Definition errConflict : error := StatusError ReasonConflict (Some "resource") "conflict".

(** The server sets the version of every write, and the identity and the
    creation time of a new object. *)
Definition stampUpdate (w : world) (stored m : ObjectMeta) : ObjectMeta :=
  {| om_Name := om_Name m; om_Namespace := om_Namespace m; om_UID := om_UID stored;
     om_ResourceVersion := pretty (w_version w); om_Generation := om_Generation m;
     om_CreationTimestamp := om_CreationTimestamp stored;
     om_DeletionTimestamp := om_DeletionTimestamp stored; om_Labels := om_Labels m;
     om_Annotations := om_Annotations m; om_OwnerReferences := om_OwnerReferences m;
     om_Finalizers := om_Finalizers m |}.
Definition stampCreate (w : world) (m : ObjectMeta) : ObjectMeta :=
  {| om_Name := om_Name m; om_Namespace := om_Namespace m;
     om_UID := "uid-" +:+ pretty (w_version w); om_ResourceVersion := pretty (w_version w);
     om_Generation := 1; om_CreationTimestamp := Some (w_clock w);
     om_DeletionTimestamp := None; om_Labels := om_Labels m;
     om_Annotations := om_Annotations m; om_OwnerReferences := om_OwnerReferences m;
     om_Finalizers := om_Finalizers m |}.

Definition serveGet c k (key : NamespacedName) (w : world) : error + obj k :=
  match storeOf c w k !! key with Some o => inr o | None => inl errNotFound end.

Definition serveCreate c k (o : obj k) (w : world) : (error + obj k) * world :=
  match storeOf c w k !! objectKey o with
  | Some _ => (inl errAlreadyExists, w)
  | None =>
      let o := updMeta (stampCreate w) o in
      (inr o, setStore c (storeAlter k <[objectKey o := o]> (storeOf c w)) w)
  end.

(** A write of the object [stored] as [o]: it disappears when it is being
    deleted and has no finalizer left. *)
Definition commit c k (key : NamespacedName) (o : obj k) (w : world) : (error + obj k) * world :=
  let f := if isDeleting o && bool_decide (finalizersOf o = [])
           then delete key else insert key o in
  (inr o, setStore c (storeAlter k f (storeOf c w)) w).

Definition serveWrite c k (status : bool) (o : obj k) (w : world) : (error + obj k) * world :=
  match storeOf c w k !! objectKey o with
  | None => (inl errNotFound, w)
  | Some stored =>
      let v := om_ResourceVersion (objectMeta o) in
      if bool_decide (v ≠ "" ∧ v ≠ om_ResourceVersion (objectMeta stored))
      then (inl errConflict, w)
      else
        let merged := if status then withStatusOf o stored else withStatusOf stored o in
        commit c k (objectKey o) (updMeta (stampUpdate w (objectMeta stored)) merged) w
  end.

Definition serveDelete c k (key : NamespacedName) (w : world) : option error * world :=
  match storeOf c w k !! key with
  | None => (Some errNotFound, w)
  | Some o =>
      if bool_decide (finalizersOf o = [])
      then (None, setStore c (storeAlter k (delete key) (storeOf c w)) w)
      else if isDeleting o then (None, w)
      else
        let o := updMeta (λ m, {| om_Name := om_Name m; om_Namespace := om_Namespace m;
             om_UID := om_UID m; om_ResourceVersion := pretty (w_version w);
             om_Generation := om_Generation m; om_CreationTimestamp := om_CreationTimestamp m;
             om_DeletionTimestamp := Some (w_clock w); om_Labels := om_Labels m;
             om_Annotations := om_Annotations m; om_OwnerReferences := om_OwnerReferences m;
             om_Finalizers := om_Finalizers m |}) o in
        (None, setStore c (storeAlter k <[key := o]> (storeOf c w)) w)
  end.

(** [List]: the index functions of the field selectors are registered by the
    controllers when they are set up. *)
Definition selects (index : ∀ k, string → obj k → list string) k (opts : ListOptions) (o : obj k)
    : bool :=
  match lo_Namespace opts with
  | Some ns => bool_decide (om_Namespace (objectMeta o) = ns)
  | None => true
  end &&
  forallb (λ '(l, v), bool_decide (map_get (om_Labels (objectMeta o)) l = Some v))
    (lo_Labels opts) &&
  forallb (λ '(f, v), bool_decide (v ∈ index k f o)) (lo_Fields opts).
Definition serveList index c k (opts : ListOptions) (w : world) : list (obj k) :=
  filter (λ o, selects index k opts o = true) (snd <$> map_to_list (storeOf c w k)).

(** The servers, with an Azure subscription that is empty and accepts
    everything, a clock that stands still and a fixed scheduler. *)
Definition serve (index : ∀ k, string → obj k → list string) X (e : eff X) (w : world)
    : X * world :=
  match e in eff X return X * world with
  | EGet c k key => (serveGet c k key w, w)
  | EList c k opts => (inr (serveList index c k opts w), w)
  | ECreate c k o => serveCreate c k o w
  | EUpdate c k o => serveWrite c k false o w
  | EStatusUpdate c k o => serveWrite c k true o w
  | EDelete c k key => serveDelete c k key w
  | EEvent _ _ _ | EMetric _ _ _ | EMetricDelete _ _ => (tt, w)
  | ENow => (w_clock w, w)
  | EUUID => ("00000000-0000-0000-0000-000000000000", w)
  | EIntn _ => (0%Z, w)
  | EOrder => ([], w)
  | EGoroutine => (false, w)
  | EFirst => (0, w)
  | EPublicIPList _ => (inr [], w)
  | EProfileGet _ _ => (inl (ResponseError 404 "profile not found"), w)
  | EProfileCreateOrUpdate _ _ p => (inr p, w)
  | EProfileDelete _ _ => (None, w)
  | EEndpointDelete _ _ _ => (None, w)
  | EEndpointCreateOrUpdate _ _ _ ep => (inr ep, w)
  end.
