(* ===== verification/System.v ===== *)
(** * Controllers at work

    Controllers that run round after round against the API servers of
    [ApiServer], while other clients change the clusters between any two of
    their calls, calls fail with or without having been carried out, and
    controllers crash.  A protocol that the rounds of a controller follow,
    together with what its state says of the clusters, gives an invariant of
    all reachable states. *)

From S2P Require Import Prelude Prog Go Api Fleet Azure Effects Deps Protocols ApiServer.

(** ** Versions *)

Definition versionOf {T} `{Object T} (o : T) : string := om_ResourceVersion (objectMeta o).

(** Every object is stored under its key, with the version of an earlier
    write. *)
Definition versioned (w : world) : Prop :=
  keyed w ∧ ∀ c k key o, storeOf c w k !! key = Some o →
    ∃ n, (n < w_version w)%N ∧ versionOf o = pretty n.

(** Whatever changes gets a new version. *)
Definition evolves (w w' : world) : Prop :=
  (w_version w ≤ w_version w')%N ∧ keyed w' ∧
  ∀ c k key o, storeOf c w' k !! key = Some o →
    storeOf c w k !! key = Some o ∨ ∃ n, (w_version w ≤ n < w_version w')%N ∧ versionOf o = pretty n.

(** The metadata of some version of the object: the stored object has them if it
    has the same version. *)
Definition copyOf (c : cluster) (k : kind) (w : world) (m : ObjectMeta) : Prop :=
  ∃ n, (n < w_version w)%N ∧ om_ResourceVersion m = pretty n ∧
  ∀ o, storeOf c w k !! metaKey m = Some o → versionOf o = pretty n → sameMeta m (objectMeta o).

Lemma sameMeta_refl m : sameMeta m m.
Proof. by repeat split. Qed.

Lemma evolves_refl w : keyed w → evolves w w.
Proof. intros Hk. split; [lia|]. split; [done|]. by left. Qed.
Lemma evolves_versioned w w' : versioned w → evolves w w' → versioned w'.
Proof.
  intros [_ Hv] (Hle & Hk & Hnew). split; [done|]. intros c k key o Ho.
  destruct (Hnew c k key o Ho) as [Hold|(n & Hn & Hp)].
  - destruct (Hv _ _ _ _ Hold) as (n & Hn & Hp). exists n. split; [lia|done].
  - exists n. split; [lia|done].
Qed.
Lemma copyOf_stored c k w key o :
  versioned w → storeOf c w k !! key = Some o → copyOf c k w (objectMeta o).
Proof.
  intros [Hk Hv] Ho. destruct (Hv _ _ _ _ Ho) as (n & Hn & Hp). exists n. split; [done|].
  split; [done|]. intros o' Ho' _. pose proof (Hk _ _ _ _ Ho) as Hkey. unfold objectKey in Hkey.
  rewrite Hkey in Ho'. assert (o' = o) as -> by congruence. apply sameMeta_refl.
Qed.
Lemma copyOf_evolves c k w w' m : copyOf c k w m → evolves w w' → copyOf c k w' m.
Proof.
  intros (n & Hn & Hp & Hsame) (Hle & _ & Hnew). exists n. split; [lia|]. split; [done|].
  intros o Ho Hv. destruct (Hnew _ _ _ _ Ho) as [Hold|(n' & Hn' & Hp')]; [by apply Hsame|].
  rewrite Hv in Hp'. apply (inj pretty) in Hp'. lia.
Qed.

(** Some version of the object: the stored object is this one if it has the same
    version. *)
Definition snapshot (c : cluster) (k : kind) (w : world) (o : obj k) : Prop :=
  ∃ n, (n < w_version w)%N ∧ versionOf o = pretty n ∧
  ∀ o', storeOf c w k !! objectKey o = Some o' → versionOf o' = pretty n → o' = o.

Lemma snapshot_stored c k w key o :
  versioned w → storeOf c w k !! key = Some o → snapshot c k w o.
Proof.
  intros [Hk Hv] Ho. destruct (Hv _ _ _ _ Ho) as (n & Hn & Hp). exists n. split; [done|].
  split; [done|]. rewrite (Hk _ _ _ _ Ho). intros o' Ho' _. congruence.
Qed.
Lemma snapshot_evolves c k w w' o : snapshot c k w o → evolves w w' → snapshot c k w' o.
Proof.
  intros (n & Hn & Hp & Hsame) (Hle & _ & Hnew). exists n. split; [lia|]. split; [done|].
  intros o' Ho' Hv. destruct (Hnew _ _ _ _ Ho') as [Hold|(n' & Hn' & Hp')]; [by apply Hsame|].
  rewrite Hv in Hp'. apply (inj pretty) in Hp'. lia.
Qed.
Lemma snapshot_copyOf c k w (o : obj k) : snapshot c k w o → copyOf c k w (objectMeta o).
Proof.
  intros (n & Hn & Hp & Hsame). exists n. split; [done|]. split; [done|].
  intros o' Ho' Hv. rewrite (Hsame o') by done. apply sameMeta_refl.
Qed.

(** ** What a write changes *)

Definition written (c : cluster) (k : kind) (f : gmap NamespacedName (obj k) → gmap NamespacedName (obj k))
    (w : world) : world :=
  setStore c (storeAlter k f (storeOf c w)) w.
Arguments written : simpl never.

Lemma written_eq c k f w : storeOf c (written c k f w) k = f (storeOf c w k).
Proof. unfold written. destruct c; simpl; apply storeAlter_eq. Qed.
Lemma written_ne c k f w c' k' : (c, k) ≠ (c', k') → storeOf c' (written c k f w) k' = storeOf c' w k'.
Proof.
  intros Hne. unfold written. destruct c, c'; simpl; try done; apply storeAlter_ne; congruence.
Qed.
Lemma written_version c k f w : w_version (written c k f w) = N.succ (w_version w).
Proof. by destruct c. Qed.

Lemma written_all (Q : cluster → ∀ k, NamespacedName → obj k → Prop) c k f w :
  (∀ key o, f (storeOf c w k) !! key = Some o → Q c k key o) →
  (∀ c' k' key o, storeOf c' w k' !! key = Some o → Q c' k' key o) →
  ∀ c' k' key o, storeOf c' (written c k f w) k' !! key = Some o → Q c' k' key o.
Proof.
  intros Hf Hold c' k' key o. destruct (decide ((c, k) = (c', k'))) as [[= <- <-]|Hne].
  - rewrite written_eq. apply Hf.
  - rewrite written_ne by done. apply Hold.
Qed.

Lemma evolves_insert c k key o w :
  versioned w → objectKey o = key → versionOf o = pretty (w_version w) →
  evolves w (written c k <[key := o]> w).
Proof.
  intros [Hk _] Ho Hp. split; [rewrite written_version; lia|]. split.
  - refine (written_all (λ _ _ key o, objectKey o = key) c k _ w _ Hk).
    intros key' o' [[<- <-]|[_ Hin]]%lookup_insert_Some; [done|by eapply Hk].
  - refine (written_all (λ c' k' key' o', storeOf c' w k' !! key' = Some o' ∨ _) c k _ w _ _); [|by left].
    intros key' o' [[<- <-]|[_ Hin]]%lookup_insert_Some; [|by left]. right.
    exists (w_version w). split; [rewrite written_version; lia|done].
Qed.
Lemma evolves_delete c k key w : versioned w → evolves w (written c k (delete key) w).
Proof.
  intros [Hk _]. split; [rewrite written_version; lia|]. split.
  - refine (written_all (λ _ _ key o, objectKey o = key) c k _ w _ Hk).
    intros key' o' [_ Hin]%lookup_delete_Some. by eapply Hk.
  - refine (written_all (λ c' k' key' o', storeOf c' w k' !! key' = Some o' ∨ _) c k _ w _ _); [|by left].
    intros key' o' [_ Hin]%lookup_delete_Some. by left.
Qed.

(** ** The servers answer as relied on *)

Lemma withStatusOf_meta {k} (old new : obj k) : objectMeta (withStatusOf old new) = objectMeta new.
Proof. by destruct k. Qed.
Lemma withStatusOf_stored {k} f (o stored z : obj k) :
  withStatusOf (updMeta f (withStatusOf o stored)) z = withStatusOf o z.
Proof. by destruct k. Qed.
Lemma updMeta_meta {T} `{Object T} f (o : T) : objectMeta (updMeta f o) = f (objectMeta o).
Proof. apply setObjectMeta_get. Qed.
Lemma updMeta_key {T} `{Object T} f (o : T) :
  (∀ m, metaKey (f m) = metaKey m) → objectKey (updMeta f o) = objectKey o.
Proof. intros Hf. unfold objectKey. by rewrite updMeta_meta, Hf. Qed.

Lemma errNotFound_wf : wellFormedError errNotFound. Proof. done. Qed.
Lemma errConflict_wf : wellFormedError errConflict. Proof. done. Qed.
Lemma errAlreadyExists_wf : wellFormedError errAlreadyExists. Proof. done. Qed.

Inductive createAnswer c k (o : obj k) w : (error + obj k) * world → Prop :=
| create_exists : createAnswer c k o w (inl errAlreadyExists, w)
| create_new : let o' := updMeta (stampCreate w) o in
    storeOf c w k !! objectKey o = None →
    createAnswer c k o w (inr o', written c k <[objectKey o := o']> w).
Lemma serveCreate_answer c k o w : createAnswer c k o w (serveCreate c k o w).
Proof.
  unfold serveCreate. destruct (storeOf c w k !! objectKey o) eqn:Hs; [constructor|].
  rewrite updMeta_key by done. by apply create_new.
Qed.

(** A write replaces the stored object, or removes it if that is what it waits
    for. *)
Definition commits {k} (key : NamespacedName) (o : obj k)
    (f : gmap NamespacedName (obj k) → gmap NamespacedName (obj k)) : Prop :=
  f = <[key := o]> ∨ f = delete key ∧ isDeleting o = true ∧ finalizersOf o = [].
Inductive writeAnswer c k (status : bool) (o : obj k) w : (error + obj k) * world → Prop :=
| write_fails err : wellFormedError err →
    (IsNotFound err = true → storeOf c w k !! objectKey o = None) →
    writeAnswer c k status o w (inl err, w)
| write_done stored f :
    let merged := if status then withStatusOf o stored else withStatusOf stored o in
    let o' := updMeta (stampUpdate w (objectMeta stored)) merged in
    storeOf c w k !! objectKey o = Some stored →
    versionOf o = "" ∨ versionOf o = versionOf stored →
    commits (objectKey o) o' f →
    writeAnswer c k status o w (inr o', written c k f w).
Lemma commits_other {k} key (o : obj k) f key' (m : gmap NamespacedName (obj k)) :
  commits key o f → key' ≠ key → f m !! key' = m !! key'.
Proof. intros [->|[-> _]] Hne; [by apply lookup_insert_ne|by apply lookup_delete_ne]. Qed.
Lemma serveWrite_answer c k status o w : writeAnswer c k status o w (serveWrite c k status o w).
Proof.
  unfold serveWrite. destruct (storeOf c w k !! objectKey o) as [stored|] eqn:Hs; [|by constructor].
  case_bool_decide as Hv; [by constructor|]. unfold commit.
  apply (write_done c k status o w stored); [done| |].
  - fold (versionOf o) (versionOf stored) in Hv. destruct (decide (versionOf o = "")); [by left|].
    right. destruct (decide (versionOf o = versionOf stored)); [done|]. naive_solver.
  - destruct (isDeleting _) eqn:Hd; simpl; [|by left]. case_bool_decide; [by right|by left].
Qed.

Inductive deleteAnswer c k key w : option error * world → Prop :=
| delete_missing : storeOf c w k !! key = None → deleteAnswer c k key w (Some errNotFound, w)
| delete_waits (o : obj k) : storeOf c w k !! key = Some o → isDeleting o = true →
    deleteAnswer c k key w (None, w)
| delete_removes : deleteAnswer c k key w (None, written c k (delete key) w)
| delete_marks (o o' : obj k) : storeOf c w k !! key = Some o → isDeleting o' = true →
    objectKey o' = objectKey o → versionOf o' = pretty (w_version w) →
    finalizersOf o' = finalizersOf o →
    deleteAnswer c k key w (None, written c k <[key := o']> w).
Lemma serveDelete_answer c k key w : deleteAnswer c k key w (serveDelete c k key w).
Proof.
  unfold serveDelete. destruct (storeOf c w k !! key) as [o|] eqn:Hs; [|by constructor].
  case_bool_decide; [constructor|]. destruct (isDeleting o) eqn:Hd; [by eapply delete_waits|].
  eapply delete_marks; [done| | | |].
  - unfold isDeleting. by rewrite updMeta_meta, bool_decide_true.
  - by apply updMeta_key.
  - unfold versionOf. by rewrite updMeta_meta.
  - unfold finalizersOf. by rewrite updMeta_meta.
Qed.

(** The calls that an API server answers, and the answers of one that fails. *)
Definition atServer {X} (e : eff X) : bool :=
  match e with
  | EGet _ _ _ | EList _ _ _ | ECreate _ _ _ | EUpdate _ _ _ | EStatusUpdate _ _ _
  | EDelete _ _ _ => true
  | _ => false
  end.
Definition transient (err : error) : Prop := wellFormedError err ∧ IsNotFound err = false.
Definition fails {X} (e : eff X) : X → Prop :=
  match e in eff X return X → Prop with
  | EGet _ _ _ => λ x, match x with inl err => transient err | inr _ => False end
  | EList _ _ _ => λ x, match x with inl err => transient err | inr _ => False end
  | ECreate _ _ _ | EUpdate _ _ _ | EStatusUpdate _ _ _ => λ x,
      match x with inl err => transient err | inr _ => False end
  | EDelete _ _ _ => λ x, match x with Some err => transient err | None => False end
  | _ => λ _, False
  end.
(** A status update sends the metadata of some version of the object. *)
Definition sendsCopy {X} (e : eff X) (w : world) : Prop :=
  match e with EStatusUpdate c k o => copyOf c k w (objectMeta o) | _ => True end.

Section servers.
Context (index : ∀ k, string → obj k → list string).

(** A call is answered by the servers, which change accordingly, or fails: then
    it may have been carried out nevertheless.  All other sources answer as
    they are relied on. *)
Definition answers {X} (e : eff X) (w : world) (x : X) (w' : world) : Prop :=
  if atServer e
  then (x, w') = serve index X e w ∨ fails e x ∧ (w' = w ∨ w' = (serve index X e w).2)
  else serverAnswer e x ∧ w' = w.

Lemma write_stamped c k (status : bool) (o stored : obj k) w :
  versioned w → storeOf c w k !! objectKey o = Some stored →
  let o' := updMeta (stampUpdate w (objectMeta stored))
              (if status then withStatusOf o stored else withStatusOf stored o) in
  objectKey o' = objectKey o ∧ versionOf o' = pretty (w_version w).
Proof.
  intros Hw Hs. unfold versionOf. cbv zeta. rewrite updMeta_meta, updMeta_key by done. split; [|done].
  unfold objectKey. destruct status; rewrite withStatusOf_meta; [|done]. exact (proj1 Hw _ _ _ _ Hs).
Qed.
Lemma write_evolves c k status o w :
  versioned w → evolves w (serveWrite c k status o w).2.
Proof.
  intros Hw. destruct (serveWrite_answer c k status o w) as [err _ _|stored f merged o' Hs _ Hf];
    simpl; [by apply evolves_refl, Hw|].
  destruct (write_stamped c k status o stored w Hw Hs) as [Hk Hv]. fold merged o' in Hk, Hv.
  destruct Hf as [->|[-> _]]; [by apply evolves_insert|by apply evolves_delete].
Qed.

Lemma serve_evolves X (e : eff X) w : versioned w → evolves w (serve index X e w).2.
Proof.
  intros Hw. pose proof (evolves_refl w (proj1 Hw)) as Hrefl.
  destruct e as [c k key|c k opts|c k o|c k o|c k o|c k key| | | | | | | | | | | | | | |]; try exact Hrefl; simpl.
  - destruct (serveCreate_answer c k o w) as [|o' Hn]; [done|]. subst o'. simpl.
    apply evolves_insert; [done|by apply updMeta_key|]. unfold versionOf. by rewrite updMeta_meta.
  - by apply write_evolves.
  - by apply write_evolves.
  - destruct (serveDelete_answer c k key w) as [| | |o o' Hs _ Hk Hv _]; simpl; [done..| |].
    + by apply evolves_delete.
    + apply evolves_insert; [done| |done]. rewrite Hk. exact (proj1 Hw _ _ _ _ Hs).
Qed.

Lemma selects_matches k opts (o : obj k) :
  selects index k opts o = true → matchesSelector (objectMeta o) opts.
Proof.
  unfold selects. rewrite !andb_true_iff. intros [[Hns Hl] _]. split.
  - intros ns Hopt. rewrite Hopt in Hns. by apply bool_decide_eq_true in Hns.
  - intros l v Hin. rewrite forallb_forall in Hl. apply list_elem_of_In in Hin.
    apply Hl in Hin. by apply bool_decide_eq_true in Hin.
Qed.

Lemma update_honest c k (o : obj k) w : versioned w → answersWrite o (serveWrite c k false o w).1.
Proof.
  intros Hw. destruct (serveWrite_answer c k false o w) as [err Herr _|stored f merged o' Hs _ Hf];
    simpl; [done|]. subst o' merged. rewrite updMeta_meta, withStatusOf_meta. by repeat split.
Qed.
Lemma statusUpdate_honest c k (o : obj k) w :
  versioned w → copyOf c k w (objectMeta o) → answersStatus o (serveWrite c k true o w).1.
Proof.
  intros Hw (n & _ & Hp & Hsame).
  destruct (serveWrite_answer c k true o w) as [err Herr _|stored f merged o' Hs Hv Hf]; [by split|].
  split; [|intros z; apply withStatusOf_stored]. simpl. subst o' merged.
  rewrite updMeta_meta, withStatusOf_meta. fold (versionOf o) in Hp. rewrite Hp in Hv.
  destruct Hv as [Hv|Hv]; [|exact (Hsame stored Hs (eq_sym Hv))].
  exfalso. by apply (pretty_N_nonempty n).
Qed.

Lemma answers_honest X (e : eff X) w x w' :
  versioned w → sendsCopy e w → answers e w x w' → serverAnswer e x ∧ evolves w w'.
Proof.
  intros Hw Hcopy Hx. unfold answers in Hx.
  destruct (atServer e) eqn:He; [|destruct Hx as [? ->]; split; [done|by apply evolves_refl, Hw]].
  destruct Hx as [Hx|[Hf Hx]].
  - pose proof (serve_evolves X e w Hw) as Hev. rewrite <-Hx in Hev. split; [|exact Hev].
    assert (x = (serve index X e w).1) as -> by by rewrite <-Hx. clear Hx Hev w'.
    destruct e as [c k key|c k opts|c k o|c k o|c k o|c k key| | | | | | | | | | | | | | |]; try done; simpl.
    + unfold serveGet. destruct (storeOf c w k !! key) eqn:Hs; [exact (proj1 Hw _ _ _ _ Hs)|done].
    + intros o [Hsel _]%list_elem_of_filter. by apply selects_matches.
    + destruct (serveCreate_answer c k o w) as [|o' _]; [done|]. simpl. subst o'.
      rewrite updMeta_meta. by repeat split.
    + by apply update_honest.
    + by apply statusUpdate_honest.
    + by destruct (serveDelete_answer c k key w).
  - split; [|destruct Hx as [->| ->]; [by apply evolves_refl, Hw|by apply serve_evolves]].
    destruct e as [c k key|c k opts|c k o|c k o|c k o|c k key| | | | | | | | | | | | | | |]; try done; simpl in *.
    all: destruct x; try done; try apply Hf. split; [apply Hf|done].
Qed.

Lemma answers_sent X (e : eff X) w x w' :
  versioned w → answers e w x w' → sendsCopy e w → serverAnswer e x ∧ evolves w w'.
Proof. intros Hw Hx Hc. exact (answers_honest X e w x w' Hw Hc Hx). Qed.

(** A read does not change the servers; a found object is stored. *)
Lemma answers_read c k key w x w' :
  answers (EGet c k key) w x w' →
  w' = w ∧ ∀ o, x = inr o → storeOf c w k !! key = Some o.
Proof.
  intros [Hx|[Hf Hx]].
  - injection Hx as -> ->. split; [done|]. unfold serveGet. intros o.
    destruct (storeOf c w k !! key); [|done]. by intros [= ->].
  - destruct x; [|done]. split; [by destruct Hx|done].
Qed.

(** The world after a call: as it was, or as the server left it. *)
Lemma answers_world X (e : eff X) w x w' :
  atServer e = true → answers e w x w' → w' = w ∨ w' = (serve index X e w).2.
Proof.
  intros He. unfold answers. rewrite He. intros [Hx|[_ Hx]]; [|done]. right. by rewrite <-Hx.
Qed.
(** The answer to a write is the version that is stored. *)
Lemma copyOf_written c k status o w o' w' :
  versioned w → (inr o', w') = serveWrite c k status o w → copyOf c k w' (objectMeta o').
Proof.
  intros Hw Heq. pose proof (serveWrite_answer c k status o w) as Ha. rewrite <-Heq in Ha.
  inversion Ha as [|stored f merged o1 Hs Hv Hf]; subst. clear Ha Heq.
  destruct (write_stamped c k status o stored w Hw Hs) as [Hk Hp]. fold merged o1 in Hk, Hp.
  exists (w_version w). split; [rewrite written_version; lia|]. split; [done|].
  intros o2. change (metaKey (objectMeta o1)) with (objectKey o1). rewrite Hk, written_eq.
  destruct Hf as [->|[-> _]]; [rewrite lookup_insert_eq|by rewrite lookup_delete_eq].
  intros [= <-] _. apply sameMeta_refl.
Qed.
Lemma snapshot_written c k status o w o' w' :
  versioned w → (inr o', w') = serveWrite c k status o w → snapshot c k w' o'.
Proof.
  intros Hw Heq. pose proof (serveWrite_answer c k status o w) as Ha. rewrite <-Heq in Ha.
  inversion Ha as [|stored f merged o1 Hs Hv Hf]; subst. clear Ha Heq.
  destruct (write_stamped c k status o stored w Hw Hs) as [Hk Hp]. fold merged o1 in Hk, Hp.
  exists (w_version w). split; [rewrite written_version; lia|]. split; [done|].
  intros o2. rewrite Hk, written_eq.
  destruct Hf as [->|[-> _]]; [rewrite lookup_insert_eq|by rewrite lookup_delete_eq]. congruence.
Qed.
(** A write that is based on a version that was read changes that version. *)
Lemma write_stored c k (o0 o stored : obj k) w :
  snapshot c k w o0 → basedOn o0 o → storeOf c w k !! objectKey o = Some stored →
  versionOf o = "" ∨ versionOf o = versionOf stored → stored = o0.
Proof.
  intros (n & Hn & Hp & Hsame) (Hk & Hv & _) Hs Hver.
  change (versionOf o = versionOf o0) in Hv. rewrite Hv, Hp in Hver.
  destruct Hver as [Hver|Hver]; [by apply pretty_N_nonempty in Hver|].
  rewrite Hk in Hs. by apply (Hsame stored Hs).
Qed.
Lemma write_based c k status (o0 o : obj k) w o' w' :
  snapshot c k w o0 → basedOn o0 o → (inr o', w') = serveWrite c k status o w →
  o' = updMeta (stampUpdate w (objectMeta o0)) (if status then withStatusOf o o0 else withStatusOf o0 o).
Proof.
  intros Hsnap Hb Heq. pose proof (serveWrite_answer c k status o w) as Ha. rewrite <-Heq in Ha.
  inversion Ha as [|stored f merged o1 Hs Hver _]; subst. subst merged o1.
  by rewrite (write_stored c k o0 o stored w).
Qed.
(** Whatever the answer is, what changes gets a new version. *)
Lemma answers_evolves X (e : eff X) w x w' : versioned w → answers e w x w' → evolves w w'.
Proof.
  intros Hw Hx. destruct (atServer e) eqn:He.
  2: { unfold answers in Hx. rewrite He in Hx. destruct Hx as [_ ->]. by apply evolves_refl, Hw. }
  apply answers_world in Hx as [->| ->]; [by apply evolves_refl, Hw|by apply serve_evolves|done].
Qed.
Lemma update_answered c k o w o' w' :
  answers (EUpdate c k o) w (inr o') w' → (inr o', w') = serveWrite c k false o w.
Proof. by intros [Hx|[[] _]]. Qed.
Lemma statusUpdate_answered c k o w o' w' :
  answers (EStatusUpdate c k o) w (inr o') w' → (inr o', w') = serveWrite c k true o w.
Proof. by intros [Hx|[[] _]]. Qed.
End servers.

(** ** The states of controllers at work *)

Section controllers.
Context (index : ∀ k, string → obj k → list string).
(** The controllers, each with one worker, and the other clients. *)
Context {I Req A : Type} `{EqDecision I} (reconcile : I → Req → IO A).
Context (env : world → world → Prop).

Inductive control :=
| Idle
| Running (req : Req) (p : IO A).
Definition controls := I → control.
Definition allIdle : controls := λ _, Idle.
Definition setControl (i : I) (c : control) (cs : controls) : controls :=
  λ j, if decide (j = i) then c else cs j.

Inductive step : world * controls → world * controls → Prop :=
| step_start w cs i req : cs i = Idle →
    step (w, cs) (w, setControl i (Running req (reconcile i req)) cs)
| step_call w w' cs i req X (e : eff X) x k : cs i = Running req (Vis e k) →
    answers index e w x w' → step (w, cs) (w', setControl i (Running req (k x)) cs)
| step_return w cs i req a : cs i = Running req (Ret a) → step (w, cs) (w, setControl i Idle cs)
| step_crash w cs i : step (w, cs) (w, setControl i Idle cs)
| step_env w w' cs : env w w' → step (w, cs) (w', cs).

(** A run against the servers is a sequence of steps, if it only uses the other
    sources that answer as relied on. *)
Definition plain {X} (e : eff X) : bool :=
  match e with ENow | EEvent _ _ _ | EPublicIPList _ | EOrder | EMetric _ _ _ => true | _ => atServer e end.
Fixpoint plainRun {B} (p : IO B) (w : world) : bool :=
  match p with
  | Vis e k => plain e && let '(x, w') := serve index _ e w in plainRun (k x) w'
  | _ => true
  end.
Lemma run_steps i req p w a w' cs :
  plainRun p w = true → run (serve index) p w = (Done a, w') → cs i = Running req p →
  ∃ cs', rtc step (w, cs) (w', cs').
Proof.
  revert w cs. induction p as [a'|m|X e k IH]; intros w cs; simpl; [|done|].
  - intros _ [= -> ->] Hi. eexists. by eapply rtc_once, step_return.
  - intros [Hplain Hrest]%andb_true_iff. destruct (serve index X e w) as [x w1] eqn:Hx. intros Hrun Hi.
    destruct (IH x w1 (setControl i (Running req (k x)) cs)) as [cs' Hcs']; [done|done| |].
    { unfold setControl. by rewrite decide_True. }
    exists cs'. eapply rtc_l; [|exact Hcs']. eapply step_call; [done|]. unfold answers.
    destruct (atServer e) eqn:He; [by left|].
    destruct e; try done; injection Hx as <- <-; split; try done.
    intros pip Hin. by apply not_elem_of_nil in Hin.
Qed.

(** A controller that has been started again runs a whole round. *)
Lemma round_steps i req w cs a :
  plainRun (reconcile i req) w = true → (run (serve index) (reconcile i req) w).1 = Done a →
  ∃ cs', rtc step (w, cs) ((run (serve index) (reconcile i req) w).2, cs').
Proof.
  intros Hplain Hdone. set (cs1 := setControl i Idle cs).
  assert (∀ c cs0, setControl i c cs0 i = c) as Hset by (intros; unfold setControl; by rewrite decide_True).
  destruct (run_steps i req (reconcile i req) w a (run (serve index) (reconcile i req) w).2
    (setControl i (Running req (reconcile i req)) cs1)) as [cs' Hcs'];
    [done|by destruct (run _ _ _); simpl in *; subst|apply Hset|].
  exists cs'. eapply rtc_l; [apply (step_crash w cs i)|]. eapply rtc_l; [|exact Hcs'].
  apply step_start, Hset.
Qed.

(** A protocol protects an invariant against the steps [others] of all other
    clients if these keep the invariant and what the state of the protocol knows
    of the servers, and every allowed call is answered as relied on, adds to the
    knowledge and keeps the invariant. *)
Record protects {S} (others : world → world → Prop) (P : Req → protocol eff S) (s0 : S)
    (knows : Req → S → world → Prop) (Inv : world → Prop) : Prop := {
  protects_start req w : Inv w → knows req s0 w;
  protects_others w w' : others w w' → Inv w → Inv w' ∧ ∀ req s, knows req s w → knows req s w';
  protects_call req s w X (e : eff X) x w' :
    Inv w → knows req s w → allowed (P req) e s → answers index e w x w' →
    answer (P req) e s x ∧ knows req (next (P req) e x s) w' ∧ Inv w';
}.

Section invariant.
Context {S} (P : I → Req → protocol eff S) (s0 : I → S) (knows : I → Req → S → world → Prop).
Context (Inv : I → world → Prop) (Q : I → Req → A → S → Prop) (others : I → world → world → Prop).
Context (Hprot : ∀ i, protects (others i) (P i) (s0 i) (knows i) (Inv i)).
Context (Hwp : ∀ i req, wp (P i req) (reconcile i req) (s0 i) (Q i req)).
(** What a controller relies on: the other clients and the other controllers. *)
Context (Henv : ∀ i w w', env w w' → others i w w').
Context (Hothers : ∀ i j req s w X (e : eff X) x w', i ≠ j →
  Inv j w → knows j req s w → allowed (P j req) e s → answers index e w x w' → others i w w').

Definition sound (c : world * controls) : Prop :=
  ∀ i, Inv i c.1 ∧ match c.2 i with
                   | Idle => True
                   | Running req p => ∃ s, knows i req s c.1 ∧ wp (P i req) p s (Q i req)
                   end.

Lemma sound_others i c (w' : world) : sound c → others i c.1 w' →
  Inv i w' ∧ match c.2 i with
             | Idle => True
             | Running req p => ∃ s, knows i req s w' ∧ wp (P i req) p s (Q i req)
             end.
Proof.
  intros Hs Ho. destruct (Hs i) as [Hinv Hi].
  destruct (protects_others _ _ _ _ _ (Hprot i) c.1 w') as [Hinv' Hk]; [done..|]. split; [done|].
  destruct (c.2 i) as [|req p]; [done|]. destruct Hi as (s & ? & ?). exists s. auto.
Qed.

Lemma step_sound c c' : step c c' → sound c → sound c'.
Proof.
  destruct 1 as [w cs i req Hi|w w' cs i req X e x k Hi Hx|w cs i req a Hi|w cs i|w w' cs He]; intros Hs.
  1-4: intros j; simpl; unfold setControl; destruct (decide (j = i)) as [->|Hj].
  - destruct (Hs i) as [Hinv _]. split; [done|]. exists (s0 i).
    split; [by apply (protects_start _ _ _ _ _ (Hprot i))|apply Hwp].
  - apply (Hs j).
  - destruct (Hs i) as [Hinv Hc]. simpl in Hc. rewrite Hi in Hc. destruct Hc as (s & Hk & Hal & Hcont).
    destruct (protects_call _ _ _ _ _ (Hprot i) req s w X e x w') as (Ha & Hn & Hinv'); [done..|].
    split; [done|]. exists (next (P i req) e x s). split; [done|]. by apply Hcont.
  - destruct (Hs i) as [Hinv Hc]. simpl in Hc. rewrite Hi in Hc. destruct Hc as (s & Hk & Hal & _).
    apply (sound_others j (w, cs) w' Hs). by eapply (Hothers j i).
  - split; [apply (Hs i)|done].
  - apply (Hs j).
  - split; [apply (Hs i)|done].
  - apply (Hs j).
  - intros i. apply (sound_others i (w, cs) w' Hs). by apply Henv.
Qed.

Lemma reachable_invariant w c : rtc step (w, allIdle) c → (∀ i, Inv i w) → sound c.
Proof.
  intros Hsteps Hinv. assert (sound (w, allIdle)) as Hs by (intros i; by split). clear Hinv. revert Hs.
  induction Hsteps as [|c1 c2 c3 Hstep _ IH]; [done|]. intros Hs. eapply IH, step_sound; done.
Qed.
(** The invariants hold in all reachable states, in which no round panics. *)
Theorem reachable_sound w c :
  rtc step (w, allIdle) c → (∀ i, Inv i w) →
  ∀ i, Inv i c.1 ∧ ∀ req m, c.2 i ≠ Running req (Panic m).
Proof.
  intros Hsteps Hinv i. destruct (reachable_invariant w c Hsteps Hinv i) as [Hi Hr]. split; [done|].
  intros req m Heq. rewrite Heq in Hr. by destruct Hr as (s & _ & []).
Qed.
End invariant.
End controllers.
Arguments Idle {Req A}.
Arguments Running {Req A}.
Arguments allIdle {I Req A}.
