(* ===== verification/Coverage.v ===== *)
(** * Objects covered by a finalizer

    Several controllers keep an object in one cluster for an object of another:
    they store a finalizer on the owner before they write the object, and take
    it away only once the object is being deleted or gone.  This is the
    protocol of such a controller and the invariant that it protects in the
    sense of [System]: an object that is not being deleted belongs to an owner
    with the finalizer. *)

From S2P Require Import Prelude Prog Go Api Fleet Azure Effects Deps Protocols ApiServer System.

(** Where the owners and the objects are, the finalizer, the key of the object of
    a request, and the objects that the controller is responsible for. *)
Record relation := {
  owner : cluster * kind;
  owned : cluster * kind;
  cleanup : string;
  target : NamespacedName → NamespacedName;
  scope : NamespacedName → Prop;
}.

(** What a round knows: that the finalizer is stored, that the object is deleted
    or being deleted, and the metadata of the last version of the owner seen.  A
    failed update that gives the finalizer up may have been carried out. *)
Record cover := {
  cv_finalizer : bool;
  cv_gone : bool;
  cv_meta : option ObjectMeta;
}.
Definition noCover : cover := {| cv_finalizer := false; cv_gone := false; cv_meta := None |}.

Section coverage.
Context (R : relation).
Local Abbreviation c1 := (owner R).1.
Local Abbreviation k1 := (owner R).2.
Local Abbreviation c2 := (owned R).1.
Local Abbreviation k2 := (owned R).2.

Definition hasCleanup {k} (o : obj k) : Prop := cleanup R ∈ finalizersOf o.
#[global] Instance hasCleanup_dec {k} (o : obj k) : Decision (hasCleanup o).
Proof. unfold hasCleanup. apply _. Defined.

Definition seen {k} (o : obj k) (s : cover) : cover := {|
  cv_finalizer := bool_decide (hasCleanup o); cv_gone := cv_gone s;
  cv_meta := Some (objectMeta o) |}.
Definition failed {k} (o : obj k) (s : cover) : cover := {|
  cv_finalizer := cv_finalizer s && bool_decide (hasCleanup o); cv_gone := cv_gone s;
  cv_meta := cv_meta s |}.
Definition setGone (gone : bool) (s : cover) : cover := {|
  cv_finalizer := cv_finalizer s; cv_gone := gone; cv_meta := cv_meta s |}.

Section protocol.
Context (req : NamespacedName).

Definition mayWrite {X} (e : eff X) (s : cover) : Prop :=
  match e with
  | ECreate c k o => (c, k) = owned R ∧ objectKey o = target R req ∧ cv_finalizer s = true
  | EUpdate c k o =>
      (c, k) = owned R ∧ objectKey o = target R req ∧ cv_finalizer s = true ∨
      (c, k) = owner R ∧ objectKey o = req ∧ (hasCleanup o ∨ cv_gone s = true)
  | EStatusUpdate c k o => (c, k) = owner R ∧ objectKey o = req ∧ cv_meta s = Some (objectMeta o)
  | EDelete c k key => (c, k) = owned R ∧ key = target R req
  | _ => True
  end.
Definition learn {X} (e : eff X) : X → cover → cover :=
  match e in eff X return X → cover → cover with
  | EGet c k key => λ x s,
      if decide ((c, k) = owner R ∧ key = req)
      then match x with inr o => seen o s | inl _ => s end else s
  | ECreate c k o => λ _ s, setGone false s
  | EUpdate c k o => λ x s,
      if decide ((c, k) = owner R)
      then match x with inr o' => seen o' s | inl _ => failed o s end else setGone false s
  | EStatusUpdate c k o => λ x s, match x with inr o' => seen o' s | inl _ => s end
  | EDelete c k key => λ x s,
      match IgnoreNotFound x with None => setGone true s | Some _ => s end
  | _ => λ _ s, s
  end.
Definition coverProtocol : protocol eff cover := {|
  allowed X e s := mayWrite e s;
  answer X e s := serverAnswer e;
  next X e := learn e |}.
End protocol.

(** ** The invariant *)

Definition owners (w : world) := storeOf c1 w k1.
Definition objects (w : world) := storeOf c2 w k2.
Definition covered (req : NamespacedName) (w : world) : Prop :=
  ∃ o, owners w !! req = Some o ∧ hasCleanup o.
Definition released (key : NamespacedName) (w : world) : Prop :=
  ∀ o, objects w !! key = Some o → isDeleting o = true.
Definition allCovered (w : world) : Prop :=
  ∀ key, scope R key → ¬ released key w → ∃ req, key = target R req ∧ covered req w.
Definition healthy (w : world) : Prop := versioned w ∧ allCovered w.

(** The other clients: they neither take the finalizer away nor create or revive
    objects.  A resource with a finalizer stays. *)
Definition respects (w w' : world) : Prop :=
  evolves w w' ∧ (∀ req, covered req w → covered req w') ∧
  (∀ key, scope R key → released key w → released key w').

Definition knows (req : NamespacedName) (s : cover) (w : world) : Prop :=
  (cv_finalizer s = true → covered req w) ∧
  (cv_gone s = true → released (target R req) w) ∧
  (∀ m, cv_meta s = Some m → copyOf c1 k1 w m).

(** ** The protocol protects the invariant *)

Section protection.
Context (index : ∀ k, string → obj k → list string).
Context (Hne : (c1, k1) ≠ (c2, k2)) (Hscope : ∀ req, scope R (target R req)).

Lemma knows_start req w : knows req noCover w.
Proof. by split; [|split]. Qed.
Lemma respects_healthy w w' : respects w w' → healthy w → healthy w'.
Proof.
  intros (Hev & Hcov & Hrel) [Hv Hall]. split; [by eapply evolves_versioned|].
  intros key Hsc Hlive. destruct (Hall key Hsc) as (req & -> & Hreq).
  - intros Hr. by apply Hlive, Hrel.
  - exists req. auto.
Qed.
Lemma respects_knows w w' req s : respects w w' → knows req s w → knows req s w'.
Proof.
  intros (Hev & Hcov & Hrel) (Hf & Hg & Hm). split; [auto|]. split.
  - intros Hs. apply Hrel; [apply Hscope|auto].
  - intros m Hs. eapply copyOf_evolves; eauto.
Qed.

Lemma covered_same req w w' : owners w' = owners w → covered req w → covered req w'.
Proof. unfold covered. by intros ->. Qed.
Lemma released_same key w w' : objects w' = objects w → released key w → released key w'.
Proof. unfold released. by intros ->. Qed.
Lemma owners_owned f w : owners (written c2 k2 f w) = owners w.
Proof. by apply written_ne. Qed.
Lemma objects_owner f w : objects (written c1 k1 f w) = objects w.
Proof. by apply written_ne. Qed.
Lemma objects_owned f w : objects (written c2 k2 f w) = f (objects w).
Proof. apply written_eq. Qed.
Lemma owners_owner f w : owners (written c1 k1 f w) = f (owners w).
Proof. apply written_eq. Qed.

(** *** Writes of the object *)

Definition writesTarget (req : NamespacedName) (w w' : world) : Prop :=
  owners w' = owners w ∧ ∀ key, key ≠ target R req → objects w' !! key = objects w !! key.

Lemma create_target req w (o : obj k2) x w' :
  objectKey o = target R req → answers index (ECreate c2 k2 o) w x w' → writesTarget req w w'.
Proof.
  intros Hk Hx. apply answers_world in Hx as [->| ->]; [done| |done]. simpl.
  destruct (serveCreate_answer c2 k2 o w) as [|o' _]; [done|]. simpl.
  split; [apply owners_owned|]. intros key Hkey. rewrite objects_owned. apply lookup_insert_ne.
  by rewrite Hk.
Qed.
Lemma update_target req w (o : obj k2) x w' :
  objectKey o = target R req → answers index (EUpdate c2 k2 o) w x w' → writesTarget req w w'.
Proof.
  intros Hk Hx. apply answers_world in Hx as [->| ->]; [done| |done]. simpl.
  destruct (serveWrite_answer c2 k2 false o w) as [|stored f merged o' _ _ Hf]; [done|]. simpl.
  split; [apply owners_owned|]. intros key Hkey. rewrite objects_owned.
  eapply commits_other; [exact Hf|]. by rewrite Hk.
Qed.

Lemma target_healthy req w w' :
  healthy w → evolves w w' → writesTarget req w w' → covered req w → healthy w'.
Proof.
  intros [Hv Hall] Hev [He Hi] Hcov. split; [by eapply evolves_versioned|].
  intros key Hsc Hlive. destruct (decide (key = target R req)) as [->|Hkey].
  - exists req. split; [done|]. by eapply covered_same.
  - destruct (Hall key Hsc) as (req' & -> & Hc).
    + intros Hr. apply Hlive. unfold released. by rewrite Hi.
    + exists req'. split; [done|]. by eapply covered_same.
Qed.
Lemma target_knows req s w w' :
  evolves w w' → writesTarget req w w' → knows req s w → knows req (setGone false s) w'.
Proof.
  intros Hev [He _] (Hf & _ & Hm). split; [intros Hs; eapply covered_same; eauto|]. split; [done|].
  intros m Hs. eapply copyOf_evolves; eauto.
Qed.

Lemma delete_releases key w x w' :
  answers index (EDelete c2 k2 key) w x w' →
  owners w' = owners w ∧ (∀ key', released key' w → released key' w') ∧
  (IgnoreNotFound x = None → released key w').
Proof.
  intros Hx.
  assert (∀ x1 w1, deleteAnswer c2 k2 key w (x1, w1) →
    owners w1 = owners w ∧ (∀ key', released key' w → released key' w1) ∧ released key w1) as Hdone.
  { intros x1 w1 Ha. inversion Ha as [Hn|o Ho Hd| |o o' Ho Hd _ _ _]; subst; split; try done;
      try apply owners_owned; unfold released; rewrite ?objects_owned.
    - split; [done|]. intros o Ho. unfold objects in Ho. congruence.
    - split; [done|]. intros o' Ho'. unfold objects in Ho'. by replace o' with o by congruence.
    - split; [|by intros o Ho; rewrite lookup_delete_eq in Ho].
      intros key' Hr o [_ Ho]%lookup_delete_Some. by apply Hr.
    - split; [|intros o1 Ho1; rewrite lookup_insert_eq in Ho1; by injection Ho1 as <-].
      intros key' Hr o1 [[_ <-]|[_ Ho1]]%lookup_insert_Some; [done|by apply Hr]. }
  pose proof (serveDelete_answer c2 k2 key w) as Hserve.
  destruct (serveDelete c2 k2 key w) as [x1 w1] eqn:Heq.
  destruct (Hdone _ _ Hserve) as (He & Hr & Hk).
  destruct Hx as [Hx|[Hfail Hx]]; simpl in Hx; rewrite Heq in Hx; simpl in Hx.
  - injection Hx as -> ->. auto.
  - split; [by destruct Hx as [->| ->]|]. split; [destruct Hx as [->| ->]; auto|].
    destruct x as [err|]; [|done]. simpl. by destruct Hfail as [_ ->].
Qed.
Lemma delete_knows req s w w' x :
  healthy w → evolves w w' → knows req s w → answers index (EDelete c2 k2 (target R req)) w x w' →
  knows req (match IgnoreNotFound x with None => setGone true s | Some _ => s end) w' ∧ healthy w'.
Proof.
  intros [Hv Hall] Hev (Hf & Hg & Hm) Hx. destruct (delete_releases _ _ _ _ Hx) as (He & Hrel & Hgone).
  assert (∀ req', covered req' w → covered req' w') as Hcov by (intros ?; by apply covered_same).
  split.
  - destruct (IgnoreNotFound x); (split; [by auto|split; [auto|]]).
    all: intros m Hk; eapply copyOf_evolves; eauto.
  - split; [by eapply evolves_versioned|]. intros key Hsc Hlive.
    destruct (Hall key Hsc) as (req' & -> & Hc); [|exists req'; auto].
    intros Hr. by apply Hlive, Hrel.
Qed.

(** *** Writes of the owner *)

Lemma commits_covered (o : obj k1) f req w :
  commits req o f →
  (∀ req', req' ≠ req → covered req' w → covered req' (written c1 k1 f w)) ∧
  (hasCleanup o → covered req (written c1 k1 f w)).
Proof.
  intros Hf. split.
  - intros req' Hreq (e & He & Hfin). exists e. split; [|done]. rewrite owners_owner.
    by rewrite (commits_other _ _ _ _ _ Hf Hreq).
  - intros Hfin. exists o. split; [|done]. rewrite owners_owner.
    destruct Hf as [->|(_ & _ & Hn)]; [apply lookup_insert_eq|].
    unfold hasCleanup in Hfin. rewrite Hn in Hfin. by apply not_elem_of_nil in Hfin.
Qed.
Lemma stamped_finalizers k (status : bool) (o stored : obj k) w :
  finalizersOf (updMeta (stampUpdate w (objectMeta stored))
    (if status then withStatusOf o stored else withStatusOf stored o)) =
  if status then finalizersOf stored else finalizersOf o.
Proof. unfold finalizersOf. rewrite updMeta_meta. simpl. by destruct status; rewrite withStatusOf_meta. Qed.

(** After an update the owner of the request is covered if it was and the update
    keeps the finalizer, or if the answer has it. *)
Lemma update_owner w (o : obj k1) x w' :
  answers index (EUpdate c1 k1 o) w x w' →
  objects w' = objects w ∧ (∀ req, req ≠ objectKey o → covered req w → covered req w') ∧
  (hasCleanup o → covered (objectKey o) w → covered (objectKey o) w') ∧
  ∀ o', x = inr o' → hasCleanup o' → covered (objectKey o) w'.
Proof.
  intros Hx. destruct (serveWrite c1 k1 false o w) as [x1 w1] eqn:Heq.
  assert (objects w1 = objects w ∧ (∀ req, req ≠ objectKey o → covered req w → covered req w1) ∧
    (hasCleanup o → covered (objectKey o) w → covered (objectKey o) w1) ∧
    ∀ o', x1 = inr o' → hasCleanup o' → covered (objectKey o) w1) as Hw.
  { pose proof (serveWrite_answer c1 k1 false o w) as Ha. rewrite Heq in Ha.
    inversion Ha as [err _ _|stored f merged o1 Hs _ Hf]; subst; [done|].
    destruct (commits_covered o1 f _ w Hf) as [Hother Hfin].
    split; [apply objects_owner|]. split; [done|]. split; [|by intros o' [= <-]].
    intros Hin _. apply Hfin. unfold hasCleanup. subst o1 merged.
    by rewrite (stamped_finalizers k1 false). }
  destruct Hx as [Hx|[Hfail Hx]]; simpl in Hx; rewrite Heq in Hx; simpl in Hx.
  - injection Hx as -> ->. done.
  - destruct x as [err|]; [|done]. destruct Hw as (? & ? & ? & _). by destruct Hx as [->| ->].
Qed.
Lemma status_owner w (o : obj k1) x w' :
  answers index (EStatusUpdate c1 k1 o) w x w' →
  objects w' = objects w ∧ (∀ req, covered req w → covered req w') ∧
  ∀ o', x = inr o' → hasCleanup o' → covered (objectKey o) w'.
Proof.
  intros Hx. destruct (serveWrite c1 k1 true o w) as [x1 w1] eqn:Heq.
  assert (objects w1 = objects w ∧ (∀ req, covered req w → covered req w1) ∧
    ∀ o', x1 = inr o' → hasCleanup o' → covered (objectKey o) w1) as Hw.
  { pose proof (serveWrite_answer c1 k1 true o w) as Ha. rewrite Heq in Ha.
    inversion Ha as [err _ _|stored f merged o1 Hs _ Hf]; subst; [done|].
    destruct (commits_covered o1 f _ w Hf) as [Hother Hfin].
    split; [apply objects_owner|]. split; [|by intros o' [= <-]].
    intros req Hc. destruct (decide (req = objectKey o)) as [->|Hreq]; [|by apply Hother].
    apply Hfin. destruct Hc as (e & He & Hin). unfold hasCleanup. subst o1 merged.
    rewrite (stamped_finalizers k1 true). unfold owners in He. by replace stored with e by congruence. }
  destruct Hx as [Hx|[Hfail Hx]]; simpl in Hx; rewrite Heq in Hx; simpl in Hx.
  - injection Hx as -> ->. done.
  - destruct x as [err|]; [|done]. destruct Hw as (? & ? & _). by destruct Hx as [->| ->].
Qed.

Lemma update_knows req s w w' (o : obj k1) x :
  healthy w → evolves w w' → knows req s w → objectKey o = req →
  (hasCleanup o ∨ cv_gone s = true) → answers index (EUpdate c1 k1 o) w x w' →
  knows req (match x with inr o' => seen o' s | inl _ => failed o s end) w' ∧ healthy w'.
Proof.
  intros [Hv Hall] Hev (Hf & Hg & Hm) <- Hmay Hx.
  destruct (update_owner w o x w' Hx) as (Hi & Hother & Hsame & Hnew). split.
  - destruct x as [err|o']; (split; [|split]); simpl.
    + intros [Hk Hin%bool_decide_eq_true]%andb_true_iff. auto.
    + intros Hk. eapply released_same; eauto.
    + intros m Hk. eapply copyOf_evolves; eauto.
    + intros Hin%bool_decide_eq_true. by eapply Hnew.
    + intros Hk. eapply released_same; eauto.
    + intros m [= <-]. by eapply copyOf_written, update_answered, Hx.
  - split; [by eapply evolves_versioned|]. intros key Hsc Hlive.
    destruct (Hall key Hsc) as (req' & -> & Hc).
    { intros Hr. apply Hlive. by eapply released_same. }
    exists req'. split; [done|]. destruct (decide (req' = objectKey o)) as [->|Hreq]; [|by apply Hother].
    destruct Hmay as [Hin|Hgone]; [by apply Hsame|].
    destruct Hlive. eapply released_same; eauto.
Qed.
Lemma status_knows req s w w' (o : obj k1) x :
  healthy w → evolves w w' → knows req s w → objectKey o = req →
  answers index (EStatusUpdate c1 k1 o) w x w' →
  knows req (match x with inr o' => seen o' s | inl _ => s end) w' ∧ healthy w'.
Proof.
  intros [Hv Hall] Hev (Hf & Hg & Hm) <- Hx.
  destruct (status_owner w o x w' Hx) as (Hi & Hsame & Hnew). split.
  - destruct x as [err|o']; (split; [|split]); simpl.
    + auto.
    + intros Hk. eapply released_same; eauto.
    + intros m Hk. eapply copyOf_evolves; eauto.
    + intros Hin%bool_decide_eq_true. by eapply Hnew.
    + intros Hk. eapply released_same; eauto.
    + intros m [= <-]. by eapply copyOf_written, statusUpdate_answered, Hx.
  - split; [by eapply evolves_versioned|]. intros key Hsc Hlive.
    destruct (Hall key Hsc) as (req' & -> & Hc); [|exists req'; auto].
    intros Hr. apply Hlive. by eapply released_same.
Qed.
Lemma seen_knows req s w (o : obj k1) :
  versioned w → owners w !! req = Some o → knows req s w → knows req (seen o s) w.
Proof.
  intros Hv Ho (_ & Hg & _). split; [|split; [done|]].
  - intros Hf%bool_decide_eq_true. by exists o.
  - intros m [= <-]. by eapply copyOf_stored.
Qed.


Ltac same_store H :=
  let Hc := fresh in let Hk := fresh in
  pose proof (f_equal fst H) as Hc; pose proof (f_equal snd H) as Hk; simpl in Hc, Hk; subst.

Lemma mayWrite_sendsCopy req X (e : eff X) s w : knows req s w → mayWrite req e s → sendsCopy e w.
Proof.
  intros (_ & _ & Hm) He. destruct e as [| | | |c k o| | | | | | | | | | | | | | | |]; try done.
  destruct He as (Hck & _ & Hs). same_store Hck. by apply Hm.
Qed.

Lemma call_knows req s w X (e : eff X) x w' :
  healthy w → knows req s w → mayWrite req e s → answers index e w x w' →
  evolves w w' → knows req (learn req e x s) w' ∧ healthy w'.
Proof.
  intros Hw Hs He Hx Hev.
  destruct e as [c k key|c k opts|c k o|c k o|c k o|c k key| | | | | | | | | | | | | | |]; simpl in *;
    try (destruct Hx as [_ ->]; done).
  - apply answers_read in Hx as [-> Hx]. split; [|done]. case_decide as Hck; [|done].
    destruct Hck as [Hck ->], x as [err|o]; [done|]. same_store Hck.
    apply seen_knows; [apply Hw|by apply Hx|done].
  - by apply answers_world in Hx as [->| ->].
  - destruct He as (Hck & Hk & Hf). same_store Hck. pose proof (create_target req w o x w' Hk Hx) as Ht.
    split; [by apply (target_knows req s w)|]. apply (target_healthy req w); [done..|]. by apply Hs.
  - destruct He as [(Hck & Hk & Hf)|(Hck & Hk & Hmay)]; same_store Hck.
    + rewrite decide_False by (intros Heq; apply Hne; by rewrite Heq, <-surjective_pairing).
      pose proof (update_target req w o x w' Hk Hx) as Ht.
      split; [by apply (target_knows req s w)|]. apply (target_healthy req w); [done..|]. by apply Hs.
    + rewrite decide_True by done. by eapply update_knows.
  - destruct He as (Hck & Hk & _). same_store Hck. by eapply status_knows.
  - destruct He as (Hck & ->). same_store Hck. by eapply delete_knows.
Qed.

Lemma cover_protects : protects index respects coverProtocol noCover knows healthy.
Proof.
  split.
  - intros req w _. apply knows_start.
  - intros w w' Ho Hw. split; [by eapply respects_healthy|]. intros req s. by apply respects_knows.
  - intros req s w X e x w' Hw Hs He Hx.
    destruct (answers_honest index X e w x w' (proj1 Hw)) as [Ha Hev];
      [by eapply mayWrite_sendsCopy|done|]. split; [exact Ha|]. by eapply call_knows.
Qed.

(** *** Other relations are not touched *)

Lemma respects_same w w' :
  evolves w w' → owners w' = owners w → objects w' = objects w → respects w w'.
Proof.
  intros Hev Hown Hobj. split; [done|]. split; [by intros; eapply covered_same|].
  by intros; eapply released_same.
Qed.

End protection.
End coverage.

(** A controller of another relation on other kinds of objects respects the
    relation. *)
Definition disjoint (R R' : relation) : Prop :=
  owner R ≠ owner R' ∧ owner R ≠ owned R' ∧ owned R ≠ owner R' ∧ owned R ≠ owned R'.

Lemma serve_frame index X (e : eff X) (R' : relation) req s w c k :
  mayWrite R' req e s → (c, k) ≠ owner R' → (c, k) ≠ owned R' →
  storeOf c (serve index X e w).2 k = storeOf c w k.
Proof.
  intros He H1 H2.
  destruct e as [| |c' k' o|c' k' o|c' k' o|c' k' key| | | | | | | | | | | | | | |]; try done; simpl in *.
  - destruct He as (Hck & _). destruct (serveCreate_answer c' k' o w); [done|]. simpl.
    apply written_ne. by rewrite Hck.
  - assert ((c', k') ≠ (c, k)) as Hn by (destruct He as [(-> & _)|(-> & _)]; done).
    destruct (serveWrite_answer c' k' false o w); [done|]. by apply written_ne.
  - destruct He as (Hck & _). destruct (serveWrite_answer c' k' true o w); [done|]. simpl.
    apply written_ne. by rewrite Hck.
  - destruct He as (Hck & _). assert ((c', k') ≠ (c, k)) as Hn by by rewrite Hck.
    destruct (serveDelete_answer c' k' key w); [done..| |]; by apply written_ne.
Qed.

Lemma call_respects index (R R' : relation) req s w X (e : eff X) x w' :
  disjoint R R' → versioned w → knows R' req s w → mayWrite R' req e s → answers index e w x w' →
  respects R w w'.
Proof.
  intros (H1 & H2 & H3 & H4) Hw Hs He Hx.
  destruct (answers_honest index X e w x w' Hw) as [_ Hev]; [by eapply mayWrite_sendsCopy|done|].
  assert (∀ c k, (c, k) ≠ owner R' → (c, k) ≠ owned R' → storeOf c w' k = storeOf c w k) as Hsame.
  { intros c k Ho Hd. destruct (atServer e) eqn:Hat.
    - apply answers_world in Hx as [->| ->]; [done| |done]. by eapply serve_frame.
    - unfold answers in Hx. rewrite Hat in Hx. by destruct Hx as [_ ->]. }
  apply respects_same; [done|apply Hsame|apply Hsame]; by rewrite <-surjective_pairing.
Qed.
