(* ===== verification/Conditions.v ===== *)
(** * [pkg/common/condition]: comparing and building status conditions *)

From S2P Require Import Prelude Prog Go Api Fleet Azure Effects Deps.

Definition conditionReasonNoConflictFound := "NoConflictFound".
Definition conditionReasonConflictFound := "ConflictFound".

Definition EqualCondition (current desired : option Condition) : bool :=
  match current, desired with
  | None, None => true
  | Some cur, Some des =>
      bool_decide (c_Type cur = c_Type des) &&
      bool_decide (c_Status cur = c_Status des) &&
      bool_decide (c_Reason cur = c_Reason des) &&
      (c_ObservedGeneration des <=? c_ObservedGeneration cur)%Z
  | _, _ => false
  end.

Definition EqualConditionIgnoreReason (current desired : option Condition) : bool :=
  match current, desired with
  | None, None => true
  | Some cur, Some des =>
      bool_decide (c_Type cur = c_Type des) &&
      bool_decide (c_Status cur = c_Status des) &&
      (c_ObservedGeneration des <=? c_ObservedGeneration cur)%Z
  | _, _ => false
  end.

Definition EqualConditionWithMessage (current desired : option Condition) : bool :=
  match current, desired with
  | None, None => true
  | Some cur, Some des =>
      bool_decide (c_Type cur = c_Type des) &&
      bool_decide (c_Status cur = c_Status des) &&
      bool_decide (c_Reason cur = c_Reason des) &&
      bool_decide (c_Message cur = c_Message des) &&
      (c_ObservedGeneration des <=? c_ObservedGeneration cur)%Z
  | _, _ => false
  end.

Definition UnconflictedServiceExportConflictCondition (e : InternalServiceExport) : Condition :=
  let ref := ise_ServiceReference (ise_Spec e) in
  let svcName := {| nn_Namespace := ref_Namespace ref; nn_Name := ref_Name ref |} in
  {| c_Type := ServiceExportConflict;
     c_Status := ConditionFalse;
     c_Reason := conditionReasonNoConflictFound;
     c_ObservedGeneration := om_Generation (ise_ObjectMeta e);
     c_LastTransitionTime := None;
     c_Message := "service " +:+ NamespacedName_String svcName +:+
       " is exported without conflict" |}.

Definition ConflictedServiceExportConflictCondition (e : InternalServiceExport) : Condition :=
  let ref := ise_ServiceReference (ise_Spec e) in
  let svcName := {| nn_Namespace := ref_Namespace ref; nn_Name := ref_Name ref |} in
  {| c_Type := ServiceExportConflict;
     c_Status := ConditionTrue;
     c_Reason := conditionReasonConflictFound;
     c_ObservedGeneration := om_Generation (ise_ObjectMeta e);
     c_LastTransitionTime := None;
     c_Message := "service " +:+ NamespacedName_String svcName +:+
       " is in conflict with other exported services" |}.

(** ** Lemmas *)

Lemma EqualConditionWithMessage_spec cur des :
  EqualConditionWithMessage (Some cur) (Some des) = true ↔
  c_Type cur = c_Type des ∧ c_Status cur = c_Status des ∧ c_Reason cur = c_Reason des ∧
  c_Message cur = c_Message des ∧ (c_ObservedGeneration des ≤ c_ObservedGeneration cur)%Z.
Proof.
  simpl. rewrite !andb_true_iff, !bool_decide_eq_true, Z.leb_le. tauto.
Qed.
Lemma EqualCondition_spec cur des :
  EqualCondition (Some cur) (Some des) = true ↔
  c_Type cur = c_Type des ∧ c_Status cur = c_Status des ∧ c_Reason cur = c_Reason des ∧
  (c_ObservedGeneration des ≤ c_ObservedGeneration cur)%Z.
Proof.
  simpl. rewrite !andb_true_iff, !bool_decide_eq_true, Z.leb_le. tauto.
Qed.

(** Each comparison refines the next coarser one. *)
Lemma EqualConditionWithMessage_EqualCondition cur des :
  EqualConditionWithMessage cur des = true → EqualCondition cur des = true.
Proof.
  destruct cur, des; try done. rewrite EqualConditionWithMessage_spec, EqualCondition_spec.
  tauto.
Qed.
Lemma EqualCondition_IgnoreReason cur des :
  EqualCondition cur des = true → EqualConditionIgnoreReason cur des = true.
Proof.
  destruct cur, des; try done. rewrite EqualCondition_spec. simpl.
  rewrite !andb_true_iff, !bool_decide_eq_true, Z.leb_le. tauto.
Qed.

Lemma sameCondition_equal c c' :
  sameCondition c c' → EqualConditionWithMessage (Some c') (Some c) = true.
Proof.
  intros (? & ? & ? & ? & Hg). apply EqualConditionWithMessage_spec. rewrite Hg. auto with lia.
Qed.

Section with_util.
Context `{!ControllerUtil, !ControllerUtilLaws}.

(** A condition that was just set needs no second update. *)
Lemma SetStatusCondition_equal now cs c :
  EqualConditionWithMessage (FindStatusCondition (setCondition now cs c) (c_Type c)) (Some c)
    = true.
Proof.
  destruct (setCondition_same now cs c) as (c' & -> & Hc'). by apply sameCondition_equal.
Qed.
End with_util.
#[export] Hint Resolve EqualConditionWithMessage_EqualCondition
  EqualCondition_IgnoreReason SetStatusCondition_equal : fleet.
