(* ===== verification/ObjectMeta.v ===== *)
(** * [pkg/common/objectmeta] and [pkg/common/metrics]: names shared by the
    controllers, and the weight annotation of a ServiceExport *)

From S2P Require Import Prelude Prog Go Api Fleet.

Definition fleetNetworkingPrefix := "networking.fleet.azure.com/".

(** Finalizers. *)
Definition InternalServiceExportFinalizer := fleetNetworkingPrefix +:+ "internal-svc-export-cleanup".
Definition TrafficManagerProfileFinalizer := fleetNetworkingPrefix +:+ "traffic-manager-profile-cleanup".
Definition TrafficManagerBackendFinalizer := fleetNetworkingPrefix +:+ "traffic-manager-backend-cleanup".
Definition MetricsFinalizer := fleetNetworkingPrefix +:+ "metrics-cleanup".

(** Labels. *)
Definition MultiClusterServiceLabelDerivedService := fleetNetworkingPrefix +:+ "derived-service".

(** Annotations. *)
Definition ServiceImportAnnotationServiceInUseBy := fleetNetworkingPrefix +:+ "service-in-use-by".
Definition ExportedObjectAnnotationUniqueName := fleetNetworkingPrefix +:+ "fleet-unique-name".
Definition ServiceExportAnnotationWeight := fleetNetworkingPrefix +:+ "weight".
Definition ServiceAnnotationAzureLoadBalancerInternal :=
  "service.beta.kubernetes.io/azure-load-balancer-internal".
Definition ServiceAnnotationLoadBalancerResourceGroup :=
  "service.beta.kubernetes.io/azure-load-balancer-resource-group".
Definition ServiceAnnotationAzureDNSLabelName :=
  "service.beta.kubernetes.io/azure-dns-label-name".

(** Azure tags: the prefix with its slash replaced by a dot. *)
Definition AzureTrafficManagerProfileTagKey :=
  ReplaceChar "/" "." fleetNetworkingPrefix +:+ "trafficManagerProfile".

(** Annotations of the metrics. *)
Definition MetricsAnnotationLastSeenGeneration := "networking.fleet.azure.com/last-seen-generation".
Definition MetricsAnnotationLastSeenResourceVersion :=
  "networking.fleet.azure.com/last-seen-resource-version".
Definition MetricsAnnotationLastObservedGeneration :=
  "networking.fleet.azure.com/last-observed-generation".
Definition MetricsAnnotationLastObservedResourceVersion :=
  "networking.fleet.azure.com/last-observed-resource-version".
Definition MetricsAnnotationLastSeenTimestamp := "networking.fleet.azure.com/last-seen-timestamp".
(** [ExportDurationRightBound], in milliseconds: twice the last bucket. *)
Definition ExportDurationMillisecondsBuckets : list Z := [1000; 2500; 5000; 10000; 25000; 50000]%Z.
Definition ExportDurationRightBound : Z :=
  (default 0 (last ExportDurationMillisecondsBuckets) * 2)%Z.

(** [startTime.Sub(exportedSince)] in milliseconds, replaced by one second when
    it is not positive, and capped. *)
Definition exportDuration (startTime exportedSince : Time) : Z :=
  let timeSpent := Milliseconds (Sub startTime exportedSince) in
  let timeSpent := if (timeSpent <=? 0)%Z then (Milliseconds Second * 1)%Z else timeSpent in
  if (ExportDurationRightBound <? timeSpent)%Z then ExportDurationRightBound else timeSpent.

Lemma exportDuration_bounds t since : (1 ≤ exportDuration t since ≤ ExportDurationRightBound)%Z.
Proof.
  unfold exportDuration. change ExportDurationRightBound with 100000%Z.
  change (Milliseconds Second * 1)%Z with 1000%Z.
  destruct (Z.leb_spec (Milliseconds (Sub t since)) 0);
    [|destruct (Z.ltb_spec 100000 (Milliseconds (Sub t since)))]; simpl; lia.
Qed.

(** [ExtractWeightFromServiceExport]: the error carries its message; the
    weight returned beside an error (-1) is not used by the callers. *)
Definition ExtractWeightFromServiceExport (svcExport : ServiceExport) : error + Z :=
  match map_get (om_Annotations (se_ObjectMeta svcExport)) ServiceExportAnnotationWeight with
  | None => inr 1%Z
  | Some weightAnno =>
      match Atoi weightAnno with
      | None => inl (ErrorString ("the weight annotation is not a valid integer: " +:+ weightAnno))
      | Some weight =>
          if (weight <? 0)%Z || (1000 <? weight)%Z
          then inl (ErrorString ("the weight annotation is not in the range [0, 1000]: "
                                   +:+ weightAnno))
          else inr weight
      end
  end.

Lemma ExtractWeight_bounds se w :
  ExtractWeightFromServiceExport se = inr w → (0 ≤ w ≤ 1000)%Z.
Proof.
  unfold ExtractWeightFromServiceExport. repeat case_match; try done; intros [= <-]; [|lia].
  apply orb_false_iff in H1 as [?%Z.ltb_ge ?%Z.ltb_ge]. lia.
Qed.
#[export] Hint Resolve ExtractWeight_bounds : fleet.

(** C38: the weight of a ServiceExport is one when the annotation is missing and
    a number from 0 to 1000 otherwise; it is an error exactly when the annotation
    is there and is not such a number. *)
Theorem ExtractWeight_spec se :
  match ExtractWeightFromServiceExport se,
        map_get (om_Annotations (se_ObjectMeta se)) ServiceExportAnnotationWeight with
  | inr w, None => w = 1%Z
  | inr w, Some s => Atoi s = Some w ∧ (0 ≤ w ≤ 1000)%Z
  | inl _, None => False
  | inl _, Some s => ∀ w, Atoi s = Some w → (w < 0 ∨ 1000 < w)%Z
  end.
Proof.
  unfold ExtractWeightFromServiceExport.
  destruct (map_get _ _) as [s|]; [|done]. destruct (Atoi s) as [w|]; [|done].
  destruct (_ || _) eqn:Hw.
  - apply orb_true_iff in Hw as [?%Z.ltb_lt|?%Z.ltb_lt]; intros ? [= <-]; lia.
  - apply orb_false_iff in Hw as [?%Z.ltb_ge ?%Z.ltb_ge]. split; [done|lia].
Qed.

(** a number written as the weight annotation is read back as the weight
    when it lies in the range from 0 to 1000, and refused when it does not. *)
Theorem weight_annotation_roundtrip se w :
  map_get (om_Annotations (se_ObjectMeta se)) ServiceExportAnnotationWeight = Some (FormatInt w) →
  if bool_decide (0 ≤ w ≤ 1000)%Z then ExtractWeightFromServiceExport se = inr w
  else ∃ err, ExtractWeightFromServiceExport se = inl err.
Proof.
  intros Hs. unfold ExtractWeightFromServiceExport, Atoi. rewrite Hs, ParseInt_FormatInt.
  unfold minInt64, maxInt64. case_bool_decide; case_bool_decide; [|lia|eauto..].
  - by destruct (Z.ltb_spec w 0), (Z.ltb_spec 1000 w); [lia..|].
  - destruct (Z.ltb_spec w 0), (Z.ltb_spec 1000 w); simpl; eauto; lia.
Qed.

Lemma weight_annotation_roundtrip_witness :
  ExtractWeightFromServiceExport {| se_TypeMeta := {| tm_Kind := ""; tm_APIVersion := "" |};
    se_ObjectMeta := setAnnotations (Some {[ServiceExportAnnotationWeight := "250"]})
      (newObjectMeta "work" "app"); se_Conditions := [] |} = inr 250%Z.
Proof.
  pose proof (weight_annotation_roundtrip {| se_TypeMeta := {| tm_Kind := ""; tm_APIVersion := "" |};
    se_ObjectMeta := setAnnotations (Some {[ServiceExportAnnotationWeight := "250"]})
      (newObjectMeta "work" "app"); se_Conditions := [] |} 250 eq_refl) as H. exact H.
Defined.

(** a data point of the export durations is the time since the export in
    milliseconds where that lies between one millisecond and the bound, one
    second when it is not positive, and the bound when it is longer. *)
Theorem exportDuration_spec t since :
  let spent := Milliseconds (Sub t since) in
  (1 ≤ exportDuration t since ≤ ExportDurationRightBound)%Z ∧
  (spent ≤ 0 → exportDuration t since = 1000)%Z ∧
  (1 ≤ spent ≤ ExportDurationRightBound → exportDuration t since = spent)%Z ∧
  (ExportDurationRightBound ≤ spent → exportDuration t since = ExportDurationRightBound)%Z.
Proof.
  intros spent. split; [apply exportDuration_bounds|]. unfold exportDuration. fold spent.
  change ExportDurationRightBound with 100000%Z. change (Milliseconds Second * 1)%Z with 1000%Z.
  destruct (Z.leb_spec spent 0); [simpl; lia|]. destruct (Z.ltb_spec 100000 spent); lia.
Qed.
