(* ===== verification/AzureErrors.v ===== *)
(** * [pkg/common/azureerrors]: classes of Azure errors *)

From S2P Require Import Prelude Prog Go.

Module azureerrors.
(** [errors.As(err, &responseError)] and a test of its status code. *)
Definition statusCode (test : Z → bool) (err : option error) : bool :=
  match err ≫= asResponseError with
  | Some code => test code
  | None => false
  end.
Definition StatusBadRequest : Z := 400.
Definition StatusForbidden : Z := 403.
Definition StatusNotFound : Z := 404.
Definition StatusConflict : Z := 409.
Definition StatusTooManyRequests : Z := 429.
Definition StatusInternalServerError : Z := 500.

Definition IsNotFound := statusCode (λ c, Z.eqb c StatusNotFound).
Definition IsClientError :=
  statusCode (λ c, (StatusBadRequest <=? c)%Z && (c <? StatusInternalServerError)%Z).
Definition IsConflict := statusCode (λ c, Z.eqb c StatusConflict).
Definition IsThrottled := statusCode (λ c, Z.eqb c StatusTooManyRequests).
Definition IsForbidden := statusCode (λ c, Z.eqb c StatusForbidden).

Lemma statusCode_mono (t1 t2 : Z → bool) err :
  (∀ c, t1 c = true → t2 c = true) → statusCode t1 err = true → statusCode t2 err = true.
Proof. unfold statusCode. case_match; auto. Qed.
Lemma IsConflict_client err : IsConflict err = true → IsClientError err = true.
Proof. apply statusCode_mono. intros c ->%Z.eqb_eq. done. Qed.
Lemma IsThrottled_client err : IsThrottled err = true → IsClientError err = true.
Proof. apply statusCode_mono. intros c ->%Z.eqb_eq. done. Qed.
Lemma IsForbidden_client err : IsForbidden err = true → IsClientError err = true.
Proof. apply statusCode_mono. intros c ->%Z.eqb_eq. done. Qed.
Lemma IsNotFound_client err : IsNotFound err = true → IsClientError err = true.
Proof. apply statusCode_mono. intros c ->%Z.eqb_eq. done. Qed.
Lemma IsConflict_not_throttled err : IsConflict err = true → IsThrottled err = false.
Proof.
  unfold IsConflict, IsThrottled, statusCode. case_match; [|done]. by intros ->%Z.eqb_eq.
Qed.
End azureerrors.
#[export] Hint Resolve azureerrors.IsConflict_client azureerrors.IsThrottled_client
  azureerrors.IsForbidden_client azureerrors.IsNotFound_client
  azureerrors.IsConflict_not_throttled : fleet.
