(* ===== verification/ApiRetry.v ===== *)
(** * [pkg/common/apiretry]: retrying API server calls *)

From S2P Require Import Prelude Prog Go Api Fleet Azure Effects Deps.

Definition retriable (err : error) : bool :=
  IsTimeout err || IsServerTimeout err || IsTooManyRequests err.

(** [Do]: the back-off only decides how often and when an attempt is made; [a]
    are the variables the function captures and assigns. *)
Definition Do `{ControllerUtil} {A} (do : A → IO (option error * A)) (a : A)
    : IO (option error * A) :=
  OnError retriable do a.

(** [Do] with a function that assigns nothing. *)
Definition DoPure `{ControllerUtil} (do : IO (option error)) : IO (option error) :=
  '(err, _) ← Do (λ _, err ← do; mret (err, tt)) tt; mret err.

Definition backOffPeriod : Backoff := {|
  bo_Steps := 5; bo_Duration := 500 * Millisecond; bo_Factor := 160; bo_Jitter := 20;
  bo_Cap := Second * 5 |}%Z.

(** A round of the wait: [lastErr] is captured by the condition. *)
Definition checkDeleted (get : IO (option error)) (lastErr : option error)
    : IO (bool * option error * option error) :=
  err ← get;
  mret match err with
       | None => (false, None, None)
       | Some err =>
           if IsNotFound err then (true, None, lastErr)
           else if retriable err then (false, None, Some err)
           else (false, Some err, lastErr)
       end.
Definition WaitUntilObjectDeleted `{Wait} (get : IO (option error)) : IO (option error) :=
  '(err, lastErr) ← ExponentialBackoffWithContext backOffPeriod (checkDeleted get) None;
  mret match err with
       | None => None
       | Some err =>
           if Interrupted err
           then match lastErr with
                | None => Some (ErrorInterrupted (ErrorString "timed out or the context ended"))
                | Some lastErr => Some lastErr
                end
           else Some err
       end.

(** ** Lemmas *)

Section laws.
Context `{!ControllerUtil, !ControllerUtilLaws}.

Lemma Do_wp {S} (P : protocol eff S) {A} (fn : A → IO (option error * A)) a s
    (I : A → S → Prop) (Q : option error * A → S → Prop) :
  (∀ a s, I a s → wp P (fn a) s (λ r s', Q r s' ∧
     match r.1 with Some err => retriable err = true → I r.2 s' | None => True end)) →
  I a s → wp P (Do fn a) s Q.
Proof. apply OnError_wp. Qed.

Lemma DoPure_wp {S} (P : protocol eff S) (fn : IO (option error)) s
    (I : S → Prop) (Q : option error → S → Prop) :
  (∀ s, I s → wp P fn s (λ r s', Q r s' ∧
     match r with Some err => retriable err = true → I s' | None => True end)) →
  I s → wp P (DoPure fn) s Q.
Proof.
  intros Hfn HI. apply wp_bind.
  eapply (Do_wp _ _ _ _ (λ _, I)); [|exact HI].
  intros [] s1 HI1. apply wp_bind. eapply wp_mono; [by apply Hfn|].
  intros err s2 [HQ Hre]. apply wp_ret. split; [by apply wp_ret|done].
Qed.
End laws.

(** The wait ends without an error only after an attempt that did not find the
    object. *)
Lemma WaitUntilObjectDeleted_wp `{!Wait, !WaitLaws} {S} (P : protocol eff S) (get : IO (option error)) s
    (I : S → Prop) (Q : option error → S → Prop) :
  (∀ s, I s → wp P get s (λ r s', I s' ∧
     match r with Some err => IsNotFound err = true → Q None s' | None => True end)) →
  (∀ err s, I s → Q (Some err) s) →
  I s → wp P (WaitUntilObjectDeleted get) s Q.
Proof.
  intros Hget Herr HI. apply wp_bind.
  apply (ExponentialBackoffWithContext_wp _ _ _ _ _ _ _ (λ _, I)).
  - intros lastErr s1 HI1. apply wp_bind. eapply wp_mono; [by apply Hget|]. intros [err|] s2 [HI2 HQ].
    + apply wp_ret. destruct (IsNotFound err) eqn:Hnf; [by apply wp_ret, HQ|].
      destruct (retriable err); [done|]. apply wp_ret. case_match; [case_match|]; by apply Herr.
    + by apply wp_ret.
  - intros err lastErr s1 HI1 _. apply wp_ret. case_match; [case_match|]; by apply Herr.
  - done.
Qed.

Lemma retriable_not_found err : IsNotFound err = true → retriable err = false.
Proof.
  unfold retriable, IsTimeout, IsServerTimeout, IsTooManyRequests, IsNotFound, hasReason.
  destruct (asStatusError err) as [[r d]|]; [|done]. by intros <-%bool_decide_eq_true.
Qed.
Lemma retriable_conflict err : IsConflict err = true → retriable err = false.
Proof.
  unfold retriable, IsTimeout, IsServerTimeout, IsTooManyRequests, IsConflict, hasReason.
  destruct (asStatusError err) as [[r d]|]; [|done]. by intros <-%bool_decide_eq_true.
Qed.
#[export] Hint Resolve retriable_not_found retriable_conflict : fleet.
