(* ===== verification/TimeFormat.v ===== *)
(** * [time.RFC3339]: formatting and parsing instants

    The controllers store timestamps in annotations with
    [time.Format(time.RFC3339)] and read them back with [time.Parse].  An
    instant is a number of nanoseconds since the Unix epoch; the proleptic
    Gregorian calendar is computed on 400-year eras that start on 1 March. *)

From S2P Require Import Prelude Prog Go.

(** [lia] with quotients and remainders by constants. *)
Ltac dlia := Z.to_euclidean_division_equations; lia.

Local Open Scope Z_scope.

(** ** The calendar *)

Definition daysPerEra : Z := 146097.

(** The year within the era and the day within that year, both counted from
    1 March, of a day of the era: centuries, 4-year cycles, years; the last
    century of an era and the last year of a cycle have one day more. *)
Definition year_of_doe (doe : Z) : Z * Z :=
  let c := Z.min 3 (doe / 36524) in
  let d1 := doe - 36524 * c in
  let q := d1 / 1461 in
  let d2 := d1 - 1461 * q in
  let r := Z.min 3 (d2 / 365) in
  (100 * c + 4 * q + r, d2 - 365 * r).

(** Month and day of a day of a year that starts on 1 March. *)
Definition month_of_doy (doy : Z) : Z * Z :=
  let mp := (5 * doy + 2) / 153 in
  (if mp <? 10 then mp + 3 else mp - 9, doy - (153 * mp + 2) / 5 + 1).
Definition doy_of_month (m d : Z) : Z :=
  let mp := if 2 <? m then m - 3 else m + 9 in
  (153 * mp + 2) / 5 + d - 1.

(** Days since 1970-01-01; 719468 is the day number of that date. *)
Definition civil_of_days (days : Z) : Z * Z * Z :=
  let z := days + 719468 in
  let '(yoe, doy) := year_of_doe (z mod daysPerEra) in
  let '(m, d) := month_of_doy doy in
  (400 * (z / daysPerEra) + yoe + (if m <=? 2 then 1 else 0), m, d).

Definition days_of_civil (y m d : Z) : Z :=
  let y := if m <=? 2 then y - 1 else y in
  let era := y / 400 in
  let yoe := y mod 400 in
  era * daysPerEra + (yoe * 365 + yoe / 4 - yoe / 100 + doy_of_month m d) - 719468.

Definition isLeap (y : Z) : bool :=
  (y mod 4 =? 0) && (negb (y mod 100 =? 0) || (y mod 400 =? 0)).
Definition daysIn (m y : Z) : Z :=
  if m =? 2 then (if isLeap y then 29 else 28)
  else if (m =? 4) || (m =? 6) || (m =? 9) || (m =? 11) then 30 else 31.

(** ** Format *)

Definition digit (n : Z) : ascii := Ascii.ascii_of_nat (48 + Z.to_nat (n mod 10)).
Definition pad2 (n : Z) (s : string) : string := String (digit (n / 10)) (String (digit n) s).
Definition pad4 (n : Z) (s : string) : string := pad2 (n / 100) (pad2 (n mod 100) s).

(** [t.Format(time.RFC3339)] where [offset] is the offset in seconds of the
    location of [t] at that instant; years are four digits wide (0 to 9999). *)
Definition FormatRFC3339 (offset : Z) (t : Time) : string :=
  let secs := t / Second + offset in
  let '(y, m, d) := civil_of_days (secs / 86400) in
  let sod := secs mod 86400 in
  pad4 y (String "-" (pad2 m (String "-" (pad2 d (String "T"
    (pad2 (sod / 3600) (String ":" (pad2 (sod / 60 mod 60) (String ":" (pad2 (sod mod 60)
      (if offset =? 0 then String "Z" EmptyString
       else String (if offset <? 0 then "-"%char else "+"%char)
              (pad2 (Z.abs offset / 3600)
                 (String ":" (pad2 (Z.abs offset / 60 mod 60) EmptyString)))))))))))))).

(** ** Parse *)

Definition digitValue (c : ascii) : Z := Z.of_nat (Ascii.nat_of_ascii c) - 48.

Definition skip (c : ascii) (s : string) : option string :=
  match s with
  | String c' s => if decide (c = c') then Some s else None
  | EmptyString => None
  end.

(** [getnum]: two digits, or a single one when [fixed] is false. *)
Definition getnum (fixed : bool) (s : string) : option (Z * string) :=
  match s with
  | String c1 s1 =>
      if negb (isDigit c1) then None else
      match s1 with
      | String c2 s2 =>
          if isDigit c2 then Some (digitValue c1 * 10 + digitValue c2, s2)
          else if fixed then None else Some (digitValue c1, s1)
      | EmptyString => if fixed then None else Some (digitValue c1, s1)
      end
  | EmptyString => None
  end.

Definition get4 (s : string) : option (Z * string) :=
  a ← getnum true s; b ← getnum true a.2; mret (a.1 * 100 + b.1, b.2).

(** The digits of a fraction of a second, read up to nine of them. *)
Fixpoint fraction (scale : Z) (acc : Z) (s : string) : Z * string :=
  match s with
  | String c s' => if isDigit c then fraction (scale / 10) (acc + digitValue c * scale) s'
                   else (acc, s)
  | EmptyString => (acc, s)
  end.
Definition parseFraction (s : string) : Z * string :=
  match s with
  | String p (String c _ as s') =>
      if (bool_decide (p = "."%char) || bool_decide (p = ","%char)) && isDigit c
      then fraction 100000000 0 s' else (0, s)
  | _ => (0, s)
  end.

Definition parseZone (s : string) : option (Z * string) :=
  match s with
  | String c s' =>
      if decide (c = "Z"%char) then Some (0, s') else
      sign ← (if decide (c = "+"%char) then Some 1
              else if decide (c = "-"%char) then Some (-1) else None);
      h ← getnum true s'; s ← skip ":" h.2; m ← getnum true s;
      if (h.1 <=? 24) && (m.1 <=? 60) then Some (sign * (h.1 * 3600 + m.1 * 60), m.2) else None
  | EmptyString => None
  end.

(** [time.Parse(time.RFC3339, s)]; the error is not looked at by the callers. *)
Definition ParseRFC3339 (s : string) : option Time :=
  y ← get4 s; s ← skip "-" y.2;
  m ← getnum true s; s ← skip "-" m.2;
  d ← getnum true s; s ← skip "T" d.2;
  h ← getnum false s; s ← skip ":" h.2;
  mi ← getnum true s; s ← skip ":" mi.2;
  sec ← getnum true s;
  let '(ns, s) := parseFraction sec.2 in
  z ← parseZone s;
  if (1 <=? m.1) && (m.1 <=? 12) && (1 <=? d.1) && (d.1 <=? daysIn m.1 y.1) &&
     (h.1 <? 24) && (mi.1 <? 60) && (sec.1 <? 60) && bool_decide (z.2 = EmptyString)
  then Some ((days_of_civil y.1 m.1 d.1 * 86400 + h.1 * 3600 + mi.1 * 60 + sec.1 - z.1) * Second
             + ns)
  else None.

(** ** The round trip *)

Lemma year_of_doe_spec doe :
  0 ≤ doe < daysPerEra →
  let '(yoe, doy) := year_of_doe doe in
  0 ≤ yoe < 400 ∧ 0 ≤ doy ≤ 365 ∧ yoe * 365 + yoe / 4 - yoe / 100 + doy = doe ∧
  (doy = 365 → isLeap (yoe + 1) = true).
Proof.
  unfold daysPerEra, year_of_doe. intros Hdoe.
  remember (Z.min 3 (doe / 36524)) as c eqn:Hc.
  assert (0 ≤ c ≤ 3 ∧ 0 ≤ doe - 36524 * c ∧
          (c < 3 → doe - 36524 * c < 36524) ∧ doe - 36524 * c ≤ 36524) as (? & ? & ? & ?) by dlia.
  clear Hc. remember (doe - 36524 * c) as d1 eqn:Hd1.
  remember (d1 / 1461) as q eqn:Hq.
  assert (0 ≤ q ≤ 24 ∧ 0 ≤ d1 - 1461 * q < 1461) as (? & ?) by dlia.
  clear Hq. remember (d1 - 1461 * q) as d2 eqn:Hd2.
  remember (Z.min 3 (d2 / 365)) as r eqn:Hr.
  assert (0 ≤ r ≤ 3 ∧ 0 ≤ d2 - 365 * r ≤ 365 ∧ (d2 - 365 * r = 365 → r = 3)) as (? & ? & ?) by dlia.
  clear Hr. repeat split; try dlia.
  intros Hdoy. assert (r = 3) as -> by dlia.
  assert (q = 24 → c = 3) by dlia. unfold isLeap.
  apply andb_true_iff; split; [apply Z.eqb_eq; dlia|].
  apply orb_true_iff. destruct (decide (q = 24)); [right|left].
  - apply Z.eqb_eq. dlia.
  - apply negb_true_iff, Z.eqb_neq. dlia.
Qed.

Definition checkDay (doy : Z) : bool :=
  let '(m, d) := month_of_doy doy in
  (doy_of_month m d =? doy) && (1 <=? m) && (m <=? 12) && (1 <=? d) &&
  ((d <=? daysIn m 1) && (doy <? 365) || (doy =? 365) && (m =? 2) && (d =? 29)).

Lemma checkDay_year doy : 0 ≤ doy ≤ 365 → checkDay doy = true.
Proof.
  intros Hdoy.
  assert (forallb checkDay (Z.of_nat <$> seq 0 366) = true) as Hall by (vm_compute; done).
  rewrite forallb_forall in Hall. apply Hall, list_elem_of_In, list_elem_of_fmap.
  exists (Z.to_nat doy). split; [lia|]. apply elem_of_seq. lia.
Qed.

Lemma isLeap_shift y k : isLeap (y + 400 * k) = isLeap y.
Proof.
  unfold isLeap. replace ((y + 400 * k) mod 4) with (y mod 4) by dlia.
  replace ((y + 400 * k) mod 100) with (y mod 100) by dlia.
  by replace ((y + 400 * k) mod 400) with (y mod 400) by dlia.
Qed.

Lemma checkDay_spec doy :
  0 ≤ doy ≤ 365 →
  let '(m, d) := month_of_doy doy in
  doy_of_month m d = doy ∧ 1 ≤ m ≤ 12 ∧ 1 ≤ d ∧ (doy = 365 → m = 2) ∧
  ∀ y, (doy = 365 → isLeap y = true) → d ≤ daysIn m y.
Proof.
  intros Hdoy. pose proof (checkDay_year doy Hdoy) as Hc. unfold checkDay in Hc.
  destruct (month_of_doy doy) as [m d].
  rewrite !andb_true_iff, orb_true_iff, !andb_true_iff, !Z.leb_le, !Z.eqb_eq, Z.ltb_lt in Hc.
  destruct Hc as [[[[? ?] ?] ?] Hd].
  repeat split; try lia. intros y Hleap. unfold daysIn in *.
  destruct Hd as [[Hd _]|[[H365 ->] ->]].
  - destruct (m =? 2); [|done]. simpl in Hd. destruct (isLeap y); lia.
  - by rewrite (Hleap H365).
Qed.

Lemma civil_of_days_spec days :
  let '(y, m, d) := civil_of_days days in
  days_of_civil y m d = days ∧ 1 ≤ m ≤ 12 ∧ 1 ≤ d ≤ daysIn m y.
Proof.
  unfold civil_of_days.
  pose proof (Z.mod_pos_bound (days + 719468) daysPerEra ltac:(done)) as Hb.
  pose proof (Z.div_mod (days + 719468) daysPerEra ltac:(done)) as Hdm.
  pose proof (year_of_doe_spec _ Hb) as Hy.
  destruct (year_of_doe _) as [yoe doy]. destruct Hy as (Hyoe & Hdoy & Hdoe & Hleap).
  pose proof (checkDay_spec doy Hdoy) as Hm.
  destruct (month_of_doy doy) as [m d]. destruct Hm as (Hmd & Hm & Hd & Hfeb & Hin).
  set (era := (days + 719468) / daysPerEra) in *.
  split; [|split; [done|split; [done|]]].
  - unfold days_of_civil.
    replace (if m <=? 2 then _ else _) with (yoe + era * 400) by (destruct (m <=? 2); lia).
    rewrite Z.div_add, Z.mod_add, Z.div_small, Z.mod_small by lia. lia.
  - apply Hin. intros H365. rewrite (Hfeb H365). simpl.
    rewrite <-(Hleap H365), <-(isLeap_shift (yoe + 1) era). f_equal. lia.
Qed.

Arguments digit : simpl never.
Arguments pad2 : simpl never.
Arguments getnum : simpl never.

Lemma digit_spec n : isDigit (digit n) = true ∧ digitValue (digit n) = n mod 10.
Proof.
  pose proof (Z.mod_pos_bound n 10 ltac:(lia)). unfold digit, digitValue, isDigit.
  rewrite Ascii.nat_ascii_embedding by lia.
  split; [apply andb_true_iff; split; apply Nat.leb_le; lia|lia].
Qed.

Lemma getnum_pad2 fixed n s : 0 ≤ n < 100 → getnum fixed (pad2 n s) = Some (n, s).
Proof.
  intros Hn. unfold pad2, getnum.
  destruct (digit_spec (n / 10)) as [-> ->], (digit_spec n) as [-> ->]. simpl.
  do 2 f_equal. dlia.
Qed.

Opaque pad2 getnum.

Lemma get4_pad4 n s : 0 ≤ n < 10000 → get4 (pad4 n s) = Some (n, s).
Proof.
  intros Hn. unfold get4, pad4. rewrite getnum_pad2 by dlia. simpl.
  rewrite getnum_pad2 by dlia. simpl. do 2 f_equal. dlia.
Qed.

Lemma skip_same c s : skip c (String c s) = Some s.
Proof. simpl. by rewrite decide_True. Qed.

(** The text of the zone is not a fraction and is read back. *)
Definition formatZone (offset : Z) : string :=
  if offset =? 0 then String "Z" EmptyString
  else String (if offset <? 0 then "-"%char else "+"%char)
         (pad2 (Z.abs offset / 3600)
            (String ":" (pad2 (Z.abs offset / 60 mod 60) EmptyString))).

Lemma parseFraction_zone offset : parseFraction (formatZone offset) = (0, formatZone offset).
Proof. unfold formatZone. by destruct (offset =? 0), (offset <? 0). Qed.

Lemma abs_minutes offset :
  offset mod 60 = 0 → Z.abs offset / 3600 * 3600 + Z.abs offset / 60 mod 60 * 60 = Z.abs offset.
Proof.
  intros [k ->]%Z.mod_divide; [|done]. rewrite Z.abs_mul. simpl.
  change 3600 with (60 * 60). rewrite <-Z.div_div, Z.div_mul by lia.
  rewrite (Z.div_mod (Z.abs k) 60) at 3 by done. lia.
Qed.

Lemma parseZone_format offset :
  offset mod 60 = 0 → Z.abs offset ≤ 86400 →
  parseZone (formatZone offset) = Some (offset, EmptyString).
Proof.
  intros Hmod Habs. unfold formatZone.
  destruct (Z.eqb_spec offset 0) as [->|]; [done|].
  assert (Z.abs offset / 3600 <=? 24 = true) as Hh by (apply Z.leb_le; dlia).
  assert (Z.abs offset / 60 mod 60 <=? 60 = true) as Hm by (apply Z.leb_le; dlia).
  destruct (Z.ltb_spec offset 0); unfold parseZone; simpl; rewrite getnum_pad2 by dlia; simpl;
    rewrite getnum_pad2 by dlia; simpl; rewrite Hh, Hm, abs_minutes by done; simpl;
    do 2 f_equal; lia.
Qed.

(** Hours, minutes and seconds of a day. *)
Lemma clock_split secs :
  let sod := secs mod 86400 in
  0 ≤ sod / 3600 < 24 ∧ 0 ≤ sod / 60 mod 60 < 60 ∧ 0 ≤ sod mod 60 < 60 ∧
  secs / 86400 * 86400 + sod / 3600 * 3600 + sod / 60 mod 60 * 60 + sod mod 60 = secs.
Proof.
  intros sod. assert (0 ≤ sod < 86400) by (apply Z.mod_pos_bound; lia).
  assert (secs / 86400 * 86400 + sod = secs) by (subst sod; rewrite (Z.div_mod secs 86400) at 3; lia).
  clearbody sod. dlia.
Qed.

Theorem ParseRFC3339_Format offset t :
  (let '(y, _, _) := civil_of_days ((t / Second + offset) / 86400) in 0 ≤ y ≤ 9999) →
  offset mod 60 = 0 → Z.abs offset ≤ 86400 →
  ParseRFC3339 (FormatRFC3339 offset t) = Some (t / Second * Second).
Proof.
  unfold FormatRFC3339. set (secs := t / Second + offset).
  assert (secs - offset = t / Second) as Hsecs by (subst secs; lia). clearbody secs.
  pose proof (civil_of_days_spec (secs / 86400)) as Hc.
  destruct (clock_split secs) as (Hh & Hmi & Hs & Hsplit).
  destruct (civil_of_days _) as [[y m] d]. destruct Hc as (Hdays & Hm & Hd).
  intros Hy Hoff Habs. fold (formatZone offset).
  assert (daysIn m y ≤ 31) by (unfold daysIn; repeat case_match; lia).
  generalize dependent (secs mod 86400 / 3600). generalize dependent (secs mod 86400 / 60 mod 60).
  generalize dependent (secs mod 86400 mod 60). generalize dependent (secs / 86400).
  intros days Hdays s Hs mi Hmi h Hh Hsplit.
  unfold ParseRFC3339. rewrite get4_pad4 by lia. simpl.
  rewrite getnum_pad2 by lia. simpl. rewrite getnum_pad2 by lia. simpl.
  rewrite getnum_pad2 by lia. simpl. rewrite getnum_pad2 by lia. simpl.
  rewrite getnum_pad2 by lia. simpl. rewrite parseFraction_zone, parseZone_format by done. simpl.
  rewrite !(proj2 (Z.leb_le _ _)), !(proj2 (Z.ltb_lt _ _)) by lia. simpl.
  rewrite Hdays. f_equal. rewrite <-Hsecs. lia.
Qed.
Transparent pad2 getnum.
