(* ===== verification/UniqueName.v ===== *)
(** * [pkg/common/uniquename]: names for exported and imported objects *)

From S2P Require Import Prelude Prog Go Dns Api Fleet Azure Effects Deps.
From S2P Require Import Protocols ApiServer.

Module uniquename.

(** [Format] is an integer with three named values. *)
Definition Format := Z.
Definition DNS1123Subdomain : Format := 1%Z.
Definition DNS1123Label : Format := 2%Z.
Definition DNS1035Label : Format := 3%Z.
Definition uuidLength := 5.

Definition minInt (a b : nat) : nat := if a <? b then a else b.

(** [s[0]] of an empty string panics. *)
Definition startsWithNumericCharacter {E} (s : string) : prog E bool :=
  match s with
  | String c _ => mret (isDigit c)
  | EmptyString => Panic "index out of range"
  end.

Definition removeDots (s : string) : string := removeChar "." s.

(** [s[:minInt(slots, len(s))]]. *)
Definition segment (slots : nat) (s : string) : string :=
  str_take (minInt slots (String.length s)) s.

(** [uuid.NewUUID()[:uuidLength]]. *)
Definition uuidSuffix : IO string :=
  u ← call EUUID;
  if String.length u <? uuidLength then Panic "slice bounds out of range"
  else mret (str_take uuidLength u).

(** The [%v] verb on a list of strings. *)
Fixpoint joinSpaces (l : list string) : string :=
  match l with [] => "" | [s] => s | s :: l => s +:+ " " +:+ joinSpaces l end.
Definition formatErrs (errs : list string) : string := "[" +:+ joinSpaces errs +:+ "]".

Section names.
Context {validation : Validation}.

Definition checked (errs : list string) (what uniqueName : string) : error + string :=
  match errs with
  | [] => inr uniqueName
  | _ => inl (ErrorString (what +:+ ": " +:+ formatErrs errs))
  end.

Definition ClusterScopedUniqueName (format : Format) (namespace name : string)
    : IO (error + string) :=
  let reservedSlots := 2 + uuidLength in
  let format_ slots validate kind namespace name :=
    suffix ← uuidSuffix;
    let uniqueName := segment slots namespace +:+ "-" +:+ segment slots name +:+ "-" +:+ suffix in
    mret (checked (validate uniqueName)
      ("failed to format a unique " +:+ kind +:+ " name with namespace " +:+ namespace +:+
       ", name " +:+ name) uniqueName) in
  if bool_decide (format = DNS1123Subdomain) then
    format_ ((DNS1123SubdomainMaxLength - reservedSlots) `div` 2) IsDNS1123Subdomain
      "RFC 1123 DNS subdomain" namespace name
  else if bool_decide (format = DNS1123Label) then
    format_ ((DNS1123LabelMaxLength - reservedSlots) `div` 2) IsDNS1123Label
      "RFC 1123 DNS label" namespace (removeDots name)
  else if bool_decide (format = DNS1035Label) then
    numeric ← startsWithNumericCharacter namespace;
    format_ ((DNS1035LabelMaxLength - reservedSlots) `div` 2) IsDNS1035Label
      "RFC 1035 DNS label" (if numeric : bool then "ns" +:+ namespace else namespace)
      (removeDots name)
  else mret (inl (ErrorString ("not a valid name format: " +:+ FormatInt format))).

Definition FleetScopedUniqueName (format : Format) (clusterID namespace name : string)
    : IO (error + string) :=
  let reservedSlots := 3 + uuidLength in
  let format_ slots validate kind clusterID name :=
    suffix ← uuidSuffix;
    let uniqueName := segment slots clusterID +:+ "-" +:+ segment slots namespace +:+ "-" +:+
                      segment slots name +:+ "-" +:+ suffix in
    mret (checked (validate uniqueName)
      ("failed to format a unique " +:+ kind +:+ " name with cluster ID " +:+ clusterID +:+
       ", namespace " +:+ namespace +:+ ", name " +:+ name) uniqueName) in
  if bool_decide (format = DNS1123Subdomain) then
    format_ ((DNS1123SubdomainMaxLength - reservedSlots) `div` 3) IsDNS1123Subdomain
      "RFC 1123 DNS subdomain" clusterID name
  else if bool_decide (format = DNS1123Label) then
    format_ ((DNS1123LabelMaxLength - reservedSlots) `div` 3) IsDNS1123Label
      "RFC 1123 DNS label" (removeDots clusterID) (removeDots name)
  else if bool_decide (format = DNS1035Label) then
    format_ ((DNS1035LabelMaxLength - reservedSlots) `div` 3) IsDNS1035Label
      "RFC 1035 DNS label" (removeDots clusterID) (removeDots name)
  else mret (inl (ErrorString ("not a valid name format: " +:+ FormatInt format))).
End names.

Definition alphabet : string := "abcdefghijklmnopqrstuvwxyz".

(** One character per round; the index is checked by the runtime. *)
Fixpoint RandomLowerCaseAlphabeticString (n : nat) : IO string :=
  match n with
  | O => mret ""
  | S n =>
      i ← call (EIntn (Z.of_nat (String.length alphabet)));
      match String.get (Z.to_nat i) alphabet with
      | Some c => s ← RandomLowerCaseAlphabeticString n; mret (String c s)
      | None => Panic "index out of range"
      end
  end.

(** ** The names are valid *)

Definition validIn (format : Format) (s : string) : bool :=
  if bool_decide (format = DNS1123Subdomain) then dns1123Subdomain s
  else if bool_decide (format = DNS1123Label) then dns1123Label s
  else dns1035Label s.

Lemma segment_take slots s : segment slots s = str_take slots s.
Proof.
  unfold segment, minInt. destruct (slots <? String.length s) eqn:Hlt; [done|].
  apply Nat.ltb_ge in Hlt. by rewrite !str_take_all.
Qed.

(** A segment of a name: readable, not empty, and at the start of a label only
    when it ends in a dot. *)
Lemma segment_run dots slots s :
  dnsRun dots Start s = Some Alnum → slots ≠ 0 →
  ∃ st, dnsRun dots Start (segment slots s) = Some st ∧ segment slots s ≠ "" ∧
        (st = Start ↔ endsIn "." (segment slots s) = true).
Proof.
  intros Hrun Hn. rewrite segment_take.
  assert (str_take slots s ≠ "") as Hne by (apply str_take_nonempty; [by intros ->|done]).
  destruct (dnsRun_take _ _ slots _ _ Hrun) as [st Hst]. exists st.
  split; [done|]. split; [done|]. by apply (dnsRun_endsIn dots Start).
Qed.
Lemma segment_run_no_dots slots s :
  dnsRun false Start s = Some Alnum → slots ≠ 0 →
  ∃ st, dnsRun false Start (segment slots s) = Some st ∧ segment slots s ≠ "" ∧ st ≠ Start.
Proof.
  intros Hrun Hn. destruct (segment_run false slots s) as (st & Hst & Hne & _); [done..|].
  exists st. split; [done|]. split; [done|]. by eapply dnsRun_no_dots.
Qed.
Lemma segment_length slots s : String.length (segment slots s) ≤ slots.
Proof. rewrite segment_take, str_take_length. lia. Qed.

(** Joining strings with a dash. *)
Lemma joinRun dots a b st :
  dnsRun dots Start a = Some st → startsWith isAlnum b = true →
  dnsRun dots Start (a +:+ "-" +:+ b) =
    if decide (st = Start) then None else dnsRun dots Start b.
Proof.
  intros Ha Hb. rewrite dnsRun_app, Ha. destruct st; [done|..];
    change (dnsRun dots Dash b = dnsRun dots Start b); by apply dnsRun_alnum.
Qed.
Lemma segment_run_case dots slots s b :
  dnsRun dots Start s = Some Alnum → slots ≠ 0 → startsWith isAlnum b = true →
  dnsRun dots Start (segment slots s +:+ "-" +:+ b) =
    (if endsIn "." (segment slots s) then None else dnsRun dots Start b) ∧
  startsWith isAlnum (segment slots s +:+ "-" +:+ b) = true.
Proof.
  intros Hs Hn Hb. destruct (segment_run dots slots s) as (st & Hst & Hne & Hdot); [done..|].
  rewrite (joinRun _ _ _ _ Hst Hb). split.
  - case_decide as Hd; [by rewrite (proj1 Hdot)|].
    destruct (endsIn _ _) eqn:He; [by destruct Hd; apply Hdot|done].
  - rewrite startsWith_app by done. by eapply dnsRun_startsWith.
Qed.

Lemma uuidSuffix_wp {S} (P : protocol eff S) s (Q : string → S → Prop) :
  allowed P EUUID s → (∀ u, answer P EUUID s u → wellFormedUUID u) →
  (∀ u suffix, answer P EUUID s u → suffix = str_take 5 u → String.length suffix = 5 → suffix ≠ "" →
     (∀ dots, dnsRun dots Start suffix = Some Alnum) → Q suffix (next P EUUID u s)) →
  wp P uuidSuffix s Q.
Proof.
  intros Hal Hwf HQ. apply wp_bind, wp_call; [done|]. intros u Hu. specialize (Hwf u Hu).
  assert (5 ≤ String.length u) as Hlen by (apply hexPrefix_length in Hwf; lia).
  destruct (String.length u <? uuidLength) eqn:Hlt; [apply Nat.ltb_lt in Hlt; unfold uuidLength in *; lia|].
  apply wp_ret, HQ; [done|done| | |].
  - rewrite str_take_length. unfold uuidLength. lia.
  - by destruct u.
  - intros dots. apply hexPrefix_run. apply (hexPrefix_le _ 8); [done|unfold uuidLength; lia].
Qed.

Section valid.
Context {validation : Validation} {vlaws : ValidationLaws}.

(** A checked name is valid, and a name is only refused when it is not. *)
Lemma checked_wp (validate : string → list string) (valid : string → bool) what u
    (Q : error + string → Prop) :
  (∀ s, validate s = [] ↔ valid s = true) →
  (if valid u then Q (inr u) else ∀ err, Q (inl err)) → Q (checked (validate u) what u).
Proof.
  intros Hv. specialize (Hv u). unfold checked.
  destruct (validate u), (valid u); try done; [by destruct Hv as [Hv _]; discriminate Hv|].
  by destruct Hv as [_ Hv]; discriminate Hv.
Qed.

Definition joined3 (slots : nat) (c ns n suffix : string) : string :=
  segment slots c +:+ "-" +:+ segment slots ns +:+ "-" +:+ segment slots n +:+ "-" +:+ suffix.
Definition joined2 (slots : nat) (ns n suffix : string) : string :=
  segment slots ns +:+ "-" +:+ segment slots n +:+ "-" +:+ suffix.

Lemma joined3_length slots c ns n suffix :
  String.length suffix = 5 → String.length (joined3 slots c ns n suffix) ≤ 3 * slots + 8.
Proof.
  intros Hs. unfold joined3. rewrite !str_length_app. simpl.
  pose proof (segment_length slots c). pose proof (segment_length slots ns).
  pose proof (segment_length slots n). lia.
Qed.
Lemma joined2_length slots ns n suffix :
  String.length suffix = 5 → String.length (joined2 slots ns n suffix) ≤ 2 * slots + 7.
Proof.
  intros Hs. unfold joined2. rewrite !str_length_app. simpl.
  pose proof (segment_length slots ns). pose proof (segment_length slots n). lia.
Qed.

(** The automaton on a joined name: it is accepted unless a cut segment ends in
    a dot. *)
Definition cutAtDot (slots : nat) (s : string) : bool := endsIn "." (segment slots s).
Lemma not_cutAtDot slots s : dnsRun false Start s = Some Alnum → slots ≠ 0 → cutAtDot slots s = false.
Proof.
  intros Hs Hn. destruct (segment_run false slots s) as (st & Hst & Hne & Hdot); [done..|].
  unfold cutAtDot. apply not_true_is_false. rewrite <-Hdot.
  by eapply dnsRun_no_dots.
Qed.
Lemma joined2_run dots slots ns n suffix :
  slots ≠ 0 → dnsRun dots Start ns = Some Alnum → dnsRun dots Start n = Some Alnum →
  dnsRun dots Start suffix = Some Alnum → suffix ≠ "" →
  dnsRun dots Start (joined2 slots ns n suffix) =
    (if cutAtDot slots ns || cutAtDot slots n then None else Some Alnum) ∧
  startsWith isAlnum (joined2 slots ns n suffix) = true.
Proof.
  intros Hslots Hns Hn Hsuf Hne. unfold joined2, cutAtDot.
  assert (startsWith isAlnum suffix = true) as Hs by (by eapply dnsRun_startsWith).
  destruct (segment_run_case dots slots n suffix) as [Hr1 Hs1]; [done..|].
  destruct (segment_run_case dots slots ns _ Hns Hslots Hs1) as [Hr2 Hs2].
  rewrite Hr2, Hr1, Hsuf, Hs2. by destruct (endsIn _ (segment slots ns)).
Qed.
Lemma joined3_run dots slots c ns n suffix :
  slots ≠ 0 → dnsRun dots Start c = Some Alnum → dnsRun dots Start ns = Some Alnum →
  dnsRun dots Start n = Some Alnum → dnsRun dots Start suffix = Some Alnum → suffix ≠ "" →
  dnsRun dots Start (joined3 slots c ns n suffix) =
    if cutAtDot slots c || (cutAtDot slots ns || cutAtDot slots n) then None else Some Alnum.
Proof.
  intros Hslots Hc Hns Hn Hsuf Hne.
  destruct (joined2_run dots slots ns n suffix) as [Hr Hs]; [done..|].
  destruct (segment_run_case dots slots c _ Hc Hslots Hs) as [Hr2 _].
  unfold joined3. fold (joined2 slots ns n suffix). rewrite Hr2, Hr. unfold cutAtDot.
  by destruct (endsIn _ (segment slots c)).
Qed.


(** When the components can be joined to a name of the format. *)
Definition fleetNameable (format : Format) (c n : string) : bool :=
  if bool_decide (format = DNS1123Subdomain)
  then negb (cutAtDot 81 c || cutAtDot 81 n)
  else if bool_decide (format = DNS1123Label) then true
  else bool_decide (format = DNS1035Label) && startsWith isLower c.
Definition clusterNameable (format : Format) (n : string) : bool :=
  if bool_decide (format = DNS1123Subdomain) then negb (cutAtDot 123 n)
  else bool_decide (format = DNS1123Label ∨ format = DNS1035Label).

(** The namespace of an RFC 1035 label, with the prefix that keeps it from
    starting with a digit. *)
Definition letterFirst (ns : string) : string :=
  if startsWith isDigit ns then "ns" +:+ ns else ns.

(** The components of a name: the dots are left out of a label, and each
    component is cut to its share of what the dashes and the suffix leave. *)
Definition fleetParts (format : Format) (c ns n : string) : list string :=
  if bool_decide (format = DNS1123Subdomain) then str_take 81 <$> [c; ns; n]
  else str_take 18 <$> [removeDots c; ns; removeDots n].
Definition clusterParts (format : Format) (ns n : string) : list string :=
  if bool_decide (format = DNS1123Subdomain) then str_take 123 <$> [ns; n]
  else if bool_decide (format = DNS1123Label) then str_take 28 <$> [ns; removeDots n]
  else str_take 28 <$> [letterFirst ns; removeDots n].
Definition nameOf (parts : list string) (uuid : string) : string :=
  String.concat "-" (parts ++ [str_take 5 uuid]).

Lemma joined3_parts slots c ns n uuid :
  joined3 slots c ns n (str_take 5 uuid) = nameOf (str_take slots <$> [c; ns; n]) uuid.
Proof. unfold joined3. by rewrite !segment_take. Qed.
Lemma joined2_parts slots ns n uuid :
  joined2 slots ns n (str_take 5 uuid) = nameOf (str_take slots <$> [ns; n]) uuid.
Proof. unfold joined2. by rewrite !segment_take. Qed.

Lemma dns1123Subdomain_run s : dns1123Subdomain s = true → dnsRun true Start s = Some Alnum.
Proof. by intros [?%bool_decide_eq_true _]%andb_true_iff. Qed.
Lemma dns1123Label_run s : dns1123Label s = true → dnsRun false Start s = Some Alnum.
Proof. by intros [?%bool_decide_eq_true _]%andb_true_iff. Qed.
Hint Resolve dns1123Subdomain_run dns1123Label_run dnsRun_dots : fleet.

Lemma fleet_subdomain c ns n suffix :
  dns1123Subdomain c = true → dns1123Label ns = true → dns1123Subdomain n = true →
  String.length suffix = 5 → dnsRun true Start suffix = Some Alnum →
  dns1123Subdomain (joined3 81 c ns n suffix) = negb (cutAtDot 81 c || cutAtDot 81 n).
Proof.
  intros Hc Hns Hn Hlen Hs. unfold dns1123Subdomain.
  rewrite joined3_run by (auto with fleet; by intros ->). rewrite (not_cutAtDot 81 ns) by auto with fleet.
  pose proof (joined3_length 81 c ns n suffix Hlen). simpl.
  rewrite (proj2 (Nat.leb_le _ _)) by (unfold DNS1123SubdomainMaxLength; lia).
  rewrite andb_true_r. by destruct (cutAtDot 81 c || cutAtDot 81 n).
Qed.
Lemma fleet_label_run c ns n suffix :
  dns1123Subdomain c = true → dns1123Label ns = true → dns1123Subdomain n = true →
  String.length suffix = 5 → dnsRun false Start suffix = Some Alnum →
  let u := joined3 18 (removeDots c) ns (removeDots n) suffix in
  dnsRun false Start u = Some Alnum ∧ (String.length u <=? 63) = true ∧
  startsWith isLower u = startsWith isLower c.
Proof.
  intros Hc Hns Hn Hlen Hs u.
  destruct (removeDots_label c) as [Hrc Hsc]; [by auto with fleet|].
  destruct (removeDots_label n) as [Hrn _]; [by auto with fleet|].
  fold (removeDots c) in Hrc, Hsc. fold (removeDots n) in Hrn. subst u. split; [|split].
  - rewrite joined3_run by (auto with fleet; by intros ->). by rewrite !not_cutAtDot by auto with fleet.
  - pose proof (joined3_length 18 (removeDots c) ns (removeDots n) suffix Hlen).
    apply Nat.leb_le. lia.
  - unfold joined3. destruct (segment_run false 18 (removeDots c)) as (? & _ & Hne & _); [done..|].
    by rewrite startsWith_app, segment_take, startsWith_take, Hsc.
Qed.

(** C32: for a cluster ID, a namespace and a name that are DNS names, the
    function does not panic.  It draws one UUID and gives the cluster ID, the
    namespace, the name and the first five characters of the UUID, joined in
    this order with dashes; each component is cut to its share of the length,
    81 characters in a subdomain and 18 in a label, where the dots of the
    cluster ID and of the name are left out first.  The name it gives is valid
    in the requested format.  It fails exactly when the format is unknown, when
    the cluster ID or the name cut to fit a subdomain ends in a dot, or when an
    RFC 1035 label would start with a digit. *)
Theorem FleetScopedUniqueName_valid {S} (P : protocol eff S) s format c ns n :
  allowed P EUUID s → (∀ u, answer P EUUID s u → wellFormedUUID u) →
  dns1123Subdomain c = true → dns1123Label ns = true → dns1123Subdomain n = true →
  wp P (FleetScopedUniqueName format c ns n) s (λ r s', match r with
    | inr u => fleetNameable format c n = true ∧ validIn format u = true ∧
        ∃ uuid, answer P EUUID s uuid ∧ s' = next P EUUID uuid s ∧
          u = nameOf (fleetParts format c ns n) uuid
    | inl _ => fleetNameable format c n = false
    end).
Proof.
  intros Hal Hu Hc Hns Hn. unfold FleetScopedUniqueName, fleetNameable, validIn, fleetParts. cbv zeta.
  case_bool_decide as H1; [|case_bool_decide as H2; [|case_bool_decide as H3; [|by apply wp_ret]]];
    (apply wp_bind, uuidSuffix_wp; [done..|]; intros uuid suffix Hans -> Hlen Hne Hrun; apply wp_ret).
  - apply (checked_wp IsDNS1123Subdomain dns1123Subdomain _ (joined3 81 c ns n (str_take 5 uuid))); [apply IsDNS1123Subdomain_spec|].
    rewrite fleet_subdomain by done.
    destruct (negb _); [|done]. split; [done|]. split; [done|]. exists uuid. by rewrite joined3_parts.
  - apply (checked_wp IsDNS1123Label dns1123Label _ (joined3 18 (removeDots c) ns (removeDots n) (str_take 5 uuid))); [apply IsDNS1123Label_spec|].
    destruct (fleet_label_run c ns n (str_take 5 uuid)) as (Hr & Hl & _); [done..|].
    assert (dns1123Label (joined3 18 (removeDots c) ns (removeDots n) (str_take 5 uuid)) = true) as Hv
      by (unfold dns1123Label, DNS1123LabelMaxLength; by rewrite Hr, Hl, bool_decide_true).
    rewrite Hv. split; [done|]. split; [done|]. exists uuid. by rewrite joined3_parts.
  - apply (checked_wp IsDNS1035Label dns1035Label _ (joined3 18 (removeDots c) ns (removeDots n) (str_take 5 uuid))); [apply IsDNS1035Label_spec|].
    destruct (fleet_label_run c ns n (str_take 5 uuid)) as (Hr & Hl & Hst); [done..|].
    assert (dns1035Label (joined3 18 (removeDots c) ns (removeDots n) (str_take 5 uuid)) =
      startsWith isLower c) as Hv
      by (unfold dns1035Label, DNS1035LabelMaxLength; by rewrite Hr, Hl, Hst, bool_decide_true, andb_true_r).
    rewrite Hv. destruct (startsWith isLower c); [|done].
    split; [done|]. split; [done|]. exists uuid. by rewrite joined3_parts.
Qed.

Lemma cluster_subdomain ns n suffix :
  dns1123Label ns = true → dns1123Subdomain n = true →
  String.length suffix = 5 → dnsRun true Start suffix = Some Alnum →
  dns1123Subdomain (joined2 123 ns n suffix) = negb (cutAtDot 123 n).
Proof.
  intros Hns Hn Hlen Hs. unfold dns1123Subdomain.
  destruct (joined2_run true 123 ns n suffix) as [-> _]; [auto with fleet..| |]; [by intros ->|].
  rewrite (not_cutAtDot 123 ns) by auto with fleet.
  pose proof (joined2_length 123 ns n suffix Hlen). simpl.
  rewrite (proj2 (Nat.leb_le _ _)) by (unfold DNS1123SubdomainMaxLength; lia).
  rewrite andb_true_r. by destruct (cutAtDot 123 n).
Qed.
Lemma cluster_label_run ns n suffix :
  dnsRun false Start ns = Some Alnum → dns1123Subdomain n = true →
  String.length suffix = 5 → dnsRun false Start suffix = Some Alnum →
  let u := joined2 28 ns (removeDots n) suffix in
  dnsRun false Start u = Some Alnum ∧ (String.length u <=? 63) = true ∧
  startsWith isLower u = startsWith isLower ns.
Proof.
  intros Hns Hn Hlen Hs u.
  destruct (removeDots_label n) as [Hrn _]; [by auto with fleet|].
  fold (removeDots n) in Hrn. subst u. split; [|split].
  - destruct (joined2_run false 28 ns (removeDots n) suffix) as [-> _]; [done..|by intros ->|].
    by rewrite !not_cutAtDot.
  - pose proof (joined2_length 28 ns (removeDots n) suffix Hlen). apply Nat.leb_le. lia.
  - unfold joined2. destruct (segment_run false 28 ns) as (? & _ & Hne & _); [done..|].
    by rewrite startsWith_app, segment_take, startsWith_take.
Qed.

Lemma letterFirst_run ns :
  dns1123Label ns = true →
  dnsRun false Start (letterFirst ns) = Some Alnum ∧ startsWith isLower (letterFirst ns) = true ∧
  startsWithNumericCharacter (E := eff) ns = mret (startsWith isDigit ns).
Proof.
  intros Hns%dns1123Label_run. unfold letterFirst. destruct ns as [|ch ns]; [done|].
  assert (isAlnum ch = true) as Ha by (by apply (dnsRun_startsWith false (String ch ns) Alnum)).
  simpl in *. unfold isAlnum in Ha. destruct (isDigit ch) eqn:Hd.
  - split; [|done]. change (dnsRun false Alnum (String ch ns) = Some Alnum).
    rewrite dnsRun_alnum; [exact Hns|]. simpl. unfold isAlnum. by rewrite Hd, Ha.
  - by rewrite orb_false_r in Ha.
Qed.

(** C33: for a namespace and a name that are DNS names, the function for names
    within a cluster does not panic.  It draws one UUID and gives the namespace,
    the name and the first five characters of the UUID, joined in this order
    with dashes; each component is cut to its share of the length, 123
    characters in a subdomain and 28 in a label, where the dots of the name are
    left out and, in an RFC 1035 label, a namespace that starts with a digit
    gets the prefix ns first.  The name it gives is valid in the requested
    format.  It fails exactly when the format is unknown or when the name cut to
    fit a subdomain ends in a dot. *)
Theorem ClusterScopedUniqueName_valid {S} (P : protocol eff S) s format ns n :
  allowed P EUUID s → (∀ u, answer P EUUID s u → wellFormedUUID u) →
  dns1123Label ns = true → dns1123Subdomain n = true →
  wp P (ClusterScopedUniqueName format ns n) s (λ r s', match r with
    | inr u => clusterNameable format n = true ∧ validIn format u = true ∧
        ∃ uuid, answer P EUUID s uuid ∧ s' = next P EUUID uuid s ∧
          u = nameOf (clusterParts format ns n) uuid
    | inl _ => clusterNameable format n = false
    end).
Proof.
  intros Hal Hu Hns Hn. unfold ClusterScopedUniqueName, clusterNameable, validIn, clusterParts. cbv zeta.
  destruct (letterFirst_run ns Hns) as (Hrl & Hsl & Hnum).
  case_bool_decide as H1; [|case_bool_decide as H2; [|case_bool_decide as H3]].
  - apply wp_bind, uuidSuffix_wp; [done..|]; intros uuid suffix Hans -> Hlen Hne Hrun; apply wp_ret.
    apply (checked_wp IsDNS1123Subdomain dns1123Subdomain _ (joined2 123 ns n (str_take 5 uuid)));
      [apply IsDNS1123Subdomain_spec|].
    rewrite cluster_subdomain by done. destruct (negb _); [|done].
    split; [done|]. split; [done|]. exists uuid. by rewrite joined2_parts.
  - rewrite bool_decide_true by auto.
    apply wp_bind, uuidSuffix_wp; [done..|]; intros uuid suffix Hans -> Hlen Hne Hrun; apply wp_ret.
    apply (checked_wp IsDNS1123Label dns1123Label _ (joined2 28 ns (removeDots n) (str_take 5 uuid)));
      [apply IsDNS1123Label_spec|].
    destruct (cluster_label_run ns n (str_take 5 uuid)) as (Hr & Hl & _); [auto with fleet..|].
    unfold dns1123Label, DNS1123LabelMaxLength. rewrite Hr, Hl, bool_decide_true by done.
    split; [done|]. split; [done|]. exists uuid. by rewrite joined2_parts.
  - rewrite bool_decide_true by auto. rewrite Hnum. apply wp_bind, wp_ret. fold (letterFirst ns).
    apply wp_bind, uuidSuffix_wp; [done..|]; intros uuid suffix Hans -> Hlen Hne Hrun; apply wp_ret.
    apply (checked_wp IsDNS1035Label dns1035Label _ (joined2 28 (letterFirst ns) (removeDots n) (str_take 5 uuid)));
      [apply IsDNS1035Label_spec|].
    destruct (cluster_label_run (letterFirst ns) n (str_take 5 uuid)) as (Hr & Hl & Hst); [auto..|].
    unfold dns1035Label, DNS1035LabelMaxLength. rewrite Hr, Hl, Hst, Hsl, bool_decide_true by done.
    split; [done|]. split; [done|]. exists uuid. by rewrite joined2_parts.
  - apply wp_ret. rewrite bool_decide_false; [done|]. by intros [].
Qed.

(** Whatever the components are, a name that is given is valid. *)
Lemma FleetScopedUniqueName_checked {S} (P : protocol eff S) s c ns n
    (Q : error + string → S → Prop) :
  allowed P EUUID s → (∀ u, answer P EUUID s u → wellFormedUUID u) →
  (∀ u r, match r with inr name => dns1123Subdomain name = true | inl _ => True end →
     Q r (next P EUUID u s)) →
  wp P (FleetScopedUniqueName DNS1123Subdomain c ns n) s Q.
Proof.
  intros Hal Hu HQ. apply wp_bind, uuidSuffix_wp; [done..|].
  intros u suffix _ _ _ _ _. apply wp_ret, HQ.
  apply (checked_wp IsDNS1123Subdomain dns1123Subdomain); [apply IsDNS1123Subdomain_spec|].
  by destruct (dns1123Subdomain _).
Qed.

Lemma alphabet_lower i c : String.get i alphabet = Some c → isLower c = true.
Proof. do 26 (destruct i as [|i]; [by intros [= <-]|]). by destruct i. Qed.
Lemma alphabet_get i : i < 26 → is_Some (String.get i alphabet).
Proof. intros Hi. do 26 (destruct i as [|i]; [by eexists|]). lia. Qed.

(** The fallback name: lower case letters only. *)
Fixpoint allLower (s : string) : bool :=
  match s with EmptyString => true | String c s => isLower c && allLower s end.
Lemma RandomLowerCaseAlphabeticString_wp {S} (P : protocol eff S) n s
    (Q : string → S → Prop) (I : S → Prop) :
  (∀ s, I s → allowed P (EIntn 26) s ∧ ∀ i, answer P (EIntn 26) s i →
     (0 ≤ i < 26)%Z ∧ I (next P (EIntn 26) i s)) →
  (∀ name s', I s' → String.length name = n → allLower name = true → Q name s') →
  I s → wp P (RandomLowerCaseAlphabeticString n) s Q.
Proof.
  intros HI. revert s Q. induction n as [|n IH]; intros s Q HQ Hs; cbn [RandomLowerCaseAlphabeticString].
  { by apply wp_ret, HQ. }
  destruct (HI s Hs) as [Hal Hans]. apply wp_bind, wp_call; [exact Hal|].
  intros i [Hi Hn]%Hans. destruct (alphabet_get (Z.to_nat i)) as [ch Hch]; [lia|].
  rewrite Hch. apply wp_bind, IH; [|exact Hn]. intros name s' Hs' Hlen Hlow.
  apply wp_ret, HQ; [done|simpl; by rewrite Hlen|]. simpl.
  by rewrite (alphabet_lower _ _ Hch), Hlow.
Qed.

Lemma allLower_run dots st name :
  allLower name = true → name ≠ "" → dnsRun dots st name = Some Alnum.
Proof.
  revert st. induction name as [|c name IH]; intros st; [done|]. simpl.
  intros [Hc Hn]%andb_true_iff _. unfold dnsStep, isAlnum. rewrite Hc. simpl.
  destruct name; [done|]. by apply IH.
Qed.

(** A string of 1 to 63 lower case letters is a name of every format. *)
Lemma allLower_valid format name :
  allLower name = true → 1 ≤ String.length name ≤ 63 → validIn format name = true.
Proof.
  intros Hl Hlen. assert (name ≠ "") as Hne by (by intros ->; simpl in *; lia).
  assert (startsWith isLower name = true) as Hs.
  { destruct name; [done|]. simpl in *. by apply andb_true_iff in Hl as [-> _]. }
  unfold validIn, dns1123Subdomain, dns1123Label, dns1035Label, DNS1123SubdomainMaxLength,
    DNS1123LabelMaxLength, DNS1035LabelMaxLength.
  assert (∀ d, bool_decide (dnsRun d Start name = Some Alnum) = true) as Hr.
  { intros d. by apply bool_decide_eq_true, allLower_run. }
  rewrite !Hr, Hs. repeat case_match; simpl; apply Nat.leb_le; lia.
Qed.
End valid.

(** ** Runs *)

Module Demo.
Definition anyCall : protocol eff unit := {|
  allowed X e s := True; answer X e s x := serverAnswer e x; next X e x s := s |}.
Definition fleetName (format : Format) (c ns n : string) : outcome (error + string) :=
  (run (serve (λ _ _ _, [])) (FleetScopedUniqueName (validation := ReferenceDns.validation)
    format c ns n) emptyWorld).1.
Definition clusterName (format : Format) (ns n : string) : outcome (error + string) :=
  (run (serve (λ _ _ _, [])) (ClusterScopedUniqueName (validation := ReferenceDns.validation)
    format ns n) emptyWorld).1.
End Demo.

Lemma FleetScopedUniqueName_valid_witness :
  wp Demo.anyCall (FleetScopedUniqueName (validation := ReferenceDns.validation)
      DNS1123Subdomain "bravelion" "work" "app.v1") tt (λ r s', match r with
    | inr u => fleetNameable DNS1123Subdomain "bravelion" "app.v1" = true ∧
        validIn DNS1123Subdomain u = true ∧
        ∃ uuid, answer Demo.anyCall EUUID tt uuid ∧ s' = next Demo.anyCall EUUID uuid tt ∧
          u = nameOf (fleetParts DNS1123Subdomain "bravelion" "work" "app.v1") uuid
    | inl _ => fleetNameable DNS1123Subdomain "bravelion" "app.v1" = false
    end) ∧
  Demo.fleetName DNS1123Subdomain "bravelion" "work" "app.v1" =
    Done (inr "bravelion-work-app.v1-00000").
Proof.
  split; [|vm_compute; reflexivity].
  apply (FleetScopedUniqueName_valid (vlaws := ReferenceDns.validation_laws));
    [exact I|by intros u Hu|vm_compute; reflexivity..].
Defined.

Lemma ClusterScopedUniqueName_valid_witness :
  wp Demo.anyCall (ClusterScopedUniqueName (validation := ReferenceDns.validation)
      DNS1035Label "1work" "app.v1") tt (λ r s', match r with
    | inr u => clusterNameable DNS1035Label "app.v1" = true ∧ validIn DNS1035Label u = true ∧
        ∃ uuid, answer Demo.anyCall EUUID tt uuid ∧ s' = next Demo.anyCall EUUID uuid tt ∧
          u = nameOf (clusterParts DNS1035Label "1work" "app.v1") uuid
    | inl _ => clusterNameable DNS1035Label "app.v1" = false
    end) ∧
  Demo.clusterName DNS1035Label "1work" "app.v1" = Done (inr "ns1work-appv1-00000").
Proof.
  split; [|vm_compute; reflexivity].
  apply (ClusterScopedUniqueName_valid (vlaws := ReferenceDns.validation_laws));
    [exact I|by intros u Hu|vm_compute; reflexivity..].
Defined.

(** A cluster ID that starts with a digit has no RFC 1035 label, although it
    meets the documented assumptions, while a namespace that does has one. *)
Theorem fleet_label_digit :
  dns1123Subdomain "1cluster" = true ∧
  (∃ err, Demo.fleetName DNS1035Label "1cluster" "work" "app" = Done (inl err)) ∧
  Demo.clusterName DNS1035Label "1work" "app" = Done (inr "ns1work-app-00000").
Proof.
  split; [vm_compute; reflexivity|]. split; [|vm_compute; reflexivity].
  eexists. vm_compute. reflexivity.
Qed.

End uniquename.
