(* ===== verification/MemberServiceExport.v ===== *)
(** * [pkg/controllers/member/serviceexport]: exporting a Service

    The controller of a member cluster that turns a ServiceExport and the
    Service of the same name into an InternalServiceExport in the hub. *)

From S2P Require Import Prelude Prog Go Api Fleet Azure Effects Deps.
From S2P Require Import Protocols ApiServer Conditions ObjectMeta TimeFormat.

Module serviceexport.

Definition svcExportValidCondReason := "ServiceIsValid".
Definition svcExportInvalidNotFoundCondReason := "ServiceNotFound".
Definition svcExportInvalidIneligibleCondReason := "ServiceIneligible".
Definition svcExportPendingConflictResolutionReason := "ServicePendingConflictResolution".
Definition svcExportInvalidWeightAnnotationReason := "ServiceExportInvalidWeightAnnotation".
Definition svcExportCleanupFinalizer := "networking.fleet.azure.com/svc-export-cleanup".

Record Reconciler := {
  MemberClusterID : string;
  HubNamespace : string;
  ResourceGroupName : string;
  EnableTrafficManagerFeature : bool;
}.

(** ** [util.go] *)

Definition formatInternalServiceExportName (svcExport : ServiceExport) : string :=
  om_Namespace (se_ObjectMeta svcExport) +:+ "-" +:+ om_Name (se_ObjectMeta svcExport).

Definition isServiceEligibleForExport (svc : Service) : bool :=
  negb (bool_decide (svc_Type svc = ServiceTypeExternalName) ||
        bool_decide (svc_ClusterIP svc = "None")).

Definition extractServicePorts (svc : Service) : list ServicePort :=
  (λ p, {| sp_Name := csp_Name p;
           sp_Protocol := csp_Protocol p;
           sp_AppProtocol := csp_AppProtocol p;
           sp_Port := csp_Port p;
           sp_TargetPort := csp_TargetPort p |}) <$> svc_Ports svc.

(** A condition of a ServiceExport, observed at its generation. *)
Definition exportCondition (svcExport : ServiceExport) (type status reason message : string)
    : Condition :=
  {| c_Type := type; c_Status := status;
     c_ObservedGeneration := om_Generation (se_ObjectMeta svcExport);
     c_LastTransitionTime := None; c_Reason := reason; c_Message := message |}.

(** [svcExport.Namespace/svcExport.Name]. *)
Definition slashName (svcExport : ServiceExport) : string :=
  om_Namespace (se_ObjectMeta svcExport) +:+ "/" +:+ om_Name (se_ObjectMeta svcExport).

Section controller.
Context {util : ControllerUtil} {loc : Location}.

(** The shared tail of the condition updates: set the condition and write the
    status back. *)
Definition setConditionAndUpdate (svcExport : ServiceExport) (c : Condition)
    : IO (option error * ServiceExport) :=
  cs ← SetStatusCondition (se_Conditions svcExport) c;
  StatusUpdate Member KServiceExport (setExportConditions cs svcExport).

Definition removeServiceExportCleanupFinalizer (svcExport : ServiceExport)
    : IO (option error * ServiceExport) :=
  Update Member KServiceExport (removeFinalizer svcExport svcExportCleanupFinalizer).

Definition addServiceExportCleanupFinalizer (svcExport : ServiceExport)
    : IO (option error * ServiceExport) :=
  Update Member KServiceExport (addFinalizer svcExport svcExportCleanupFinalizer).

(** The InternalServiceExport a ServiceExport is exported to, as a request. *)
Definition newInternalServiceExport (r : Reconciler) (svcExport : ServiceExport)
    : InternalServiceExport :=
  {| ise_TypeMeta := {| tm_Kind := ""; tm_APIVersion := "" |};
     ise_ObjectMeta := newObjectMeta (HubNamespace r) (formatInternalServiceExportName svcExport);
     ise_Spec := {| ise_Ports := []; ise_ServiceReference := emptyReference; ise_Type := "";
                    ise_IsDNSLabelConfigured := false; ise_IsInternalLoadBalancer := false;
                    ise_PublicIPResourceID := None; ise_Weight := None |};
     ise_Conditions := [] |}.

Definition unexportService (r : Reconciler) (svcExport : ServiceExport)
    : IO ((Result * option error) * ServiceExport) :=
  deleted ← Delete Hub KInternalServiceExport (newInternalServiceExport r svcExport);
  match IgnoreNotFound deleted with
  | Some err => mret ((emptyResult, Some err), svcExport)
  | None =>
      '(err, svcExport) ← removeServiceExportCleanupFinalizer svcExport;
      mret ((emptyResult, err), svcExport)
  end.

Definition markServiceExportAsInvalidNotFound (svcExport : ServiceExport)
    : IO (option error * ServiceExport) :=
  let validCond := FindStatusCondition (se_Conditions svcExport) ServiceExportValid in
  let expectedValidCond := exportCondition svcExport ServiceExportValid ConditionFalse
    svcExportInvalidNotFoundCondReason ("service " +:+ slashName svcExport +:+ " is not found") in
  if EqualCondition validCond (Some expectedValidCond) then mret (None, svcExport)
  else setConditionAndUpdate svcExport expectedValidCond.

Definition markServiceExportAsInvalidSvcIneligible (svcExport : ServiceExport)
    : IO (option error * ServiceExport) :=
  let validCond := FindStatusCondition (se_Conditions svcExport) ServiceExportValid in
  let expectedValidCond := exportCondition svcExport ServiceExportValid ConditionFalse
    svcExportInvalidIneligibleCondReason
    ("service " +:+ slashName svcExport +:+ " is not eligible for export") in
  if EqualCondition validCond (Some expectedValidCond) then mret (None, svcExport)
  else setConditionAndUpdate svcExport expectedValidCond.

Definition markServiceExportAsValid (svcExport : ServiceExport)
    : IO (option error * ServiceExport) :=
  let validCond := FindStatusCondition (se_Conditions svcExport) ServiceExportValid in
  let expectedValidCond := exportCondition svcExport ServiceExportValid ConditionTrue
    svcExportValidCondReason ("service " +:+ slashName svcExport +:+ " is valid for export") in
  '(svcExport, needUpdateStatus) ←
    (if EqualConditionWithMessage validCond (Some expectedValidCond)
     then mret (svcExport, false)
     else cs ← SetStatusCondition (se_Conditions svcExport) expectedValidCond;
          mret (setExportConditions cs svcExport, true));
  '(svcExport, needUpdateStatus) ←
    match FindStatusCondition (se_Conditions svcExport) ServiceExportConflict with
    | Some _ => mret (svcExport, needUpdateStatus)
    | None =>
        cs ← SetStatusCondition (se_Conditions svcExport)
          (exportCondition svcExport ServiceExportConflict ConditionUnknown
             svcExportPendingConflictResolutionReason
             ("service " +:+ slashName svcExport +:+ " is pending export conflict resolution"));
        mret (setExportConditions cs svcExport, true)
    end;
  if negb needUpdateStatus then mret (None, svcExport) else
  let name := om_Name (se_ObjectMeta svcExport) in
  Event EventTypeNormal "ValidServiceExport" ("Service " +:+ name +:+ " is valid for export");;
  Event EventTypeNormal "PendingExportConflictResolution"
    ("Service " +:+ name +:+ " is pending export conflict resolution");;
  StatusUpdate Member KServiceExport svcExport.

(** ** The export *)

Definition annotateLastSeenResourceVersionAndTimestamp (svc : Service)
    (svcExport : ServiceExport) (startTime : Time) : IO (option error * ServiceExport) :=
  let annotations := map_init (om_Annotations (se_ObjectMeta svcExport)) in
  annotations ← map_set annotations MetricsAnnotationLastSeenResourceVersion
    (om_ResourceVersion (svc_ObjectMeta svc));
  annotations ← map_set annotations MetricsAnnotationLastSeenTimestamp
    (FormatRFC3339 (zoneOffset startTime) startTime);
  Update Member KServiceExport (updMeta (setAnnotations annotations) svcExport).

Definition collectAndVerifyLastSeenResourceVersionAndTimestamp (svc : Service)
    (svcExport : ServiceExport) (startTime : Time)
    : IO ((Time * option error) * ServiceExport) :=
  let annotate :=
    '(err, svcExport) ← annotateLastSeenResourceVersionAndTimestamp svc svcExport startTime;
    mret ((startTime, err), svcExport) in
  let annotations := om_Annotations (se_ObjectMeta svcExport) in
  match map_get annotations MetricsAnnotationLastSeenResourceVersion,
        map_get annotations MetricsAnnotationLastSeenTimestamp with
  | Some lastSeenResourceVersion, Some lastSeenTimestampData =>
      match ParseRFC3339 lastSeenTimestampData with
      | None => annotate
      | Some lastSeenTimestamp =>
          if negb (bool_decide (lastSeenResourceVersion = om_ResourceVersion (svc_ObjectMeta svc)))
             || (startTime <? lastSeenTimestamp)%Z
          then annotate
          else mret ((lastSeenTimestamp, None), svcExport)
      end
  | _, _ => annotate
  end.

(** The loop over the public IP addresses; the address of the load balancer is
    only read for an address that has an IP. *)
Fixpoint findPublicIP (service : Service) (pips : list PublicIPAddress)
    : IO (option PublicIPAddress) :=
  match pips with
  | [] => mret None
  | pip :: pips =>
      match pip_Properties pip ≫= pipp_IPAddress with
      | None => findPublicIP service pips
      | Some ip =>
          match svc_Ingress service with
          | [] => Panic "index out of range"
          | ingress :: _ =>
              if decide (ip = lbi_IP ingress) then mret (Some pip) else findPublicIP service pips
          end
      end
  end.

Definition lookupPublicIPResourceIDByLoadBalancerIP (r : Reconciler) (service : Service)
    : IO (error + option PublicIPAddress) :=
  let rg := TrimSpace (map_getz (om_Annotations (svc_ObjectMeta service))
                         ServiceAnnotationLoadBalancerResourceGroup) in
  let rg := if decide (rg = "") then ResourceGroupName r else rg in
  pips ← call (EPublicIPList rg);
  match pips with
  | inl err => mret (inl err)
  | inr pips => pip ← findPublicIP service pips; mret (inr pip)
  end.

(** The spec with the fields that [setAzureRelatedInformation] sets. *)
Definition withAzure (spec : InternalServiceExportSpec) (type : string)
    (isInternal isDNS : bool) (pip : option string) : InternalServiceExportSpec :=
  {| ise_Ports := ise_Ports spec; ise_ServiceReference := ise_ServiceReference spec;
     ise_Type := type; ise_IsDNSLabelConfigured := isDNS;
     ise_IsInternalLoadBalancer := isInternal; ise_PublicIPResourceID := pip;
     ise_Weight := ise_Weight spec |}.

Definition setAzureRelatedInformation (r : Reconciler) (service : Service)
    (spec : InternalServiceExportSpec) : IO (option error * InternalServiceExportSpec) :=
  let dns := ise_IsDNSLabelConfigured spec in
  let pipID := ise_PublicIPResourceID spec in
  let type := svc_Type service in
  let annotations := om_Annotations (svc_ObjectMeta service) in
  if negb (bool_decide (type = ServiceTypeLoadBalancer))
  then mret (None, withAzure spec type (ise_IsInternalLoadBalancer spec) dns pipID) else
  let isInternal :=
    bool_decide (map_getz annotations ServiceAnnotationAzureLoadBalancerInternal = "true") in
  let unchanged := mret (None, withAzure spec type isInternal dns pipID) in
  if isInternal then unchanged else
  match svc_Ingress service with
  | [] => unchanged
  | ingress :: _ =>
      if decide (lbi_IP ingress = "") then unchanged else
      found ← lookupPublicIPResourceIDByLoadBalancerIP r service;
      match found with
      | inl err => mret (Some err, withAzure spec type isInternal dns pipID)
      | inr None => unchanged
      | inr (Some pip) =>
          let dns := match pip_Properties pip ≫= pipp_DNSSettings with
                     | Some (Some _) => true
                     | _ => false
                     end in
          match map_get annotations ServiceAnnotationAzureDNSLabelName with
          | None => mret (None, withAzure spec type isInternal dns (pip_ID pip))
          | Some dnsName =>
              if decide (dnsName = "")
              then mret (None, withAzure spec type isInternal false (pip_ID pip))
              else if negb dns
              then match pip_ID pip with
                   | None => Panic "nil pointer dereference"
                   | Some id =>
                       mret (Some (ErrorString ("in the process of adding DNS to the public ip address "
                                                  +:+ id)),
                             withAzure spec type isInternal dns (pip_ID pip))
                   end
              else mret (None, withAzure spec type isInternal dns (pip_ID pip))
          end
      end
  end.

Definition withExport (spec : InternalServiceExportSpec) (ports : list ServicePort)
    (ref : ExportedObjectReference) (weight : option Z) : InternalServiceExportSpec :=
  {| ise_Ports := ports; ise_ServiceReference := ref; ise_Type := ise_Type spec;
     ise_IsDNSLabelConfigured := ise_IsDNSLabelConfigured spec;
     ise_IsInternalLoadBalancer := ise_IsInternalLoadBalancer spec;
     ise_PublicIPResourceID := ise_PublicIPResourceID spec; ise_Weight := weight |}.

(** The error that stands for a UID mismatch: an AlreadyExists error of the
    resource "Service". *)
Definition errUIDMismatch (svc : Service) : error :=
  StatusError ReasonAlreadyExists (Some "Service")
    ("Service.networking.fleet.azure.com " +:+ om_Namespace (svc_ObjectMeta svc) +:+ "/" +:+
     om_Name (svc_ObjectMeta svc) +:+ " already exists").

(** The function given to [CreateOrUpdate]. *)
Definition mutateExport (r : Reconciler) (svc : Service) (exportedSince : Time)
    (exportWeight : Z) (e : InternalServiceExport)
    : IO (option error * InternalServiceExport) :=
  let spec := ise_Spec e in
  let ref := if decide (om_CreationTimestamp (ise_ObjectMeta e) = None)
             then FromMetaObjects (MemberClusterID r) (svc_TypeMeta svc) (svc_ObjectMeta svc)
                    (Some exportedSince)
             else ise_ServiceReference spec in
  if negb (bool_decide (ref_UID ref = om_UID (svc_ObjectMeta svc)))
  then mret (Some (errUIDMismatch svc),
             setInternalExportSpec (withExport spec (ise_Ports spec) ref (ise_Weight spec)) e)
  else
  let ref := UpdateFromMetaObject (svc_ObjectMeta svc) (Some exportedSince) ref in
  if EnableTrafficManagerFeature r
  then
    '(err, spec) ← setAzureRelatedInformation r svc
       (withExport spec (extractServicePorts svc) ref (Some exportWeight));
    mret (err, setInternalExportSpec spec e)
  else
    mret (None, setInternalExportSpec
                  (withExport spec (extractServicePorts svc) ref (ise_Weight spec)) e).

Definition exportService (r : Reconciler) (svcExport : ServiceExport) (svc : Service)
    (exportedSince : Time) (exportWeight : Z) : IO (Result * option error) :=
  '(err, _) ← CreateOrUpdate Hub KInternalServiceExport (newInternalServiceExport r svcExport)
     (mutateExport r svc exportedSince exportWeight);
  match err with
  | None => mret (emptyResult, None)
  | Some err =>
      uidMismatch ←
        match IsAlreadyExists err, asStatusError err with
        | true, Some (_, details) =>
            match details with
            | None => Panic "nil pointer dereference"
            | Some kind => mret (bool_decide (kind = "Service"))
            end
        | _, _ => mret false
        end;
      if uidMismatch : bool
      then
        '((_, err), _) ← unexportService r svcExport;
        match err with
        | Some err => mret (emptyResult, Some err)
        | None => mret ({| Requeue := true; RequeueAfter := 0%Z |}, None)
        end
      else mret (emptyResult, Some err)
  end.

(** ** [Reconcile] *)

(** The branches that end with an unexport and a condition: unexport when the
    cleanup finalizer is present, then mark. *)
Definition unexportIfExported (r : Reconciler) (svcExport : ServiceExport)
    : IO (option error * ServiceExport) :=
  if hasFinalizer svcExport svcExportCleanupFinalizer
  then '((_, err), svcExport) ← unexportService r svcExport; mret (err, svcExport)
  else mret (None, svcExport).

Definition handleNotFound (r : Reconciler) (svcExport : ServiceExport) (svcName : string)
    : IO (Result * option error) :=
  Event EventTypeWarning "ServiceNotFound"
    ("Service " +:+ svcName +:+ " is not found or in the deleting state");;
  '(err, svcExport) ← unexportIfExported r svcExport;
  match err with
  | Some err => mret (emptyResult, Some err)
  | None => '(err, _) ← markServiceExportAsInvalidNotFound svcExport; mret (emptyResult, err)
  end.

Definition handleIneligible (r : Reconciler) (svcExport : ServiceExport) (svcName : string)
    : IO (Result * option error) :=
  Event EventTypeWarning "ServiceNotEligible"
    ("Service " +:+ svcName +:+ " is not eligible for exporting and please check service spec");;
  '(err, svcExport) ← unexportIfExported r svcExport;
  match err with
  | Some err => mret (emptyResult, Some err)
  | None => '(err, _) ← markServiceExportAsInvalidSvcIneligible svcExport; mret (emptyResult, err)
  end.

Definition handleInvalidWeight (svcExport : ServiceExport) (svcName : string) (err : error)
    : IO (Result * option error) :=
  let curValidCond := FindStatusCondition (se_Conditions svcExport) ServiceExportValid in
  let expectedValidCond := exportCondition svcExport ServiceExportValid ConditionFalse
    svcExportInvalidWeightAnnotationReason
    ("serviceExport " +:+ slashName svcExport +:+ " has an invalid weight annotation, err = "
       +:+ errorString err) in
  if EqualConditionWithMessage curValidCond (Some expectedValidCond)
  then mret (emptyResult, None)
  else
    Event EventTypeWarning svcExportInvalidWeightAnnotationReason
      ("ServiceExport " +:+ svcName +:+ " has invalid weight value in the annotation");;
    '(err, _) ← setConditionAndUpdate svcExport expectedValidCond;
    mret (emptyResult, err).

Definition handleZeroWeight (r : Reconciler) (svcExport : ServiceExport) (svcName : string)
    : IO (Result * option error) :=
  Event EventTypeNormal "Service" ("Service " +:+ svcName +:+ " weight is set to 0");;
  '(err, svcExport) ← unexportIfExported r svcExport;
  match err with
  | Some err => mret (emptyResult, Some err)
  | None =>
      let validCond := FindStatusCondition (se_Conditions svcExport) ServiceExportValid in
      let expectedValidCond := exportCondition svcExport ServiceExportValid ConditionTrue
        svcExportValidCondReason
        ("exported service " +:+ slashName svcExport +:+ " with 0 weight") in
      if EqualConditionWithMessage validCond (Some expectedValidCond)
      then mret (emptyResult, None)
      else '(err, _) ← setConditionAndUpdate svcExport expectedValidCond;
           mret (emptyResult, err)
  end.

(** From the finalizer to the export. *)
Definition handleExport (r : Reconciler) (svcExport : ServiceExport) (svc : Service)
    (startTime : Time) (exportWeight : Z) : IO (Result * option error) :=
  '(err, svcExport) ←
    (if hasFinalizer svcExport svcExportCleanupFinalizer then mret (None, svcExport)
     else addServiceExportCleanupFinalizer svcExport);
  match err with
  | Some err => mret (emptyResult, Some err)
  | None =>
      '(err, svcExport) ← markServiceExportAsValid svcExport;
      match err with
      | Some err => mret (emptyResult, Some err)
      | None =>
          '((exportedSince, _), svcExport) ←
            collectAndVerifyLastSeenResourceVersionAndTimestamp svc svcExport startTime;
          exportService r svcExport svc exportedSince exportWeight
      end
  end.

Definition Reconcile (r : Reconciler) (req : NamespacedName) : IO (Result * option error) :=
  startTime ← Now;
  got ← Get Member KServiceExport req;
  match got with
  | inl err => mret (emptyResult, IgnoreNotFound (Some err))
  | inr svcExport =>
      if isDeleting (svcExport : ServiceExport)
      then
        if hasFinalizer (svcExport : ServiceExport) svcExportCleanupFinalizer
        then '(res, _) ← unexportService r svcExport; mret res
        else mret (emptyResult, None)
      else
      got ← Get Member KService req;
      match got with
      | inl err => if IsNotFound err then handleNotFound r svcExport (nn_Name req)
                   else mret (emptyResult, Some err)
      | inr svc =>
          let svcName := om_Name (svc_ObjectMeta svc) in
          if isDeleting (svc : Service) then handleNotFound r svcExport svcName
          else if negb (isServiceEligibleForExport svc) then handleIneligible r svcExport svcName
          else
          match ExtractWeightFromServiceExport svcExport with
          | inl err => handleInvalidWeight svcExport svcName err
          | inr exportWeight =>
              if decide (exportWeight = 0%Z) then handleZeroWeight r svcExport svcName
              else handleExport r svcExport svc startTime exportWeight
          end
      end
  end.

End controller.
(** ** The protocol of an export

    The state remembers what the controller has learned: the ServiceExport as
    first read, whether the stored one has the cleanup finalizer, the metadata
    of its last version seen, what reading the Service gave, the
    InternalServiceExport as found in the hub or as the hub accepted it last, and
    whether the hub has accepted its deletion or does not hold one.  A failed
    update that gives the finalizer up may have been carried out. *)
Record knowledge := {
  k_export : option ServiceExport;
  k_finalizer : bool;
  k_meta : option ObjectMeta;
  k_service : option (error + Service);
  k_hub : option InternalServiceExport;
  k_gone : bool;
}.
Definition nothingKnown : knowledge :=
  {| k_export := None; k_finalizer := false; k_meta := None; k_service := None; k_hub := None; k_gone := false |}.

Definition learnStored (e : ServiceExport) (s : knowledge) : knowledge :=
  {| k_export := k_export s;
     k_finalizer := bool_decide (svcExportCleanupFinalizer ∈ finalizersOf e);
     k_meta := Some (se_ObjectMeta e); k_service := k_service s; k_hub := k_hub s; k_gone := k_gone s |}.
Definition learnExport (e : ServiceExport) (s : knowledge) : knowledge :=
  {| k_export := Some e;
     k_finalizer := bool_decide (svcExportCleanupFinalizer ∈ finalizersOf e);
     k_meta := Some (se_ObjectMeta e); k_service := k_service s; k_hub := k_hub s; k_gone := k_gone s |}.
Definition learnService (r : error + Service) (s : knowledge) : knowledge :=
  {| k_export := k_export s; k_finalizer := k_finalizer s; k_meta := k_meta s; k_service := Some r;
     k_hub := k_hub s; k_gone := k_gone s |}.
Definition learnHub (e : InternalServiceExport) (s : knowledge) : knowledge :=
  {| k_export := k_export s; k_finalizer := k_finalizer s; k_meta := k_meta s; k_service := k_service s;
     k_hub := Some e; k_gone := k_gone s |}.
Definition learnGone (gone : bool) (s : knowledge) : knowledge :=
  {| k_export := k_export s; k_finalizer := k_finalizer s; k_meta := k_meta s; k_service := k_service s;
     k_hub := k_hub s; k_gone := gone |}.
Definition learnFailed (o : ServiceExport) (s : knowledge) : knowledge :=
  {| k_export := k_export s;
     k_finalizer := k_finalizer s && bool_decide (svcExportCleanupFinalizer ∈ finalizersOf o);
     k_meta := k_meta s; k_service := k_service s; k_hub := k_hub s; k_gone := k_gone s |}.

(** The hub object of a request. *)
Definition targetKey (r : Reconciler) (req : NamespacedName) : NamespacedName :=
  {| nn_Namespace := HubNamespace r; nn_Name := nn_Namespace req +:+ "-" +:+ nn_Name req |}.

(** Neither headless nor an alias of an external name. *)
Definition eligible (svc : Service) : Prop :=
  svc_Type svc ≠ "ExternalName" ∧ svc_ClusterIP svc ≠ "None".
Lemma isServiceEligibleForExport_spec svc :
  if isServiceEligibleForExport svc then eligible svc else ¬ eligible svc.
Proof.
  unfold isServiceEligibleForExport, eligible, ServiceTypeExternalName.
  repeat case_bool_decide; simpl; tauto.
Qed.
(** A Service that may be exported, with its weight. *)
Definition exportable (e : ServiceExport) (svc : Service) (w : Z) : Prop :=
  isDeleting e = false ∧ isDeleting svc = false ∧ eligible svc ∧
  ExtractWeightFromServiceExport e = inr w ∧ w ≠ 0%Z.

(** What the hub is given for it. *)
Definition exportsService (r : Reconciler) (svc : Service) (w : Z) (o : InternalServiceExport)
    : Prop :=
  ise_Ports (ise_Spec o) = extractServicePorts svc ∧
  ref_UID (ise_ServiceReference (ise_Spec o)) = om_UID (svc_ObjectMeta svc) ∧
  ref_ResourceVersion (ise_ServiceReference (ise_Spec o)) = om_ResourceVersion (svc_ObjectMeta svc) ∧
  ref_Generation (ise_ServiceReference (ise_Spec o)) = om_Generation (svc_ObjectMeta svc) ∧
  (EnableTrafficManagerFeature r = true →
   ise_Weight (ise_Spec o) = Some w ∧ ise_Type (ise_Spec o) = svc_Type svc).

Definition mayExport (r : Reconciler) (req : NamespacedName) (o : InternalServiceExport)
    (s : knowledge) : Prop :=
  objectKey o = targetKey r req ∧ k_finalizer s = true ∧
  ∃ e svc w, k_export s = Some e ∧ k_service s = Some (inr svc) ∧
    exportable e svc w ∧ exportsService r svc w o.

(** The reasons to take a Service back: it is not to be exported, *)
Definition unwanted (s : knowledge) : Prop :=
  ∃ e, k_export s = Some e ∧
    (isDeleting e = true ∨
     (∃ err, k_service s = Some (inl err) ∧ IsNotFound err = true) ∨
     (∃ svc, k_service s = Some (inr svc) ∧
        (isDeleting svc = true ∨ ¬ eligible svc ∨
         ExtractWeightFromServiceExport e = inr 0%Z))).
(** or the hub has the export of an earlier Service of that name. *)
Definition replaced (s : knowledge) : Prop :=
  ∃ e svc w cur, k_export s = Some e ∧ k_service s = Some (inr svc) ∧ exportable e svc w ∧
    k_hub s = Some cur ∧ ref_UID (ise_ServiceReference (ise_Spec cur)) ≠ om_UID (svc_ObjectMeta svc).
Definition mustUnexport (s : knowledge) : Prop := unwanted s ∨ replaced s.

Definition exportProtocol (r : Reconciler) (req : NamespacedName) : protocol eff knowledge := {|
  allowed X e s :=
    match e with
    | EGet Member KServiceExport key | EGet Member KService key => key = req
    | EGet Hub KInternalServiceExport key => key = targetKey r req
    | ECreate Hub KInternalServiceExport o => mayExport r req o s
    | EUpdate Hub KInternalServiceExport o => mayExport r req o s
    | EDelete Hub KInternalServiceExport key =>
        key = targetKey r req ∧ k_finalizer s = true ∧ mustUnexport s
    | EUpdate Member KServiceExport o =>
        objectKey o = req ∧
        (svcExportCleanupFinalizer ∈ finalizersOf o ∨ k_gone s = true)
    | EStatusUpdate Member KServiceExport o =>
        objectKey o = req ∧ k_meta s = Some (se_ObjectMeta o)
    | EPublicIPList _ => EnableTrafficManagerFeature r = true
    | ENow | EEvent _ _ _ => True
    | _ => False
    end;
  answer X e s := serverAnswer e;
  next X e :=
    match e in eff X return X → knowledge → knowledge with
    | EGet Member KServiceExport key => λ r s,
        match r with inr o => learnExport o s | inl _ => s end
    | EUpdate Member KServiceExport o => λ r s,
        match r with inr o' => learnStored o' s | inl _ => learnFailed o s end
    | EStatusUpdate Member KServiceExport o => λ r s,
        match r with inr o' => learnStored o' s | inl _ => s end
    | EGet Member KService key => λ r s, learnService r s
    | EGet Hub KInternalServiceExport key => λ r s,
        match r with inr o => learnHub o s | inl _ => s end
    | EDelete Hub KInternalServiceExport key => λ r s,
        match IgnoreNotFound r with None => learnGone true s | Some _ => s end
    | ECreate Hub KInternalServiceExport o => λ r s,
        match r with inr _ => learnHub o (learnGone false s) | inl _ => learnGone false s end
    | EUpdate Hub KInternalServiceExport o => λ r s,
        match r with inr _ => learnHub o (learnGone false s) | inl _ => learnGone false s end
    | _ => λ _ s, s
    end |}.

(** How a round ends.  Another round is asked for at once only after the export of
    an earlier Service was taken back.  Else, without an error, there is nothing
    to do, or a Service that is not to be exported has no cleanup finalizer, or
    the weight is invalid, or the hub has the export. *)
Definition finished (r : Reconciler) (s : knowledge) : Prop :=
  match k_export s with
  | None => True
  | Some e =>
      (unwanted s ∧ k_finalizer s = false) ∨
      (∃ svc err, k_service s = Some (inr svc) ∧ ExtractWeightFromServiceExport e = inl err) ∨
      ∃ svc w o, k_service s = Some (inr svc) ∧ exportable e svc w ∧ k_finalizer s = true ∧
        k_hub s = Some o ∧ exportsService r svc w o
  end.
Definition roundEnds (r : Reconciler) (x : Result * option error) (s : knowledge) : Prop :=
  RequeueAfter x.1 = 0%Z ∧
  match x.2 with
  | Some _ => Requeue x.1 = false
  | None => if Requeue x.1 then replaced s ∧ k_gone s = true ∧ k_finalizer s = false else finished r s
  end.

(** ** The controller follows the protocol *)

Section safety.
Context {util : ControllerUtil} {laws : ControllerUtilLaws} {loc : Location}.
Context (r : Reconciler) (req : NamespacedName).
Local Abbreviation P := (exportProtocol r req).

(** The local copy agrees with what is known of the stored object. *)
Definition tracks (e : ServiceExport) (s : knowledge) : Prop :=
  objectKey e = req ∧ (svcExportCleanupFinalizer ∈ finalizersOf e ↔ k_finalizer s = true).
(** It is the version seen last, but for the status. *)
Definition synced (e : ServiceExport) (s : knowledge) : Prop :=
  tracks e s ∧ k_meta s = Some (se_ObjectMeta e).
Definition sameReads (s s' : knowledge) : Prop :=
  k_export s' = k_export s ∧ k_service s' = k_service s ∧ k_hub s' = k_hub s.

Lemma stored_meta (e o : ServiceExport) :
  answersWrite (k := KServiceExport) e (inr o) →
  objectKey o = objectKey e ∧ finalizersOf o = finalizersOf e.
Proof.
  intros Hm. split; [apply (sameMeta_key e o Hm)|apply (sameMeta_finalizers e o Hm)].
Qed.
Lemma tracks_stored (e o : ServiceExport) s :
  objectKey e = req → answersWrite (k := KServiceExport) e (inr o) → synced o (learnStored o s).
Proof.
  intros Hkey [Ho _]%stored_meta. split; [|done]. split; [by rewrite Ho|]. simpl. by rewrite bool_decide_eq_true.
Qed.

Lemma targetKey_internal (e : ServiceExport) :
  objectKey e = req → objectKey (newInternalServiceExport r e) = targetKey r req.
Proof.
  intros <-. unfold objectKey, targetKey, newInternalServiceExport,
    formatInternalServiceExportName. done.
Qed.

Lemma unexportService_wp e s :
  tracks e s → k_finalizer s = true → mustUnexport s →
  wp P (unexportService r e) s (λ x s',
    x.1.1 = emptyResult ∧
    (x.1.2 = None → synced x.2 s' ∧ k_finalizer s' = false ∧ k_gone s' = true ∧ sameReads s s')).
Proof.
  intros [Hkey Hfin] Hk Hmust. unfold unexportService.
  apply wp_bind, wp_Delete.
  { simpl. split; [by apply targetKey_internal|done]. }
  intros d _. simpl. destruct (IgnoreNotFound d); [by apply wp_ret|].
  apply wp_bind, wp_Update.
  { split; [|simpl; auto]. rewrite <-Hkey. apply (removeFinalizer_key (T := ServiceExport)). }
  intros [err|o] Ho; simpl; [by apply wp_ret|]. apply wp_ret. split; [done|].
  intros _. split.
  { eapply tracks_stored, Ho. rewrite <-Hkey. apply (removeFinalizer_key (T := ServiceExport)). }
  split; [|done]. apply bool_decide_eq_false. apply stored_meta in Ho as [_ ->].
  rewrite (removeFinalizer_spec (T := ServiceExport)). by intros [_ []].
Qed.

Lemma unexportIfExported_wp e s :
  synced e s → mustUnexport s →
  wp P (unexportIfExported r e) s (λ x s',
    x.1 = None → synced x.2 s' ∧ sameReads s s' ∧ k_finalizer s' = false).
Proof.
  intros He Hmust. unfold unexportIfExported. destruct (hasFinalizer e _) eqn:Hf.
  2: { apply wp_ret. intros _. split; [done|]. split; [done|]. apply hasFinalizer_false in Hf.
       destruct He as [[_ He] _]. destruct (k_finalizer s); [by destruct Hf; apply He|done]. }
  apply hasFinalizer_spec in Hf. apply wp_bind. eapply wp_mono.
  { apply unexportService_wp; [apply He| |done]. by apply He. }
  intros [[res err] e'] s' [_ Hok]. apply wp_ret. intros Herr.
  destruct (Hok Herr) as (? & ? & _ & ?). done.
Qed.

Lemma setConditionAndUpdate_wp e c s :
  synced e s → wp P (setConditionAndUpdate e c) s (λ x s',
    x.1 = None → synced x.2 s' ∧ finalizersOf x.2 = finalizersOf e ∧ sameReads s s').
Proof.
  intros [[Hkey Hfin] Hm]. apply wp_bind, wp_SetStatusCondition; [done|]. intros now _.
  apply wp_StatusUpdate; [done|]. intros [err|o] [Ho _]; [done|]. intros _. simpl.
  split; [|split; [|done]].
  - eapply tracks_stored; [|exact Ho]. done.
  - by apply stored_meta in Ho as [_ ->].
Qed.

(** Nothing that was read and no finalizer is lost. *)
Definition kept (s s' : knowledge) : Prop := sameReads s s' ∧ k_finalizer s' = k_finalizer s.

Lemma tracks_kept e e' s s' :
  tracks e s → tracks e' s' → finalizersOf e' = finalizersOf e → sameReads s s' → kept s s'.
Proof.
  intros [_ He] [_ He'] Hf Hs. split; [done|]. rewrite Hf in He'.
  destruct (k_finalizer s), (k_finalizer s'); naive_solver.
Qed.

Lemma setCondition_keeps e c s :
  synced e s → wp P (setConditionAndUpdate e c) s (λ x s', x.1 = None → kept s s').
Proof.
  intros He. eapply wp_mono; [by apply setConditionAndUpdate_wp|]. intros x s' Hx Hn.
  destruct (Hx Hn) as ([He' _] & Hf & Hr). eapply tracks_kept; [apply He|exact He'|done|done].
Qed.
Lemma markServiceExportAsInvalidNotFound_wp e s :
  synced e s → wp P (markServiceExportAsInvalidNotFound e) s (λ x s', x.1 = None → kept s s').
Proof.
  intros He. unfold markServiceExportAsInvalidNotFound.
  case_match; [by apply wp_ret|by apply setCondition_keeps].
Qed.
Lemma markServiceExportAsInvalidSvcIneligible_wp e s :
  synced e s → wp P (markServiceExportAsInvalidSvcIneligible e) s (λ x s', x.1 = None → kept s s').
Proof.
  intros He. unfold markServiceExportAsInvalidSvcIneligible.
  case_match; [by apply wp_ret|by apply setCondition_keeps].
Qed.

(** The two condition updates of [markServiceExportAsValid] only touch the
    status. *)
Definition sameButStatus (e e' : ServiceExport) : Prop := se_ObjectMeta e' = se_ObjectMeta e.

Lemma markServiceExportAsValid_wp e s :
  synced e s →
  wp P (markServiceExportAsValid e) s (λ x s', x.1 = None → synced x.2 s' ∧ kept s s').
Proof.
  intros He. unfold markServiceExportAsValid. apply wp_bind.
  apply (wp_mono _ _ _ (λ x s', sameButStatus e x.1 ∧ s' = s)).
  { case_match; [by apply wp_ret|]. apply wp_bind, wp_SetStatusCondition; [done|].
    intros now _. by apply wp_ret. }
  intros [e1 n1] s1 [Hm1 ->]. apply wp_bind.
  apply (wp_mono _ _ _ (λ x s', sameButStatus e x.1 ∧ s' = s)).
  { case_match; [by apply wp_ret|]. apply wp_bind, wp_SetStatusCondition; [done|].
    intros now _. by apply wp_ret. }
  intros [e2 n2] s2 [Hm2 ->]. simpl in Hm2.
  assert (objectKey e2 = objectKey e ∧ finalizersOf e2 = finalizersOf e) as [Hk Hf].
  { by unfold objectKey, finalizersOf; simpl; rewrite Hm2. }
  assert (synced e2 s) as He2.
  { destruct He as [He Hm]. split; [by unfold tracks; rewrite Hk, Hf|]. by rewrite Hm, Hm2. }
  destruct n2; simpl; [|by apply wp_ret].
  apply wp_bind, wp_Event; [done|]. intros ? _. apply wp_bind, wp_Event; [done|]. intros ? _.
  apply wp_StatusUpdate; [split; apply He2|]. intros [err|o] [Ho _]; [done|]. intros _. simpl.
  assert (synced o (learnStored o s)) as Hto. { apply (tracks_stored e2); [apply He2|exact Ho]. }
  split; [done|]. eapply tracks_kept; [apply He2|apply Hto|by apply stored_meta in Ho as [_ ->]|done].
Qed.

Lemma annotate_wp svc e t s :
  tracks e s → k_finalizer s = true →
  wp P (annotateLastSeenResourceVersionAndTimestamp svc e t) s (λ x s',
    tracks x.2 s' ∧ kept s s').
Proof.
  intros [Hkey Hfin] Hs. unfold annotateLastSeenResourceVersionAndTimestamp, map_init, map_set.
  apply wp_bind, wp_ret, wp_bind, wp_ret, wp_Update.
  { split; [exact Hkey|]. left. by apply Hfin. }
  intros [err|o] Ho; simpl.
  { assert (k_finalizer s && bool_decide (svcExportCleanupFinalizer ∈ finalizersOf e) = k_finalizer s)
      as Hk by (rewrite bool_decide_true by (by apply Hfin); by destruct (k_finalizer s)).
    split; [split; [exact Hkey|]|split; [done|exact Hk]]. etrans; [exact Hfin|]. simpl. by rewrite <-Hk at 1. }
  assert (tracks o (learnStored o s)) as Hto
    by (eapply tracks_stored, Ho; exact Hkey).
  split; [done|]. eapply (tracks_kept e); [done|done|by apply stored_meta in Ho as [_ ->]|done].
Qed.

Lemma collect_wp svc e t s :
  tracks e s → k_finalizer s = true →
  wp P (collectAndVerifyLastSeenResourceVersionAndTimestamp svc e t) s (λ x s',
    tracks x.2 s' ∧ kept s s').
Proof.
  intros He Hs.
  assert (wp P ('(err, e') ← annotateLastSeenResourceVersionAndTimestamp svc e t;
                mret ((t, err), e')) s (λ x s', tracks x.2 s' ∧ kept s s')) as Hann.
  { apply wp_bind. eapply wp_mono; [by apply annotate_wp|]. intros [err e1] s1 Hs1. by apply wp_ret. }
  unfold collectAndVerifyLastSeenResourceVersionAndTimestamp.
  repeat case_match; try exact Hann. by apply wp_ret.
Qed.
(** *** The Azure information *)

Lemma findPublicIP_wp svc pips s :
  svc_Ingress svc ≠ [] →
  wp P (findPublicIP svc pips) s (λ x s', s' = s ∧ ∀ pip, x = Some pip → pip ∈ pips).
Proof.
  intros Hne. induction pips as [|pip pips IH]; simpl; [by apply wp_ret|].
  assert (wp P (findPublicIP svc pips) s
            (λ x s', s' = s ∧ ∀ pip', x = Some pip' → pip' ∈ pip :: pips)) as Hrest.
  { eapply wp_mono; [exact IH|]. intros x s' [-> Hx]. split; [done|]. intros p Hp. right. auto. }
  case_match; [|exact Hrest]. destruct (svc_Ingress svc); [done|].
  case_decide; [|exact Hrest]. apply wp_ret. split; [done|]. intros ? [= <-]. by left.
Qed.

(** What the function leaves alone. *)
Definition azureOnly (svc : Service) (spec spec' : InternalServiceExportSpec) : Prop :=
  ise_Ports spec' = ise_Ports spec ∧ ise_ServiceReference spec' = ise_ServiceReference spec ∧
  ise_Weight spec' = ise_Weight spec ∧ ise_Type spec' = svc_Type svc.

Lemma setAzureRelatedInformation_wp svc spec s :
  EnableTrafficManagerFeature r = true →
  wp P (setAzureRelatedInformation r svc spec) s (λ x s',
    s' = s ∧ azureOnly svc spec x.2 ∧ ∀ err, x.1 = Some err → asStatusError err = None).
Proof.
  intros Htm. unfold setAzureRelatedInformation.
  destruct (negb _); [by apply wp_ret|]. destruct (bool_decide _); [by apply wp_ret|].
  destruct (svc_Ingress svc) as [|ingress rest] eqn:Hin; [by apply wp_ret|].
  destruct (decide _); [by apply wp_ret|]. apply wp_bind.
  apply (wp_mono _ _ _ (λ x s', s' = s ∧ match x with
    | inl err => asStatusError err = None
    | inr (Some pip) => is_Some (pip_ID pip)
    | inr None => True end)).
  { apply wp_bind, wp_call; [exact Htm|]. intros [err|pips] Hpips; [by apply wp_ret|].
    apply wp_bind. eapply wp_mono; [apply findPublicIP_wp; by rewrite Hin|].
    intros [pip|] s' [-> Hp]; apply wp_ret; [|done]. split; [done|].
    apply Hpips. by apply Hp. }
  intros [err|[pip|]] s' [-> Hp]; [| |by apply wp_ret].
  { apply wp_ret. repeat split. by intros ? [= <-]. }
  destruct Hp as [id ->]. repeat case_match; apply wp_ret; repeat split; by intros ? [= <-].
Qed.

Lemma mutateExport_wp svc t w e s :
  wp P (mutateExport r svc t w e) s (λ x s',
    s' = s ∧ objectKey x.2 = objectKey e ∧
    match x.1 with
    | None => exportsService r svc w x.2
    | Some err =>
        err = errUIDMismatch svc ∧ om_CreationTimestamp (ise_ObjectMeta e) ≠ None ∧
        ref_UID (ise_ServiceReference (ise_Spec e)) ≠ om_UID (svc_ObjectMeta svc) ∨
        asStatusError err = None
    end).
Proof.
  unfold mutateExport. set (ref := if decide _ then _ else _).
  case_bool_decide as Huid; simpl.
  - destruct (EnableTrafficManagerFeature r) eqn:Htm.
    + apply wp_bind. eapply wp_mono; [by apply setAzureRelatedInformation_wp|].
      intros [err spec] s' (-> & (Hp & Href & Hw & Ht) & Herr). apply wp_ret.
      split; [done|]. split; [done|]. simpl in *. destruct err as [err|]; [right; by apply Herr|].
      unfold exportsService. simpl. rewrite Hp, Href, Hw, Ht. done.
    + apply wp_ret. split; [done|]. split; [done|]. unfold exportsService. simpl.
      by rewrite Htm.
  - apply wp_ret. split; [done|]. split; [done|]. left. split; [done|]. subst ref.
    by case_decide.
Qed.

(** *** The export *)

(** What the controller has read when it exports. *)
Definition readyToExport (svc : Service) (w : Z) (s : knowledge) : Prop :=
  k_finalizer s = true ∧ k_service s = Some (inr svc) ∧
  ∃ e0, k_export s = Some e0 ∧ exportable e0 svc w.

(** How [CreateOrUpdate] ends: the mismatch error comes with its reason. *)
Definition afterExport (e : ServiceExport) (svc : Service) (w : Z)
    (x : option error * InternalServiceExport) (s : knowledge) : Prop :=
  tracks e s ∧ readyToExport svc w s ∧
  match x.1 with
  | None => ∃ o, k_hub s = Some o ∧ exportsService r svc w o
  | Some err =>
      err = errUIDMismatch svc ∧
      (∃ cur, k_hub s = Some cur ∧
         ref_UID (ise_ServiceReference (ise_Spec cur)) ≠ om_UID (svc_ObjectMeta svc)) ∨
      wellFormedError err
  end.

Lemma notStatus_wellFormed err : asStatusError err = None → wellFormedError err.
Proof. unfold wellFormedError. by intros ->. Qed.

Lemma createOrUpdate_export_wp e svc t w s :
  tracks e s → readyToExport svc w s →
  wp P (CreateOrUpdate Hub KInternalServiceExport (newInternalServiceExport r e)
          (mutateExport r svc t w)) s (afterExport e svc w).
Proof.
  intros He Hs.
  pose proof (targetKey_internal e (proj1 He)) as Hkey.
  assert (∀ s', k_export s' = k_export s → k_finalizer s' = k_finalizer s →
    k_service s' = k_service s → tracks e s' ∧ readyToExport svc w s') as Hkeep.
  { intros s' H1' H2' H3'. unfold tracks, readyToExport. by rewrite H1', H2', H3'. }
  assert (∀ s' o, tracks e s' → readyToExport svc w s' → objectKey o = targetKey r req →
    exportsService r svc w o → mayExport r req o s') as Hmay.
  { intros s' o _ (Hf & Hsvc & e0 & He0 & Hexp) Hko Ho.
    split; [done|]. split; [done|]. by exists e0, svc, w. }
  apply CreateOrUpdate_wp; [exact Hkey|].
  intros [err|cur] Hget.
  - destruct (IsNotFound err); [|split; [done|]; split; [done|]; by right].
    eapply wp_mono; [apply mutateExport_wp|].
    intros [[err'|] o] s' (-> & Hko & Hx); simpl in *.
    + split; [done|]. split; [done|]. destruct Hx as [(_ & [] & _)|Hx]; [done|].
      right. by apply notStatus_wellFormed.
    + split; [done|]. split; [apply Hmay; [done|done|by rewrite <-Hkey|done]|].
      intros [err'|o'] Hans; simpl.
      * destruct (Hkeep (learnGone false s)) as [? ?]; [done..|]. split; [done|]. split; [done|by right].
      * destruct (Hkeep (learnHub o (learnGone false s))) as [? ?]; [done..|].
        split; [done|]. split; [done|]. by exists o.
  - eapply wp_mono; [apply mutateExport_wp|].
    destruct (Hkeep (learnHub cur s)) as [Hc1 Hc2]; [done..|].
    intros [[err'|] o] s' (-> & Hko & Hx); simpl in *.
    + split; [done|]. split; [done|]. destruct Hx as [(-> & _ & Hx)|Hx].
      * left. split; [done|]. by exists cur.
      * right. by apply notStatus_wellFormed.
    + split; [by rewrite Hko|].
      split; [intros ->; split; [done|]; split; [done|]; by exists cur|]. intros _.
      split; [apply Hmay; [done|done| |done]; by rewrite Hko, Hget, Hkey|].
      intros [err'|o'] Hans; simpl.
      * destruct (Hkeep (learnGone false (learnHub cur s))) as [? ?]; [done..|].
        split; [done|]. split; [done|by right].
      * destruct (Hkeep (learnHub o (learnGone false (learnHub cur s)))) as [? ?]; [done..|].
        split; [done|]. split; [done|]. by exists o.
Qed.

Local Abbreviation ends := (roundEnds r).
Lemma export_failed err s : ends (emptyResult, Some err) s.
Proof. done. Qed.
Hint Resolve export_failed : core.

Lemma exportService_wp e svc t w s :
  tracks e s → readyToExport svc w s → wp P (exportService r e svc t w) s ends.
Proof.
  intros He Hs. unfold exportService. apply wp_bind.
  eapply wp_mono; [by apply createOrUpdate_export_wp|].
  intros [[err|] o] s' (He' & (Hf & Hsvc & e0 & He0 & Hexp) & Hend); simpl in Hend.
  2: { apply wp_ret. split; [done|]. simpl. unfold finished. rewrite He0. right. right.
       destruct Hend as (o' & ? & ?). by exists svc, w, o'. }
  apply wp_bind. apply (wp_mono _ _ _ (λ (b : bool) s1, s1 = s' ∧ (b = true → replaced s'))).
  { destruct Hend as [[-> (cur & ? & ?)]|Hwf].
    - apply wp_ret. split; [done|]. intros _. by exists e0, svc, w, cur.
    - unfold wellFormedError in Hwf. destruct (IsAlreadyExists err); [|by apply wp_ret].
      destruct (asStatusError err) as [[rs [kd|]]|]; [|done|by apply wp_ret].
      apply wp_ret. split; [done|]. by rewrite bool_decide_eq_true. }
  intros [] s1 [-> Hrep]; [|by apply wp_ret]. specialize (Hrep eq_refl).
  apply wp_bind. eapply wp_mono; [apply unexportService_wp; [done|done|by right]|].
  intros [[res [err'|]] e'] s1 [_ Hok]; apply wp_ret; [done|].
  destruct (Hok eq_refl) as (_ & ? & ? & Hr1 & Hr2 & Hr3). split; [done|]. simpl. split; [|done].
  unfold replaced. by rewrite Hr1, Hr2, Hr3.
Qed.

Lemma unwanted_reads s s' : sameReads s s' → unwanted s → unwanted s'.
Proof. intros (H1' & H2' & _). unfold unwanted. by rewrite H1', H2'. Qed.
Lemma unwanted_finished s s' :
  unwanted s → k_finalizer s = false → kept s s' → finished r s'.
Proof.
  intros Hu Hf [Hr Hf']. apply (unwanted_reads _ _ Hr) in Hu. pose proof Hu as (e & He & _).
  unfold finished. rewrite He. left. split; [done|congruence].
Qed.
(** The branches that take a Service back and report why. *)
Lemma unexport_and_end e s (f : ServiceExport → IO (Result * option error)) :
  synced e s → unwanted s →
  (∀ e' s', synced e' s' → unwanted s' → k_finalizer s' = false → wp P (f e') s' ends) →
  wp P ('(err, e) ← unexportIfExported r e;
        match err with Some err => mret (emptyResult, Some err) | None => f e end) s ends.
Proof.
  intros He Hu Hf. apply wp_bind. eapply wp_mono; [apply unexportIfExported_wp; [done|by left]|].
  intros [[err|] e'] s' Hok; [by apply wp_ret|]. destruct (Hok eq_refl) as (? & Hr & ?).
  apply Hf; [done|by eapply unwanted_reads|done].
Qed.
Lemma ends_quietly (p : IO (option error * ServiceExport)) s :
  (∀ s', kept s s' → finished r s') → wp P p s (λ x s', x.1 = None → kept s s') →
  wp P ('(err, _) ← p; mret (emptyResult, err)) s ends.
Proof.
  intros Hf Hp. apply wp_bind. eapply wp_mono; [exact Hp|].
  intros [[err|] a] s' Hk; apply wp_ret; [done|]. split; [done|]. by apply Hf, Hk.
Qed.

Lemma handleExport_wp e svc t w s :
  synced e s → k_service s = Some (inr svc) →
  (∃ e0, k_export s = Some e0 ∧ exportable e0 svc w) →
  wp P (handleExport r e svc t w) s ends.
Proof.
  intros He Hsvc Hexp. unfold handleExport. apply wp_bind.
  apply (wp_mono _ _ _ (λ x s', x.1 = None → synced x.2 s' ∧ sameReads s s' ∧ k_finalizer s' = true)).
  { destruct (hasFinalizer e _) eqn:Hf.
    - apply wp_ret. intros _. apply hasFinalizer_spec in Hf. split; [done|]. split; [done|].
      by apply He.
    - apply wp_Update.
      { split; [apply He|]. left. apply (addFinalizer_spec (T := ServiceExport)). by right. }
      intros [err|o] Ho; [done|]. intros _. split; [eapply tracks_stored, Ho; apply He|].
      split; [done|]. apply bool_decide_eq_true. apply stored_meta in Ho as [_ ->].
      apply (addFinalizer_spec (T := ServiceExport)). by right. }
  intros [[err|] e1] s1 H1'; [by apply wp_ret|]. destruct (H1' eq_refl) as (He1 & Hr1 & Hf1).
  apply wp_bind. eapply wp_mono; [by apply markServiceExportAsValid_wp|].
  intros [[err|] e2] s2 H2'; [by apply wp_ret|]. destruct (H2' eq_refl) as (He2 & Hr2 & Hf2).
  apply wp_bind. eapply wp_mono; [apply collect_wp; [apply He2|congruence]|].
  intros [[since err] e3] s3 (He3 & Hr3 & Hf3). apply exportService_wp; [done|].
  destruct Hr1 as (? & ? & _), Hr2 as (? & ? & _), Hr3 as (? & ? & _).
  split; [congruence|]. split; [congruence|].
  destruct Hexp as (e0 & ? & ?). exists e0. split; [congruence|done].
Qed.

Lemma handleNotFound_wp e name s :
  synced e s → unwanted s → wp P (handleNotFound r e name) s ends.
Proof.
  intros He Hu. apply wp_bind, wp_Event; [done|]. intros ? _.
  apply unexport_and_end; [done|done|]. intros e' s' He' Hu' Hf. apply ends_quietly.
  - intros s''. by apply unwanted_finished.
  - by apply markServiceExportAsInvalidNotFound_wp.
Qed.
Lemma handleIneligible_wp e name s :
  synced e s → unwanted s → wp P (handleIneligible r e name) s ends.
Proof.
  intros He Hu. apply wp_bind, wp_Event; [done|]. intros ? _.
  apply unexport_and_end; [done|done|]. intros e' s' He' Hu' Hf. apply ends_quietly.
  - intros s''. by apply unwanted_finished.
  - by apply markServiceExportAsInvalidSvcIneligible_wp.
Qed.
Lemma handleZeroWeight_wp e name s :
  synced e s → unwanted s → wp P (handleZeroWeight r e name) s ends.
Proof.
  intros He Hu. apply wp_bind, wp_Event; [done|]. intros ? _.
  apply unexport_and_end; [done|done|]. intros e' s' He' Hu' Hf.
  assert (∀ s'', kept s' s'' → finished r s'') as Hfin by (intros s''; by apply unwanted_finished).
  case_match; [apply wp_ret; split; [done|by apply Hfin]|].
  apply ends_quietly; [done|by apply setCondition_keeps].
Qed.
Lemma handleInvalidWeight_wp e name err s e0 svc :
  synced e s → k_export s = Some e0 → k_service s = Some (inr svc) →
  ExtractWeightFromServiceExport e0 = inl err → wp P (handleInvalidWeight e name err) s ends.
Proof.
  intros He He0 Hsvc Herr.
  assert (∀ s', kept s s' → finished r s') as Hfin.
  { intros s' [(H1' & H2' & _) _]. unfold finished. rewrite H1', H2', He0. right. left. by exists svc, err. }
  unfold handleInvalidWeight. case_match; [apply wp_ret; split; [done|by apply Hfin]|].
  apply wp_bind, wp_Event; [done|]. intros ? _. apply ends_quietly; [done|by apply setCondition_keeps].
Qed.

Lemma Reconcile_wp : wp P (Reconcile r req) nothingKnown ends.
Proof.
  unfold Reconcile. apply wp_bind, wp_Now; [done|]. intros t _.
  apply wp_bind, wp_Get; [done|]. intros [err|e] Hget.
  { apply wp_ret. split; [done|]. simpl. by destruct (IsNotFound err). }
  simpl in e.
  assert (synced e (learnExport e nothingKnown)) as He.
  { split; [|done]. split; [exact Hget|]. simpl. by rewrite bool_decide_eq_true. }
  destruct (isDeleting e) eqn:Hdel.
  { assert (unwanted (learnExport e nothingKnown)) as Hu by (exists e; auto).
    destruct (hasFinalizer e _) eqn:Hf.
    2: { apply wp_ret. split; [done|]. left. split; [done|]. by apply bool_decide_eq_false, hasFinalizer_false. }
    apply hasFinalizer_spec in Hf.
    apply wp_bind. eapply wp_mono; [apply unexportService_wp; [apply He|by apply He|by left]|].
    intros [[res [err|]] e'] s' [Hres Hok]; simpl in Hres; subst res; apply wp_ret; [done|].
    destruct (Hok eq_refl) as (_ & Hf' & _ & Hr). split; [done|].
    apply (unwanted_reads _ _ Hr) in Hu. destruct Hr as (Hr & _). simpl. unfold finished. rewrite Hr. by left. }
  apply wp_bind, wp_Get; [done|]. intros svc Hsvc. simpl in svc |- *.
  assert (synced e (learnService svc (learnExport e nothingKnown))) as He1 by done.
  destruct svc as [err|svc].
  { destruct (IsNotFound err) eqn:Hnf; [|by apply wp_ret]. apply handleNotFound_wp; [done|].
    exists e. split; [done|]. right. left. by exists err. }
  assert ((isDeleting svc = true ∨ ¬ eligible svc ∨
           ExtractWeightFromServiceExport e = inr 0%Z) →
          unwanted (learnService (inr svc) (learnExport e nothingKnown))) as Hu.
  { intros Hwhy. exists e. split; [done|]. right. right. exists svc. split; [done|]. tauto. }
  destruct (isDeleting svc) eqn:Hsdel; [apply handleNotFound_wp; auto|].
  pose proof (isServiceEligibleForExport_spec svc) as Hel.
  destruct (isServiceEligibleForExport svc); simpl; [|apply handleIneligible_wp; auto].
  destruct (ExtractWeightFromServiceExport e) as [werr|w] eqn:Hw; [by eapply handleInvalidWeight_wp|].
  destruct (decide (w = 0%Z)) as [->|Hw0]; [apply handleZeroWeight_wp; auto|].
  apply handleExport_wp; [done|done|]. exists e. split; [done|].
  split; [done|]. split; [done|]. by split.
Qed.

(** C1: every exchange of a round follows the protocol of an export, whatever
    the servers answer; it never panics. It reads and writes the objects of
    the request only. The InternalServiceExport is created or updated only for
    a live, eligible Service with a weight in [1, 1000], with the ports and
    the UID of that Service, and its type and weight where the traffic manager
    feature is enabled, and only once the ServiceExport has the cleanup
    finalizer; it is deleted only if the Service is not to be exported or has
    another UID than the one in the hub. The finalizer is given up only after
    the hub accepted that deletion or found no object; a status update sends
    the metadata seen last. A new round is asked for only for a Service to be
    exported whose UID is not that of the export found in the hub, after
    unexporting that one. Any other round without an error leaves an unwanted
    export without the finalizer, or has found an invalid weight, or leaves
    the export of the Service in the hub. *)
Theorem Reconcile_follows_protocol :
  wp P (Reconcile r req) nothingKnown (roundEnds r).
Proof. exact Reconcile_wp. Qed.
End safety.
(** ** A run *)

Module Demo.
Definition reconciler : Reconciler := {|
  MemberClusterID := "bravelion"; HubNamespace := "fleet-member-bravelion";
  ResourceGroupName := "rg"; EnableTrafficManagerFeature := true |}.
Definition req : NamespacedName := {| nn_Namespace := "work"; nn_Name := "app" |}.
Definition meta (uid version : string) : ObjectMeta := {|
  om_Name := "app"; om_Namespace := "work"; om_UID := uid; om_ResourceVersion := version;
  om_Generation := 1; om_CreationTimestamp := Some 1%Z; om_DeletionTimestamp := None;
  om_Labels := None; om_Annotations := Some {[ServiceExportAnnotationWeight := "40"]};
  om_OwnerReferences := []; om_Finalizers := [] |}.
Definition svc : Service := {|
  svc_TypeMeta := {| tm_Kind := "Service"; tm_APIVersion := "v1" |};
  svc_ObjectMeta := meta "svc-uid" "11"; svc_Type := "ClusterIP"; svc_ClusterIP := "10.0.0.7";
  svc_Ports := [{| csp_Name := "http"; csp_Protocol := "TCP"; csp_AppProtocol := None;
                   csp_Port := 80; csp_TargetPort := FromInt 8080; csp_NodePort := 0 |}];
  svc_Ingress := [] |}.
Definition export : ServiceExport := {|
  se_TypeMeta := {| tm_Kind := "ServiceExport"; tm_APIVersion := "v1beta1" |};
  se_ObjectMeta := meta "export-uid" "12"; se_Conditions := [] |}.
Definition world0 : world := {|
  w_member := storeAlter KService <[req := svc]>
                (storeAlter KServiceExport <[req := export]> emptyStore);
  w_hub := emptyStore; w_version := 100; w_clock := 1700000000000000000%Z |}.
(** What the hub holds after one round. *)
Definition exported : option (list ServicePort * string * option Z) :=
  let '(_, w) := run (serve (λ _ _ _, []))
    (Reconcile (util := Reference.util) (loc := Reference.utc) reconciler req) world0 in
  (λ o, (ise_Ports (ise_Spec o), ref_UID (ise_ServiceReference (ise_Spec o)),
         ise_Weight (ise_Spec o))) <$> w_hub w KInternalServiceExport !! targetKey reconciler req.
End Demo.

Lemma Reconcile_follows_protocol_witness :
  wp (exportProtocol Demo.reconciler Demo.req)
    (Reconcile (util := Reference.util) (loc := Reference.utc) Demo.reconciler Demo.req)
    nothingKnown (roundEnds Demo.reconciler) ∧
  Demo.exported = Some (extractServicePorts Demo.svc, "svc-uid", Some 40%Z).
Proof.
  split; [apply (Reconcile_follows_protocol (laws := Reference.laws))|vm_compute; reflexivity].
Defined.

(** ** The time of the export *)

(** C37: the time that a round annotates on a ServiceExport is what a later round
    reads back, to the second: as long as the Service has not changed and the
    clock has not gone back, the later round writes nothing and reports the time
    of the first one; a Service with another resource version is annotated
    again. *)
Theorem export_time_survives {loc : Location} {locLaws : LocationLaws}
    svc e t :
  let seconds := (t / Second * Second)%Z in
  (let '(y, _, _) := civil_of_days ((t / Second + zoneOffset t) / 86400)%Z in 0 ≤ y ≤ 9999)%Z →
  ∃ e', annotateLastSeenResourceVersionAndTimestamp svc e t = Update Member KServiceExport e' ∧
    (∀ t', (seconds ≤ t')%Z →
       collectAndVerifyLastSeenResourceVersionAndTimestamp svc e' t' = mret ((seconds, None), e')) ∧
    (∀ svc' t', om_ResourceVersion (svc_ObjectMeta svc') ≠ om_ResourceVersion (svc_ObjectMeta svc) →
       collectAndVerifyLastSeenResourceVersionAndTimestamp svc' e' t' =
       ('(err, e'') ← annotateLastSeenResourceVersionAndTimestamp svc' e' t';
        mret ((t', err), e''))).
Proof.
  intros seconds Hyear. eexists. split; [reflexivity|].
  unfold collectAndVerifyLastSeenResourceVersionAndTimestamp.
  set (e' := updMeta _ e). assert (map_get (om_Annotations (se_ObjectMeta e'))
    MetricsAnnotationLastSeenTimestamp = Some (FormatRFC3339 (zoneOffset t) t)) as ->
    by apply lookup_insert_eq.
  assert (map_get (om_Annotations (se_ObjectMeta e')) MetricsAnnotationLastSeenResourceVersion
    = Some (om_ResourceVersion (svc_ObjectMeta svc))) as ->.
  { etrans; [by apply lookup_insert_ne|]. apply lookup_insert_eq. }
  rewrite ParseRFC3339_Format; [|done|apply zoneOffset_minutes|apply zoneOffset_day].
  split.
  - intros t' Ht. rewrite bool_decide_true by done. fold seconds. by apply Z.ltb_ge in Ht as ->.
  - intros svc' t' Hv. by rewrite bool_decide_false by done.
Qed.

Lemma export_time_survives_witness : ∃ e',
  collectAndVerifyLastSeenResourceVersionAndTimestamp (loc := Reference.utc) Demo.svc e'
    1700000009000000000%Z = mret ((1700000000000000000%Z, None), e').
Proof.
  destruct (export_time_survives (locLaws := Reference.utc_laws) Demo.svc
    Demo.export 1700000000123456789%Z) as (e' & _ & Hlater & _); [by vm_compute|].
  exists e'. by apply Hlater.
Defined.

End serviceexport.
