(* ===== verification/HubInternalServiceExport.v ===== *)
(** * [pkg/controllers/hub/internalserviceexport]: from exports to imports

    The hub controller that makes an exported Service part of the ServiceImport
    of its name, or marks the export as conflicted when its ports differ from
    the resolved ones. *)

From S2P Require Import Prelude Prog Go Api Fleet Azure Effects Deps.
From S2P Require Import Protocols ApiServer Conditions ObjectMeta.

Module internalserviceexport.

Record Reconciler := { RetryInternal : Duration }.

(** ** Operations *)

Definition clustersOf (si : ServiceImport) : list ClusterStatus := sis_Clusters (si_Status si).
Definition portsOf (si : ServiceImport) : list ServicePort := sis_Ports (si_Status si).

Definition removeClusterFromServiceImportStatus (serviceImport : ServiceImport)
    (clusterID : string) : ServiceImport :=
  let updatedClusters := filter (λ c, cs_Cluster c ≠ clusterID) (clustersOf serviceImport) in
  match updatedClusters with
  | [] => setImportStatus emptyServiceImportStatus serviceImport
  | _ => setImportClusters updatedClusters serviceImport
  end.

Definition addClusterToServiceImportStatus (serviceImport : ServiceImport)
    (clusterID : string) : ServiceImport :=
  if existsb (λ c, bool_decide (cs_Cluster c = clusterID)) (clustersOf serviceImport)
  then serviceImport
  else setImportClusters (clustersOf serviceImport ++ [{| cs_Cluster := clusterID |}])
         serviceImport.

(** The name of the ServiceImport of an export. *)
Definition serviceImportName (e : InternalServiceExport) : NamespacedName :=
  let ref := ise_ServiceReference (ise_Spec e) in
  {| nn_Namespace := ref_Namespace ref; nn_Name := ref_Name ref |}.
Definition clusterIDOf (e : InternalServiceExport) : string :=
  ref_ClusterID (ise_ServiceReference (ise_Spec e)).

(** [fleetnetv1alpha1.ServiceImport{ObjectMeta: ...}]. *)
Definition newServiceImport (name : NamespacedName) : ServiceImport :=
  {| si_TypeMeta := {| tm_Kind := ""; tm_APIVersion := "" |};
     si_ObjectMeta := newObjectMeta (nn_Namespace name) (nn_Name name);
     si_Status := emptyServiceImportStatus |}.

Section controller.
Context {util : ControllerUtil}.

Definition updateServiceImportStatus (serviceImport : ServiceImport)
    (oldStatus : ServiceImportStatus) : IO (option error * ServiceImport) :=
  if decide (si_Status serviceImport = oldStatus) then mret (None, serviceImport)
  else StatusUpdate Hub KServiceImport serviceImport.

Definition removeFinalizer (e : InternalServiceExport) : IO (Result * option error) :=
  '(err, _) ← Update Hub KInternalServiceExport
     (Deps.removeFinalizer e InternalServiceExportFinalizer);
  mret (emptyResult, err).

Definition updateInternalServiceExportStatus (e : InternalServiceExport) (conflict : bool)
    : IO (option error) :=
  let desiredCond := if conflict then ConflictedServiceExportConflictCondition e
                     else UnconflictedServiceExportConflictCondition e in
  let currentCond := FindStatusCondition (ise_Conditions e) ServiceExportConflict in
  if EqualCondition currentCond (Some desiredCond) then mret None
  else
    cs ← SetStatusCondition (ise_Conditions e) desiredCond;
    '(err, _) ← StatusUpdate Hub KInternalServiceExport (setInternalExportConditions cs e);
    mret err.

Definition requeueLater (r : Reconciler) : Result * option error :=
  ({| Requeue := false; RequeueAfter := RetryInternal r |}, None).

Definition handleDelete (r : Reconciler) (e : InternalServiceExport)
    : IO (Result * option error) :=
  if negb (hasFinalizer e InternalServiceExportFinalizer) then mret (emptyResult, None) else
  got ← Get Hub KServiceImport (serviceImportName e);
  match got with
  | inl err => if IsNotFound err then removeFinalizer e else mret (emptyResult, Some err)
  | inr serviceImport =>
      if decide (portsOf serviceImport = []) then mret (requeueLater r) else
      let oldStatus := si_Status serviceImport in
      '(err, _) ← updateServiceImportStatus
         (removeClusterFromServiceImportStatus serviceImport (clusterIDOf e)) oldStatus;
      match err with
      | Some err => mret (emptyResult, Some err)
      | None => removeFinalizer e
      end
  end.

Definition resolveServiceImport (r : Reconciler) (e : InternalServiceExport)
    (serviceImport : ServiceImport) : IO (Result * option error) :=
  if decide (portsOf serviceImport = []) then mret (requeueLater r) else
  let oldStatus := si_Status serviceImport in
  let clusterID := clusterIDOf e in
  if decide (portsOf serviceImport = ise_Ports (ise_Spec e))
  then
    '(err, _) ← updateServiceImportStatus
       (addClusterToServiceImportStatus serviceImport clusterID) oldStatus;
    match err with
    | Some err => mret (emptyResult, Some err)
    | None => err ← updateInternalServiceExportStatus e false; mret (emptyResult, err)
    end
  else
    '(err, serviceImport) ← updateServiceImportStatus
       (removeClusterFromServiceImportStatus serviceImport clusterID) oldStatus;
    match err with
    | Some err => mret (emptyResult, Some err)
    | None =>
        if decide (portsOf serviceImport = []) then mret (requeueLater r)
        else err ← updateInternalServiceExportStatus e true; mret (emptyResult, err)
    end.

Definition handleUpdate (r : Reconciler) (e : InternalServiceExport)
    : IO (Result * option error) :=
  got ← Get Hub KServiceImport (serviceImportName e);
  match got with
  | inl err =>
      if IsNotFound err
      then
        '(err, serviceImport) ← Create Hub KServiceImport (newServiceImport (serviceImportName e));
        match err with
        | Some err => mret (emptyResult, Some err)
        | None => resolveServiceImport r e serviceImport
        end
      else mret (emptyResult, Some err)
  | inr serviceImport => resolveServiceImport r e serviceImport
  end.

Definition Reconcile (r : Reconciler) (name : NamespacedName) : IO (Result * option error) :=
  got ← Get Hub KInternalServiceExport name;
  match got with
  | inl err => mret (emptyResult, IgnoreNotFound (Some err))
  | inr e =>
      if isDeleting (e : InternalServiceExport) then handleDelete r e else
      '(err, e) ←
        (if hasFinalizer (e : InternalServiceExport) InternalServiceExportFinalizer
         then mret (None, e)
         else Update Hub KInternalServiceExport
                (addFinalizer (e : InternalServiceExport) InternalServiceExportFinalizer));
      match err with
      | Some err => mret (emptyResult, Some err)
      | None => handleUpdate r e
      end
  end.
End controller.
(** ** The cluster list of a ServiceImport *)

Definition clusterNames (si : ServiceImport) : list string := cs_Cluster <$> clustersOf si.

Lemma existsb_cluster cs id :
  existsb (λ c, bool_decide (cs_Cluster c = id)) cs = true ↔ id ∈ cs_Cluster <$> cs.
Proof.
  rewrite existsb_exists, list_elem_of_fmap. split.
  - intros (c & Hc%list_elem_of_In & <-%bool_decide_eq_true). by exists c.
  - intros (c & -> & Hc%list_elem_of_In). exists c. by rewrite bool_decide_eq_true.
Qed.

Lemma elem_of_addCluster si id c :
  c ∈ clusterNames (addClusterToServiceImportStatus si id) ↔ c ∈ clusterNames si ∨ c = id.
Proof.
  unfold addClusterToServiceImportStatus, clusterNames.
  destruct (existsb _ _) eqn:Hex.
  - apply existsb_cluster in Hex. split; [by left|]. by intros [?| ->].
  - unfold clustersOf. simpl. rewrite fmap_app, elem_of_app. simpl. set_solver.
Qed.

Lemma elem_of_removeCluster si id c :
  c ∈ clusterNames (removeClusterFromServiceImportStatus si id) ↔ c ∈ clusterNames si ∧ c ≠ id.
Proof.
  unfold removeClusterFromServiceImportStatus, clusterNames.
  assert (c ∈ cs_Cluster <$> filter (λ c, cs_Cluster c ≠ id) (clustersOf si) ↔
          c ∈ cs_Cluster <$> clustersOf si ∧ c ≠ id) as <-.
  { rewrite !list_elem_of_fmap. setoid_rewrite list_elem_of_filter. naive_solver. }
  by destruct (filter _ _).
Qed.

(** The rest of the status: kept, unless the last cluster leaves. *)
Lemma addCluster_ports si id : portsOf (addClusterToServiceImportStatus si id) = portsOf si.
Proof. unfold addClusterToServiceImportStatus. by case_match. Qed.
Lemma removeCluster_ports si id :
  portsOf (removeClusterFromServiceImportStatus si id) = portsOf si ∨
  removeClusterFromServiceImportStatus si id = setImportStatus emptyServiceImportStatus si.
Proof. unfold removeClusterFromServiceImportStatus. case_match; [by right|by left]. Qed.

Lemma clusterNames_status si si' : si_Status si = si_Status si' → clusterNames si = clusterNames si'.
Proof. unfold clusterNames, clustersOf. by intros ->. Qed.
Lemma portsOf_status si si' : si_Status si = si_Status si' → portsOf si = portsOf si'.
Proof. unfold portsOf. by intros ->. Qed.

Lemma addCluster_meta si id :
  si_ObjectMeta (addClusterToServiceImportStatus si id) = si_ObjectMeta si.
Proof. unfold addClusterToServiceImportStatus. by case_match. Qed.
Lemma removeCluster_meta si id :
  si_ObjectMeta (removeClusterFromServiceImportStatus si id) = si_ObjectMeta si.
Proof. unfold removeClusterFromServiceImportStatus. by case_match. Qed.

Lemma setImportClusters_same si : setImportClusters (clustersOf si) si = si.
Proof. by destruct si as [? ? []]. Qed.
Lemma setImportClusters_twice cs cs' si :
  setImportClusters cs (setImportClusters cs' si) = setImportClusters cs si.
Proof. by destruct si as [? ? []]. Qed.

Lemma filter_absent (cs : list ClusterStatus) id :
  id ∉ cs_Cluster <$> cs → filter (λ c, cs_Cluster c ≠ id) cs = cs.
Proof.
  induction cs as [|c cs IH]; [done|]. simpl. intros [Hc Hcs]%not_elem_of_cons.
  rewrite filter_cons_True by done. by rewrite IH.
Qed.

Lemma removeCluster_absent si id :
  id ∉ clusterNames si → clusterNames si ≠ [] → removeClusterFromServiceImportStatus si id = si.
Proof.
  intros Hid Hne. unfold removeClusterFromServiceImportStatus. rewrite filter_absent by done.
  destruct (clustersOf si) eqn:Hcs; [by unfold clusterNames in Hne; rewrite Hcs in Hne|].
  rewrite <-Hcs. apply setImportClusters_same.
Qed.

Lemma NoDup_addCluster si id :
  NoDup (clusterNames si) → NoDup (clusterNames (addClusterToServiceImportStatus si id)).
Proof.
  intros Hnd. unfold addClusterToServiceImportStatus, clusterNames.
  destruct (existsb _ _) eqn:Hex; [done|]. unfold clustersOf. simpl. rewrite fmap_app.
  apply NoDup_app. split; [done|]. split; [|apply NoDup_singleton].
  intros c Hc Hin. apply list_elem_of_singleton in Hin as ->.
  apply not_true_iff_false in Hex. by apply Hex, existsb_cluster.
Qed.
Lemma NoDup_removeCluster si id :
  NoDup (clusterNames si) → NoDup (clusterNames (removeClusterFromServiceImportStatus si id)).
Proof.
  intros Hnd. unfold removeClusterFromServiceImportStatus, clusterNames.
  assert (NoDup (cs_Cluster <$> filter (λ c, cs_Cluster c ≠ id) (clustersOf si))) as Hf.
  { eapply sublist_NoDup; [exact Hnd|]. apply fmap_sublist, sublist_filter. }
  destruct (filter _ _); [apply NoDup_nil_2|exact Hf].
Qed.

Lemma removeCluster_added si id :
  id ∉ clusterNames si → clusterNames si ≠ [] →
  removeClusterFromServiceImportStatus (addClusterToServiceImportStatus si id) id = si.
Proof.
  intros Hid Hne. unfold addClusterToServiceImportStatus.
  destruct (existsb _ _) eqn:Hex; [by apply existsb_cluster in Hex|].
  unfold removeClusterFromServiceImportStatus at 1.
  replace (filter _ _) with (clustersOf si).
  - destruct (clustersOf si) eqn:Hcs; [by unfold clusterNames in Hne; rewrite Hcs in Hne|].
    rewrite setImportClusters_twice, <-Hcs. apply setImportClusters_same.
  - unfold clustersOf at 2. simpl. rewrite filter_app, filter_absent by done.
    rewrite filter_cons_False by (simpl; tauto). by rewrite filter_nil, app_nil_r.
Qed.

Lemma removeCluster_empty si id :
  let removed := removeClusterFromServiceImportStatus si id in
  (clusterNames removed = [] → si_Status removed = emptyServiceImportStatus) ∧
  (clusterNames removed ≠ [] → portsOf removed = portsOf si).
Proof.
  unfold removeClusterFromServiceImportStatus. destruct (filter _ _); [done|].
  split; [|done]. unfold clusterNames, clustersOf. by simpl.
Qed.

(** C34: the two operations on the cluster list are insertion into and removal
    from a set of cluster names: a name is in the new list exactly when it
    should be, no duplicate appears, an insertion of a present name and a
    removal of an absent one change nothing, and the status is reset, ports
    included, exactly when no cluster is left. *)
Theorem cluster_list_is_a_set si id :
  NoDup (clusterNames si) →
  let added := addClusterToServiceImportStatus si id in
  let removed := removeClusterFromServiceImportStatus si id in
  (∀ c, c ∈ clusterNames added ↔ c ∈ clusterNames si ∨ c = id) ∧
  (∀ c, c ∈ clusterNames removed ↔ c ∈ clusterNames si ∧ c ≠ id) ∧
  NoDup (clusterNames added) ∧ NoDup (clusterNames removed) ∧
  (id ∈ clusterNames si → added = si) ∧
  (id ∉ clusterNames si → clusterNames si ≠ [] → removed = si) ∧
  (id ∉ clusterNames si → clusterNames si ≠ [] →
   removeClusterFromServiceImportStatus added id = si) ∧
  portsOf added = portsOf si ∧
  (clusterNames removed = [] → si_Status removed = emptyServiceImportStatus) ∧
  (clusterNames removed ≠ [] → portsOf removed = portsOf si).
Proof.
  intros Hnd added removed. split; [apply elem_of_addCluster|]. split; [apply elem_of_removeCluster|].
  split; [by apply NoDup_addCluster|]. split; [by apply NoDup_removeCluster|].
  split. { intros Hid%existsb_cluster. subst added. unfold addClusterToServiceImportStatus.
    by rewrite Hid. }
  split; [apply removeCluster_absent|]. split; [apply removeCluster_added|].
  split; [apply addCluster_ports|]. apply removeCluster_empty.
Qed.

(** ** The protocol of the controller

    What it knows: the stored export, or that there is none, and the
    ServiceImport, which may be known not to exist. *)
Record knowledge := {
  x_export : option InternalServiceExport;
  x_missing : bool;
  x_import : option (option ServiceImport);
}.
Definition nothingKnown : knowledge := {| x_export := None; x_missing := false; x_import := None |}.
Definition learnExport (e : InternalServiceExport) (s : knowledge) : knowledge :=
  {| x_export := Some e; x_missing := x_missing s; x_import := x_import s |}.
Definition learnMissing (s : knowledge) : knowledge :=
  {| x_export := x_export s; x_missing := true; x_import := x_import s |}.
Definition learnImport (i : option ServiceImport) (s : knowledge) : knowledge :=
  {| x_export := x_export s; x_missing := x_missing s; x_import := Some i |}.

Definition hasCleanup (e : InternalServiceExport) : Prop :=
  InternalServiceExportFinalizer ∈ finalizersOf e.

(** No ServiceImport is known to list the cluster of the export. *)
Definition withdrawn (e : InternalServiceExport) (s : knowledge) : Prop :=
  match x_import s with
  | Some None => True
  | Some (Some si) => clusterIDOf e ∉ clusterNames si
  | None => False
  end.

(** The new status of the ServiceImport [si] for the export [e]. *)
Definition mayUpdateImport (e : InternalServiceExport) (si o : ServiceImport) : Prop :=
  portsOf si ≠ [] ∧
  (isDeleting e = false ∧ portsOf si = ise_Ports (ise_Spec e) ∧
     o = addClusterToServiceImportStatus si (clusterIDOf e) ∨
   (isDeleting e = true ∨ portsOf si ≠ ise_Ports (ise_Spec e)) ∧
     o = removeClusterFromServiceImportStatus si (clusterIDOf e)).

Section protocol.
Context {util : ControllerUtil}.

(** The status of the conflict condition. *)
Definition conflictStatus (e : InternalServiceExport) : option string :=
  c_Status <$> FindStatusCondition (ise_Conditions e) ServiceExportConflict.

(** The export agrees with the ServiceImport: it is listed when its ports are
    the resolved ones, and marked as conflicted otherwise. *)
Definition agrees (e : InternalServiceExport) (si : ServiceImport) : Prop :=
  if decide (portsOf si = ise_Ports (ise_Spec e))
  then clusterIDOf e ∈ clusterNames si ∧ conflictStatus e = Some ConditionFalse
  else clusterIDOf e ∉ clusterNames si ∧ conflictStatus e = Some ConditionTrue.

Definition importProtocol (name : NamespacedName) : protocol eff knowledge := {|
  allowed X c s :=
    match c with
    | EGet Hub KInternalServiceExport key => key = name
    | EGet Hub KServiceImport key => ∃ e, x_export s = Some e ∧ key = serviceImportName e
    | ECreate Hub KServiceImport o =>
        ∃ e, x_export s = Some e ∧ hasCleanup e ∧ isDeleting e = false ∧
          x_import s = Some None ∧ o = newServiceImport (serviceImportName e)
    | EStatusUpdate Hub KServiceImport o =>
        ∃ e si, x_export s = Some e ∧ hasCleanup e ∧ x_import s = Some (Some si) ∧
          mayUpdateImport e si o
    | EStatusUpdate Hub KInternalServiceExport o =>
        ∃ e si, x_export s = Some e ∧ hasCleanup e ∧ isDeleting e = false ∧
          x_import s = Some (Some si) ∧ objectKey o = name ∧ ise_Spec o = ise_Spec e ∧
          agrees o si
    | EUpdate Hub KInternalServiceExport o =>
        objectKey o = name ∧
        ∃ e, x_export s = Some e ∧
          (hasCleanup e → hasCleanup o ∨ isDeleting e = true ∧ withdrawn e s)
    | ENow => True
    | _ => False
    end;
  answer X c s := λ x, serverAnswer c x ∧
    (match c in eff X return X → Prop with
    (* the spec and the deletion mark are not changed by these writes *)
    | EUpdate Hub KInternalServiceExport o => λ r,
        match r with
        | inr o' => ise_Spec o' = ise_Spec o ∧ isDeleting o' = isDeleting o
        | inl _ => True
        end
    | EStatusUpdate Hub KInternalServiceExport o => λ r,
        match r with
        | inr o' => ise_Spec o' = ise_Spec o ∧ isDeleting o' = isDeleting o
        | inl _ => True
        end
    | _ => λ _, True
    end) x;
  next X c :=
    match c in eff X return X → knowledge → knowledge with
    | EGet Hub KInternalServiceExport key => λ r s,
        match r with
        | inr e => learnExport e s
        | inl err => if IsNotFound err then learnMissing s else s
        end
    | EUpdate Hub KInternalServiceExport o => λ r s,
        match r with inr e => learnExport e s | inl _ => s end
    | EStatusUpdate Hub KInternalServiceExport o => λ r s,
        match r with inr e => learnExport e s | inl _ => s end
    | EGet Hub KServiceImport key => λ r s,
        match r with
        | inr si => learnImport (Some si) s
        | inl err => if IsNotFound err then learnImport None s else s
        end
    | ECreate Hub KServiceImport o => λ r s,
        match r with inr si => learnImport (Some si) s | inl _ => s end
    | EStatusUpdate Hub KServiceImport o => λ r s,
        match r with inr si => learnImport (Some si) s | inl _ => s end
    | _ => λ _ s, s
    end |}.

(** How a round ends without an error and without waiting. *)
Definition settled (s : knowledge) : Prop :=
  match x_export s with
  | None => x_missing s = true
  | Some e =>
      if isDeleting e then ¬ hasCleanup e
      else hasCleanup e ∧ ∃ si, x_import s = Some (Some si) ∧ agrees e si
  end.
(** Why a round waits: the ServiceImport of the export has no ports, because
    they are not resolved yet or because the last cluster has just left. *)
Definition waiting (s : knowledge) : Prop :=
  ∃ e si, x_export s = Some e ∧ hasCleanup e ∧ x_import s = Some (Some si) ∧ portsOf si = [].
Definition roundEnds (r : Reconciler) (x : Result * option error) (s : knowledge) : Prop :=
  x = requeueLater r ∧ waiting s ∨ x.1 = emptyResult ∧ (x.2 = None → settled s).
End protocol.

(** ** The controller follows the protocol *)

Section safety.
Context {util : ControllerUtil} {laws : ControllerUtilLaws}.
Context (r : Reconciler) (name : NamespacedName).
Local Abbreviation P := (importProtocol name).

(** The export in hand is the stored one. *)
Definition holds (e : InternalServiceExport) (s : knowledge) : Prop :=
  x_export s = Some e ∧ objectKey e = name.

Lemma updateInternalServiceExportStatus_wp e si (conflict : bool) s :
  holds e s → hasCleanup e → isDeleting e = false → x_import s = Some (Some si) →
  (if conflict then portsOf si ≠ ise_Ports (ise_Spec e) ∧ clusterIDOf e ∉ clusterNames si
   else portsOf si = ise_Ports (ise_Spec e) ∧ clusterIDOf e ∈ clusterNames si) →
  wp P (updateInternalServiceExportStatus e conflict) s (λ err s', err = None → settled s').
Proof.
  intros [He Hkey] Hfin Hdel Hsi Hc. unfold updateInternalServiceExportStatus.
  set (desired := if conflict then _ else _).
  assert (c_Type desired = ServiceExportConflict ∧
          c_Status desired = if conflict then ConditionTrue else ConditionFalse) as [Hty Hst]
    by (subst desired; by destruct conflict).
  assert (∀ e', ise_Spec e' = ise_Spec e →
    conflictStatus e' = Some (if conflict then ConditionTrue else ConditionFalse) →
    agrees e' si) as Hagree.
  { intros e' Hspec Hst'. unfold agrees, clusterIDOf. rewrite Hspec, Hst'.
    fold (clusterIDOf e). destruct conflict, Hc; by case_decide. }
  destruct (EqualCondition _ _) eqn:Heq.
  - apply wp_ret. intros _. unfold settled. rewrite He, Hdel. split; [done|]. exists si.
    split; [done|]. apply Hagree; [done|]. unfold conflictStatus.
    destruct (FindStatusCondition _ _) as [cur|]; [|done].
    apply EqualCondition_spec in Heq as (_ & Heq & _). simpl. by rewrite Heq, Hst.
  - apply wp_bind, wp_SetStatusCondition; [done|]. intros now _.
    destruct (setCondition_same now (ise_Conditions e) desired) as (c & Hfind & Hsame).
    rewrite Hty in Hfind. destruct Hsame as (_ & Hcs & _).
    apply wp_bind, wp_StatusUpdate.
    { exists e, si. do 4 (split; [done|]). split; [exact Hkey|]. split; [done|].
      apply Hagree; [done|]. unfold conflictStatus. simpl. rewrite Hfind. simpl. by rewrite Hcs, Hst. }
    intros [err|e'] [[Hm Hz] Hspec]; apply wp_ret; [done|]. intros _. unfold settled. simpl.
    destruct Hspec as [Hspec Hd']. simpl in *.
    replace (isDeleting e') with false by (symmetry; rewrite Hd'; exact Hdel).
    split.
    { unfold hasCleanup. by rewrite (sameMeta_finalizers e e'). }
    exists si. split; [done|]. apply Hagree; [exact Hspec|]. unfold conflictStatus.
    specialize (Hz e). apply (f_equal ise_Conditions) in Hz. simpl in Hz. rewrite Hz, Hfind. simpl.
    by rewrite Hcs, Hst.
Qed.
(** The ServiceImport status is written only when it changes; afterwards the
    known status is the new one either way. *)
Lemma updateServiceImportStatus_wp e si o s :
  holds e s → hasCleanup e → x_import s = Some (Some si) → mayUpdateImport e si o →
  wp P (updateServiceImportStatus o (si_Status si)) s (λ x s',
    x.1 = None → holds e s' ∧ si_Status x.2 = si_Status o ∧
      ∃ si', x_import s' = Some (Some si') ∧ si_Status si' = si_Status o).
Proof.
  intros [He Hkey] Hfin Hsi Hmay. unfold updateServiceImportStatus. case_decide as Heq.
  - apply wp_ret. intros _. split; [done|]. split; [done|]. by exists si.
  - apply wp_StatusUpdate; [by exists e, si|].
    intros [err|si'] [[_ Hz] _]; [done|]. intros _. simpl in *.
    specialize (Hz si'). apply (f_equal si_Status) in Hz. simpl in Hz.
    split; [done|]. split; [done|]. by exists si'.
Qed.

Lemma removeFinalizer_wp e s :
  holds e s → isDeleting e = true → withdrawn e s → wp P (removeFinalizer e) s (roundEnds r).
Proof.
  intros [He Hkey] Hdel Hw. apply wp_bind, wp_Update.
  { split; [rewrite <-Hkey; apply (removeFinalizer_key (T := InternalServiceExport))|].
    exists e. split; [done|]. intros _. by right. }
  intros [err|e'] [Hm Hs]; apply wp_ret; right; (split; [done|]); [done|]. intros _.
  unfold settled. simpl in *. destruct Hs as [_ Hd].
  replace (isDeleting e') with true by (by rewrite Hd).
  unfold hasCleanup. rewrite (sameMeta_finalizers (Deps.removeFinalizer e InternalServiceExportFinalizer) e') by done.
  rewrite (removeFinalizer_spec (T := InternalServiceExport)). by intros [_ []].
Qed.

Lemma handleDelete_wp e s :
  holds e s → isDeleting e = true → wp P (handleDelete r e) s (roundEnds r).
Proof.
  intros Hh Hdel. destruct (Hh) as [He Hkey]. unfold handleDelete.
  destruct (hasFinalizer e _) eqn:Hf; simpl.
  2: { apply wp_ret. right. split; [done|]. intros _. unfold settled. rewrite He, Hdel.
       by apply hasFinalizer_false. }
  apply hasFinalizer_spec in Hf.
  apply wp_bind, wp_Get; [by exists e|]. intros [err|si] Hget; simpl.
  - destruct (IsNotFound err) eqn:Hnf; [|by apply wp_ret; right].
    by apply removeFinalizer_wp.
  - case_decide as Hports; [apply wp_ret; left; split; [done|]; by exists e, si|]. apply wp_bind.
    eapply wp_mono.
    { apply (updateServiceImportStatus_wp e si); [done|done|done|].
      split; [done|]. right. auto. }
    intros [[err|] si'] s' Hok; [by apply wp_ret; right|].
    destruct (Hok eq_refl) as (Hh' & _ & si2 & Hsi2 & Hst). apply removeFinalizer_wp; [done|done|].
    unfold withdrawn. rewrite Hsi2, (clusterNames_status _ _ Hst), elem_of_removeCluster.
    by intros [_ []].
Qed.

Lemma statusOutcome e si (conflict : bool) s :
  holds e s → hasCleanup e → isDeleting e = false → x_import s = Some (Some si) →
  (if conflict then portsOf si ≠ ise_Ports (ise_Spec e) ∧ clusterIDOf e ∉ clusterNames si
   else portsOf si = ise_Ports (ise_Spec e) ∧ clusterIDOf e ∈ clusterNames si) →
  wp P (updateInternalServiceExportStatus e conflict ≫= λ err, mret (emptyResult, err)) s
    (roundEnds r).
Proof.
  intros. apply wp_bind. eapply wp_mono; [by eapply updateInternalServiceExportStatus_wp|].
  intros err s' Hok. apply wp_ret. by right.
Qed.

Lemma resolveExport_wp e si s :
  holds e s → hasCleanup e → isDeleting e = false → x_import s = Some (Some si) →
  wp P (resolveServiceImport r e si) s (roundEnds r).
Proof.
  intros Hh Hfin Hdel Hsi. unfold resolveServiceImport.
  case_decide as Hports; [apply wp_ret; left; split; [done|]; destruct Hh; by exists e, si|].
  case_decide as Heq; apply wp_bind.
  - eapply wp_mono.
    { apply (updateServiceImportStatus_wp e si); [done|done|done|]. split; [done|]. left. auto. }
    intros [[err|] si'] s' Hok; [by apply wp_ret; right|].
    destruct (Hok eq_refl) as (Hh' & _ & si2 & Hsi2 & Hst). eapply statusOutcome; [done..|].
    rewrite (portsOf_status _ _ Hst), (clusterNames_status _ _ Hst), addCluster_ports.
    split; [done|]. apply elem_of_addCluster. by right.
  - eapply wp_mono.
    { apply (updateServiceImportStatus_wp e si); [done|done|done|]. split; [done|]. right. auto. }
    intros [[err|] si'] s' Hok; [by apply wp_ret; right|].
    destruct (Hok eq_refl) as (Hh' & Hst' & si2 & Hsi2 & Hst). simpl in Hst'.
    rewrite (portsOf_status _ _ Hst'), <-(portsOf_status _ _ Hst).
    case_decide as Hnone.
    { apply wp_ret. left. split; [done|]. destruct Hh'. by exists e, si2. }
    eapply statusOutcome; [done..|].
    rewrite (clusterNames_status _ _ Hst), elem_of_removeCluster. split; [|by intros [_ []]].
    destruct (removeCluster_ports si (clusterIDOf e)) as [Hp|Hp].
    + by rewrite (portsOf_status _ _ Hst), Hp.
    + by rewrite (portsOf_status _ _ Hst), Hp in Hnone.
Qed.

Lemma handleUpdate_wp e s :
  holds e s → hasCleanup e → isDeleting e = false → wp P (handleUpdate r e) s (roundEnds r).
Proof.
  intros [He Hkey] Hfin Hdel. apply wp_bind, wp_Get; [by exists e|].
  intros [err|si] Hget; simpl; [|by apply resolveExport_wp].
  destruct (IsNotFound err); [|by apply wp_ret; right].
  apply wp_bind, wp_Create; [by exists e|].
  intros [err'|si] Hc; simpl; [by apply wp_ret; right|]. by apply resolveExport_wp.
Qed.

(** C4: every exchange of a round follows the protocol of the controller.  The
    finalizer of an export is stored before a ServiceImport is created or
    changed for it, and given up only for an export that is being deleted and
    whose cluster no ServiceImport is known to list.  The status of a
    ServiceImport is only changed by inserting the cluster of an export whose
    ports are the resolved ones or by removing the cluster of an export that is
    deleted or in conflict.  A round waits only for a ServiceImport without
    ports.  Any other round that reports no error found no export, or leaves
    one that is being deleted without the finalizer, and a live one listed and
    marked as free of conflict if its ports are the resolved ones, and not
    listed and marked as conflicted otherwise. *)
Theorem Reconcile_follows_import_protocol :
  wp P (Reconcile r name) nothingKnown (roundEnds r).
Proof.
  apply wp_bind, wp_Get; [done|]. intros [err|e] [Hget _]; simpl.
  { unfold IgnoreNotFound. destruct (IsNotFound err); apply wp_ret; by right. }
  simpl in e, Hget. destruct (isDeleting e) eqn:Hdel; [by apply handleDelete_wp|].
  apply wp_bind.
  apply (wp_mono _ _ _ (λ x s', x.1 = None → holds x.2 s' ∧ hasCleanup x.2 ∧ isDeleting x.2 = false)).
  { destruct (hasFinalizer e _) eqn:Hf.
    - apply wp_ret. intros _. by apply hasFinalizer_spec in Hf.
    - apply wp_Update.
      { split; [rewrite <-Hget; apply (addFinalizer_key (T := InternalServiceExport))|].
        exists e. split; [done|]. intros _. left. unfold hasCleanup.
        apply (addFinalizer_spec (T := InternalServiceExport)). by right. }
      intros [err|e'] [Hm Hs]; [done|]. intros _. simpl in *. destruct Hs as [_ Hd].
      split; [split; [done|]|].
      { rewrite <-Hget, <-(addFinalizer_key e InternalServiceExportFinalizer).
        by apply sameMeta_key. }
      split; [|by rewrite Hd].
      unfold hasCleanup. rewrite (sameMeta_finalizers (addFinalizer e InternalServiceExportFinalizer) e') by done.
      apply (addFinalizer_spec (T := InternalServiceExport)). by right. }
  intros [[err|] e'] s' Hok; [by apply wp_ret; right|].
  destruct (Hok eq_refl) as (? & ? & ?). by apply handleUpdate_wp.
Qed.

End safety.

(** ** A run *)

Module Demo.
Definition port : ServicePort := {|
  sp_Name := "http"; sp_Protocol := "TCP"; sp_AppProtocol := None; sp_Port := 80;
  sp_TargetPort := FromInt 8080 |}.
Definition name : NamespacedName :=
  {| nn_Namespace := "fleet-member-bravelion"; nn_Name := "work-app" |}.
Definition importName : NamespacedName := {| nn_Namespace := "work"; nn_Name := "app" |}.
Definition export : InternalServiceExport := {|
  ise_TypeMeta := {| tm_Kind := "InternalServiceExport"; tm_APIVersion := "v1alpha1" |};
  ise_ObjectMeta := newObjectMeta "fleet-member-bravelion" "work-app";
  ise_Spec := {| ise_Ports := [port];
    ise_ServiceReference := {| ref_ClusterID := "bravelion"; ref_APIVersion := "v1";
      ref_Kind := "Service"; ref_Namespace := "work"; ref_Name := "app";
      ref_ResourceVersion := "1"; ref_Generation := 1; ref_UID := "uid";
      ref_NamespacedName := "work/app"; ref_ExportedSince := None |};
    ise_Type := "ClusterIP"; ise_IsDNSLabelConfigured := false;
    ise_IsInternalLoadBalancer := false; ise_PublicIPResourceID := None;
    ise_Weight := None |};
  ise_Conditions := [] |}.
(** The ServiceImport is resolved and lists another cluster. *)
Definition import (ports : list ServicePort) : ServiceImport := {|
  si_TypeMeta := {| tm_Kind := "ServiceImport"; tm_APIVersion := "v1alpha1" |};
  si_ObjectMeta := newObjectMeta "work" "app";
  si_Status := {| sis_IPs := []; sis_Type := ClusterSetIP; sis_SessionAffinity := "";
    sis_SessionAffinityConfig := None; sis_Ports := ports;
    sis_Clusters := [{| cs_Cluster := "smartfish" |}] |} |}.
Definition world0 (ports : list ServicePort) : world := {|
  w_member := emptyStore;
  w_hub := storeAlter KServiceImport <[importName := import ports]>
             (storeAlter KInternalServiceExport <[name := export]> emptyStore);
  w_version := 1; w_clock := 0%Z |}.
(** The clusters listed and the condition after one round. *)
Definition outcome (ports : list ServicePort) : option (list string) * option (option string) :=
  let '(_, w) := run (serve (λ _ _ _, []))
    (Reconcile (util := Reference.util) {| RetryInternal := Second |} name) (world0 ports) in
  (clusterNames <$> w_hub w KServiceImport !! importName,
   conflictStatus (util := Reference.util) <$> w_hub w KInternalServiceExport !! name).
End Demo.

Lemma cluster_list_is_a_set_witness :
  let si := Demo.import [Demo.port] in
  clusterNames (addClusterToServiceImportStatus si "bravelion") = ["smartfish"; "bravelion"] ∧
  NoDup (clusterNames (addClusterToServiceImportStatus si "bravelion")).
Proof.
  split; [reflexivity|].
  apply (cluster_list_is_a_set (Demo.import [Demo.port]) "bravelion"), NoDup_singleton.
Defined.

Lemma Reconcile_follows_import_protocol_witness :
  wp (importProtocol (util := Reference.util) Demo.name)
    (Reconcile (util := Reference.util) {| RetryInternal := Second |} Demo.name)
    nothingKnown (roundEnds (util := Reference.util) {| RetryInternal := Second |}) ∧
  Demo.outcome [Demo.port] =
    (Some ["smartfish"; "bravelion"], Some (Some ConditionFalse)) ∧
  Demo.outcome [Demo.port; Demo.port] = (Some ["smartfish"], Some (Some ConditionTrue)).
Proof.
  split; [apply (Reconcile_follows_import_protocol (laws := Reference.laws))|].
  split; vm_compute; reflexivity.
Defined.

End internalserviceexport.
