(* ===== verification/HubServiceImport.v ===== *)
(** * [pkg/controllers/hub/serviceimport]: resolving the ports of a ServiceImport

    The hub controller that picks the ports of an unresolved ServiceImport from
    its exports and marks every export as conflicted or not. *)

From S2P Require Import Prelude Prog Go Api Fleet Azure Effects Deps.
From S2P Require Import Protocols ApiServer Conditions ObjectMeta ApiRetry.

Module serviceimport.

Definition exportedServiceFieldNamespacedName := ".spec.serviceReference.namespacedName".

(** The index function registered by [SetupWithManager]. *)
Definition indexExport (e : InternalServiceExport) : list string :=
  [ref_NamespacedName (ise_ServiceReference (ise_Spec e))].

(** The internalServiceExports whose status needs to be updated. *)
Record statusChange := {
  conflict : list InternalServiceExport;
  noConflict : list InternalServiceExport;
}.

Section controller.
Context {util : ControllerUtil}.

(** The exports the loop does not skip. *)
Definition isCandidate (v : InternalServiceExport) : bool :=
  negb (isDeleting v) && hasFinalizer v InternalServiceExportFinalizer.

(** The loop over the listed exports: the first candidate gives the ports. *)
Fixpoint classify (items : list InternalServiceExport)
    (resolvedPortsSpec : option (list ServicePort)) (change : statusChange)
    : option (list ServicePort) * statusChange :=
  match items with
  | [] => (resolvedPortsSpec, change)
  | v :: items =>
      if negb (isCandidate v) then classify items resolvedPortsSpec change else
      let resolved := default (ise_Ports (ise_Spec v)) resolvedPortsSpec in
      classify items (Some resolved)
        (if decide (resolved = ise_Ports (ise_Spec v))
         then {| conflict := conflict change; noConflict := noConflict change ++ [v] |}
         else {| conflict := conflict change ++ [v]; noConflict := noConflict change |})
  end.

Definition updateInternalServiceExportWithRetry (e : InternalServiceExport) (conflict : bool)
    : IO (option error * InternalServiceExport) :=
  let desiredCond := if conflict then ConflictedServiceExportConflictCondition e
                     else UnconflictedServiceExportConflictCondition e in
  let currentCond := FindStatusCondition (ise_Conditions e) ServiceExportConflict in
  if EqualCondition currentCond (Some desiredCond) then mret (None, e)
  else
    cs ← SetStatusCondition (ise_Conditions e) desiredCond;
    Do (λ e, StatusUpdate Hub KInternalServiceExport e) (setInternalExportConditions cs e).

Definition deleteServiceImport (serviceImport : ServiceImport) : IO (Result * option error) :=
  Event EventTypeNormal "NoExportedService"
    ("No exported service and deleting serviceImport " +:+ om_Name (si_ObjectMeta serviceImport));;
  err ← Delete Hub KServiceImport serviceImport;
  mret (emptyResult, IgnoreNotFound err).

(** The loop over the exports without a conflict: the clusters that take part
    and the exports as the updates left them. *)
Definition markNoConflict (vs : list InternalServiceExport)
    : IO ((Result * option error) + (list ClusterStatus * list InternalServiceExport)) :=
  for_range (λ v '(clusters, updated),
    '(err, v) ← updateInternalServiceExportWithRetry v false;
    match err with
    | Some err => if IsNotFound err then mret (inr (clusters, updated ++ [v]))
                  else mret (inl (emptyResult, Some err))
    | None =>
        mret (inr (clusters ++ [{| cs_Cluster := ref_ClusterID (ise_ServiceReference (ise_Spec v)) |}],
                   updated ++ [v]))
    end) vs ([], []).

Definition markConflict (vs : list InternalServiceExport) : IO ((Result * option error) + unit) :=
  for_range (λ v _,
    '(err, _) ← updateInternalServiceExportWithRetry v true;
    match err with
    | Some err => mret (inl (emptyResult, IgnoreNotFound (Some err)))
    | None => mret (inr tt)
    end) vs tt.

(** The resolved ports live in the first export without a conflict, which the
    status update may have overwritten. *)
Definition resolvedPorts (resolved : list ServicePort) (updated : list InternalServiceExport)
    : list ServicePort :=
  match updated with v :: _ => ise_Ports (ise_Spec v) | [] => resolved end.

Definition resolveServiceImport (serviceImport : ServiceImport) (resolved : list ServicePort)
    (change : statusChange) : IO (Result * option error) :=
  marked ← markNoConflict (noConflict change);
  match marked with
  | inl res => mret res
  | inr (clusters, updated) =>
      if decide (clusters = [])
      then mret ({| Requeue := true; RequeueAfter := 0%Z |}, None) else
      marked ← markConflict (conflict change);
      match marked with
      | inl res => mret res
      | inr _ =>
          let status := {| sis_IPs := []; sis_Type := ClusterSetIP; sis_SessionAffinity := "";
            sis_SessionAffinityConfig := None; sis_Ports := resolvedPorts resolved updated;
            sis_Clusters := clusters |} in
          '(err, serviceImport) ← Do (λ si, StatusUpdate Hub KServiceImport si)
             (setImportStatus status serviceImport);
          match err with
          | Some err => mret (emptyResult, Some err)
          | None =>
              Event EventTypeNormal "SuccessfulUpdateStatus"
                ("Resolved exported service properties and updated " +:+
                 om_Name (si_ObjectMeta serviceImport) +:+ " status");;
              mret (emptyResult, None)
          end
      end
  end.

Definition Reconcile (req : NamespacedName) : IO (Result * option error) :=
  got ← Get Hub KServiceImport req;
  match got with
  | inl err => mret (emptyResult, IgnoreNotFound (Some err))
  | inr serviceImport =>
      if negb (bool_decide (sis_Clusters (si_Status serviceImport) = []))
      then mret (emptyResult, None) else
      listed ← List Hub KInternalServiceExport
        (MatchingFields [(exportedServiceFieldNamespacedName,
                          NamespacedName_String (objectKey (serviceImport : ServiceImport)))]);
      match listed with
      | inl err => mret (emptyResult, Some err)
      | inr [] => deleteServiceImport serviceImport
      | inr items =>
          match classify items None {| conflict := []; noConflict := [] |} with
          | (None, _) => deleteServiceImport serviceImport
          | (Some resolved, change) => resolveServiceImport serviceImport resolved change
          end
      end
  end.
(** ** What the loop computes *)

Definition portsOf (v : InternalServiceExport) : list ServicePort := ise_Ports (ise_Spec v).
(** The exports that count: not being deleted, and seen by the controller of the
    exports. *)
Definition qualifies (v : InternalServiceExport) : Prop :=
  isDeleting v = false ∧ InternalServiceExportFinalizer ∈ finalizersOf v.
#[local] Instance qualifies_dec v : Decision (qualifies v).
Proof. unfold qualifies. apply _. Defined.
Definition candidates (items : list InternalServiceExport) : list InternalServiceExport :=
  filter qualifies items.
Definition resolvedOf (items : list InternalServiceExport) : option (list ServicePort) :=
  portsOf <$> head (candidates items).

Section loop.
Context {laws : ControllerUtilLaws}.

Lemma isCandidate_spec v : isCandidate v = true ↔ qualifies v.
Proof.
  unfold isCandidate, qualifies. rewrite andb_true_iff, negb_true_iff. by rewrite hasFinalizer_spec.
Qed.

Lemma classify_resolved items p change :
  classify items (Some p) change =
  (Some p, {| conflict := conflict change ++ filter (λ v, p ≠ portsOf v) (candidates items);
              noConflict := noConflict change ++ filter (λ v, p = portsOf v) (candidates items) |}).
Proof.
  revert change. induction items as [|v items IH]; intros [cf nc]; simpl.
  { by rewrite !app_nil_r. }
  unfold candidates in *. destruct (isCandidate v) eqn:Hc; simpl.
  - apply isCandidate_spec in Hc. rewrite (filter_cons_True qualifies) by done. unfold portsOf in *.
    case_decide as Hp; rewrite IH; simpl.
    + rewrite (filter_cons_True (λ v, p = _)), (filter_cons_False (λ v, p ≠ _)) by tauto.
      by rewrite <-app_assoc.
    + rewrite (filter_cons_False (λ v, p = _)), (filter_cons_True (λ v, p ≠ _)) by done.
      by rewrite <-app_assoc.
  - rewrite (filter_cons_False qualifies) by (rewrite <-isCandidate_spec; congruence). apply IH.
Qed.

Lemma classify_candidates items :
  classify items None {| conflict := []; noConflict := [] |} =
  (resolvedOf items,
   {| conflict := filter (λ v, resolvedOf items ≠ Some (portsOf v)) (candidates items);
      noConflict := filter (λ v, resolvedOf items = Some (portsOf v)) (candidates items) |}).
Proof.
  induction items as [|v items IH]; [done|]. simpl. destruct (isCandidate v) eqn:Hc; simpl.
  2: { rewrite IH. unfold resolvedOf, candidates.
       by rewrite filter_cons_False by (rewrite <-isCandidate_spec; congruence). }
  apply isCandidate_spec in Hc.
  rewrite decide_True by done. rewrite classify_resolved. simpl. fold (portsOf v).
  assert (candidates (v :: items) = v :: candidates items) as Hcand
    by (unfold candidates; by rewrite filter_cons_True).
  assert (resolvedOf (v :: items) = Some (portsOf v)) as Hres
    by (unfold resolvedOf; by rewrite Hcand).
  rewrite Hres, Hcand. f_equal. f_equal.
  - rewrite filter_cons_False by congruence. apply list_filter_iff. intros x; split; congruence.
  - rewrite filter_cons_True by done. f_equal. apply list_filter_iff. intros x; split; congruence.
Qed.

Lemma filter_partition (items : list InternalServiceExport) o :
  filter (λ v, o ≠ Some (portsOf v)) items ++ filter (λ v, o = Some (portsOf v)) items ≡ₚ items.
Proof.
  induction items as [|v items IH]; [done|].
  destruct (decide (o = Some (portsOf v))) as [Ho|Ho].
  - rewrite (filter_cons_False (λ v, o ≠ _)), (filter_cons_True (λ v, o = _)) by tauto.
    by rewrite <-Permutation_middle, IH.
  - rewrite (filter_cons_True (λ v, o ≠ _)), (filter_cons_False (λ v, o = _)) by done.
    simpl. by rewrite IH.
Qed.

(** C35: the ports of a ServiceImport are those of the first listed export that
    is not being deleted and has the finalizer; the exports that are considered
    are split into the ones with exactly these ports and the others, none lost
    and none twice; no ports are found exactly when no export qualifies, and
    otherwise some export has no conflict. *)
Theorem classify_partition items :
  let '(resolved, change) := classify items None {| conflict := []; noConflict := [] |} in
  resolved = portsOf <$> head (candidates items) ∧
  conflict change ++ noConflict change ≡ₚ candidates items ∧
  (∀ v, v ∈ noConflict change → resolved = Some (portsOf v)) ∧
  (∀ v, v ∈ conflict change → resolved ≠ Some (portsOf v)) ∧
  (resolved = None ↔ candidates items = []) ∧
  (noConflict change = [] ↔ resolved = None).
Proof.
  rewrite classify_candidates. simpl. split; [done|]. split; [apply filter_partition|].
  split; [by intros v [? _]%list_elem_of_filter|]. split; [by intros v [? _]%list_elem_of_filter|].
  unfold resolvedOf. destruct (candidates items) as [|v vs]; simpl; [done|].
  split; [done|]. by rewrite filter_cons_True.
Qed.
End loop.

(** ** The protocol of the controller

    What it knows: the ServiceImport and the exports as read, which exports
    have been marked (with the verdict), and which ones have disappeared. *)
Record knowledge := {
  y_import : option ServiceImport;
  y_items : option (list InternalServiceExport);
  y_marked : list (NamespacedName * bool);
  y_missing : list NamespacedName;
}.
Definition nothingKnown : knowledge :=
  {| y_import := None; y_items := None; y_marked := []; y_missing := [] |}.
Definition learnImport (si : ServiceImport) (s : knowledge) : knowledge :=
  {| y_import := Some si; y_items := y_items s; y_marked := y_marked s;
     y_missing := y_missing s |}.
Definition learnItems (items : list InternalServiceExport) (s : knowledge) : knowledge :=
  {| y_import := y_import s; y_items := Some items; y_marked := y_marked s;
     y_missing := y_missing s |}.
Definition learnMarked (k : NamespacedName) (b : bool) (s : knowledge) : knowledge :=
  {| y_import := y_import s; y_items := y_items s; y_marked := (k, b) :: y_marked s;
     y_missing := y_missing s |}.
Definition learnMissing (k : NamespacedName) (s : knowledge) : knowledge :=
  {| y_import := y_import s; y_items := y_items s; y_marked := y_marked s;
     y_missing := k :: y_missing s |}.

Definition desiredCond (v : InternalServiceExport) (b : bool) : Condition :=
  if b then ConflictedServiceExportConflictCondition v
  else UnconflictedServiceExportConflictCondition v.
Definition verdictOf (e : InternalServiceExport) : option bool :=
  (λ c, bool_decide (c_Status c = ConditionTrue)) <$>
    FindStatusCondition (ise_Conditions e) ServiceExportConflict.

(** The export [v] carries the verdict [b]: it did when it was read, or it was
    given it. *)
Definition carries (s : knowledge) (v : InternalServiceExport) (b : bool) : Prop :=
  EqualCondition (FindStatusCondition (ise_Conditions v) ServiceExportConflict)
    (Some (desiredCond v b)) = true ∨ (objectKey v, b) ∈ y_marked s.

(** An export that is considered, with the verdict it deserves. *)
Definition deserves (items : list InternalServiceExport) (v : InternalServiceExport) (b : bool)
    : Prop :=
  v ∈ candidates items ∧ b = negb (bool_decide (resolvedOf items = Some (portsOf v))).

(** The status of a resolved ServiceImport. *)
Definition resolves (s : knowledge) (items : list InternalServiceExport)
    (status : ServiceImportStatus) : Prop :=
  resolvedOf items = Some (sis_Ports status) ∧ sis_Type status = ClusterSetIP ∧
  sis_Clusters status ≠ [] ∧
  (∀ c, c ∈ sis_Clusters status → ∃ v, deserves items v false ∧ carries s v false ∧
     cs_Cluster c = ref_ClusterID (ise_ServiceReference (ise_Spec v))) ∧
  (∀ v, deserves items v false → objectKey v ∉ y_missing s →
     {| cs_Cluster := ref_ClusterID (ise_ServiceReference (ise_Spec v)) |}
       ∈ sis_Clusters status) ∧
  (∀ v, deserves items v true → carries s v true).

Definition resolveProtocol (req : NamespacedName) : protocol eff knowledge := {|
  allowed X c s :=
    match c with
    | EGet Hub KServiceImport key => key = req
    | EList Hub KInternalServiceExport opts =>
        opts = MatchingFields [(exportedServiceFieldNamespacedName, NamespacedName_String req)]
    | EDelete Hub KServiceImport key =>
        key = req ∧ (∃ si, y_import s = Some si ∧ sis_Clusters (si_Status si) = []) ∧
        ∃ items, y_items s = Some items ∧ candidates items = []
    | EStatusUpdate Hub KInternalServiceExport o =>
        ∃ items v b, y_items s = Some items ∧ deserves items v b ∧
          objectKey o = objectKey v ∧ ise_Spec o = ise_Spec v ∧ verdictOf o = Some b
    | EStatusUpdate Hub KServiceImport o =>
        objectKey o = req ∧ (∃ si, y_import s = Some si ∧ sis_Clusters (si_Status si) = []) ∧
        ∃ items, y_items s = Some items ∧ resolves s items (si_Status o)
    | ENow | EEvent _ _ _ => True
    | _ => False
    end;
  answer X c s := λ x, serverAnswer c x ∧
    (match c in eff X return X → Prop with
     (* an update of the status leaves the spec alone *)
     | EStatusUpdate Hub KInternalServiceExport o => λ r,
         match r with inr o' => ise_Spec o' = ise_Spec o | inl _ => True end
     | _ => λ _, True
     end) x;
  next X c :=
    match c in eff X return X → knowledge → knowledge with
    | EGet Hub KServiceImport key => λ r s,
        match r with inr si => learnImport si s | inl _ => s end
    | EList Hub KInternalServiceExport opts => λ r s,
        match r with inr items => learnItems items s | inl _ => s end
    | EStatusUpdate Hub KInternalServiceExport o => λ r s,
        match r with
        | inr _ => learnMarked (objectKey o) (default false (verdictOf o)) s
        | inl err => if IsNotFound err then learnMissing (objectKey o) s else s
        end
    | _ => λ _ s, s
    end |}.

End controller.

(** ** The controller follows the protocol *)

Section safety.
Context {util : ControllerUtil} {laws : ControllerUtilLaws}.
Context (req : NamespacedName).
Local Abbreviation P := (resolveProtocol req).

Definition grows (s s' : knowledge) : Prop :=
  y_import s' = y_import s ∧ y_items s' = y_items s ∧
  y_marked s ⊆ y_marked s' ∧ y_missing s ⊆ y_missing s'.
#[local] Instance grows_preorder : PreOrder grows.
Proof.
  split.
  - intros s. by repeat split.
  - intros s1 s2 s3 (? & ? & ? & ?) (? & ? & ? & ?).
    repeat split; [congruence|congruence|set_solver|set_solver].
Qed.
Lemma carries_grows s s' v b : grows s s' → carries s v b → carries s' v b.
Proof. intros (_ & _ & Hm & _) [?|?]; [by left|right; auto]. Qed.

(** The verdict that an update of the status carries. *)
Lemma verdictOf_marked v b now :
  verdictOf (setInternalExportConditions (setCondition now (ise_Conditions v) (desiredCond v b)) v) = Some b.
Proof.
  destruct (setCondition_same now (ise_Conditions v) (desiredCond v b)) as (c & Hf & _ & Hst & _).
  unfold verdictOf. replace ServiceExportConflict with (c_Type (desiredCond v b)) by (by destruct b).
  simpl. rewrite Hf. simpl. rewrite Hst. by destruct b.
Qed.

Lemma updateWithRetry_wp items v b s :
  y_items s = Some items → deserves items v b →
  wp P (updateInternalServiceExportWithRetry v b) s (λ x s',
    grows s s' ∧ ise_Spec x.2 = ise_Spec v ∧
    match x.1 with
    | None => carries s' v b
    | Some err => IsNotFound err = true → objectKey v ∈ y_missing s'
    end).
Proof.
  intros Hitems Hd. unfold updateInternalServiceExportWithRetry. fold (desiredCond v b).
  destruct (EqualCondition _ _) eqn:Heq; [apply wp_ret; repeat split; try done; by left|].
  apply wp_bind, wp_SetStatusCondition; [done|]. intros now _. simpl.
  pose proof (verdictOf_marked v b now) as Hverdict. set (o := setInternalExportConditions _ v) in *.
  eapply (Do_wp _ _ _ _ (λ a s1, a = o ∧ grows s s1)); [|by split].
  intros a s1 [-> Hg]. apply wp_StatusUpdate.
  { exists items, v, b. split; [|done]. destruct Hg as (_ & -> & _). done. }
  assert (grows s (learnMissing (objectKey v) s1)) as Hmiss.
  { etrans; [exact Hg|]. repeat split; set_solver. }
  intros [err|o'] [Ho Hspec]; simpl.
  - destruct (IsNotFound err) eqn:Hnf; (split; [split; [done|split; [done|]]|done]).
    + intros _. set_solver.
    + done.
  - split; [|done]. rewrite Hverdict. simpl. split.
    { etrans; [exact Hg|]. repeat split; set_solver. }
    split; [exact Hspec|]. right. set_solver.
Qed.

Definition clusterOf (v : InternalServiceExport) : ClusterStatus :=
  {| cs_Cluster := ref_ClusterID (ise_ServiceReference (ise_Spec v)) |}.

(** What the first loop has established about the exports [done]. *)
Definition markedSoFar (s s' : knowledge) (done : list InternalServiceExport)
    (clusters : list ClusterStatus) (updated : list InternalServiceExport) : Prop :=
  grows s s' ∧ ise_Spec <$> updated = ise_Spec <$> done ∧
  (∀ c, c ∈ clusters → ∃ v, v ∈ done ∧ carries s' v false ∧ c = clusterOf v) ∧
  (∀ v, v ∈ done → objectKey v ∉ y_missing s' → clusterOf v ∈ clusters).

Lemma markedSoFar_grows s s1 s2 done clusters updated :
  markedSoFar s s1 done clusters updated → grows s1 s2 → markedSoFar s s2 done clusters updated.
Proof.
  intros (Hg & Hu & Hc & Hm) Hg2. split; [by etrans|]. split; [done|]. split.
  - intros c (v & Hv & Hcar & ->)%Hc. exists v. split; [done|]. by eauto using carries_grows.
  - intros v Hv Hmiss. apply Hm; [done|]. destruct Hg2 as (_ & _ & _ & ?). set_solver.
Qed.

Lemma markNoConflict_wp items vs s :
  y_items s = Some items → (∀ v, v ∈ vs → deserves items v false) →
  wp P (markNoConflict vs) s (λ x s', match x with
    | inl res => Requeue res.1 = false
    | inr (clusters, updated) => markedSoFar s s' vs clusters updated
    end).
Proof.
  intros Hitems Hd. unfold markNoConflict.
  apply (wp_for_range _ _ (λ l t s', ∃ done, vs = done ++ l ∧ markedSoFar s s' done t.1 t.2)).
  - intros v l [clusters updated] s1 (done & -> & Hm). apply wp_bind. eapply wp_mono.
    { apply (updateWithRetry_wp items); [|apply Hd; set_solver].
      destruct Hm as ((_ & -> & _) & _). exact Hitems. }
    intros [err v'] s2 (Hg & Hspec & Hx). simpl in Hspec, Hx.
    eapply markedSoFar_grows in Hm; [|exact Hg]. destruct Hm as (Hg2 & Hu & Hc & Hmi). simpl in *.
    assert (ise_Spec <$> updated ++ [v'] = ise_Spec <$> done ++ [v]) as Hu'.
    { rewrite !fmap_app, Hu. simpl. by rewrite Hspec. }
    destruct err as [err|].
    + destruct (IsNotFound err) eqn:Hnf; apply wp_ret; [|done].
      exists (done ++ [v]). split; [by rewrite <-app_assoc|]. split; [done|]. split; [done|].
      simpl. split; [intros c (w & Hw & ?)%Hc; exists w; split; [set_solver|done]|].
      intros w [Hw| ->%list_elem_of_singleton]%elem_of_app Hmiss; [by apply Hmi|].
      exfalso. auto.
    + apply wp_ret. exists (done ++ [v]). split; [by rewrite <-app_assoc|].
      split; [done|]. split; [done|]. simpl.
      assert ({| cs_Cluster := ref_ClusterID (ise_ServiceReference (ise_Spec v')) |} = clusterOf v)
        as -> by (unfold clusterOf; by rewrite Hspec).
      split.
      * intros c [(w & Hw & ?)%Hc| ->%list_elem_of_singleton]%elem_of_app.
        { exists w. split; [set_solver|done]. } exists v. split; [set_solver|done].
      * intros w [Hw| ->%list_elem_of_singleton]%elem_of_app Hmiss; set_solver.
  - intros [clusters updated] s1 (done & Hvs & Hm). rewrite app_nil_r in Hvs. by subst done.
  - exists []. split; [done|]. split; [done|]. split; [done|]. split; set_solver.
Qed.

Lemma markConflict_wp items vs s :
  y_items s = Some items → (∀ v, v ∈ vs → deserves items v true) →
  wp P (markConflict vs) s (λ x s', match x with
    | inl res => Requeue res.1 = false
    | inr _ => grows s s' ∧ ∀ v, v ∈ vs → carries s' v true
    end).
Proof.
  intros Hitems Hd. unfold markConflict.
  apply (wp_for_range _ _ (λ l _ s', grows s s' ∧ ∃ done, vs = done ++ l ∧
           ∀ v, v ∈ done → carries s' v true)).
  - intros v l _ s1 (Hg & done & -> & Hc). apply wp_bind. eapply wp_mono.
    { apply (updateWithRetry_wp items); [|apply Hd; set_solver]. destruct Hg as (_ & -> & _). exact Hitems. }
    intros [[err|] v'] s2 (Hg2 & _ & Hx); apply wp_ret; [done|]. split; [by etrans|].
    exists (done ++ [v]). split; [by rewrite <-app_assoc|].
    intros w [Hw| ->%list_elem_of_singleton]%elem_of_app; [|done]. by eauto using carries_grows.
  - intros _ s1 (Hg & done & Hvs & Hc). rewrite app_nil_r in Hvs. by subst done.
  - split; [done|]. exists []. split; [done|]. set_solver.
Qed.

(** A new round is asked for at once only when every export with the resolved
    ports has disappeared. *)
Definition roundEnds (x : Result * option error) (s : knowledge) : Prop :=
  Requeue x.1 = true →
  ∃ items, y_items s = Some items ∧ ∀ v, deserves items v false → objectKey v ∈ y_missing s.

Lemma deleteServiceImport_wp si items s :
  y_import s = Some si → objectKey si = req → sis_Clusters (si_Status si) = [] →
  y_items s = Some items → candidates items = [] →
  wp P (deleteServiceImport si) s roundEnds.
Proof.
  intros Hsi Hkey Hcl Hitems Hc. apply wp_bind, wp_Event; [done|]. intros ? _.
  apply wp_bind, wp_Delete.
  { split; [exact Hkey|]. split; [by exists si|]. by exists items. }
  intros err _. by apply wp_ret.
Qed.

Lemma resolvedPorts_spec items resolved vs updated :
  resolvedOf items = Some resolved → (∀ v, v ∈ vs → deserves items v false) →
  ise_Spec <$> updated = ise_Spec <$> vs → resolvedPorts resolved updated = resolved.
Proof.
  intros Hres Hd Hu. destruct updated as [|u updated], vs as [|v vs]; [done..|].
  simpl in Hu. injection Hu as Hu _. simpl.
  destruct (Hd v) as [_ Hv]; [by left|]. symmetry in Hv.
  apply negb_false_iff, bool_decide_eq_true in Hv. unfold portsOf in Hv.
  rewrite Hu. congruence.
Qed.

Lemma deserves_noConflict items v :
  v ∈ filter (λ v, resolvedOf items = Some (portsOf v)) (candidates items) ↔
  deserves items v false.
Proof.
  rewrite list_elem_of_filter. unfold deserves. destruct (bool_decide _) eqn:Hb; simpl.
  - apply bool_decide_eq_true in Hb. tauto.
  - apply bool_decide_eq_false in Hb. split; [tauto|]. by intros [_ ?].
Qed.
Lemma deserves_conflict items v :
  v ∈ filter (λ v, resolvedOf items ≠ Some (portsOf v)) (candidates items) ↔
  deserves items v true.
Proof.
  rewrite list_elem_of_filter. unfold deserves. destruct (bool_decide _) eqn:Hb; simpl.
  - apply bool_decide_eq_true in Hb. split; [tauto|]. by intros [_ ?].
  - apply bool_decide_eq_false in Hb. tauto.
Qed.

Lemma resolveServiceImport_wp si items resolved s :
  y_import s = Some si → objectKey si = req → sis_Clusters (si_Status si) = [] →
  y_items s = Some items → resolvedOf items = Some resolved →
  wp P (resolveServiceImport si resolved
    {| conflict := filter (λ v, resolvedOf items ≠ Some (portsOf v)) (candidates items);
       noConflict := filter (λ v, resolvedOf items = Some (portsOf v)) (candidates items) |})
    s roundEnds.
Proof.
  intros Hsi Hkey Hcl Hitems Hres. unfold resolveServiceImport. simpl. apply wp_bind.
  eapply wp_mono; [apply (markNoConflict_wp items); [done|intros v; apply deserves_noConflict]|].
  intros [res|[clusters updated]] s1 Hm; [apply wp_ret; by unfold roundEnds; rewrite Hm|].
  assert (y_items s1 = Some items) as Hitems1 by (by destruct Hm as ((_ & -> & _) & _)).
  case_decide as Hcs.
  { apply wp_ret. intros _. exists items. split; [done|]. intros v Hv%deserves_noConflict.
    destruct Hm as (_ & _ & _ & Hmiss). apply dec_stable. intros Hnot.
    specialize (Hmiss v Hv Hnot). rewrite Hcs in Hmiss. set_solver. }
  apply wp_bind.
  eapply wp_mono; [apply (markConflict_wp items); [done|intros v; apply deserves_conflict]|].
  intros [res|_] s2 Hx; [apply wp_ret; by unfold roundEnds; rewrite Hx|].
  destruct Hx as [Hg Hcar]. eapply markedSoFar_grows in Hm; [|exact Hg].
  destruct Hm as (Hg2 & Hu & Hc & Hmiss).
  set (status := {| sis_IPs := _ |}).
  assert (resolves s2 items status) as Hstatus.
  { split; [|split; [done|split; [done|]]].
    - simpl. erewrite resolvedPorts_spec; [done|done| |exact Hu]. intros v. apply deserves_noConflict.
    - split; [|split].
      + intros c (v & Hv%deserves_noConflict & Hcv & ->)%Hc. by exists v.
      + intros v Hv%deserves_noConflict Hnot. by apply Hmiss.
      + intros v Hv%deserves_conflict. by apply Hcar. }
  apply wp_bind. eapply (Do_wp _ _ _ _ (λ a s', a = setImportStatus status si ∧ s' = s2)); [|done].
  intros a s' [-> ->]. apply wp_StatusUpdate.
  { split; [exact Hkey|]. destruct Hg2 as (-> & -> & _). split; [by exists si|]. by exists items. }
  intros [err|si'] _; (split; [|done]); [by apply wp_ret|].
  apply wp_bind, wp_Event; [done|]. intros ? _. by apply wp_ret.
Qed.

(** C5: every exchange of a round follows the protocol of the controller.  A
    ServiceImport is deleted only when it lists no cluster and no export of the
    service qualifies; an export is only marked with the verdict it deserves,
    conflicted exactly when its ports differ from the resolved ones; the status
    of the ServiceImport is written only for an unresolved one, with the
    resolved ports, a non-empty list of clusters that are all exports marked
    free of conflict, every such export that still exists among them, and after
    every conflicting export has been marked; and an immediate new round is
    asked for only when all exports with the resolved ports have disappeared. *)
Theorem Reconcile_follows_resolve_protocol : wp P (Reconcile req) nothingKnown roundEnds.
Proof.
  apply wp_bind, wp_Get; [done|]. intros [err|si] [Hget _]; simpl; [by apply wp_ret|].
  simpl in si, Hget. case_bool_decide as Hcl; simpl; [|by apply wp_ret].
  apply wp_bind, wp_List; [by rewrite Hget|].
  intros [err|items] _; simpl; [by apply wp_ret|].
  assert (candidates items = [] → wp P (deleteServiceImport si)
            (learnItems items (learnImport si nothingKnown)) roundEnds) as Hdel.
  { intros Hnone. by eapply deleteServiceImport_wp. }
  destruct items as [|v items]; [by apply Hdel|].
  rewrite classify_candidates.
  destruct (resolvedOf (v :: items)) as [resolved|] eqn:Hres.
  - rewrite <-Hres. by apply resolveServiceImport_wp.
  - apply Hdel. unfold resolvedOf in Hres. by destruct (candidates (v :: items)).
Qed.

End safety.
(** ** An export that disappears while it is being marked

    What is watched: the ServiceImport and the exports as read, whether the
    status of the ServiceImport was written, and whether an export to be marked
    as conflicted was not found.  Nothing may be called once that happened, and
    the servers may answer anything. *)
Record watched := {
  v_import : option ServiceImport;
  v_items : list InternalServiceExport;
  v_written : bool;
  v_vanished : bool;
}.
Definition nothingSeen : watched :=
  {| v_import := None; v_items := []; v_written := false; v_vanished := false |}.

Section vanishing.
Context {util : ControllerUtil} {laws : ControllerUtilLaws}.

Definition vanishProtocol : protocol eff watched := {|
  allowed X c s := v_vanished s = false;
  answer X c s x := True;
  next X c :=
    match c in eff X return X → watched → watched with
    | EGet Hub KServiceImport key => λ r s,
        match r with
        | inr si => {| v_import := Some si; v_items := v_items s; v_written := v_written s;
                       v_vanished := v_vanished s |}
        | inl _ => s
        end
    | EList Hub KInternalServiceExport opts => λ r s,
        match r with
        | inr items => {| v_import := v_import s; v_items := items; v_written := v_written s;
                          v_vanished := v_vanished s |}
        | inl _ => s
        end
    | EStatusUpdate Hub KServiceImport o => λ r s,
        {| v_import := v_import s; v_items := v_items s; v_written := true;
           v_vanished := v_vanished s |}
    | EStatusUpdate Hub KInternalServiceExport o => λ r s,
        match r with
        | inl err => {| v_import := v_import s; v_items := v_items s; v_written := v_written s;
                        v_vanished := v_vanished s ||
                          IsNotFound err && bool_decide (verdictOf o = Some true) |}
        | inr _ => s
        end
    | _ => λ _ s, s
    end |}.
Local Abbreviation V := vanishProtocol.

(** The status is not written, and an export qualifies. *)
Definition givenUp (x : Result * option error) (s : watched) : Prop :=
  v_vanished s = true →
  x = (emptyResult, None) ∧ v_written s = false ∧ is_Some (resolvedOf (v_items s)) ∧
  ∃ si, v_import s = Some si ∧ sis_Clusters (si_Status si) = [].

Lemma updateWithRetry_vanish v b s :
  v_vanished s = false →
  wp V (updateInternalServiceExportWithRetry v b) s (λ x s', s' = s ∨
    b = true ∧ (∃ err, x.1 = Some err ∧ IsNotFound err = true) ∧
    s' = {| v_import := v_import s; v_items := v_items s; v_written := v_written s;
            v_vanished := true |}).
Proof.
  intros Hs. unfold updateInternalServiceExportWithRetry. fold (desiredCond v b).
  destruct (EqualCondition _ _); [apply wp_ret; by left|].
  apply wp_bind, wp_SetStatusCondition; [exact Hs|]. intros now _. simpl.
  pose proof (verdictOf_marked v b now) as Hverdict. set (o := setInternalExportConditions _ v) in *.
  eapply (Do_wp _ _ _ _ (λ a s1, a = o ∧ s1 = s)); [|done].
  intros a s1 [-> ->]. apply wp_StatusUpdate; [exact Hs|]. intros [err|o'] _; simpl; [|by split; [left|]].
  rewrite Hverdict, Hs. simpl.
  assert (s = {| v_import := v_import s; v_items := v_items s; v_written := v_written s;
                 v_vanished := false |}) as Hsame by (destruct s; simpl in *; congruence).
  destruct (IsNotFound err) eqn:Hnf; simpl; [|rewrite <-Hsame; by split; [left|]].
  destruct b; simpl; [|rewrite <-Hsame; by split; [left|]]. split; [by right; eauto|].
  by rewrite retriable_not_found.
Qed.
Lemma markNoConflict_vanish vs s :
  v_vanished s = false → wp V (markNoConflict vs) s (λ _ s', s' = s).
Proof.
  intros Hs. unfold markNoConflict. apply (wp_for_range _ _ (λ _ _ s', s' = s)); [|done|done].
  intros v l [clusters updated] ? ->. apply wp_bind. eapply wp_mono; [by apply updateWithRetry_vanish|].
  intros [[err|] v'] s' [->|[? _]]; [|done|by apply wp_ret|done].
  destruct (IsNotFound err); by apply wp_ret.
Qed.
Lemma markConflict_vanish vs s :
  v_vanished s = false →
  wp V (markConflict vs) s (λ x s', s' = s ∨ x = inl (emptyResult, None) ∧
    s' = {| v_import := v_import s; v_items := v_items s; v_written := v_written s;
            v_vanished := true |}).
Proof.
  intros Hs. unfold markConflict. apply (wp_for_range _ _ (λ _ _ s', s' = s)); [|by left|done].
  intros v l [] ? ->. apply wp_bind. eapply wp_mono; [by apply updateWithRetry_vanish|].
  intros [err v'] s' [->|(_ & (err' & He & Hnf) & ->)]; [destruct err; apply wp_ret; by auto|].
  simpl in He. subst err. apply wp_ret. right. simpl. by rewrite Hnf.
Qed.
Lemma resolveServiceImport_vanish si resolved change s :
  v_vanished s = false → v_written s = false → is_Some (resolvedOf (v_items s)) →
  v_import s = Some si → sis_Clusters (si_Status si) = [] →
  wp V (resolveServiceImport si resolved change) s givenUp.
Proof.
  intros Hs Hw Hr Hi Hc. assert (∀ x, givenUp x s) as Hno by (intros x; unfold givenUp; by rewrite Hs).
  apply wp_bind. eapply wp_mono; [by apply markNoConflict_vanish|].
  intros [res|[clusters updated]] ? ->; [by apply wp_ret|]. case_decide; [by apply wp_ret|].
  apply wp_bind. eapply wp_mono; [by apply markConflict_vanish|].
  intros [res|[]] s' [->|[Hx ->]]; try done; [by apply wp_ret| |].
  { injection Hx as ->. apply wp_ret. intros _. split; [done|]. split; [done|]. split; [done|]. by exists si. }
  apply wp_bind.
  eapply (Do_wp _ _ _ _ (λ _ s', v_vanished s' = false)); [|done].
  intros a s1 Hs1. apply wp_StatusUpdate; [exact Hs1|].
  intros [err|si'] _; simpl; (split; [|done]); [apply wp_ret; unfold givenUp; simpl; by rewrite Hs1|].
  apply wp_bind, wp_Event; [exact Hs1|]. intros ? _. apply wp_ret. unfold givenUp. simpl. by rewrite Hs1.
Qed.

(** C40: when an export that is to be marked as conflicted has disappeared, so
    that its update is answered by not found, the round ends there, whatever
    the servers answer otherwise: it makes no further call and returns without
    an error and without asking for a new round.  The ServiceImport, which
    listed no cluster, has not been given its status, although an export
    qualifies. *)
Theorem conflict_not_found_leaves_unresolved req : wp V (Reconcile req) nothingSeen givenUp.
Proof.
  assert (∀ (si : ServiceImport) s, v_vanished s = false → wp V (deleteServiceImport si) s givenUp) as Hdel.
  { intros si s Hs. apply wp_bind, wp_Event; [exact Hs|]. intros ? _. apply wp_bind, wp_Delete; [exact Hs|].
    intros err _. apply wp_ret. unfold givenUp. simpl. by rewrite Hs. }
  apply wp_bind, wp_Get; [done|]. intros [err|si] _; simpl; [by apply wp_ret|]. simpl in si.
  case_bool_decide as Hcl; simpl; [|by apply wp_ret]. apply wp_bind, wp_List; [done|].
  intros [err|items] _; simpl; [by apply wp_ret|]. destruct items as [|v items]; [by apply Hdel|].
  rewrite classify_candidates. destruct (resolvedOf (v :: items)) as [resolved|] eqn:Hres; [|by apply Hdel].
  apply resolveServiceImport_vanish; [done|done| |done|done]. by exists resolved.
Qed.
End vanishing.

(** ** Runs *)

Module Demo.
Definition port (n : Z) : ServicePort := {|
  sp_Name := "http"; sp_Protocol := "TCP"; sp_AppProtocol := None; sp_Port := n;
  sp_TargetPort := FromInt 8080 |}.
Definition importName : NamespacedName := {| nn_Namespace := "work"; nn_Name := "app" |}.
Definition keyOf (cluster : string) : NamespacedName :=
  {| nn_Namespace := "fleet-member-" +:+ cluster; nn_Name := "work-app" |}.
Definition export (cluster : string) (ports : list ServicePort) : InternalServiceExport := {|
  ise_TypeMeta := {| tm_Kind := "InternalServiceExport"; tm_APIVersion := "v1alpha1" |};
  ise_ObjectMeta := setFinalizers [InternalServiceExportFinalizer]
    (newObjectMeta ("fleet-member-" +:+ cluster) "work-app");
  ise_Spec := {| ise_Ports := ports;
    ise_ServiceReference := {| ref_ClusterID := cluster; ref_APIVersion := "v1";
      ref_Kind := "Service"; ref_Namespace := "work"; ref_Name := "app";
      ref_ResourceVersion := "1"; ref_Generation := 1; ref_UID := "uid";
      ref_NamespacedName := "work/app"; ref_ExportedSince := None |};
    ise_Type := "ClusterIP"; ise_IsDNSLabelConfigured := false;
    ise_IsInternalLoadBalancer := false; ise_PublicIPResourceID := None;
    ise_Weight := None |};
  ise_Conditions := [] |}.
Definition import : ServiceImport := {|
  si_TypeMeta := {| tm_Kind := "ServiceImport"; tm_APIVersion := "v1alpha1" |};
  si_ObjectMeta := newObjectMeta "work" "app"; si_Status := emptyServiceImportStatus |}.
Definition index (k : kind) (f : string) : obj k → list string :=
  match k return obj k → list string with
  | KInternalServiceExport => indexExport
  | _ => λ _, []
  end.
(** Two exports that disagree on the port. *)
Definition world0 : world := {|
  w_member := emptyStore;
  w_hub := storeAlter KServiceImport <[importName := import]>
    (storeAlter KInternalServiceExport <[keyOf "bravelion" := export "bravelion" [port 80]]>
      (storeAlter KInternalServiceExport <[keyOf "smartfish" := export "smartfish" [port 81]]>
        emptyStore));
  w_version := 1; w_clock := 0%Z |}.
(** A server on which the status of the conflicting export cannot be found any
    more: it was deleted between the list and the update. *)
Definition serveGone X (e : eff X) : world → X * world :=
  match e in eff X return world → X * world with
  | EStatusUpdate Hub KInternalServiceExport o => λ w,
      match verdictOf (util := Reference.util) o with
      | Some true => (inl errNotFound, w)
      | _ => serve index _ (EStatusUpdate Hub KInternalServiceExport o) w
      end
  | e => serve index _ e
  end.
Definition statusAfter (h : ∀ X, eff X → world → X * world)
    : outcome (Result * option error) * option ServiceImportStatus :=
  let '(o, w) := run h (Reconcile (util := Reference.util) importName) world0 in
  (o, si_Status <$> w_hub w KServiceImport !! importName).
End Demo.

Lemma Reconcile_follows_resolve_protocol_witness :
  wp (resolveProtocol (util := Reference.util) Demo.importName)
    (Reconcile (util := Reference.util) Demo.importName) nothingKnown
    roundEnds ∧
  (length ∘ sis_Clusters) <$> (Demo.statusAfter (serve Demo.index)).2 = Some 1.
Proof.
  split; [apply (Reconcile_follows_resolve_protocol (laws := Reference.laws))|].
  vm_compute. reflexivity.
Defined.

Lemma classify_partition_witness :
  let items := [Demo.export "bravelion" [Demo.port 80]; Demo.export "smartfish" [Demo.port 81]] in
  (classify (util := Reference.util) items None {| conflict := []; noConflict := [] |}).1 =
    portsOf <$> head (candidates items) ∧
  portsOf <$> head (candidates items) = Some [Demo.port 80].
Proof.
  split; [|vm_compute; reflexivity].
  pose proof (classify_partition (laws := Reference.laws)
    [Demo.export "bravelion" [Demo.port 80]; Demo.export "smartfish" [Demo.port 81]]) as Hp.
  destruct (classify _ _ _) as [resolved change]. exact (proj1 Hp).
Defined.

Lemma conflict_not_found_leaves_unresolved_witness :
  wp (vanishProtocol (util := Reference.util)) (Reconcile (util := Reference.util) Demo.importName)
    nothingSeen givenUp ∧
  Demo.statusAfter Demo.serveGone = (Done (emptyResult, None), Some emptyServiceImportStatus) ∧
  resolvedOf [Demo.export "bravelion" [Demo.port 80]] = Some [Demo.port 80].
Proof.
  split; [apply (conflict_not_found_leaves_unresolved (laws := Reference.laws))|].
  split; vm_compute; reflexivity.
Defined.

End serviceimport.
