(* ===== verification/HubInternalServiceImport.v ===== *)
(** * [pkg/controllers/hub/internalserviceimport]: granting imports

    The hub controller that decides which member cluster may import a Service:
    a claim is recorded in an annotation of the ServiceImport, and the spec of
    the Service is copied to the InternalServiceImport of the claimant. *)

From S2P Require Import Prelude Prog Go Api Fleet Json Azure Effects Deps.
From S2P Require Import Protocols ApiServer ObjectMeta.

Module internalserviceimport.

Definition internalSvcImportCleanupFinalizer := "networking.fleet.azure.com/internalsvcimport-cleanup".
Definition svcImportCleanupFinalizer := "networking.fleet.azure.com/serviceimport-cleanup".
Definition internalSvcImportSvcRefNamespacedNameFieldKey :=
  ".spec.serviceImportReference.namespacedName".
Definition internalSvcImportRetryInterval : Duration := (Second * 2)%Z.

(** ** Operations *)

Definition extractServiceInUseByInfoFromServiceImport (svcImport : ServiceImport)
    : ServiceInUseBy :=
  match map_get (om_Annotations (si_ObjectMeta svcImport))
          ServiceImportAnnotationServiceInUseBy with
  | None => {| MemberClusters := Some ∅ |}
  | Some data => default {| MemberClusters := Some ∅ |} (UnmarshalServiceInUseBy data)
  end.

(** [reflect.DeepEqual] of a struct and a pointer to a struct: values of
    different types are never deeply equal. *)
Definition deepEqualStatusAndPointer (status : ServiceImportStatus)
    (pointee : ServiceImportStatus) : bool := false.

(** [len(m)] and membership of a nil-able map. *)
Definition map_len (m : gomap) : nat := size (default ∅ m).

Section controller.
Context {util : ControllerUtil}.

Definition removeInternalServiceImportCleanupFinalizer (i : InternalServiceImport)
    : IO (option error * InternalServiceImport) :=
  if hasFinalizer i internalSvcImportCleanupFinalizer
  then Update Hub KInternalServiceImport (removeFinalizer i internalSvcImportCleanupFinalizer)
  else mret (None, i).

Definition addInternalServiceImportCleanupFinalizer (i : InternalServiceImport)
    : IO (option error * InternalServiceImport) :=
  if hasFinalizer i internalSvcImportCleanupFinalizer
  then mret (None, i)
  else Update Hub KInternalServiceImport (addFinalizer i internalSvcImportCleanupFinalizer).

Definition annotateServiceImportWithServiceInUseByInfo (svcImport : ServiceImport)
    (svcInUseBy : ServiceInUseBy) : IO (option error * ServiceImport) :=
  let annotations := map_init (om_Annotations (si_ObjectMeta svcImport)) in
  annotations ← map_set annotations ServiceImportAnnotationServiceInUseBy
    (MarshalServiceInUseBy svcInUseBy);
  Update Hub KServiceImport
    (addFinalizer (updMeta (setAnnotations annotations) svcImport) svcImportCleanupFinalizer).

Definition clearServiceInUseByInfoFromServiceImport (svcImport : ServiceImport)
    : IO (option error * ServiceImport) :=
  let annotations := map_delete (om_Annotations (si_ObjectMeta svcImport))
                       ServiceImportAnnotationServiceInUseBy in
  Update Hub KServiceImport
    (removeFinalizer (updMeta (setAnnotations annotations) svcImport) svcImportCleanupFinalizer).

Definition fulfillInternalServiceImport (svcImport : ServiceImport) (i : InternalServiceImport)
    : IO (option error) :=
  if deepEqualStatusAndPointer (isi_Status i) (si_Status svcImport) then mret None
  else
    '(err, _) ← StatusUpdate Hub KInternalServiceImport
       (setInternalImportStatus (si_Status svcImport) i);
    mret err.

Definition clearInternalServiceImportStatus (i : InternalServiceImport)
    : IO (Result * option error) :=
  '(err, i) ← removeInternalServiceImportCleanupFinalizer i;
  match err with
  | Some err => mret (emptyResult, Some err)
  | None =>
      if decide (isi_Status i = emptyServiceImportStatus) then mret (emptyResult, None)
      else
        '(err, _) ← StatusUpdate Hub KInternalServiceImport
           (setInternalImportStatus emptyServiceImportStatus i);
        mret (emptyResult, err)
  end.

Definition withdrawServiceImport (svcImport : ServiceImport) (i : InternalServiceImport)
    : IO (Result * option error) :=
  let clusterNamespace := om_Namespace (isi_ObjectMeta i) in
  let claims := MemberClusters (extractServiceInUseByInfoFromServiceImport svcImport) in
  err ←
    match map_get claims clusterNamespace with
    | None => mret None
    | Some _ =>
        let claims := map_delete claims clusterNamespace in
        if 0 <? map_len claims
        then '(err, _) ← annotateServiceImportWithServiceInUseByInfo svcImport
               {| MemberClusters := claims |};
             mret err
        else '(err, _) ← clearServiceInUseByInfoFromServiceImport svcImport; mret err
    end;
  match err with
  | Some err => mret (emptyResult, Some err)
  | None => '(err, _) ← removeInternalServiceImportCleanupFinalizer i; mret (emptyResult, err)
  end.

(** The claim of a cluster on a Service nobody has claimed. *)
Definition claimServiceImport (svcImport : ServiceImport) (i : InternalServiceImport)
    (svcInUseBy : ServiceInUseBy) (clusterNamespace clusterID : string)
    : IO (Result * option error) :=
  '(err, i) ← addInternalServiceImportCleanupFinalizer i;
  match err with
  | Some err => mret (emptyResult, Some err)
  | None =>
      claims ← map_set (MemberClusters svcInUseBy) clusterNamespace clusterID;
      '(err, svcImport) ← annotateServiceImportWithServiceInUseByInfo svcImport
         {| MemberClusters := claims |};
      match err with
      | Some err => mret (emptyResult, Some err)
      | None => err ← fulfillInternalServiceImport svcImport i; mret (emptyResult, err)
      end
  end.

Definition Reconcile (req : NamespacedName) : IO (Result * option error) :=
  got ← Get Hub KInternalServiceImport req;
  match got with
  | inl err => mret (emptyResult, IgnoreNotFound (Some err))
  | inr i =>
      let ref := isi_ServiceImportReference i in
      got ← Get Hub KServiceImport {| nn_Namespace := ref_Namespace ref; nn_Name := ref_Name ref |};
      match got with
      | inl err => if IsNotFound err then clearInternalServiceImportStatus i
                   else mret (emptyResult, Some err)
      | inr svcImport =>
          if negb (isDeleting (svcImport : ServiceImport)) &&
             bool_decide (sis_Clusters (si_Status svcImport) = [])
          then mret ({| Requeue := false; RequeueAfter := internalSvcImportRetryInterval |}, None)
          else if isDeleting (i : InternalServiceImport) || isDeleting (svcImport : ServiceImport)
          then
            if hasFinalizer (i : InternalServiceImport) internalSvcImportCleanupFinalizer
            then withdrawServiceImport svcImport i
            else mret (emptyResult, None)
          else
          let clusterNamespace := om_Namespace (isi_ObjectMeta i) in
          let clusterID := ref_ClusterID ref in
          let svcInUseBy := extractServiceInUseByInfoFromServiceImport svcImport in
          if 0 <? map_len (MemberClusters svcInUseBy)
          then
            match map_get (MemberClusters svcInUseBy) clusterNamespace with
            | Some _ => err ← fulfillInternalServiceImport svcImport i; mret (emptyResult, err)
            | None => clearInternalServiceImportStatus i
            end
          else claimServiceImport svcImport i svcInUseBy clusterNamespace clusterID
      end
  end.

(** The index function and the map function of [SetupWithManager]: a changed
    ServiceImport enqueues the InternalServiceImports that refer to it. *)
Definition indexImport (i : InternalServiceImport) : list string :=
  [ref_NamespacedName (isi_ServiceImportReference i)].
Definition enqueueFor (svcImport : ServiceImport) : IO (list NamespacedName) :=
  listed ← List Hub KInternalServiceImport
    (MatchingFields [(internalSvcImportSvcRefNamespacedNameFieldKey,
       om_Namespace (si_ObjectMeta svcImport) +:+ "/" +:+ om_Name (si_ObjectMeta svcImport))]);
  match listed with
  | inl _ => mret []
  | inr items => mret ((λ i : InternalServiceImport, objectKey i) <$> items)
  end.
End controller.
(** ** Claims

    The clusters that have claimed a Service, by namespace. *)
Definition claimsOf (si : ServiceImport) : gmap string string :=
  default ∅ (MemberClusters (extractServiceInUseByInfoFromServiceImport si)).

Lemma claimsOf_annotated si m annotations :
  map_get annotations ServiceImportAnnotationServiceInUseBy =
    Some (MarshalServiceInUseBy {| MemberClusters := Some m |}) →
  om_Annotations (si_ObjectMeta si) = annotations → claimsOf si = m.
Proof.
  intros Ha Hsi. unfold claimsOf, extractServiceInUseByInfoFromServiceImport.
  by rewrite Hsi, Ha, Unmarshal_Marshal.
Qed.
Lemma claimsOf_absent si :
  map_get (om_Annotations (si_ObjectMeta si)) ServiceImportAnnotationServiceInUseBy = None →
  claimsOf si = ∅.
Proof. unfold claimsOf, extractServiceInUseByInfoFromServiceImport. by intros ->. Qed.
Lemma claimsOf_annotations si si' :
  om_Annotations (si_ObjectMeta si) = om_Annotations (si_ObjectMeta si') →
  claimsOf si = claimsOf si'.
Proof. unfold claimsOf, extractServiceInUseByInfoFromServiceImport. by intros ->. Qed.
Lemma map_len_claims si :
  map_len (MemberClusters (extractServiceInUseByInfoFromServiceImport si)) = size (claimsOf si).
Proof. done. Qed.
Lemma map_get_claims si ns :
  map_get (MemberClusters (extractServiceInUseByInfoFromServiceImport si)) ns = claimsOf si !! ns.
Proof.
  unfold claimsOf. destruct (MemberClusters _); simpl; [done|by rewrite lookup_empty].
Qed.

(** The annotation is absent, is no JSON, or holds a map. *)
Definition readable (si : ServiceImport) : Prop :=
  MemberClusters (extractServiceInUseByInfoFromServiceImport si) ≠ None.

(** ** The protocol of the controller

    What it knows: the stored InternalServiceImport, whether that had the cleanup
    finalizer when it was read, and the ServiceImport, which may be known not to
    exist. *)
Record knowledge := {
  z_internal : option InternalServiceImport;
  z_had : bool;
  z_import : option (option ServiceImport);
}.
Definition nothingKnown : knowledge := {| z_internal := None; z_had := false; z_import := None |}.
Definition learnInternal (i : InternalServiceImport) (s : knowledge) : knowledge :=
  {| z_internal := Some i; z_had := z_had s; z_import := z_import s |}.
Definition learnRead (i : InternalServiceImport) (s : knowledge) : knowledge :=
  {| z_internal := Some i; z_import := z_import s;
     z_had := bool_decide (internalSvcImportCleanupFinalizer ∈ finalizersOf i) |}.
Definition learnImport (si : option ServiceImport) (s : knowledge) : knowledge :=
  {| z_internal := z_internal s; z_had := z_had s; z_import := Some si |}.

Definition namespaceOf (i : InternalServiceImport) : string := om_Namespace (isi_ObjectMeta i).
Definition importName (i : InternalServiceImport) : NamespacedName :=
  let ref := isi_ServiceImportReference i in
  {| nn_Namespace := ref_Namespace ref; nn_Name := ref_Name ref |}.
Definition hasCleanup (i : InternalServiceImport) : Prop :=
  internalSvcImportCleanupFinalizer ∈ finalizersOf i.

(** The cluster of [i] is known not to have a claim. *)
Definition released (i : InternalServiceImport) (s : knowledge) : Prop :=
  match z_import s with
  | Some None => True
  | Some (Some si) => claimsOf si !! namespaceOf i = None
  | None => False
  end.
Definition granted (i : InternalServiceImport) (s : knowledge) (si : ServiceImport) : Prop :=
  z_import s = Some (Some si) ∧ is_Some (claimsOf si !! namespaceOf i).
(** The ServiceImport exists, and one of the two objects is being deleted. *)
Definition leaving (i : InternalServiceImport) (s : knowledge) : Prop :=
  ∃ si, z_import s = Some (Some si) ∧ isDeleting i || isDeleting si = true.

(** A change of the claims: the first claim on a resolved Service, or the
    withdrawal of one's own. *)
Definition mayClaim (i : InternalServiceImport) (si o : ServiceImport) : Prop :=
  isDeleting i = false ∧ isDeleting si = false ∧ hasCleanup i ∧
  sis_Clusters (si_Status si) ≠ [] ∧ claimsOf si = ∅ ∧
  claimsOf o = {[namespaceOf i := ref_ClusterID (isi_ServiceImportReference i)]} ∧
  svcImportCleanupFinalizer ∈ finalizersOf o.
Definition mayWithdraw (i : InternalServiceImport) (si o : ServiceImport) : Prop :=
  (isDeleting i = true ∨ isDeleting si = true) ∧ is_Some (claimsOf si !! namespaceOf i) ∧
  claimsOf o = delete (namespaceOf i) (claimsOf si) ∧
  (svcImportCleanupFinalizer ∉ finalizersOf o → claimsOf o = ∅).

Definition claimProtocol (req : NamespacedName) : protocol eff knowledge := {|
  allowed X c s :=
    match c with
    | EGet Hub KInternalServiceImport key => key = req
    | EGet Hub KServiceImport key => ∃ i, z_internal s = Some i ∧ key = importName i
    | EUpdate Hub KServiceImport o =>
        ∃ i si, z_internal s = Some i ∧ z_import s = Some (Some si) ∧
          basedOn si o ∧ si_Status o = si_Status si ∧ readable o ∧
          (mayClaim i si o ∨ mayWithdraw i si o)
    | EUpdate Hub KInternalServiceImport o =>
        ∃ i, z_internal s = Some i ∧ objectKey o = req ∧ basedOn i o ∧
          (hasCleanup i → hasCleanup o ∨ released i s)
    | EStatusUpdate Hub KInternalServiceImport o =>
        ∃ i, z_internal s = Some i ∧ objectKey o = req ∧ objectMeta o = objectMeta i ∧ ¬ leaving i s ∧
          (isi_Status o = emptyServiceImportStatus ∧ released i s ∨
           ∃ si, granted i s si ∧ isi_Status o = si_Status si)
    | _ => False
    end;
  answer X c s := λ x, serverAnswer c x ∧
    (match c in eff X return X → Prop with
     | EGet Hub KServiceImport key => λ r,
         match r with
         | inr si => readable si
         | inl _ => True
         end
     (* updates leave the status, the spec and the deletion mark alone *)
     | EUpdate Hub KServiceImport o => λ r,
         match r with
         | inr o' => si_Status o' = si_Status o ∧ isDeleting o' = isDeleting o
         | inl _ => True
         end
     | EUpdate Hub KInternalServiceImport o => λ r,
         match r with
         | inr o' => isi_ServiceImportReference o' = isi_ServiceImportReference o ∧
                     isDeleting o' = isDeleting o
         | inl _ => True
         end
     | EStatusUpdate Hub KInternalServiceImport o => λ r,
         match r with inr o' => isDeleting o' = isDeleting o | inl _ => True end
     | _ => λ _, True
     end) x;
  next X c :=
    match c in eff X return X → knowledge → knowledge with
    | EGet Hub KInternalServiceImport key => λ r s,
        match r with inr i => learnRead i s | inl _ => s end
    | EUpdate Hub KInternalServiceImport o => λ r s,
        match r with inr i => learnInternal i s | inl _ => s end
    | EStatusUpdate Hub KInternalServiceImport o => λ r s,
        match r with inr i => learnInternal i s | inl _ => s end
    | EGet Hub KServiceImport key => λ r s,
        match r with
        | inr si => learnImport (Some si) s
        | inl err => if IsNotFound err then learnImport None s else s
        end
    | EUpdate Hub KServiceImport o => λ r s,
        match r with inr si => learnImport (Some si) s | inl _ => s end
    | _ => λ _ s, s
    end |}.


Section safety.
Context {util : ControllerUtil} {laws : ControllerUtilLaws}.
Context (req : NamespacedName).
Local Abbreviation P := (claimProtocol req).

(** The InternalServiceImport in hand is the stored one. *)
Definition holds (i : InternalServiceImport) (s : knowledge) : Prop :=
  z_internal s = Some i ∧ objectKey i = req.

Lemma namespaceOf_key i i' : objectKey i' = objectKey i → namespaceOf i' = namespaceOf i.
Proof. intros Hk. by injection Hk. Qed.

(** What a finished round leaves behind. *)
Definition cleared (i : InternalServiceImport) : Prop :=
  ¬ hasCleanup i ∧ isi_Status i = emptyServiceImportStatus.
Definition settled (s : knowledge) : Prop :=
  match z_internal s, z_import s with
  | None, _ => True
  | Some i, None => False
  | Some i, Some None => cleared i
  | Some i, Some (Some si) =>
      if isDeleting i || isDeleting si then ¬ hasCleanup i ∧ (z_had s = true → released i s)
      else match claimsOf si !! namespaceOf i with
           | Some _ => isi_Status i = si_Status si
           | None => cleared i
           end
  end.
(** The ServiceImport is not resolved yet. *)
Definition unresolved (s : knowledge) : Prop :=
  ∃ si, z_import s = Some (Some si) ∧ isDeleting si = false ∧ sis_Clusters (si_Status si) = [].
Definition roundEnds (x : Result * option error) (s : knowledge) : Prop :=
  Requeue x.1 = false ∧
  (RequeueAfter x.1 = internalSvcImportRetryInterval ∧ x.2 = None ∧ unresolved s ∨
   RequeueAfter x.1 = 0%Z ∧ (x.2 = None → settled s)).
Lemma ends_failed err s : roundEnds (emptyResult, Some err) s.
Proof. split; [done|]. by right. Qed.
Lemma ends_settled s : settled s → roundEnds (emptyResult, None) s.
Proof. split; [done|]. by right. Qed.
Hint Resolve ends_failed ends_settled : core.

Lemma released_import i i' s s' :
  z_import s' = z_import s → namespaceOf i' = namespaceOf i → released i s → released i' s'.
Proof. unfold released. by intros -> ->. Qed.

Lemma removeInternalServiceImportCleanupFinalizer_wp i s :
  holds i s → released i s →
  wp P (removeInternalServiceImportCleanupFinalizer i) s (λ x s',
    x.1 = None → holds x.2 s' ∧ ¬ hasCleanup x.2 ∧ z_import s' = z_import s ∧
      namespaceOf x.2 = namespaceOf i ∧ isDeleting x.2 = isDeleting i).
Proof.
  intros [Hi Hk] Hr. unfold removeInternalServiceImportCleanupFinalizer.
  destruct (hasFinalizer i _) eqn:Hf.
  - apply wp_Update.
    { exists i. split; [done|]. split; [rewrite <-Hk; apply (removeFinalizer_key (T := InternalServiceImport))|].
      split; [apply (basedOn_removeFinalizer (T := InternalServiceImport))|]. by right. }
    intros [err|i'] [Hm Ha]; [done|]. intros _. simpl in i', Ha.
    destruct (removeFinalizer_stored i i' internalSvcImportCleanupFinalizer) as [Hno Hkey]; [exact Hm|].
    split; [split; [done|simpl; by rewrite Hkey]|]. split; [exact Hno|]. split; [done|].
    split; [by apply namespaceOf_key|]. simpl. destruct Ha as [_ ->].
    apply (removeFinalizer_deleting (T := InternalServiceImport)).
  - apply wp_ret. intros _. apply hasFinalizer_false in Hf. by repeat split.
Qed.

Lemma clearInternalServiceImportStatus_wp i s :
  holds i s → released i s → (∀ si, z_import s = Some (Some si) → isDeleting i || isDeleting si = false) →
  wp P (clearInternalServiceImportStatus i) s roundEnds.
Proof.
  intros Hh Hr Hlive. apply wp_bind.
  eapply wp_mono; [by apply removeInternalServiceImportCleanupFinalizer_wp|].
  intros [[err|] i'] s' Hok; [by apply wp_ret|].
  destruct (Hok eq_refl) as ([Hi' Hk'] & Hno & Hs' & Hns & Hdel). simpl in *.
  assert (released i' s') as Hr' by (by eapply released_import).
  assert (∀ i'' s'', isDeleting i'' = isDeleting i' → namespaceOf i'' = namespaceOf i' →
    z_internal s'' = Some i'' → z_import s'' = z_import s' → cleared i'' → settled s'') as Hend.
  { intros i'' s'' Hd Hn Hi Hsi Hc. unfold settled. rewrite Hi, Hsi.
    unfold released in Hr'. destruct (z_import s') as [[si|]|]; [|done|done].
    rewrite Hd, Hdel, Hlive by done. by rewrite Hn, Hr'. }
  case_decide as Hst.
  - by apply wp_ret, ends_settled, (Hend i').
  - apply wp_bind, wp_StatusUpdate; 
    [exists i'; split; [done|]; split; [exact Hk'|]; split; [done|]; split; [|by left]|].
    { intros (si & Hsi & Hl). rewrite Hs' in Hsi. by rewrite Hdel, (Hlive si) in Hl. }
    intros [err|i''] [[Hm Hz] Hd]; simpl in *; [by apply wp_ret|].
    apply wp_ret, ends_settled. specialize (Hz i''). apply (f_equal isi_Status) in Hz. simpl in Hz.
    apply (Hend i''); [done| |done|done|].
    + by destruct Hm as (_ & ? & _).
    + split; [|done]. unfold hasCleanup. by rewrite (sameMeta_finalizers i' i'').
Qed.

Lemma fulfillInternalServiceImport_wp si i s :
  holds i s → granted i s si → isDeleting i || isDeleting si = false →
  wp P (fulfillInternalServiceImport si i ≫= λ err, mret (emptyResult, err)) s roundEnds.
Proof.
  intros [Hi Hk] [Hsi Hg] Hlive. apply wp_bind. unfold fulfillInternalServiceImport. simpl.
  apply wp_bind, wp_StatusUpdate.
  { exists i. split; [done|]. split; [exact Hk|]. split; [done|]. split; [|right; by exists si].
    intros (si' & Hsi' & Hl). rewrite Hsi in Hsi'. injection Hsi' as <-. by rewrite Hlive in Hl. }
  intros [err|i'] [[Hm Hz] Hd]; simpl in *; do 2 apply wp_ret; [done|]. apply ends_settled.
  unfold settled. simpl. rewrite Hsi.
  replace (isDeleting i') with (isDeleting i) by (symmetry; exact Hd). rewrite Hlive.
  assert (namespaceOf i' = namespaceOf i) as -> by (by destruct Hm as (_ & ? & _)).
  destruct Hg as [x ->]. specialize (Hz i'). by apply (f_equal isi_Status) in Hz.
Qed.


(** The objects the claims are written with. *)
Definition annotated (si : ServiceImport) (m : gmap string string) : ServiceImport :=
  addFinalizer (updMeta (setAnnotations (Some (<[ServiceImportAnnotationServiceInUseBy :=
    MarshalServiceInUseBy {| MemberClusters := Some m |}]>
      (default ∅ (om_Annotations (si_ObjectMeta si)))))) si) svcImportCleanupFinalizer.
Definition unannotated (si : ServiceImport) : ServiceImport :=
  removeFinalizer (updMeta (setAnnotations (map_delete (om_Annotations (si_ObjectMeta si))
    ServiceImportAnnotationServiceInUseBy)) si) svcImportCleanupFinalizer.

Lemma claimsOf_of_annotated si m : claimsOf (annotated si m) = m.
Proof. refine (claimsOf_annotated (annotated si m) m _ _ eq_refl). apply lookup_insert_eq. Qed.
Lemma claimsOf_of_unannotated si : claimsOf (unannotated si) = ∅.
Proof. apply claimsOf_absent, map_get_delete_eq. Qed.
Lemma readable_annotated si m : readable (annotated si m).
Proof.
  unfold readable, extractServiceInUseByInfoFromServiceImport.
  rewrite (lookup_insert_eq (default ∅ (om_Annotations (si_ObjectMeta si)))
    ServiceImportAnnotationServiceInUseBy _ : map_get (om_Annotations (si_ObjectMeta (annotated si m))) _ = _).
  by rewrite Unmarshal_Marshal.
Qed.
Lemma readable_unannotated si : readable (unannotated si).
Proof.
  unfold readable, extractServiceInUseByInfoFromServiceImport.
  by rewrite (map_get_delete_eq _ _ : map_get (om_Annotations (si_ObjectMeta (unannotated si))) _ = None).
Qed.
Lemma claimsOf_sameMeta si si' :
  sameMeta (si_ObjectMeta si) (si_ObjectMeta si') → claimsOf si' = claimsOf si.
Proof. intros (_ & _ & _ & Ha & _). by apply claimsOf_annotations. Qed.

(** Writing the claims: afterwards the known ServiceImport is the written one,
    up to what the server sets. *)
Lemma writeClaims_wp i si o s :
  holds i s → z_import s = Some (Some si) → basedOn si o →
  si_Status o = si_Status si → readable o →
  mayClaim i si o ∨ mayWithdraw i si o →
  wp P (Update Hub KServiceImport o) s (λ x s',
    x.1 = None → holds i s' ∧ z_import s' = Some (Some x.2) ∧ claimsOf x.2 = claimsOf o ∧
      si_Status x.2 = si_Status si ∧ isDeleting x.2 = isDeleting si).
Proof.
  intros [Hi Hk] Hsi Hbase Hst Hread Hmay. apply wp_Update; [by exists i, si|].
  intros [err|si'] [Hm Ha]; [done|]. intros _. simpl in *. destruct Ha as [Hst' Hdel'].
  split; [done|]. split; [done|]. split; [by apply claimsOf_sameMeta|]. split; [congruence|].
  rewrite Hdel'. by apply basedOn_deleting.
Qed.

Lemma annotateClaims_wp si m s Q :
  wp P (Update Hub KServiceImport (annotated si m)) s Q →
  wp P (annotateServiceImportWithServiceInUseByInfo si {| MemberClusters := Some m |}) s Q.
Proof. done. Qed.

(** The claim is gone, and the ServiceImport that was read is still one to withdraw
    from. *)
Definition withdrawn i (s : knowledge) : Prop :=
  holds i s ∧ released i s ∧
  ∃ si', z_import s = Some (Some si') ∧ isDeleting i || isDeleting si' = true.
Lemma writeWithdrawal_wp si i o s :
  holds i s → z_import s = Some (Some si) → isDeleting i || isDeleting si = true →
  is_Some (claimsOf si !! namespaceOf i) → claimsOf o = delete (namespaceOf i) (claimsOf si) →
  basedOn si o → si_Status o = si_Status si → readable o →
  (svcImportCleanupFinalizer ∉ finalizersOf o → claimsOf o = ∅) →
  wp P ('(err, _) ← Update Hub KServiceImport o; mret err) s (λ err s', err = None → withdrawn i s').
Proof.
  intros Hh Hsi Hdel Hc Ho Hk Hst Hd Hf. apply wp_bind. eapply wp_mono.
  { apply (writeClaims_wp i si o); [done..|]. right. split; [by apply orb_true_iff|]. by eauto. }
  intros [err si'] s' Hok. apply wp_ret. intros ->.
  destruct (Hok eq_refl) as (Hh' & Hsi' & Hcl' & _ & Hd'). split; [done|]. split.
  - unfold released. rewrite Hsi', Hcl', Ho. apply lookup_delete_eq.
  - exists si'. split; [done|]. simpl in Hd'. by rewrite Hd'.
Qed.
Lemma withdrawServiceImport_wp si i s :
  holds i s → z_import s = Some (Some si) → isDeleting i || isDeleting si = true →
  wp P (withdrawServiceImport si i) s roundEnds.
Proof.
  intros Hh Hsi Hdel. unfold withdrawServiceImport. apply wp_bind.
  apply (wp_mono _ _ _ (λ err s', err = None → withdrawn i s')).
  { fold (namespaceOf i). rewrite map_get_claims.
    destruct (claimsOf si !! namespaceOf i) as [x|] eqn:Hc.
    2: { apply wp_ret. intros _. unfold withdrawn, released. rewrite Hsi. by eauto. }
    pose proof Hc as Hc'. unfold claimsOf in Hc.
    destruct (MemberClusters _) as [m|] eqn:Hm; [simpl in Hc|done].
    assert (claimsOf si = m) as Hcl by (unfold claimsOf; by rewrite Hm). clear Hm.
    change (map_delete (Some m) (namespaceOf i)) with (Some (delete (namespaceOf i) m)).
    destruct (0 <? map_len _) eqn:Hlen.
    - apply (writeWithdrawal_wp si i (annotated si (delete (namespaceOf i) m))); try done.
      + rewrite Hcl. apply claimsOf_of_annotated.
      + apply readable_annotated.
      + intros []. apply (addFinalizer_has (T := ServiceImport)).
    - assert (delete (namespaceOf i) m = ∅) as Hempty.
      { apply map_size_empty_iff. apply Nat.ltb_ge in Hlen. unfold map_len in Hlen. simpl in Hlen. lia. }
      apply (writeWithdrawal_wp si i (unannotated si)); try done.
      + by rewrite claimsOf_of_unannotated, Hcl, Hempty.
      + apply readable_unannotated.
      + intros _. apply claimsOf_of_unannotated. }
  intros [err|] s' Hok; [by apply wp_ret|].
  destruct (Hok eq_refl) as (Hh' & Hr & si' & Hsi' & Hd'). apply wp_bind.
  eapply wp_mono; [by apply removeInternalServiceImportCleanupFinalizer_wp|].
  intros [[err|] i'] s'' Hend; apply wp_ret; [done|]. apply ends_settled. simpl in Hend.
  destruct (Hend eq_refl) as ([Hi _] & Hno & Hs'' & Hns & Hdi). unfold settled.
  rewrite Hi, Hs'', Hsi', Hdi, Hd'. split; [done|]. intros _. by eapply released_import.
Qed.

Lemma claimServiceImport_wp si i s :
  holds i s → z_import s = Some (Some si) → isDeleting i || isDeleting si = false →
  sis_Clusters (si_Status si) ≠ [] → claimsOf si = ∅ →
  MemberClusters (extractServiceInUseByInfoFromServiceImport si) ≠ None →
  wp P (claimServiceImport si i (extractServiceInUseByInfoFromServiceImport si)
          (namespaceOf i) (ref_ClusterID (isi_ServiceImportReference i))) s roundEnds.
Proof.
  intros [Hi Hk] Hsi [Hdi Hds]%orb_false_iff Hres Hnone Hsome. unfold claimServiceImport.
  apply wp_bind.
  apply (wp_mono _ _ _ (λ x s', x.1 = None → holds x.2 s' ∧ hasCleanup x.2 ∧
    z_import s' = Some (Some si) ∧ isDeleting x.2 = false ∧ namespaceOf x.2 = namespaceOf i ∧
    isi_ServiceImportReference x.2 = isi_ServiceImportReference i)).
  { unfold addInternalServiceImportCleanupFinalizer. destruct (hasFinalizer i _) eqn:Hf.
    { apply wp_ret. intros _. apply hasFinalizer_spec in Hf. by repeat split. }
    apply wp_Update.
    { exists i. split; [done|]. split; [rewrite <-Hk; apply (addFinalizer_key (T := InternalServiceImport))|].
      split; [apply (basedOn_addFinalizer (T := InternalServiceImport))|]. intros _. left. apply (addFinalizer_has (T := InternalServiceImport)). }
    intros [err|i'] [Hm Ha]; [done|]. intros _. simpl in *.
    destruct (addFinalizer_stored i i' internalSvcImportCleanupFinalizer) as [Hhas Hkey]; [exact Hm|].
    destruct Ha as [Href Hd]. split; [split; [done|by rewrite Hkey]|]. split; [exact Hhas|].
    split; [done|]. split; [|split; [by apply namespaceOf_key|done]].
    rewrite Hd. rewrite (addFinalizer_deleting (T := InternalServiceImport)). exact Hdi. }
  intros [[err|] i'] s' Hok; [by apply wp_ret|]. simpl in Hok.
  destruct (Hok eq_refl) as (Hh' & Hhas & Hsi' & Hdi' & Hns & Href). clear Hok.
  unfold claimsOf in Hnone. destruct (MemberClusters _) as [m|] eqn:Hm; [|done].
  simpl in Hnone. subst m. apply wp_bind, wp_ret.
  assert (claimsOf si = ∅) as Hcl by (unfold claimsOf; by rewrite Hm).
  set (claims := <[_ := _]> ∅).
  apply wp_bind, annotateClaims_wp. eapply wp_mono.
  { apply (writeClaims_wp i' si (annotated si claims)); [done..|apply readable_annotated|left].
    do 5 (split; [done|]). split; [|apply (addFinalizer_has (T := ServiceImport))].
    by rewrite claimsOf_of_annotated, Hns, Href. }
  intros [[err|] si'] s2 Hok; [by apply wp_ret|].
  destruct (Hok eq_refl) as (Hh2 & Hsi2 & Hcl2 & Hst2 & Hd2). simpl in *.
  apply fulfillInternalServiceImport_wp; [done| |by rewrite Hdi', Hd2].
  split; [done|]. rewrite Hcl2, claimsOf_of_annotated, Hns. subst claims.
  rewrite lookup_insert_eq. by eexists.
Qed.

Lemma claim_round_wp : wp P (Reconcile req) nothingKnown roundEnds.
Proof.
  apply wp_bind, wp_Get; [done|]. intros [err|i] [Hget _]; simpl.
  { apply wp_ret. unfold IgnoreNotFound. destruct (IsNotFound err); [by apply ends_settled|done]. }
  simpl in i, Hget. apply wp_bind, wp_Get; [by exists i|].
  intros [err|si] [_ Hsome]; simpl in *.
  { destruct (IsNotFound err) eqn:Hnf; [|by apply wp_ret].
    by apply clearInternalServiceImportStatus_wp. }
  destruct (negb _ && _) eqn:Hwait.
  { apply wp_ret. split; [done|]. left. apply andb_true_iff in Hwait as [?%negb_true_iff ?%bool_decide_eq_true].
    by repeat split; exists si. }
  destruct (isDeleting i || isDeleting si) eqn:Hdel.
  { destruct (hasFinalizer i _) eqn:Hf; [by apply withdrawServiceImport_wp|].
    apply wp_ret, ends_settled. unfold settled. simpl. rewrite Hdel. apply hasFinalizer_false in Hf.
    split; [done|]. by rewrite bool_decide_false. }
  rewrite map_len_claims. fold (namespaceOf i). rewrite map_get_claims.
  destruct (0 <? size (claimsOf si)) eqn:Hlen.
  - destruct (claimsOf si !! namespaceOf i) eqn:Hmine.
    + apply fulfillInternalServiceImport_wp; [done| |done]. split; [done|]. by rewrite Hmine.
    + apply clearInternalServiceImportStatus_wp; [done|exact Hmine|]. by intros ? [= <-].
  - apply claimServiceImport_wp; [done|done|done| | |exact Hsome].
    + apply orb_false_iff in Hdel as [_ Hd]. rewrite Hd in Hwait. simpl in Hwait.
      by apply bool_decide_eq_false in Hwait.
    + apply map_size_empty_iff. apply Nat.ltb_ge in Hlen. lia.
Qed.


End safety.


(** ** The annotation of the claims *)

(** C36: the claims that are written on a ServiceImport as JSON are the claims
    that are read from it, whatever the names of the clusters are; clearing them
    leaves no claim; either keeps the other annotations and the status. *)
Theorem claims_survive_annotation {util : ControllerUtil} si u :
  let sameElse si' := si_Status si' = si_Status si ∧
    ∀ k, k ≠ ServiceImportAnnotationServiceInUseBy →
      map_get (om_Annotations (si_ObjectMeta si')) k = map_get (om_Annotations (si_ObjectMeta si)) k in
  (∃ si', annotateServiceImportWithServiceInUseByInfo si u = Update Hub KServiceImport si' ∧
     extractServiceInUseByInfoFromServiceImport si' = u ∧ sameElse si') ∧
  (∃ si', clearServiceInUseByInfoFromServiceImport si = Update Hub KServiceImport si' ∧
     extractServiceInUseByInfoFromServiceImport si' = {| MemberClusters := Some ∅ |} ∧ sameElse si').
Proof.
  intros sameElse. split; (eexists; split; [reflexivity|]); split; [|split; [done|]| |split; [done|]].
  - set (si' := addFinalizer _ _). assert (map_get (om_Annotations (si_ObjectMeta si'))
      ServiceImportAnnotationServiceInUseBy = Some (MarshalServiceInUseBy u)) as Hget
      by apply lookup_insert_eq.
    unfold extractServiceInUseByInfoFromServiceImport. by rewrite Hget, Unmarshal_Marshal.
  - intros k Hk. etrans; [by apply lookup_insert_ne|]. simpl. by destruct (om_Annotations _).
  - set (si' := removeFinalizer _ _). assert (map_get (om_Annotations (si_ObjectMeta si'))
      ServiceImportAnnotationServiceInUseBy = None) as Hget.
    { change (om_Annotations (si_ObjectMeta si')) with
        (map_delete (om_Annotations (si_ObjectMeta si)) ServiceImportAnnotationServiceInUseBy).
      destruct (om_Annotations _); [apply lookup_delete_eq|done]. }
    unfold extractServiceInUseByInfoFromServiceImport. by rewrite Hget.
  - intros k Hk. set (si' := removeFinalizer _ _). change (om_Annotations (si_ObjectMeta si')) with
      (map_delete (om_Annotations (si_ObjectMeta si)) ServiceImportAnnotationServiceInUseBy).
    destruct (om_Annotations _); [by apply lookup_delete_ne|done].
Qed.

(** ** A claim on an annotation without a map *)

Section null.
Context {util : ControllerUtil} {W : Type} (h : ∀ X, eff X → W → X * W).

(** C39: let the annotation of a live ServiceImport with clusters be valid JSON
    that holds no map, like an empty object or null, and let a live
    InternalServiceImport refer to it.  Then a round, whatever the servers are,
    panics when it enters the claim: the decoded map is nil and is assigned to.
    It does so right after both objects were read if the InternalServiceImport
    has the cleanup finalizer, and otherwise after the finalizer was added; only
    a failure of that update keeps it from panicking, and is reported. *)
Theorem claim_panics_on_null_annotation req w w1 w2 (i : InternalServiceImport) (si : ServiceImport) data :
  h _ (EGet Hub KInternalServiceImport req) w = (inr i, w1) →
  h _ (EGet Hub KServiceImport (importName i)) w1 = (inr si, w2) →
  isDeleting i = false → isDeleting si = false → sis_Clusters (si_Status si) ≠ [] →
  map_get (om_Annotations (si_ObjectMeta si)) ServiceImportAnnotationServiceInUseBy = Some data →
  UnmarshalServiceInUseBy data = Some {| MemberClusters := None |} →
  run h (Reconcile req) w =
  if hasFinalizer i internalSvcImportCleanupFinalizer
  then (Panicked "assignment to entry in nil map", w2)
  else match h _ (EUpdate Hub KInternalServiceImport
                    (addFinalizer i internalSvcImportCleanupFinalizer)) w2 with
       | (inr _, w3) => (Panicked "assignment to entry in nil map", w3)
       | (inl err, w3) => (Done (emptyResult, Some err), w3)
       end.
Proof.
  intros Hi Hsi Hdi Hdsi Hcl Hann Hdata.
  assert (MemberClusters (extractServiceInUseByInfoFromServiceImport si) = None) as Hnil.
  { unfold extractServiceInUseByInfoFromServiceImport. by rewrite Hann, Hdata. }
  simpl in Hi, Hsi. unfold Reconcile, Get. rewrite run_bind, run_call. simpl obj. rewrite Hi.
  rewrite run_bind, run_call. simpl obj.
  fold (importName i). rewrite Hsi, Hdi, Hdsi, bool_decide_false by done. simpl.
  rewrite Hnil. change (0 <? map_len None) with false. cbv iota.
  unfold claimServiceImport, addInternalServiceImportCleanupFinalizer. rewrite Hnil.
  rewrite run_bind. destruct (hasFinalizer i _); simpl; [done|].
  by destruct (h _ _ w2) as [[err|i'] w3].
Qed.
End null.

(** ** Runs *)

Module Demo.
Definition keyOf (cluster : string) : NamespacedName :=
  {| nn_Namespace := "fleet-member-" +:+ cluster; nn_Name := "work-app" |}.
Definition importKey : NamespacedName := {| nn_Namespace := "work"; nn_Name := "app" |}.
Definition internal (cluster : string) (finalizers : list string) (status : ServiceImportStatus)
    : InternalServiceImport := {|
  isi_TypeMeta := {| tm_Kind := "InternalServiceImport"; tm_APIVersion := "v1alpha1" |};
  isi_ObjectMeta := setFinalizers finalizers
    (newObjectMeta ("fleet-member-" +:+ cluster) "work-app");
  isi_ServiceImportReference := {| ref_ClusterID := cluster; ref_APIVersion := "v1";
    ref_Kind := "ServiceImport"; ref_Namespace := "work"; ref_Name := "app";
    ref_ResourceVersion := "1"; ref_Generation := 1; ref_UID := "uid";
    ref_NamespacedName := "work/app"; ref_ExportedSince := None |};
  isi_Status := status |}.
Definition resolved : ServiceImportStatus := {|
  sis_IPs := []; sis_Type := ClusterSetIP; sis_SessionAffinity := "";
  sis_SessionAffinityConfig := None; sis_Ports := [];
  sis_Clusters := [{| cs_Cluster := "smartfish" |}] |}.
Definition import (annotations : gomap) : ServiceImport := {|
  si_TypeMeta := {| tm_Kind := "ServiceImport"; tm_APIVersion := "v1alpha1" |};
  si_ObjectMeta := setAnnotations annotations (newObjectMeta "work" "app");
  si_Status := resolved |}.
Definition world0 (annotations : gomap) (i : InternalServiceImport) : world := {|
  w_member := emptyStore;
  w_hub := storeAlter KServiceImport <[importKey := import annotations]>
             (storeAlter KInternalServiceImport <[objectKey i := i]> emptyStore);
  w_version := 1; w_clock := 0%Z |}.
(** An annotation that is null. *)
Definition nullWorld : world :=
  world0 (Some {[ServiceImportAnnotationServiceInUseBy := "null"]})
    (internal "bravelion" [] emptyServiceImportStatus).
Definition round (cluster : string) : world → outcome (Result * option error) * world :=
  run (serve (λ _ _ _, [])) (Reconcile (util := Reference.util) (keyOf cluster)).
(** The servers, with a count of the status updates. *)
Definition counting X (e : eff X) (w : world * nat) : X * (world * nat) :=
  let '(x, w') := serve (λ _ _ _, []) X e w.1 in
  (x, (w', match e with EStatusUpdate _ _ _ => S w.2 | _ => w.2 end)).
(** The claims and the copied status after one round. *)
Definition after (cluster : string) (w : world)
    : option (gmap string string) * option ServiceImportStatus :=
  let w := (round cluster w).2 in
  (claimsOf <$> w_hub w KServiceImport !! importKey,
   isi_Status <$> w_hub w KInternalServiceImport !! keyOf cluster).
Definition claimed (cluster : string) : gomap :=
  Some {[ServiceImportAnnotationServiceInUseBy :=
    MarshalServiceInUseBy {| MemberClusters := Some {["fleet-member-" +:+ cluster := cluster]} |}]}.
End Demo.


Lemma claim_panics_on_null_annotation_witness :
  (Demo.round "bravelion" Demo.nullWorld).1 = Panicked "assignment to entry in nil map" ∧
  UnmarshalServiceInUseBy "{}" = Some {| MemberClusters := None |}.
Proof.
  split; [|vm_compute; reflexivity]. unfold Demo.round.
  rewrite (claim_panics_on_null_annotation (util := Reference.util) (serve (λ _ _ _, []))
    (Demo.keyOf "bravelion") Demo.nullWorld Demo.nullWorld Demo.nullWorld
    (Demo.internal "bravelion" [] emptyServiceImportStatus)
    (Demo.import (Some {[ServiceImportAnnotationServiceInUseBy := "null"]})) "null");
    [vm_compute; reflexivity|reflexivity|reflexivity|reflexivity|reflexivity|discriminate
    |vm_compute; reflexivity|vm_compute; reflexivity].
Defined.

(** The status is written again although it is the stored one: a struct is
    compared with a pointer. *)
Theorem fulfillment_is_never_skipped :
  let w := Demo.world0 (Demo.claimed "bravelion")
             (Demo.internal "bravelion" [internalSvcImportCleanupFinalizer] Demo.resolved) in
  let '(o, (_, writes)) := run Demo.counting
    (Reconcile (util := Reference.util) (Demo.keyOf "bravelion")) (w, 0) in
  o = Done (emptyResult, None) ∧ writes = 1.
Proof. vm_compute. by split. Qed.

End internalserviceimport.
