(* ===== verification/HubEndpointSliceExport.v ===== *)
(** * [pkg/controllers/hub/endpointsliceexport]: distributing EndpointSlices

    The hub controller that hands an exported EndpointSlice to the member
    clusters that have imported its Service, as one EndpointSliceImport in the
    namespace of each of them, and withdraws it from the others. *)

From S2P Require Import Prelude Prog Go Api Fleet Json Azure Effects Deps.
From S2P Require Import Protocols ApiServer ObjectMeta ApiRetry.

Module endpointsliceexport.

Definition endpointSliceExportCleanupFinalizer :=
  "networking.fleet.azure.com/endpointsliceexport-cleanup".
Definition endpointSliceImportNameFieldKey := ".metadata.name".
Definition endpointSliceExportOwnerSvcNamespacedNameFieldKey :=
  ".spec.ownerServiceReference.namespacedName".
Definition endpointSliceExportRetryInterval : Duration := (Second * 5)%Z.

Definition endpointSliceImportIndexerFunc (o : EndpointSliceImport) : list string :=
  [om_Name (esi_ObjectMeta o)].
Definition endpointSliceExportIndexerFunc (o : EndpointSliceExport) : list string :=
  [osr_NamespacedName (ese_OwnerServiceReference (ese_Spec o))].

(** The EndpointSliceImports that carry the name of the export. *)
Definition sameName (e : EndpointSliceExport) : ListOptions :=
  MatchingFields [(endpointSliceImportNameFieldKey, om_Name (ese_ObjectMeta e))].

(** The first loop of [scanForEndpointSliceImports]: what to withdraw, what to
    update, and the claims that are left. *)
Fixpoint matchImports (items : list EndpointSliceImport) (claims : gomap)
    (withdraw update : list EndpointSliceImport)
    : list EndpointSliceImport * list EndpointSliceImport * gomap :=
  match items with
  | [] => (withdraw, update, claims)
  | i :: items =>
      let nsKey := om_Namespace (esi_ObjectMeta i) in
      match map_get claims nsKey with
      | Some _ => matchImports items (map_delete claims nsKey) withdraw (update ++ [i])
      | None => matchImports items claims (withdraw ++ [i]) update
      end
  end.

(** [&EndpointSliceImport{ObjectMeta: {Namespace: ns, Name: name}}]. *)
Definition newImport (ns name : string) : EndpointSliceImport := {|
  esi_TypeMeta := {| tm_Kind := ""; tm_APIVersion := "" |};
  esi_ObjectMeta := newObjectMeta ns name; esi_Spec := emptySliceSpec |}.

(** ** Operations *)

Section controller.
Context {util : ControllerUtil}.

Definition removeEndpointSliceExportCleanupFinalizer (e : EndpointSliceExport)
    : IO (option error * EndpointSliceExport) :=
  Update Hub KEndpointSliceExport (removeFinalizer e endpointSliceExportCleanupFinalizer).

Definition addEndpointSliceExportCleanupFinalizer (e : EndpointSliceExport)
    : IO (option error * EndpointSliceExport) :=
  Update Hub KEndpointSliceExport (addFinalizer e endpointSliceExportCleanupFinalizer).

(** A deletion with retries; [None] when it was accepted or there is no object. *)
Definition withdraw (i : EndpointSliceImport) : IO (option error) :=
  err ← DoPure (Delete Hub KEndpointSliceImport i);
  mret (IgnoreNotFound err).

Definition withdrawAllEndpointSliceImports (e : EndpointSliceExport) : IO (option error) :=
  listed ← List Hub KEndpointSliceImport (sameName e);
  match listed with
  | inl err => mret (Some err)
  | inr items =>
      r ← for_range (λ i _,
            err ← withdraw i;
            mret (match err with Some err => inl err | None => inr tt end)) items tt;
      match r with
      | inl err => mret (Some err)
      | inr _ => '(err, _) ← removeEndpointSliceExportCleanupFinalizer e; mret err
      end
  end.

Definition scanForEndpointSliceImports (e : EndpointSliceExport) (svcInUseBy : ServiceInUseBy)
    : IO (error + (list EndpointSliceImport * list EndpointSliceImport)) :=
  listed ← List Hub KEndpointSliceImport (sameName e);
  match listed with
  | inl err => mret (inl err)
  | inr items =>
      let '(toWithdraw, toCreateOrUpdate, claims) :=
        matchImports items (MemberClusters svcInUseBy) [] [] in
      left ← rangeMap (default ∅ claims);
      mret (inr (toWithdraw, toCreateOrUpdate ++
        ((λ '(ns, _), newImport ns (om_Name (ese_ObjectMeta e))) <$> left)))
  end.

(** The loop that deletes what is no longer needed. *)
Definition withdrawUnneeded (items : list EndpointSliceImport) : IO (error + unit) :=
  for_range (λ i _,
    if isDeleting (i : EndpointSliceImport) then mret (inr tt)
    else err ← withdraw i;
         mret (match err with Some err => inl err | None => inr tt end)) items tt.

(** The loop that creates and updates. *)
Definition distribute (e : EndpointSliceExport) (items : list EndpointSliceImport)
    : IO (error + unit) :=
  for_range (λ i _,
    '(err, _) ← Do (λ i : EndpointSliceImport, CreateOrUpdate Hub KEndpointSliceImport i
                      (λ i, mret (None, setSliceImportSpec (ese_Spec e) i))) i;
    mret (match err with Some err => inl err | None => inr tt end)) items tt.

Definition Reconcile (req : NamespacedName) : IO (Result * option error) :=
  got ← Get Hub KEndpointSliceExport req;
  match got with
  | inl err => mret (emptyResult, IgnoreNotFound (Some err))
  | inr e =>
      if isDeleting (e : EndpointSliceExport)
      then
        if hasFinalizer (e : EndpointSliceExport) endpointSliceExportCleanupFinalizer
        then err ← withdrawAllEndpointSliceImports e; mret (emptyResult, err)
        else mret (emptyResult, None)
      else
      let owner := ese_OwnerServiceReference (ese_Spec e) in
      got ← Get Hub KServiceImport {| nn_Namespace := osr_Namespace owner; nn_Name := osr_Name owner |};
      match got with
      | inl err =>
          if IsNotFound err
          then mret ({| Requeue := false; RequeueAfter := endpointSliceExportRetryInterval |}, None)
          else mret (emptyResult, Some err)
      | inr svcImport =>
          if decide (sis_Clusters (si_Status svcImport) = [])
          then mret ({| Requeue := false; RequeueAfter := endpointSliceExportRetryInterval |}, None)
          else
          match map_get (om_Annotations (si_ObjectMeta svcImport))
                  ServiceImportAnnotationServiceInUseBy with
          | None => err ← withdrawAllEndpointSliceImports e; mret (emptyResult, err)
          | Some data =>
              match UnmarshalServiceInUseBy data with
              | None => mret (emptyResult, None)
              | Some svcInUseBy =>
                  '(err, e) ← (if hasFinalizer (e : EndpointSliceExport) endpointSliceExportCleanupFinalizer
                               then mret (None, e)
                               else addEndpointSliceExportCleanupFinalizer e);
                  match err with
                  | Some err => mret (emptyResult, Some err)
                  | None =>
                      scanned ← scanForEndpointSliceImports e svcInUseBy;
                      match scanned with
                      | inl err => mret (emptyResult, Some err)
                      | inr (toWithdraw, toCreateOrUpdate) =>
                          r ← withdrawUnneeded toWithdraw;
                          match r with
                          | inl err => mret (emptyResult, Some err)
                          | inr _ =>
                              r ← distribute e toCreateOrUpdate;
                              mret (emptyResult, match r with inl err => Some err | inr _ => None end)
                          end
                      end
                  end
              end
          end
      end
  end.

(** The map function of [SetupWithManager]. *)
Definition enqueueFor (svcImport : ServiceImport) : IO (list NamespacedName) :=
  listed ← List Hub KEndpointSliceExport
    (MatchingFields [(endpointSliceExportOwnerSvcNamespacedNameFieldKey,
       om_Namespace (si_ObjectMeta svcImport) +:+ "/" +:+ om_Name (si_ObjectMeta svcImport))]);
  match listed with
  | inl _ => mret []
  | inr items => mret ((λ e : EndpointSliceExport, objectKey e) <$> items)
  end.
End controller.

(** ** What the scan computes *)

Definition namespaceOf (i : EndpointSliceImport) : string := om_Namespace (esi_ObjectMeta i).
Definition claimed (claims : gomap) (i : EndpointSliceImport) : Prop :=
  is_Some (map_get claims (namespaceOf i)).
#[export] Instance claimed_dec claims i : Decision (claimed claims i).
Proof. unfold claimed. apply _. Defined.

Lemma matchImports_acc items claims withdraw update :
  matchImports items claims withdraw update =
  let '(w, u, c) := matchImports items claims [] [] in (withdraw ++ w, update ++ u, c).
Proof.
  revert claims withdraw update. induction items as [|i items IH]; intros; simpl.
  - by rewrite !app_nil_r.
  - destruct (map_get _ _).
    + rewrite IH, (IH _ [] [i]). destruct (matchImports _ _ _ _) as [[w u] c]. simpl.
      by rewrite <-app_assoc.
    + rewrite IH, (IH _ [i] []). destruct (matchImports _ _ _ _) as [[w u] c]. simpl.
      by rewrite <-app_assoc.
Qed.

(** When no two of the listed EndpointSliceImports are in the same
    namespace, the scan withdraws those in namespaces without a claim, updates
    those in namespaces with one, and leaves the claims of the namespaces that
    have no EndpointSliceImport yet. *)
Lemma matchImports_partition items claims :
  NoDup (namespaceOf <$> items) →
  ∃ left, matchImports items claims [] [] =
    (filter (λ i, ¬ claimed claims i) items, filter (claimed claims) items, left) ∧
  ∀ ns, map_get left ns = if decide (ns ∈ namespaceOf <$> items) then None else map_get claims ns.
Proof.
  revert claims. induction items as [|i items IH]; intros claims; simpl.
  { intros _. exists claims. split; [done|]. done. }
  intros [Hi Hnd]%NoDup_cons. fold (namespaceOf i).
  assert (∀ claims', (∀ ns, ns ≠ namespaceOf i → map_get claims' ns = map_get claims ns) →
    filter (λ i, ¬ claimed claims' i) items = filter (λ i, ¬ claimed claims i) items ∧
    filter (claimed claims') items = filter (claimed claims) items) as Hext.
  { intros claims' Heq.
    assert (∀ j, j ∈ items → claimed claims' j ↔ claimed claims j) as Hc.
    { intros j Hj. unfold claimed. rewrite Heq; [done|]. intros Hns.
      apply Hi. rewrite <-Hns. by apply list_elem_of_fmap_2. }
    split; apply filter_ext_elem; intros j Hj; by rewrite Hc. }
  destruct (map_get claims (namespaceOf i)) eqn:Hget; rewrite matchImports_acc; cbn [fmap list_fmap].
  - destruct (IH (map_delete claims (namespaceOf i)) Hnd) as (left & -> & Hleft).
    destruct (Hext (map_delete claims (namespaceOf i))) as [-> ->].
    { intros ns Hns. by apply map_get_delete_ne. }
    exists left. rewrite filter_cons_False, filter_cons_True by (unfold claimed; rewrite Hget; naive_solver).
    split; [done|]. intros ns. rewrite Hleft. destruct (decide (ns = namespaceOf i)) as [->|Hne].
    + rewrite (decide_True _ _ (P := namespaceOf i ∈ _ :: _)) by left. rewrite map_get_delete_eq. by case_decide.
    + rewrite map_get_delete_ne by done. by do 2 case_decide; set_solver.
  - destruct (IH claims Hnd) as (left & -> & Hleft). exists left.
    rewrite filter_cons_True, filter_cons_False by (unfold claimed; rewrite Hget; by intros []).
    split; [done|]. intros ns. rewrite Hleft. destruct (decide (ns = namespaceOf i)) as [->|Hne].
    + rewrite Hget. by do 2 case_decide.
    + by do 2 case_decide; set_solver.
Qed.

(** ** The protocol of the controller

    What it knows: the stored export, whether that had the cleanup finalizer when
    it was read, the ServiceImport or that there is none, the listed
    EndpointSliceImports, the keys whose deletion was accepted or that were not
    found, and the keys known to carry the spec of the export (read or written
    with it).  A deleted EndpointSliceImport can still exist, being deleted, until
    the member cluster has removed its own finalizer. *)
Record knowledge := {
  d_export : option EndpointSliceExport;
  d_had : bool;
  d_import : option ServiceImport;
  d_missing : bool;
  d_items : option (list EndpointSliceImport);
  d_deleted : gset NamespacedName;
  d_synced : gset NamespacedName;
}.
Definition nothingKnown : knowledge :=
  {| d_export := None; d_had := false; d_import := None; d_missing := false; d_items := None;
     d_deleted := ∅; d_synced := ∅ |}.
Definition learnExport (e : EndpointSliceExport) (s : knowledge) : knowledge :=
  {| d_export := Some e; d_had := d_had s; d_import := d_import s; d_missing := d_missing s;
     d_items := d_items s; d_deleted := d_deleted s; d_synced := d_synced s |}.
Definition learnRead (e : EndpointSliceExport) (s : knowledge) : knowledge :=
  {| d_export := Some e; d_had := bool_decide (endpointSliceExportCleanupFinalizer ∈ finalizersOf e);
     d_import := d_import s; d_missing := d_missing s;
     d_items := d_items s; d_deleted := d_deleted s; d_synced := d_synced s |}.
Definition learnImport (si : ServiceImport) (s : knowledge) : knowledge :=
  {| d_export := d_export s; d_had := d_had s; d_import := Some si; d_missing := d_missing s;
     d_items := d_items s; d_deleted := d_deleted s; d_synced := d_synced s |}.
Definition learnMissing (s : knowledge) : knowledge :=
  {| d_export := d_export s; d_had := d_had s; d_import := d_import s; d_missing := true;
     d_items := d_items s; d_deleted := d_deleted s; d_synced := d_synced s |}.
Definition learnItems (items : list EndpointSliceImport) (s : knowledge) : knowledge :=
  {| d_export := d_export s; d_had := d_had s; d_import := d_import s; d_missing := d_missing s;
     d_items := Some items; d_deleted := d_deleted s; d_synced := d_synced s |}.
Definition learnDeleted (key : NamespacedName) (s : knowledge) : knowledge :=
  {| d_export := d_export s; d_had := d_had s; d_import := d_import s; d_missing := d_missing s;
     d_items := d_items s; d_deleted := {[key]} ∪ d_deleted s; d_synced := d_synced s |}.
Definition learnSpec (i : EndpointSliceImport) (s : knowledge) : knowledge :=
  {| d_export := d_export s; d_had := d_had s; d_import := d_import s; d_missing := d_missing s;
     d_items := d_items s; d_deleted := d_deleted s;
     d_synced := if decide (Some (esi_Spec i) = ese_Spec <$> d_export s)
                 then {[objectKey i]} ∪ d_synced s else d_synced s |}.

Definition hasCleanup (e : EndpointSliceExport) : Prop :=
  endpointSliceExportCleanupFinalizer ∈ finalizersOf e.
Definition ownerOf (e : EndpointSliceExport) : NamespacedName :=
  let owner := ese_OwnerServiceReference (ese_Spec e) in
  {| nn_Namespace := osr_Namespace owner; nn_Name := osr_Name owner |}.
Definition annotationOf (si : ServiceImport) : option string :=
  map_get (om_Annotations (si_ObjectMeta si)) ServiceImportAnnotationServiceInUseBy.
Definition importedBy (si : ServiceImport) (claims : gomap) : Prop :=
  UnmarshalServiceInUseBy <$> annotationOf si = Some (Some {| MemberClusters := claims |}).

(** Nobody is to have the slice. *)
Definition unwanted (e : EndpointSliceExport) (s : knowledge) : Prop :=
  isDeleting e = true ∨
  ∃ si, d_import s = Some si ∧ sis_Clusters (si_Status si) ≠ [] ∧ annotationOf si = None.
Definition allDeleted (s : knowledge) : Prop :=
  ∃ items, d_items s = Some items ∧ ∀ i, i ∈ items → objectKey i ∈ d_deleted s.

Definition mayDistribute (s : knowledge) (o : EndpointSliceImport) : Prop :=
  ∃ e si claims, d_export s = Some e ∧ isDeleting e = false ∧ hasCleanup e ∧
    d_import s = Some si ∧ importedBy si claims ∧ claimed claims o ∧
    om_Name (esi_ObjectMeta o) = om_Name (ese_ObjectMeta e) ∧ esi_Spec o = ese_Spec e.
Definition mayWithdraw (s : knowledge) (key : NamespacedName) : Prop :=
  ∃ e items i, d_export s = Some e ∧ d_items s = Some items ∧ i ∈ items ∧ key = objectKey i ∧
    (unwanted e s ∨
     ∃ si claims, d_import s = Some si ∧ importedBy si claims ∧ ¬ claimed claims i).

Definition distributionProtocol (req : NamespacedName) : protocol eff knowledge := {|
  allowed X c s :=
    match c with
    | EGet Hub KEndpointSliceExport key => key = req
    | EGet Hub KServiceImport key =>
        ∃ e, d_export s = Some e ∧ isDeleting e = false ∧ key = ownerOf e
    | EGet Hub KEndpointSliceImport key =>
        ∃ e, d_export s = Some e ∧ nn_Name key = om_Name (ese_ObjectMeta e)
    | EList Hub KEndpointSliceImport opts => ∃ e, d_export s = Some e ∧ opts = sameName e
    | ECreate Hub KEndpointSliceImport o => mayDistribute s o
    | EUpdate Hub KEndpointSliceImport o => mayDistribute s o
    | EDelete Hub KEndpointSliceImport key => mayWithdraw s key
    | EUpdate Hub KEndpointSliceExport o =>
        ∃ e, d_export s = Some e ∧ objectKey o = req ∧
          (hasCleanup o ∨ unwanted e s ∧ allDeleted s)
    | EOrder => True
    | _ => False
    end;
  answer X c s := λ x, serverAnswer c x ∧
    (match c in eff X return X → Prop with
     (* one object per key, all selected by the index *)
     | EList Hub KEndpointSliceImport opts => λ r,
         match r with
         | inr items => NoDup ((λ i : EndpointSliceImport, objectKey i) <$> items) ∧
             ∀ i v, i ∈ items → (endpointSliceImportNameFieldKey, v) ∈ lo_Fields opts →
               v ∈ endpointSliceImportIndexerFunc i
         | inl _ => True
         end
     (* an update keeps the spec it is given and the deletion mark *)
     | EUpdate Hub KEndpointSliceExport o => λ r,
         match r with
         | inr o' => ese_Spec o' = ese_Spec o ∧ isDeleting o' = isDeleting o
         | inl _ => True
         end
     | EUpdate Hub KEndpointSliceImport o => λ r,
         match r with inr o' => esi_Spec o' = esi_Spec o | inl _ => True end
     | ECreate Hub KEndpointSliceImport o => λ r,
         match r with inr o' => esi_Spec o' = esi_Spec o | inl _ => True end
     | _ => λ _, True
     end) x;
  next X c :=
    match c in eff X return X → knowledge → knowledge with
    | EGet Hub KEndpointSliceExport key => λ r s,
        match r with inr e => learnRead e s | inl _ => s end
    | EUpdate Hub KEndpointSliceExport o => λ r s,
        match r with inr e => learnExport e s | inl _ => s end
    | EGet Hub KServiceImport key => λ r s,
        match r with
        | inr si => learnImport si s
        | inl err => if IsNotFound err then learnMissing s else s
        end
    | EList Hub KEndpointSliceImport opts => λ r s,
        match r with inr items => learnItems items s | inl _ => s end
    | EDelete Hub KEndpointSliceImport key => λ r s,
        match IgnoreNotFound r with None => learnDeleted key s | Some _ => s end
    | EGet Hub KEndpointSliceImport key => λ r s,
        match r with inr i => learnSpec i s | inl _ => s end
    | ECreate Hub KEndpointSliceImport o => λ r s,
        match r with inr i => learnSpec i s | inl _ => s end
    | EUpdate Hub KEndpointSliceImport o => λ r s,
        match r with inr i => learnSpec i s | inl _ => s end
    | _ => λ _ s, s
    end |}.

(** What a finished round leaves behind. *)
Definition settled (s : knowledge) : Prop :=
  ∀ e, d_export s = Some e →
  if isDeleting e then ¬ hasCleanup e ∧ (d_had s = true → allDeleted s)
  else ∃ si, d_import s = Some si ∧
    (annotationOf si = None → ¬ hasCleanup e ∧ allDeleted s) ∧
    ∀ claims, importedBy si claims → hasCleanup e ∧
      (∀ ns, is_Some (map_get claims ns) →
         {| nn_Namespace := ns; nn_Name := om_Name (ese_ObjectMeta e) |} ∈ d_synced s) ∧
      ∃ items, d_items s = Some items ∧ ∀ i, i ∈ items → ¬ claimed claims i →
        isDeleting i = true ∨ objectKey i ∈ d_deleted s.
(** The ServiceImport does not exist or is not resolved yet. *)
Definition waiting (s : knowledge) : Prop :=
  ∃ e, d_export s = Some e ∧ isDeleting e = false ∧
    (d_missing s = true ∨ ∃ si, d_import s = Some si ∧ sis_Clusters (si_Status si) = []).
Definition roundEnds (x : Result * option error) (s : knowledge) : Prop :=
  Requeue x.1 = false ∧
  (RequeueAfter x.1 = endpointSliceExportRetryInterval ∧ x.2 = None ∧ waiting s ∨
   RequeueAfter x.1 = 0%Z ∧ (x.2 = None → settled s)).
Lemma distribution_failed err s : roundEnds (emptyResult, Some err) s.
Proof. split; [done|]. by right. Qed.
Lemma distribution_settled s : settled s → roundEnds (emptyResult, None) s.
Proof. split; [done|]. by right. Qed.
#[local] Hint Resolve distribution_failed distribution_settled : core.


Section safety.
Context {util : ControllerUtil} {laws : ControllerUtilLaws}.
Context (req : NamespacedName).
Local Abbreviation P := (distributionProtocol req).

(** Withdrawing and distributing only add to what is known. *)
Definition grows (s s' : knowledge) : Prop :=
  d_export s' = d_export s ∧ d_import s' = d_import s ∧ d_items s' = d_items s ∧
  d_deleted s ⊆ d_deleted s' ∧ d_synced s ⊆ d_synced s'.
#[local] Instance grows_preorder : PreOrder grows.
Proof.
  split.
  - intros s. by repeat split.
  - intros s1 s2 s3 (? & ? & ? & ? & ?) (? & ? & ? & ? & ?).
    repeat split; try congruence; set_solver.
Qed.
Lemma grows_deleted key s : grows s (learnDeleted key s).
Proof. repeat split; set_solver. Qed.
Lemma grows_spec i s : grows s (learnSpec i s).
Proof. repeat split; simpl; try case_decide; set_solver. Qed.
Lemma mayWithdraw_grows s s' key : grows s s' → mayWithdraw s key → mayWithdraw s' key.
Proof.
  intros (He & Hi & Hit & _) (e & items & i & H1 & H2 & H3 & H4 & H5).
  exists e, items, i. rewrite He, Hit. repeat split; [done..|].
  unfold unwanted in *. by rewrite Hi.
Qed.
Lemma mayDistribute_grows s s' o : grows s s' → mayDistribute s o → mayDistribute s' o.
Proof. intros (He & Hi & _). unfold mayDistribute. by rewrite He, Hi. Qed.
Lemma mayDistribute_key s spec o o' :
  objectKey o' = objectKey o → mayDistribute s (setSliceImportSpec spec o) →
  mayDistribute s (setSliceImportSpec spec o').
Proof.
  intros Hk (e & si & cl & ? & ? & ? & ? & ? & Hcl & Hn & Hs).
  injection Hk as Hns Hnm. exists e, si, cl. do 5 (split; [done|]).
  split; [unfold claimed, namespaceOf in *; simpl in *; by rewrite Hns|].
  split; [simpl in *; by rewrite Hnm|done].
Qed.

Lemma withdraw_wp i s :
  mayWithdraw s (objectKey i) →
  wp P (withdraw i) s (λ err s', grows s s' ∧ (err = None → objectKey i ∈ d_deleted s')).
Proof.
  intros Hmay. unfold withdraw. apply wp_bind.
  apply (DoPure_wp _ _ _ (grows s)); [|done].
  intros s1 Hg. apply wp_Delete; [by eapply mayWithdraw_grows|].
  intros r _. cbn [next distributionProtocol]. destruct (IgnoreNotFound r) as [err|] eqn:Hr.
  - split; [apply wp_ret; by rewrite ?Hr|]. by destruct r.
  - split; [apply wp_ret; split; [|intros _; set_solver]|].
    { etrans; [exact Hg|apply grows_deleted]. }
    destruct r as [err|]; [|done]. intros _. etrans; [exact Hg|apply grows_deleted].
Qed.

(** A loop over [withdraw], with [skip] for what is left alone. *)
Lemma withdrawLoop_wp (skip : EndpointSliceImport → bool) items s :
  (∀ i, i ∈ items → skip i = false → mayWithdraw s (objectKey i)) →
  wp P (for_range (λ i _,
      if skip i then mret (inr tt)
      else err ← withdraw i; mret (match err with Some err => inl err | None => inr tt end))
    items tt) s (λ r s', grows s s' ∧ match r with
      | inl _ => True
      | inr _ => ∀ i, i ∈ items → skip i = true ∨ objectKey i ∈ d_deleted s'
      end).
Proof.
  intros Hmay.
  apply (wp_for_range _ _ (λ l _ s', grows s s' ∧ ∃ done, items = done ++ l ∧
    ∀ i, i ∈ done → skip i = true ∨ objectKey i ∈ d_deleted s')).
  - intros i l [] s1 (Hg & done & -> & Hdone). destruct (skip i) eqn:Hsk.
    + apply wp_ret. split; [done|]. exists (done ++ [i]). split; [by rewrite <-app_assoc|].
      intros j [Hj| ->%list_elem_of_singleton]%elem_of_app; auto.
    + apply wp_bind. eapply wp_mono; [apply withdraw_wp; eapply mayWithdraw_grows; [done|]; apply Hmay; set_solver|].
      intros [err|] s2 [Hg2 Hgone]; apply wp_ret; (split; [by etrans|]); [done|].
      exists (done ++ [i]). split; [by rewrite <-app_assoc|].
      intros j [Hj| ->%list_elem_of_singleton]%elem_of_app; [|by auto].
      destruct (Hdone j Hj); [by left|right]. destruct Hg2 as (_ & _ & _ & Hg2 & _). set_solver.
  - intros [] s1 (Hg & done & -> & Hdone). rewrite app_nil_r. by split.
  - split; [done|]. exists []. split; [done|]. set_solver.
Qed.

Lemma withdrawAllEndpointSliceImports_wp e s :
  d_export s = Some e → objectKey e = req → unwanted e s →
  wp P (withdrawAllEndpointSliceImports e) s (λ err s', err = None →
    ∃ e', d_export s' = Some e' ∧ ¬ hasCleanup e' ∧ isDeleting e' = isDeleting e ∧
      d_import s' = d_import s ∧ allDeleted s').
Proof.
  intros He Hk Hun. apply wp_bind, wp_List; [by exists e|].
  intros [err|items] [_ Hlist]; simpl; [by apply wp_ret|]. apply wp_bind.
  eapply wp_mono; [apply (withdrawLoop_wp (λ _, false))|].
  { intros i Hi _. exists e, items, i. by do 4 (split; [done|]); left. }
  intros [err|[]] s1 [(He1 & Hi1 & Hit1 & Hg & _) Hgone]; [by apply wp_ret|].
  assert (allDeleted s1) as Hall.
  { exists items. split; [done|]. intros i Hi. by destruct (Hgone i Hi). }
  apply wp_bind, wp_Update.
  { exists e. split; [by rewrite He1|].
    split; [rewrite <-Hk; apply (removeFinalizer_key (T := EndpointSliceExport))|].
    right. split; [|done]. unfold unwanted in *. by rewrite Hi1. }
  intros [err|e'] [Hm Ha]; apply wp_ret; [done|]. intros _. simpl in *. exists e'.
  split; [done|]. destruct (removeFinalizer_stored e e' endpointSliceExportCleanupFinalizer) as [Hno _]; [exact Hm|].
  split; [exact Hno|]. split; [|done]. by destruct Ha as [_ ->].
Qed.


(** A slice that was read or written with the spec of the export is synced. *)
Lemma learnSpec_synced e i key s :
  d_export s = Some e → esi_Spec i = ese_Spec e → objectKey i = key →
  key ∈ d_synced (learnSpec i s).
Proof. intros He Hs <-. simpl. rewrite He. simpl. rewrite decide_True by congruence. set_solver. Qed.

(** Creating or updating one EndpointSliceImport. *)
Lemma syncImport_wp e i s :
  d_export s = Some e → mayDistribute s (setSliceImportSpec (ese_Spec e) i) →
  wp P (CreateOrUpdate Hub KEndpointSliceImport i
          (λ i, mret (None, setSliceImportSpec (ese_Spec e) i))) s
    (λ x s', grows s s' ∧ objectKey (x.2 : EndpointSliceImport) = objectKey i ∧
             (x.1 = None → objectKey i ∈ d_synced s')).
Proof.
  intros He Hmay.
  assert (∀ o s1, grows s s1 → objectKey o = objectKey i →
    mayDistribute s1 (setSliceImportSpec (ese_Spec e) o)) as Hmay1.
  { intros o s1 Hg Hk. apply (mayDistribute_grows s); [done|]. by eapply mayDistribute_key. }
  assert (∀ o s1, grows s s1 → objectKey o = objectKey i → ∀ r : error + EndpointSliceImport,
    answersWrite (k := KEndpointSliceImport) (setSliceImportSpec (ese_Spec e) o) r ∧
    match r with inr o' => esi_Spec o' = ese_Spec e | inl _ => True end →
    let s2 := match r with inr o' => learnSpec o' s1 | inl _ => s1 end in
    let x := overwrite (setSliceImportSpec (ese_Spec e) o) r in
    grows s s2 ∧ objectKey x.2 = objectKey i ∧ (x.1 = None → objectKey i ∈ d_synced s2)) as Hend.
  { intros o s1 Hg Hk [err|o'] [Hm Hs]; simpl; [by split|].
    assert (objectKey o' = objectKey i) as Hk'.
    { rewrite <-Hk. change (objectKey o) with (objectKey (setSliceImportSpec (ese_Spec e) o)).
      by apply sameMeta_key. }
    split; [etrans; [exact Hg|apply grows_spec]|]. split; [exact Hk'|]. intros _.
    apply (learnSpec_synced e); [|exact Hs|exact Hk']. by destruct Hg as (-> & _). }
  apply CreateOrUpdate_wp.
  { exists e. split; [done|]. destruct Hmay as (e' & ? & ? & He' & ? & ? & ? & ? & ? & Hn & _).
    rewrite He in He'. injection He' as <-. exact Hn. }
  intros [err|cur] Hget; simpl.
  - destruct (IsNotFound err); [|by split]. apply wp_ret. split; [done|].
    split; [by apply (Hmay1 i)|]. intros r [Hr1 Hr2]. by apply (Hend i s).
  - simpl in cur. destruct Hget as [Hk _]. apply wp_ret. split; [exact Hk|].
    assert (grows s (learnSpec cur s)) as Hg by apply grows_spec. split.
    + intros Heq. split; [done|]. split; [exact Hk|]. intros _.
      apply (learnSpec_synced e); [done| |exact Hk]. by rewrite <-Heq.
    + intros _. split; [by apply (Hmay1 cur)|]. intros r [Hr1 Hr2]. by apply (Hend cur).
Qed.

Lemma distribute_wp e items s :
  d_export s = Some e →
  (∀ i, i ∈ items → mayDistribute s (setSliceImportSpec (ese_Spec e) i)) →
  wp P (distribute e items) s (λ r s', grows s s' ∧ match r with
    | inl _ => True
    | inr _ => ∀ i, i ∈ items → objectKey i ∈ d_synced s'
    end).
Proof.
  intros He Hmay. unfold distribute.
  apply (wp_for_range _ _ (λ l _ s', grows s s' ∧ ∃ done, items = done ++ l ∧
    ∀ i, i ∈ done → objectKey i ∈ d_synced s')).
  - intros i l [] s1 (Hg & done & -> & Hdone). apply wp_bind.
    eapply (wp_mono _ _ _ (λ x s2, grows s s2 ∧ grows s1 s2 ∧ (x.1 = None → objectKey i ∈ d_synced s2))).
    { apply (Do_wp _ _ _ _ (λ i' s2, objectKey i' = objectKey i ∧ grows s s2 ∧ grows s1 s2)); [|done].
      intros i' s2 (Hk & Hg2 & Hg12). eapply wp_mono.
      - apply (syncImport_wp e i' s2); [by destruct Hg2 as (-> & _)|].
        eapply mayDistribute_grows; [exact Hg2|].
        eapply mayDistribute_key; [exact Hk|]. apply Hmay. set_solver.
      - intros [err i''] s3 (Hg3 & Hk3 & Hs3). simpl in *.
        assert (grows s s3) by (by etrans). assert (grows s1 s3) by (by etrans).
        rewrite Hk3, Hk in *. split; [done|]. by destruct err. }
    intros [[err|] i'] s2 (Hg2 & Hg12 & Hs2); apply wp_ret; (split; [done|]); [done|].
    exists (done ++ [i]). split; [by rewrite <-app_assoc|].
    intros j [Hj| ->%list_elem_of_singleton]%elem_of_app; [|by auto].
    destruct Hg12 as (_ & _ & _ & _ & Hg12). by apply Hg12, Hdone.
  - intros [] s1 (Hg & done & -> & Hdone). rewrite app_nil_r. by split.
  - split; [done|]. exists []. split; [done|]. set_solver.
Qed.


Lemma namespaces_NoDup (items : list EndpointSliceImport) name :
  (∀ i, i ∈ items → om_Name (esi_ObjectMeta i) = name) →
  NoDup ((λ i : EndpointSliceImport, objectKey i) <$> items) → NoDup (namespaceOf <$> items).
Proof.
  intros Hname Hnd. apply (NoDup_fmap_1 (λ ns, {| nn_Namespace := ns; nn_Name := name |})).
  rewrite <-list_fmap_compose. erewrite list_fmap_ext; [exact Hnd|].
  intros k i Hi%list_elem_of_lookup_2. simpl. by rewrite <-(Hname i Hi).
Qed.

Definition keyIn (e : EndpointSliceExport) (ns : string) : NamespacedName :=
  {| nn_Namespace := ns; nn_Name := om_Name (ese_ObjectMeta e) |}.

Lemma scanForEndpointSliceImports_wp e u s :
  d_export s = Some e →
  wp P (scanForEndpointSliceImports e u) s (λ r s', match r with
    | inl _ => True
    | inr (toWithdraw, toCreateOrUpdate) => ∃ items, s' = learnItems items s ∧
        toWithdraw = filter (λ i, ¬ claimed (MemberClusters u) i) items ∧
        (∀ i, i ∈ toCreateOrUpdate → claimed (MemberClusters u) i ∧
           om_Name (esi_ObjectMeta i) = om_Name (ese_ObjectMeta e)) ∧
        (∀ ns, is_Some (map_get (MemberClusters u) ns) →
           ∃ i, i ∈ toCreateOrUpdate ∧ objectKey i = keyIn e ns)
    end).
Proof.
  intros He. apply wp_bind, wp_List; [by exists e|].
  intros [err|items] [_ Hlist]; simpl; [by apply wp_ret|]. simpl in items, Hlist.
  destruct Hlist as [Hnd Hsel].
  assert (∀ i, i ∈ items → om_Name (esi_ObjectMeta i) = om_Name (ese_ObjectMeta e)) as Hname.
  { intros i Hi. specialize (Hsel i (om_Name (ese_ObjectMeta e)) Hi). unfold endpointSliceImportIndexerFunc in Hsel.
    symmetry. apply list_elem_of_singleton, Hsel. by left. }
  destruct (matchImports_partition items (MemberClusters u)) as (left & -> & Hleft);
    [by eapply namespaces_NoDup|].
  apply wp_bind. unfold rangeMap. apply wp_bind, wp_call; [done|]. intros order _.
  do 2 apply wp_ret. exists items. split; [done|]. split; [done|].
  assert (∀ ns, map_get left ns = default ∅ left !! ns) as Hget.
  { intros ns. destruct left; [done|]. simpl. by rewrite lookup_empty. }
  split.
  - intros i [[Hc Hi]%list_elem_of_filter|Hi]%elem_of_app; [by auto|].
    apply list_elem_of_fmap in Hi as ([ns v] & -> & Hi). split; [|done].
    apply elem_of_permute, elem_of_map_to_list in Hi. rewrite <-Hget, Hleft in Hi.
    case_decide; [done|]. unfold claimed, namespaceOf. simpl. by rewrite Hi.
  - intros ns [v Hv]. destruct (decide (ns ∈ namespaceOf <$> items)) as [Hin|Hnot].
    + apply list_elem_of_fmap in Hin as (i & -> & Hi). exists i. split.
      * apply elem_of_app. left. apply list_elem_of_filter. split; [by exists v|done].
      * unfold objectKey, metaKey, keyIn. simpl. by rewrite (Hname i Hi).
    + exists (newImport ns (om_Name (ese_ObjectMeta e))). split; [|done].
      apply elem_of_app. right. apply list_elem_of_fmap. exists (ns, v). split; [done|].
      apply elem_of_permute, elem_of_map_to_list. by rewrite <-Hget, Hleft, decide_False.
Qed.

(** Distributing to the clusters that have imported the Service. *)
Lemma distributeToClaims_wp e si u s :
  d_export s = Some e → isDeleting e = false → hasCleanup e →
  d_import s = Some si → importedBy si (MemberClusters u) →
  wp P (scanned ← scanForEndpointSliceImports e u;
        match scanned with
        | inl err => mret (emptyResult, Some err)
        | inr (toWithdraw, toCreateOrUpdate) =>
            r ← withdrawUnneeded toWithdraw;
            match r with
            | inl err => mret (emptyResult, Some err)
            | inr _ =>
                r ← distribute e toCreateOrUpdate;
                mret (emptyResult, match r with inl err => Some err | inr _ => None end)
            end
        end) s roundEnds.
Proof.
  intros He Hdel Hfin Hsi Hu. apply wp_bind.
  eapply wp_mono; [by apply scanForEndpointSliceImports_wp|].
  intros [err|[tw tu]] s1; [intros _; by apply wp_ret|].
  intros (items & -> & -> & Htu & Hns). apply wp_bind.
  eapply wp_mono; [apply (withdrawLoop_wp (λ i, isDeleting i))|].
  { intros i [Hc Hi]%list_elem_of_filter _. exists e, items, i. do 4 (split; [done|]). right.
    by exists si, (MemberClusters u). }
  intros [err|[]] s1 [Hg Hgone]; [by apply wp_ret|].
  assert (d_export s1 = Some e) as He1 by (by destruct Hg as (-> & _)).
  assert (d_import s1 = Some si) as Hsi1 by (by destruct Hg as (_ & -> & _)).
  apply wp_bind. eapply wp_mono; [apply distribute_wp; [exact He1|]|].
  { intros i [Hc Hn]%Htu. by exists e, si, (MemberClusters u). }
  intros [err|[]] s2 [Hg2 Hsync]; apply wp_ret; [done|]. apply distribution_settled. intros e' He'.
  destruct Hg2 as (He2 & Hsi2 & Hit2 & Hgone2 & _). rewrite He2, He1 in He'. injection He' as <-.
  rewrite Hdel. exists si. split; [by rewrite Hsi2|].
  unfold importedBy in *. split; [intros Hann; by rewrite Hann in Hu|].
  rewrite Hu. intros claims [= <-]. split; [done|]. split.
  - intros ns (i & Hi & Hk)%Hns. unfold keyIn in Hk. rewrite <-Hk. by apply Hsync.
  - exists items. split; [rewrite Hit2; by destruct Hg as (_ & _ & -> & _)|]. intros i Hi Hc.
    destruct (Hgone i) as [|Hin]; [by apply list_elem_of_filter|by left|]. right. by apply Hgone2.
Qed.


(** C7: every exchange of a round follows the distribution protocol. An
    EndpointSliceImport is only written for a live export whose cleanup
    finalizer is stored, in the namespace of a cluster that has imported the
    Service, with the spec of the export; it is only deleted when nobody is to
    have the slice or its cluster has not imported the Service. The finalizer
    is only given up when nobody is to have the slice and every listed
    EndpointSliceImport is deleted: the server accepted its deletion or did
    not find it. A round asks to be repeated only for a live export whose
    ServiceImport does not exist or is not resolved. Any other round without
    an error has brought the spec to every cluster that has imported the
    Service, in whatever order the claims are visited, and the other listed
    ones are being deleted or deleted; if nobody has imported the Service, or
    the export is being deleted and had the finalizer, that holds for all
    listed ones, and the export has no finalizer. *)
Theorem Reconcile_follows_distribution_protocol : wp P (Reconcile req) nothingKnown roundEnds.
Proof.
  apply wp_bind, wp_Get; [done|]. intros [err|e] [Hget _]; simpl.
  { apply wp_ret. unfold IgnoreNotFound. by destruct (IsNotFound err); [apply distribution_settled|]. }
  simpl in e, Hget. destruct (isDeleting e) eqn:Hdel.
  { destruct (hasFinalizer e _) eqn:Hf.
    - apply wp_bind. eapply wp_mono; [apply withdrawAllEndpointSliceImports_wp; [done|done|by left]|].
      intros [err|] s' Hok; apply wp_ret; [done|]. apply distribution_settled. intros e' He'.
      destruct (Hok eq_refl) as (e2 & He2 & Hno & Hd & _ & Hall). rewrite He2 in He'. injection He' as <-.
      by rewrite Hd, Hdel.
    - apply wp_ret, distribution_settled. intros e' [= <-]. rewrite Hdel. apply hasFinalizer_false in Hf.
      split; [done|]. simpl. by rewrite bool_decide_false. }
  apply wp_bind, wp_Get; [by exists e|]. intros [err|si] _; simpl.
  { destruct (IsNotFound err); apply wp_ret; [|done]. split; [done|]. left. split; [done|]. split; [done|].
    exists e. by split; [|split; [|left]]. }
  simpl in si. case_decide as Hcl.
  { apply wp_ret. split; [done|]. left. split; [done|]. split; [done|].
    exists e. split; [done|]. split; [done|]. right. by exists si. }
  destruct (map_get _ _) as [data|] eqn:Hann.
  2: { apply wp_bind. eapply wp_mono; [apply withdrawAllEndpointSliceImports_wp; [done|done|right; by exists si]|].
       intros [err|] s' Hok; apply wp_ret; [done|]. apply distribution_settled. intros e' He'.
       destruct (Hok eq_refl) as (e2 & He2 & Hno & Hd & Hsi & Hall).
       rewrite He2 in He'. injection He' as <-. rewrite Hd, Hdel. exists si. split; [done|].
       split; [done|]. unfold importedBy, annotationOf. by rewrite Hann. }
  destruct (UnmarshalServiceInUseBy data) as [u|] eqn:Hu.
  2: { apply wp_ret, distribution_settled. intros e' [= <-]. rewrite Hdel. exists si. split; [done|].
       unfold importedBy, annotationOf. rewrite Hann. simpl. by rewrite Hu. }
  assert (importedBy si (MemberClusters u)) as Hby.
  { unfold importedBy, annotationOf. rewrite Hann. simpl. rewrite Hu. by destruct u. }
  apply wp_bind. destruct (hasFinalizer e _) eqn:Hf.
  { apply wp_ret. apply hasFinalizer_spec in Hf. by apply (distributeToClaims_wp e si). }
  apply wp_Update.
  { exists e. split; [done|]. split; [rewrite <-Hget; apply (addFinalizer_key (T := EndpointSliceExport))|].
    left. apply (addFinalizer_has (T := EndpointSliceExport)). }
  intros [err|e'] [Hm Ha]; simpl; [by apply wp_ret|]. simpl in *.
  destruct (addFinalizer_stored e e' endpointSliceExportCleanupFinalizer) as [Hhas _]; [exact Hm|].
  apply (distributeToClaims_wp e' si); [done| |exact Hhas|done|done].
  destruct Ha as [_ ->]. exact Hdel.
Qed.
End safety.

(** ** Runs *)

Module Demo.
Definition name : NamespacedName :=
  {| nn_Namespace := "fleet-member-smartfish"; nn_Name := "slice-1" |}.
Definition importKey : NamespacedName := {| nn_Namespace := "work"; nn_Name := "app" |}.
Definition spec (addr : string) : EndpointSliceExportSpec := {|
  ese_AddressType := AddressTypeIPv4; ese_Endpoints := [{| ep_Addresses := [addr] |}];
  ese_Ports := []; ese_EndpointSliceReference := emptyReference;
  ese_OwnerServiceReference :=
    {| osr_Namespace := "work"; osr_Name := "app"; osr_NamespacedName := "work/app" |} |}.
Definition export : EndpointSliceExport := {|
  ese_TypeMeta := {| tm_Kind := "EndpointSliceExport"; tm_APIVersion := "v1alpha1" |};
  ese_ObjectMeta := newObjectMeta "fleet-member-smartfish" "slice-1"; ese_Spec := spec "1.2.3.4" |}.
Definition import : ServiceImport := {|
  si_TypeMeta := {| tm_Kind := "ServiceImport"; tm_APIVersion := "v1alpha1" |};
  si_ObjectMeta := setAnnotations (Some {[ServiceImportAnnotationServiceInUseBy :=
    MarshalServiceInUseBy {| MemberClusters :=
      Some {["fleet-member-a" := "a"; "fleet-member-b" := "b"]} |}]})
    (newObjectMeta "work" "app");
  si_Status := {| sis_IPs := []; sis_Type := ClusterSetIP; sis_SessionAffinity := "";
    sis_SessionAffinityConfig := None; sis_Ports := [];
    sis_Clusters := [{| cs_Cluster := "smartfish" |}] |} |}.
Definition inNamespace (ns : string) : NamespacedName :=
  {| nn_Namespace := ns; nn_Name := "slice-1" |}.
Definition slice (ns : string) : EndpointSliceImport :=
  setSliceImportSpec (spec "9.9.9.9") (newImport ns "slice-1").
(** The slice has an old copy in [a], none in [b] and one to withdraw in [c]. *)
Definition world0 : world := {|
  w_member := emptyStore;
  w_hub := storeAlter KServiceImport <[importKey := import]>
    (storeAlter KEndpointSliceImport (λ m, <[inNamespace "fleet-member-a" := slice "fleet-member-a"]>
      (<[inNamespace "fleet-member-c" := slice "fleet-member-c"]> m))
    (storeAlter KEndpointSliceExport <[name := export]> emptyStore));
  w_version := 1; w_clock := 0%Z |}.
Definition index (k : kind) (f : string) : obj k → list string :=
  match k return obj k → list string with
  | KEndpointSliceImport => endpointSliceImportIndexerFunc
  | _ => λ _, []
  end.
Definition addressesAfter (ns : string) : option (list (list string)) :=
  let w := (run (serve index) (Reconcile (util := Reference.util) name) world0).2 in
  (λ i, ep_Addresses <$> ese_Endpoints (esi_Spec i)) <$>
    w_hub w KEndpointSliceImport !! inNamespace ns.
End Demo.

Lemma Reconcile_follows_distribution_protocol_witness :
  wp (distributionProtocol Demo.name)
    (Reconcile (util := Reference.util) Demo.name) nothingKnown roundEnds ∧
  Demo.addressesAfter <$> ["fleet-member-a"; "fleet-member-b"; "fleet-member-c"] =
    [Some [["1.2.3.4"]]; Some [["1.2.3.4"]]; None].
Proof.
  split; [apply (Reconcile_follows_distribution_protocol (laws := Reference.laws))|].
  vm_compute. reflexivity.
Defined.

End endpointsliceexport.
