(* ===== verification/MemberEndpointSlice.v ===== *)
(** * [pkg/controllers/member/endpointslice]: exporting EndpointSlices

    The member controller that gives an EndpointSlice of an exported Service a
    unique name and exports its ready endpoints to the hub under that name, and
    withdraws the export when the slice or the Service is no longer exported. *)

From S2P Require Import Prelude Prog Go Dns Api Fleet Azure Effects Deps.
From S2P Require Import Protocols ApiServer ObjectMeta TimeFormat UniqueName.

Module endpointslice.
Import uniquename.

Inductive skipOrUnexportEndpointSliceOp :=
| shouldSkipEndpointSliceOp
| shouldUnexportEndpointSliceOp
| continueReconcileOp.

Record Reconciler := { MemberClusterID : string; HubNamespace : string }.

(** ** [util.go] *)

Definition isEndpointSlicePermanentlyUnexportable (es : EndpointSlice) : bool :=
  negb (bool_decide (es_AddressType es = AddressTypeIPv4)).

Definition isEndpointSliceExportLinkedWithEndpointSlice (e : EndpointSliceExport)
    (es : EndpointSlice) : bool :=
  bool_decide (ref_UID (ese_EndpointSliceReference (ese_Spec e)) = om_UID (es_ObjectMeta es)).

Fixpoint extractEndpoints (endpoints : list DiscoveryEndpoint) : list Endpoint :=
  match endpoints with
  | [] => []
  | endpoint :: endpoints =>
      match de_Ready endpoint with
      | None | Some true => {| ep_Addresses := de_Addresses endpoint |} :: extractEndpoints endpoints
      | Some false => extractEndpoints endpoints
      end
  end.
Definition extractEndpointsFromEndpointSlice (es : EndpointSlice) : list Endpoint :=
  extractEndpoints (es_Endpoints es).

(** ** [controller.go] *)

Definition uniqueNameOf (es : EndpointSlice) : option string :=
  map_get (om_Annotations (es_ObjectMeta es)) ExportedObjectAnnotationUniqueName.
Definition serviceNameOf (es : EndpointSlice) : option string :=
  map_get (om_Labels (es_ObjectMeta es)) LabelServiceName.
Definition dropAnnotation (key : string) (es : EndpointSlice) : EndpointSlice :=
  updMeta (λ m, setAnnotations (map_delete (om_Annotations m) key) m) es.

(** [errors.NewAlreadyExists]. *)
Definition NewAlreadyExists (name : string) : error :=
  StatusError ReasonAlreadyExists (Some "EndpointSliceExport")
    ("EndpointSliceExport.networking.fleet.azure.com " +:+ name +:+ " already exists").

Section controller.
Context {util : ControllerUtil} {loc : Location} {validation : Validation}.

Definition isServiceExportValidWithNoConflict (svcExport : ServiceExport) : bool :=
  let status t := c_Status <$> FindStatusCondition (se_Conditions svcExport) t in
  let isValid := bool_decide (status ServiceExportValid = Some ConditionTrue) in
  let hasNoConflict := bool_decide (status ServiceExportConflict = Some ConditionFalse) in
  isValid && hasNoConflict && negb (isDeleting svcExport).

Definition isUniqueNameValid (name : string) : bool :=
  bool_decide (IsDNS1123Subdomain name = []).

Definition shouldSkipOrUnexportEndpointSlice (es : EndpointSlice)
    : IO (skipOrUnexportEndpointSliceOp * option error) :=
  if isEndpointSlicePermanentlyUnexportable es then mret (shouldSkipEndpointSliceOp, None) else
  let skipOrUnexport :=
    match uniqueNameOf es with
    | Some _ => shouldUnexportEndpointSliceOp
    | None => shouldSkipEndpointSliceOp
    end in
  match serviceNameOf es with
  | None => mret (skipOrUnexport, None)
  | Some svcName =>
      got ← Get Member KServiceExport
        {| nn_Namespace := om_Namespace (es_ObjectMeta es); nn_Name := svcName |};
      match got with
      | inl err => if IsNotFound err then mret (skipOrUnexport, None)
                   else mret (continueReconcileOp, Some err)
      | inr svcExport =>
          if negb (isServiceExportValidWithNoConflict svcExport) then mret (skipOrUnexport, None)
          else if isDeleting es then mret (skipOrUnexport, None)
          else mret (continueReconcileOp, None)
      end
  end.

Definition deleteEndpointSliceExportIfLinked (r : Reconciler) (es : EndpointSlice)
    : IO (option error) :=
  let fleetUniqueName :=
    map_getz (om_Annotations (es_ObjectMeta es)) ExportedObjectAnnotationUniqueName in
  if negb (isUniqueNameValid fleetUniqueName) then mret None else
  got ← Get Hub KEndpointSliceExport
    {| nn_Namespace := HubNamespace r; nn_Name := fleetUniqueName |};
  match got with
  | inl err => if IsNotFound err then mret None else mret (Some err)
  | inr e =>
      if negb (isEndpointSliceExportLinkedWithEndpointSlice e es) then mret None
      else err ← Delete Hub KEndpointSliceExport e; mret (IgnoreNotFound err)
  end.

Definition unexportEndpointSlice (r : Reconciler) (es : EndpointSlice) : IO (option error) :=
  err ← deleteEndpointSliceExportIfLinked r es;
  match err with
  | Some err => mret (Some err)
  | None =>
      let es := dropAnnotation MetricsAnnotationLastSeenGeneration es in
      let es := dropAnnotation MetricsAnnotationLastSeenTimestamp es in
      let es := dropAnnotation ExportedObjectAnnotationUniqueName es in
      '(err, _) ← Update Member KEndpointSlice es;
      mret err
  end.

Definition assignUniqueNameAsAnnotation (r : Reconciler) (es : EndpointSlice)
    : IO ((string * option error) * EndpointSlice) :=
  named ← FleetScopedUniqueName DNS1123Subdomain (MemberClusterID r)
    (om_Namespace (es_ObjectMeta es)) (om_Name (es_ObjectMeta es));
  fleetUniqueName ← match named with
                    | inr name => mret name
                    | inl _ => RandomLowerCaseAlphabeticString 25
                    end;
  annotations ← map_set (map_init (om_Annotations (es_ObjectMeta es)))
    ExportedObjectAnnotationUniqueName fleetUniqueName;
  '(err, es) ← Update Member KEndpointSlice (updMeta (setAnnotations annotations) es);
  mret ((fleetUniqueName, err), es).

Definition annotateLastSeenGenerationAndTimestamp (es : EndpointSlice) (startTime : Time)
    : IO (option error * EndpointSlice) :=
  annotations ← map_set (om_Annotations (es_ObjectMeta es)) MetricsAnnotationLastSeenGeneration
    (FormatInt (om_Generation (es_ObjectMeta es)));
  annotations ← map_set annotations MetricsAnnotationLastSeenTimestamp
    (FormatRFC3339 (zoneOffset startTime) startTime);
  Update Member KEndpointSlice (updMeta (setAnnotations annotations) es).

Definition collectAndVerifyLastSeenGenerationAndTimestamp (es : EndpointSlice) (startTime : Time)
    : IO ((Time * option error) * EndpointSlice) :=
  let annotate :=
    '(err, es) ← annotateLastSeenGenerationAndTimestamp es startTime;
    mret ((startTime, err), es) in
  let annotations := om_Annotations (es_ObjectMeta es) in
  match map_get annotations MetricsAnnotationLastSeenGeneration,
        map_get annotations MetricsAnnotationLastSeenTimestamp with
  | Some lastSeenGenerationData, Some lastSeenTimestampData =>
      match ParseInt lastSeenGenerationData, ParseRFC3339 lastSeenTimestampData with
      | Some lastSeenGeneration, Some lastSeenTimestamp =>
          if negb (bool_decide (lastSeenGeneration = om_Generation (es_ObjectMeta es)))
             || (startTime <? lastSeenTimestamp)%Z
          then annotate
          else mret ((lastSeenTimestamp, None), es)
      | _, _ => annotate
      end
  | _, _ => annotate
  end.

(** The function passed to [CreateOrUpdate]. *)
Definition mutateExport (r : Reconciler) (es : EndpointSlice) (fleetUniqueName : string)
    (exportedSince : Time) (e : EndpointSliceExport) : option error * EndpointSliceExport :=
  let spec := ese_Spec e in
  let reference :=
    match om_CreationTimestamp (ese_ObjectMeta e) with
    | None => FromMetaObjects (MemberClusterID r) (es_TypeMeta es) (es_ObjectMeta es)
                (Some exportedSince)
    | Some _ => ese_EndpointSliceReference spec
    end in
  let withReference ref := {| ese_AddressType := ese_AddressType spec;
    ese_Endpoints := ese_Endpoints spec; ese_Ports := ese_Ports spec;
    ese_EndpointSliceReference := ref;
    ese_OwnerServiceReference := ese_OwnerServiceReference spec |} in
  let e := setSliceExportSpec (withReference reference) e in
  if negb (isEndpointSliceExportLinkedWithEndpointSlice e es)
  then (Some (NewAlreadyExists fleetUniqueName), e)
  else
    let ns := om_Namespace (es_ObjectMeta es) in
    let svc := map_getz (om_Labels (es_ObjectMeta es)) LabelServiceName in
    (None, setSliceExportSpec {|
       ese_AddressType := AddressTypeIPv4;
       ese_Endpoints := extractEndpointsFromEndpointSlice es;
       ese_Ports := es_Ports es;
       ese_EndpointSliceReference :=
         UpdateFromMetaObject (es_ObjectMeta es) (Some exportedSince) reference;
       ese_OwnerServiceReference := {| osr_Namespace := ns; osr_Name := svc;
         osr_NamespacedName := ns +:+ "/" +:+ svc |} |} e).

(** From the unique name to the end of [Reconcile]. *)
Definition exportEndpointSlice (r : Reconciler) (es : EndpointSlice) (fleetUniqueName : string)
    (startTime : Time) : IO (Result * option error) :=
  '((exportedSince, _), es) ← collectAndVerifyLastSeenGenerationAndTimestamp es startTime;
  let export : EndpointSliceExport := {| ese_TypeMeta := {| tm_Kind := ""; tm_APIVersion := "" |};
    ese_ObjectMeta := newObjectMeta (HubNamespace r) fleetUniqueName;
    ese_Spec := emptySliceSpec |} in
  '(err, _) ← CreateOrUpdate Hub KEndpointSliceExport export
     (λ e, mret (mutateExport r es fleetUniqueName exportedSince e));
  match err with
  | None => mret (emptyResult, None)
  | Some err =>
      if IsAlreadyExists err
      then '(err, _) ← Update Member KEndpointSlice
             (dropAnnotation ExportedObjectAnnotationUniqueName es);
           mret (emptyResult, err)
      else mret (emptyResult, Some err)
  end.

Definition Reconcile (r : Reconciler) (req : NamespacedName) : IO (Result * option error) :=
  startTime ← Now;
  got ← Get Member KEndpointSlice req;
  match got with
  | inl err => mret (emptyResult, IgnoreNotFound (Some err))
  | inr es =>
      '(op, err) ← shouldSkipOrUnexportEndpointSlice es;
      match err with
      | Some err => mret (emptyResult, Some err)
      | None =>
          match op with
          | shouldSkipEndpointSliceOp => mret (emptyResult, None)
          | shouldUnexportEndpointSliceOp =>
              err ← unexportEndpointSlice r es; mret (emptyResult, err)
          | continueReconcileOp =>
              '((fleetUniqueName, err), es) ←
                match uniqueNameOf es with
                | Some name => if isUniqueNameValid name then mret ((name, None), es)
                               else assignUniqueNameAsAnnotation r es
                | None => assignUniqueNameAsAnnotation r es
                end;
              match err with
              | Some err => mret (emptyResult, Some err)
              | None => exportEndpointSlice r es fleetUniqueName startTime
              end
          end
      end
  end.

(** The map function of [SetupWithManager]. *)
Definition enqueueFor (ns name : string) : IO (list NamespacedName) :=
  listed ← List Member KEndpointSlice
    {| lo_Namespace := Some ns; lo_Fields := []; lo_Labels := [(LabelServiceName, name)] |};
  match listed with
  | inl _ => mret []
  | inr items => mret ((λ es : EndpointSlice, objectKey es) <$> items)
  end.
End controller.

(** ** The protocol of the controller

    What it knows: the stored slice, or that there is none; the ServiceExport
    of its Service; for a unique name the export the hub was last seen to have
    under it ([None]: there is none); the names the hub refused an export for
    because one of that name exists; and the names whose export the hub was
    asked to delete, which it accepted or answered by not finding it (an
    accepted deletion leaves the object until its finalizers are gone). *)
Record knowledge := {
  g_slice : option EndpointSlice;
  g_missing : bool;
  g_svc : option (option ServiceExport);
  g_hub : gmap string (option EndpointSliceExport);
  g_taken : gset string;
  g_deleted : gset string;
}.
Definition nothingKnown : knowledge :=
  {| g_slice := None; g_missing := false; g_svc := None; g_hub := ∅; g_taken := ∅; g_deleted := ∅ |}.
Definition learnSlice (es : EndpointSlice) (s : knowledge) : knowledge :=
  {| g_slice := Some es; g_missing := g_missing s; g_svc := g_svc s; g_hub := g_hub s;
     g_taken := g_taken s; g_deleted := g_deleted s |}.
Definition learnMissing (s : knowledge) : knowledge :=
  {| g_slice := g_slice s; g_missing := true; g_svc := g_svc s; g_hub := g_hub s;
     g_taken := g_taken s; g_deleted := g_deleted s |}.
Definition learnSvc (se : option ServiceExport) (s : knowledge) : knowledge :=
  {| g_slice := g_slice s; g_missing := g_missing s; g_svc := Some se; g_hub := g_hub s;
     g_taken := g_taken s; g_deleted := g_deleted s |}.
Definition learnHub (name : string) (e : option EndpointSliceExport) (s : knowledge) : knowledge :=
  {| g_slice := g_slice s; g_missing := g_missing s; g_svc := g_svc s;
     g_hub := <[name := e]> (g_hub s); g_taken := g_taken s; g_deleted := g_deleted s |}.
Definition learnTaken (name : string) (s : knowledge) : knowledge :=
  {| g_slice := g_slice s; g_missing := g_missing s; g_svc := g_svc s; g_hub := g_hub s;
     g_taken := {[name]} ∪ g_taken s; g_deleted := g_deleted s |}.
Definition learnDeleted (name : string) (s : knowledge) : knowledge :=
  {| g_slice := g_slice s; g_missing := g_missing s; g_svc := g_svc s; g_hub := g_hub s;
     g_taken := g_taken s; g_deleted := {[name]} ∪ g_deleted s |}.

(** Two versions of a slice that differ in annotations at most. *)
Record sameSlice (es es' : EndpointSlice) : Prop := {
  same_key : objectKey es' = objectKey es;
  same_uid : om_UID (es_ObjectMeta es') = om_UID (es_ObjectMeta es);
  same_labels : om_Labels (es_ObjectMeta es') = om_Labels (es_ObjectMeta es);
  same_deleting : isDeleting es' = isDeleting es;
  same_type : es_AddressType es' = es_AddressType es;
  same_endpoints : es_Endpoints es' = es_Endpoints es;
  same_ports : es_Ports es' = es_Ports es;
}.
#[export] Instance sameSlice_equivalence : Equivalence sameSlice.
Proof.
  split.
  - intros es. by split.
  - intros es es' []. by split.
  - intros es1 es2 es3 [] []. split; congruence.
Qed.

Section protocol.
Context {util : ControllerUtil} (r : Reconciler) (req : NamespacedName).

Definition hubKey (name : string) : NamespacedName :=
  {| nn_Namespace := HubNamespace r; nn_Name := name |}.
Definition linked (e : EndpointSliceExport) (es : EndpointSlice) : Prop :=
  ref_UID (ese_EndpointSliceReference (ese_Spec e)) = om_UID (es_ObjectMeta es).

(** The export of a Service is valid, free of conflict and not being deleted. *)
Definition validExport (se : ServiceExport) : Prop :=
  c_Status <$> FindStatusCondition (se_Conditions se) ServiceExportValid = Some ConditionTrue ∧
  c_Status <$> FindStatusCondition (se_Conditions se) ServiceExportConflict = Some ConditionFalse ∧
  isDeleting se = false.
Lemma isServiceExportValidWithNoConflict_spec se :
  if isServiceExportValidWithNoConflict se then validExport se else ¬ validExport se.
Proof.
  unfold isServiceExportValidWithNoConflict, validExport. cbv zeta.
  repeat case_bool_decide; simpl; try tauto. destruct (isDeleting se); simpl; naive_solver.
Qed.

(** The slice is to be exported. *)
Definition exportable (es : EndpointSlice) (s : knowledge) : Prop :=
  es_AddressType es = AddressTypeIPv4 ∧ is_Some (serviceNameOf es) ∧ isDeleting es = false ∧
  ∃ se, g_svc s = Some (Some se) ∧ validExport se.
(** It is not: its Service is not known to be exported, or it is deleted. *)
Definition unexportable (es : EndpointSlice) (s : knowledge) : Prop :=
  serviceNameOf es = None ∨ isDeleting es = true ∨ g_svc s = Some None ∨
  ∃ se, g_svc s = Some (Some se) ∧ ¬ validExport se.

(** The hub did not let the slice have [name]: it refused the creation of an
    export of that name, or it holds the export of another slice under it. *)
Definition usurped (es : EndpointSlice) (name : string) (s : knowledge) : Prop :=
  name ∈ g_taken s ∨ ∃ e, g_hub s !! name = Some (Some e) ∧ ¬ linked e es.

(** Why a slice may give up the unique name [name]: it is not the name of an
    object; the hub did not let the slice have it; or the slice is not to be
    exported, and the hub has no export of that name or was asked to delete it,
    which it accepted or answered by not finding it. *)
Definition released (es : EndpointSlice) (name : string) (s : knowledge) : Prop :=
  dns1123Subdomain name = false ∨ usurped es name s ∨
  unexportable es s ∧ (g_hub s !! name = Some None ∨ name ∈ g_deleted s).

(** The export of a slice: its ready endpoints under its own identity. *)
Definition carries (e : EndpointSliceExport) (es : EndpointSlice) : Prop :=
  let spec := ese_Spec e in
  linked e es ∧ ese_AddressType spec = AddressTypeIPv4 ∧
  ese_Endpoints spec = (λ d, {| ep_Addresses := de_Addresses d |}) <$>
    filter (λ d, de_Ready d ≠ Some false) (es_Endpoints es) ∧
  ese_Ports spec = es_Ports es ∧
  osr_Namespace (ese_OwnerServiceReference spec) = om_Namespace (es_ObjectMeta es) ∧
  Some (osr_Name (ese_OwnerServiceReference spec)) = serviceNameOf es.

Definition mayExport (s : knowledge) (o : EndpointSliceExport) : Prop :=
  ∃ es name, g_slice s = Some es ∧ uniqueNameOf es = Some name ∧
    dns1123Subdomain name = true ∧ objectKey o = hubKey name ∧ exportable es s ∧ carries o es.

Definition exportSliceProtocol : protocol eff knowledge := {|
  allowed X c s :=
    match c with
    | ENow | EUUID => True
    | EIntn n => n = 26%Z
    | EGet Member KEndpointSlice key => key = req
    | EGet Member KServiceExport key => ∃ es svc, g_slice s = Some es ∧
        serviceNameOf es = Some svc ∧
        key = {| nn_Namespace := om_Namespace (es_ObjectMeta es); nn_Name := svc |}
    | EGet Hub KEndpointSliceExport key => ∃ es name, g_slice s = Some es ∧
        uniqueNameOf es = Some name ∧ dns1123Subdomain name = true ∧ key = hubKey name
    | ECreate Hub KEndpointSliceExport o => mayExport s o
    | EUpdate Hub KEndpointSliceExport o => mayExport s o ∧
        ∃ es e, g_slice s = Some es ∧
          g_hub s !! nn_Name (objectKey o) = Some (Some e) ∧ linked e es
    | EDelete Hub KEndpointSliceExport key => ∃ es name e, g_slice s = Some es ∧
        uniqueNameOf es = Some name ∧ key = hubKey name ∧ unexportable es s ∧
        g_hub s !! name = Some (Some e) ∧ linked e es
    | EUpdate Member KEndpointSlice o => ∃ es, g_slice s = Some es ∧ sameSlice es o ∧
        ∀ name, uniqueNameOf es = Some name →
          uniqueNameOf o = Some name ∨ released es name s
    | _ => False
    end;
  answer X c s := λ x, serverAnswer c x ∧
    (match c in eff X return X → Prop with
     (* an update of a slice keeps what it is given *)
     | EUpdate Member KEndpointSlice o => λ r,
         match r with inr o' => sameSlice o o' | inl _ => True end
     (* a stored object has a creation time, and only a create finds a name taken *)
     | EGet Hub KEndpointSliceExport key => λ r,
         match r with
         | inr e => om_CreationTimestamp (ese_ObjectMeta e) ≠ None
         | inl err => IsAlreadyExists err = false
         end
     | EUpdate Hub KEndpointSliceExport o => λ r,
         match r with
         | inr o' => ese_Spec o' = ese_Spec o
         | inl err => IsAlreadyExists err = false
         end
     | ECreate Hub KEndpointSliceExport o => λ r,
         match r with inr o' => ese_Spec o' = ese_Spec o | inl _ => True end
     | _ => λ _, True
     end) x;
  next X c :=
    match c in eff X return X → knowledge → knowledge with
    | EGet Member KEndpointSlice key => λ x s,
        match x with
        | inr es => learnSlice es s
        | inl err => if IsNotFound err then learnMissing s else s
        end
    | EUpdate Member KEndpointSlice o => λ x s,
        match x with inr es => learnSlice es s | inl _ => s end
    | EGet Member KServiceExport key => λ x s,
        match x with
        | inr se => learnSvc (Some se) s
        | inl err => if IsNotFound err then learnSvc None s else s
        end
    | EGet Hub KEndpointSliceExport key => λ x s,
        match x with
        | inr e => learnHub (nn_Name key) (Some e) s
        | inl err => if IsNotFound err then learnHub (nn_Name key) None s else s
        end
    | ECreate Hub KEndpointSliceExport o => λ x s,
        match x with
        | inr e => learnHub (nn_Name (objectKey o)) (Some e) s
        | inl err => if IsAlreadyExists err then learnTaken (nn_Name (objectKey o)) s else s
        end
    | EUpdate Hub KEndpointSliceExport o => λ x s,
        match x with inr e => learnHub (nn_Name (objectKey o)) (Some e) s | inl _ => s end
    | EDelete Hub KEndpointSliceExport key => λ x s,
        match IgnoreNotFound x with None => learnDeleted (nn_Name key) s | Some _ => s end
    | _ => λ _ s, s
    end |}.

(** What a round that reports no error leaves behind: no slice, or one that is
    never exported because of its address type, or one that is not to be
    exported and has no unique name, or one that is to be exported and has its
    export on the hub, or one that just lost a unique name the hub did not let
    it have. *)
Definition settled (s : knowledge) : Prop :=
  match g_slice s with
  | None => g_missing s = true
  | Some es =>
      es_AddressType es ≠ AddressTypeIPv4 ∨
      unexportable es s ∧ uniqueNameOf es = None ∨
      exportable es s ∧ match uniqueNameOf es with
        | Some name => dns1123Subdomain name = true ∧
            ∃ e, g_hub s !! name = Some (Some e) ∧ carries e es
        | None => ∃ name, usurped es name s
        end
  end.
Definition roundEnds (x : Result * option error) (s : knowledge) : Prop :=
  x.1 = emptyResult ∧ (x.2 = None → settled s).
End protocol.


(** ** Safety *)

(** Only the ready endpoints are exported. *)
Lemma extractEndpoints_ready ds :
  extractEndpoints ds = (λ d, {| ep_Addresses := de_Addresses d |}) <$>
    filter (λ d, de_Ready d ≠ Some false) ds.
Proof.
  induction ds as [|d ds IH]; [done|]. simpl. rewrite IH, filter_cons.
  destruct (de_Ready d) as [[]|] eqn:Hr; by case_decide.
Qed.

#[local] Instance linked_proper : Proper (eq ==> sameSlice ==> iff) linked.
Proof. intros e ? <- es es' Hs. unfold linked. by rewrite (same_uid _ _ Hs). Qed.
#[local] Instance serviceNameOf_proper : Proper (sameSlice ==> eq) serviceNameOf.
Proof. intros es es' Hs. unfold serviceNameOf. by rewrite (same_labels _ _ Hs). Qed.
Lemma same_namespace es es' :
  sameSlice es es' → om_Namespace (es_ObjectMeta es') = om_Namespace (es_ObjectMeta es).
Proof. intros Hs. by injection (same_key _ _ Hs). Qed.
#[local] Instance carries_proper : Proper (eq ==> sameSlice ==> iff) carries.
Proof.
  intros e ? <- es es' Hs. unfold carries.
  by rewrite (linked_proper e e eq_refl _ _ Hs), (serviceNameOf_proper _ _ Hs),
    (same_endpoints _ _ Hs), (same_ports _ _ Hs), (same_namespace _ _ Hs).
Qed.
#[local] Instance exportable_proper {util : ControllerUtil} :
  Proper (sameSlice ==> eq ==> iff) exportable.
Proof.
  intros es es' Hs s ? <-. unfold exportable.
  by rewrite (serviceNameOf_proper _ _ Hs), (same_type _ _ Hs), (same_deleting _ _ Hs).
Qed.
#[local] Instance unexportable_proper {util : ControllerUtil} :
  Proper (sameSlice ==> eq ==> iff) unexportable.
Proof.
  intros es es' Hs s ? <-. unfold unexportable.
  by rewrite (serviceNameOf_proper _ _ Hs), (same_deleting _ _ Hs).
Qed.
#[local] Instance usurped_proper : Proper (sameSlice ==> eq ==> eq ==> iff) usurped.
Proof. intros es es' Hs name ? <- s ? <-. unfold usurped. by setoid_rewrite Hs. Qed.

Lemma uniqueNameOf_sameMeta es es' :
  sameMeta (es_ObjectMeta es) (es_ObjectMeta es') → uniqueNameOf es' = uniqueNameOf es.
Proof. intros (_ & _ & _ & Ha & _). unfold uniqueNameOf. by rewrite Ha. Qed.
Lemma sameSlice_annotate es f : sameSlice es (updMeta (setAnnotations f) es).
Proof. by split. Qed.
Lemma sameSlice_drop es key : sameSlice es (dropAnnotation key es).
Proof. by split. Qed.
Lemma uniqueNameOf_drop es : uniqueNameOf (dropAnnotation ExportedObjectAnnotationUniqueName es) = None.
Proof. unfold uniqueNameOf, dropAnnotation. apply map_get_delete_eq. Qed.

Section safety.
Context {util : ControllerUtil} {laws : ControllerUtilLaws} {loc : Location}.
Context {validation : Validation} {vlaws : ValidationLaws}.
Context (r : Reconciler) (req : NamespacedName).
Local Abbreviation P := (exportSliceProtocol r req).

Lemma isUniqueNameValid_spec name : isUniqueNameValid name = dns1123Subdomain name.
Proof.
  unfold isUniqueNameValid. pose proof (IsDNS1123Subdomain_spec name) as Hs.
  case_bool_decide as Hb; [by rewrite (proj1 Hs)|].
  symmetry. apply not_true_is_false. by rewrite <-Hs.
Qed.

Lemma learnHub_lookup key (e : option EndpointSliceExport) (m : gmap string _) name :
  key = name → <[key := e]> m !! name = Some e.
Proof. intros ->. apply lookup_insert_eq. Qed.

Lemma named_in key (m : gset string) name : key = name → name ∈ {[key]} ∪ m.
Proof. intros ->. set_solver. Qed.

(** What the first decision knows. *)
Definition decided (es : EndpointSlice) (x : skipOrUnexportEndpointSliceOp * option error)
    (s : knowledge) : Prop :=
  x.2 = None → match x.1 with
    | shouldSkipEndpointSliceOp => es_AddressType es ≠ AddressTypeIPv4 ∨
                                   unexportable es s ∧ uniqueNameOf es = None
    | shouldUnexportEndpointSliceOp => is_Some (uniqueNameOf es) ∧ unexportable es s
    | continueReconcileOp => exportable es s
    end.

Lemma shouldSkipOrUnexportEndpointSlice_wp es s :
  g_slice s = Some es →
  wp P (shouldSkipOrUnexportEndpointSlice es) s (λ x s', g_slice s' = Some es ∧ decided es x s').
Proof.
  intros He. unfold shouldSkipOrUnexportEndpointSlice, isEndpointSlicePermanentlyUnexportable.
  case_bool_decide as Hty; simpl; [|apply wp_ret; split; [done|by left]].
  set (skipOrUnexport := match uniqueNameOf es with Some _ => _ | None => _ end).
  assert (∀ s', unexportable es s' → decided es (skipOrUnexport, None) s') as Hskip.
  { intros s' Hu _. subst skipOrUnexport. simpl. destruct (uniqueNameOf es); [by split|right; by split]. }
  destruct (serviceNameOf es) as [svc|] eqn:Hsvc.
  2: { apply wp_ret. split; [done|]. apply Hskip. by left. }
  apply wp_bind, wp_Get; [by exists es, svc|]. intros [err|se] _; simpl.
  - destruct (IsNotFound err); apply wp_ret; (split; [done|]); [|done].
    apply Hskip. do 2 right. by left.
  - simpl in se. pose proof (isServiceExportValidWithNoConflict_spec se) as Hv.
    destruct (isServiceExportValidWithNoConflict se); simpl.
    + destruct (isDeleting es) eqn:Hd; apply wp_ret; (split; [done|]).
      * apply Hskip. right. by left.
      * intros _. split; [done|]. split; [by rewrite Hsvc|]. split; [done|]. by exists se.
    + apply wp_ret. split; [done|]. apply Hskip. do 3 right. by exists se.
Qed.

Lemma deleteEndpointSliceExportIfLinked_wp es name s :
  g_slice s = Some es → uniqueNameOf es = Some name → unexportable es s →
  wp P (deleteEndpointSliceExportIfLinked r es) s (λ err s',
    err = None → g_slice s' = Some es ∧ unexportable es s' ∧ released es name s').
Proof.
  intros He Hn Hu. unfold deleteEndpointSliceExportIfLinked, map_getz. fold (uniqueNameOf es).
  rewrite Hn. simpl. rewrite isUniqueNameValid_spec.
  destruct (dns1123Subdomain name) eqn:Hv; simpl; [|apply wp_ret; intros _; do 2 (split; [done|]); by left].
  apply wp_bind, wp_Get; [by exists es, name|]. intros [err|e] [Hk _]; simpl in *.
  { destruct (IsNotFound err); apply wp_ret; [|done]. intros _. do 2 (split; [done|]).
    do 2 right. split; [done|]. left. apply lookup_insert_eq. }
  unfold isEndpointSliceExportLinkedWithEndpointSlice. case_bool_decide as Hl; simpl.
  - apply wp_bind, wp_Delete.
    { exists es, name, e. do 3 (split; [done|]). split; [exact Hu|].
      split; [apply lookup_insert_eq|done]. }
    intros x _. apply wp_ret. simpl. intros Hx. rewrite Hx. do 2 (split; [done|]).
    do 2 right. split; [done|]. right. apply named_in. exact (f_equal nn_Name Hk).
  - apply wp_ret. intros _. do 2 (split; [done|]). right. left. right. exists e.
    split; [apply lookup_insert_eq|done].
Qed.

Lemma unexportEndpointSlice_wp es s :
  g_slice s = Some es → is_Some (uniqueNameOf es) → unexportable es s →
  wp P (unexportEndpointSlice r es) s (λ err s', err = None → settled s').
Proof.
  intros He [name Hn] Hu. apply wp_bind.
  eapply wp_mono; [by apply deleteEndpointSliceExportIfLinked_wp|].
  intros [err|] s' Hok; [by apply wp_ret|]. destruct (Hok eq_refl) as (He' & Hu' & Hr).
  apply wp_bind, wp_Update.
  { exists es. split; [done|]. split; [by split|]. intros ? [= <-]%(eq_trans (eq_sym Hn)). by right. }
  intros [err|es'] [Hm Hs]; apply wp_ret; [done|]. intros _. simpl in es'. right. left.
  rewrite (uniqueNameOf_sameMeta _ _ Hm). split; [|apply uniqueNameOf_drop].
  change (unexportable es' s'). rewrite <-(Hs : sameSlice _ es'). by rewrite <-sameSlice_drop.
Qed.

(** The slice in hand and the stored one carry the same valid unique name. *)
Definition named (es : EndpointSlice) (name : string) (s : knowledge) : Prop :=
  dns1123Subdomain name = true ∧ uniqueNameOf es = Some name ∧
  ∃ st, g_slice s = Some st ∧ sameSlice st es ∧ uniqueNameOf st = Some name.
Definition sameElse (s s' : knowledge) : Prop :=
  g_svc s' = g_svc s ∧ g_hub s' = g_hub s ∧ g_taken s' = g_taken s.

(** An update of a named slice that keeps its name. *)
Lemma updateNamed_wp es name s annotations :
  named es name s → map_get annotations ExportedObjectAnnotationUniqueName = Some name →
  wp P (Update Member KEndpointSlice (updMeta (setAnnotations annotations) es)) s (λ x s',
    named x.2 name s' ∧ sameElse s s' ∧ sameSlice es x.2).
Proof.
  intros (Hv & Hn & st & Hst & Hs & Hnst) Ha. apply wp_Update.
  { exists st. split; [done|]. split; [by etrans; [|apply sameSlice_annotate]|].
    intros ? [= <-]%(eq_trans (eq_sym Hnst)). by left. }
  intros [err|es'] [Hm Hs']; simpl.
  - split; [|split; [done|apply sameSlice_annotate]]. split; [done|]. split; [done|].
    exists st. split; [done|]. split; [by etrans; [|apply sameSlice_annotate]|done].
  - simpl in es'. assert (uniqueNameOf es' = Some name) as Hn'
      by (by rewrite (uniqueNameOf_sameMeta _ _ Hm)).
    split; [|split; [done|by etrans; [apply sameSlice_annotate|]]]. split; [done|]. split; [done|].
    by exists es'.
Qed.

Lemma annotateLastSeen_wp es name s t :
  named es name s →
  wp P (annotateLastSeenGenerationAndTimestamp es t) s (λ x s',
    named x.2 name s' ∧ sameElse s s' ∧ sameSlice es x.2).
Proof.
  intros Hnd. pose proof Hnd as (_ & Hn & _). unfold annotateLastSeenGenerationAndTimestamp.
  unfold uniqueNameOf in Hn. destruct (om_Annotations (es_ObjectMeta es)) as [m|]; [|done].
  apply wp_bind, wp_ret, wp_bind, wp_ret, (updateNamed_wp es name); [done|].
  by rewrite map_get_some, !lookup_insert_ne.
Qed.

Lemma collectAndVerify_wp es name s t :
  named es name s →
  wp P (collectAndVerifyLastSeenGenerationAndTimestamp es t) s (λ x s',
    named x.2 name s' ∧ sameElse s s' ∧ sameSlice es x.2).
Proof.
  intros Hnd.
  assert (wp P ('(err, es) ← annotateLastSeenGenerationAndTimestamp es t; mret ((t, err), es)) s
    (λ x s', named x.2 name s' ∧ sameElse s s' ∧ sameSlice es x.2)) as Hann.
  { apply wp_bind. eapply wp_mono; [by apply annotateLastSeen_wp|]. intros [err es'] s' Hx. by apply wp_ret. }
  unfold collectAndVerifyLastSeenGenerationAndTimestamp.
  repeat case_match; try exact Hann. by apply wp_ret.
Qed.

Lemma assignUniqueNameAsAnnotation_wp es s :
  g_slice s = Some es → (∀ name, uniqueNameOf es = Some name → dns1123Subdomain name = false) →
  wp P (assignUniqueNameAsAnnotation r es) s (λ x s',
    x.1.2 = None → named x.2 x.1.1 s' ∧ sameElse s s' ∧ sameSlice es x.2).
Proof.
  intros He Hinv. apply wp_bind, FleetScopedUniqueName_checked; [done|by intros u []|].
  intros u named Hnamed. cbn [next exportSliceProtocol]. apply wp_bind.
  apply (wp_mono _ _ _ (λ name s', dns1123Subdomain name = true ∧ s' = s)).
  { destruct named as [err|name]; [|by apply wp_ret].
    apply (RandomLowerCaseAlphabeticString_wp _ _ _ _ (λ s', s' = s)); [|intros name s' -> Hlen Hlow|done].
    - intros ? ->. split; [done|]. intros i [Hi _]. done.
    - split; [|done]. apply (allLower_valid DNS1123Subdomain); [done|]. rewrite Hlen. lia. }
  intros name ? [Hname ->]. unfold map_init, map_set. apply wp_bind, wp_ret, wp_bind, wp_Update.
  { exists es. split; [done|]. split; [apply sameSlice_annotate|]. intros old Hold. right. left. by apply Hinv. }
  intros [err|es'] [Hm Hs']; apply wp_ret; [done|]. intros _. simpl in es'.
  assert (uniqueNameOf es' = Some name) as Hn'.
  { rewrite (uniqueNameOf_sameMeta _ _ Hm). apply lookup_insert_eq. }
  split; [|split; [done|by etrans; [apply sameSlice_annotate|]]]. split; [done|]. split; [done|].
  by exists es'.
Qed.


(** The mutation builds the export of the slice, or refuses one that another
    slice has under the name. *)
Lemma mutateExport_spec es name t e :
  is_Some (serviceNameOf es) →
  let '(err, o) := mutateExport r es name t e in
  objectKey o = objectKey e ∧
  match err with
  | None => carries o es ∧ (om_CreationTimestamp (ese_ObjectMeta e) ≠ None → linked e es)
  | Some err => IsAlreadyExists err = true ∧ om_CreationTimestamp (ese_ObjectMeta e) ≠ None ∧
                ¬ linked e es
  end.
Proof.
  intros [svc Hsvc]. unfold mutateExport, isEndpointSliceExportLinkedWithEndpointSlice. cbn.
  assert (svc = map_getz (om_Labels (es_ObjectMeta es)) LabelServiceName) as ->
    by (unfold map_getz; fold (serviceNameOf es); by rewrite Hsvc).
  destruct (om_CreationTimestamp _); simpl; case_bool_decide as Hl; simpl; try done.
  - split; [done|]. split; [|done]. by split; [|rewrite Hsvc, <-extractEndpoints_ready].
  - split; [done|]. split; [|done]. by split; [|rewrite Hsvc, <-extractEndpoints_ready].
Qed.

Lemma syncExport_wp es name t s o :
  named es name s → exportable es s → objectKey o = hubKey r name →
  om_CreationTimestamp (ese_ObjectMeta o) = None →
  wp P (CreateOrUpdate Hub KEndpointSliceExport o (λ e, mret (mutateExport r es name t e))) s
    (λ x s', g_slice s' = g_slice s ∧ g_svc s' = g_svc s ∧ match x.1 with
       | None => ∃ e, g_hub s' !! name = Some (Some e) ∧ carries e es
       | Some err => IsAlreadyExists err = true → usurped es name s'
       end).
Proof.
  intros (Hv & Hn & st & Hst & Hs & Hnst) Hex Hk Hnew.
  assert (is_Some (serviceNameOf es)) as Hsvc by apply Hex.
  assert (∀ o' s', objectKey o' = hubKey r name → carries o' es →
    g_slice s' = g_slice s → g_svc s' = g_svc s → mayExport r s' o') as Hmay.
  { intros o' s' Hk' Hc Hsl Hsv. exists st, name. rewrite Hsl. do 4 (split; [done|]).
    rewrite <-Hs in Hc. split; [|done]. rewrite Hs. unfold exportable. rewrite Hsv. exact Hex. }
  assert (@objectKey _ (obj_Object KEndpointSliceExport) o = hubKey r name) as Hko by exact Hk.
  apply CreateOrUpdate_wp; rewrite Hko; [by exists st, name|]. intros [err|cur] Hget.
  - destruct (IsNotFound err) eqn:Hnf; simpl; rewrite ?Hnf.
    2: { split; [done|]. split; [done|]. destruct Hget as [_ ->]. done. }
    apply wp_ret. pose proof (mutateExport_spec es name t o Hsvc) as Hmut.
    destruct (mutateExport r es name t o) as [[e|] o']; destruct Hmut as [Hk' Hmut].
    { by destruct Hmut as (_ & ? & _). }
    destruct Hmut as [Hc _]. rewrite Hk in Hk'. split; [exact Hk'|]. split; [by apply Hmay|].
    intros [err'|e'] [Hm Hspec]; simpl.
    + destruct (IsAlreadyExists err') eqn:Ha; [|done]. split; [done|]. split; [done|]. intros _. left.
      apply named_in. exact (f_equal nn_Name Hk').
    + split; [done|]. split; [done|]. exists e'. split; [apply learnHub_lookup; exact (f_equal nn_Name Hk')|].
      simpl in Hspec. unfold carries, linked in *. by rewrite Hspec.
  - simpl in cur, Hget. destruct Hget as [Hkc Hcr]. apply wp_ret.
    pose proof (mutateExport_spec es name t cur Hsvc) as Hmut.
    destruct (mutateExport r es name t cur) as [[e|] o']; destruct Hmut as [Hk' Hmut].
    { split; [done|]. split; [done|]. intros _. right. exists cur.
      split; [by apply learnHub_lookup|by destruct Hmut as (_ & _ & ?)]. }
    destruct Hmut as [Hc Hl]. rewrite Hkc in Hk'. split; [exact Hk'|]. split.
    + intros Heq. split; [done|]. split; [done|]. exists cur. split; [by apply learnHub_lookup|].
      by rewrite <-Heq.
    + intros _. split.
      { split; [by apply Hmay|]. exists st, cur. split; [done|].
        split; [|rewrite Hs; by apply Hl].
        apply learnHub_lookup. symmetry. exact (f_equal nn_Name Hk'). }
      intros [err'|e'] [Hm Hspec]; simpl.
      * simpl in Hspec. by rewrite Hspec.
      * split; [done|]. split; [done|]. exists e'. split; [apply learnHub_lookup; exact (f_equal nn_Name Hk')|].
        simpl in Hspec. unfold carries, linked in *. by rewrite Hspec.
Qed.

Lemma exportEndpointSlice_wp es name t s :
  named es name s → exportable es s → wp P (exportEndpointSlice r es name t) s roundEnds.
Proof.
  intros Hnd Hex. apply wp_bind. eapply wp_mono; [by apply collectAndVerify_wp|].
  intros [[t' err] es'] s' (Hnd' & (Hsv & _) & Hs'). simpl in Hnd', Hs'.
  assert (exportable es' s') as Hex'.
  { rewrite <-Hs'. unfold exportable. rewrite Hsv. exact Hex. }
  apply wp_bind. eapply wp_mono; [by apply syncExport_wp|].
  intros [err' e] s2 (Hsl & Hsv2 & Hx). simpl in Hx.
  destruct Hnd' as (Hv & Hn & st & Hst & Hs & Hnst). destruct err' as [err'|].
  - destruct (IsAlreadyExists err'); [|by apply wp_ret]. specialize (Hx eq_refl). rewrite <-Hs in Hx.
    apply wp_bind, wp_Update.
    { exists st. split; [by rewrite Hsl|]. split; [by etrans; [|apply sameSlice_drop]|].
      intros ? [= <-]%(eq_trans (eq_sym Hnst)). right. right. by left. }
    intros [err2|es2] [Hm Hs2]; apply wp_ret; [done|]. split; [done|]. intros _. simpl in es2.
    assert (sameSlice st es2) as Hst2
      by (etrans; [exact Hs|]; etrans; [apply sameSlice_drop|exact Hs2]).
    right. right. rewrite (uniqueNameOf_sameMeta _ _ Hm), uniqueNameOf_drop. split.
    + change (exportable es2 s2). rewrite <-Hst2, Hs. unfold exportable. by rewrite Hsv2.
    + exists name. change (usurped es2 name s2). by rewrite <-Hst2.
  - destruct Hx as (e' & He' & Hc). apply wp_ret. split; [done|]. intros _. unfold settled.
    rewrite Hsl, Hst, Hnst. right. right. split.
    + rewrite Hs. unfold exportable. by rewrite Hsv2.
    + split; [done|]. exists e'. by rewrite Hs.
Qed.

(** C14: every exchange of a round follows the export protocol; nothing panics
    and no requeue is asked for. The hub is only written for a live IPv4 slice
    of a Service whose export is valid and free of conflict, under the unique
    name stored on the slice, with exactly the ready endpoints; an existing
    export is only overwritten or deleted when it has the identity of the
    slice. The unique name is only given up or replaced when it is invalid,
    when the hub refused an export of that name because one exists (whoever
    owns it) or holds another slice's, or, for a slice not to be exported,
    when the hub holds no such export or accepted its deletion (the object may
    still wait for its finalizers). A round without an error found no slice or
    one of another address type, or leaves a slice not to be exported without
    a unique name, and one to be exported with its export on the hub, or
    without a name that the hub did not let it have. *)
Theorem Reconcile_follows_slice_protocol : wp P (Reconcile r req) nothingKnown roundEnds.
Proof.
  apply wp_bind, wp_Now; [done|]. intros t _. apply wp_bind, wp_Get; [done|].
  intros [err|es] _; simpl.
  { unfold IgnoreNotFound. destruct (IsNotFound err); by apply wp_ret. }
  simpl in es. apply wp_bind.
  eapply wp_mono; [by apply shouldSkipOrUnexportEndpointSlice_wp|].
  intros [op [err|]] s [He Hop]; [by apply wp_ret|]. specialize (Hop eq_refl). simpl in Hop.
  destruct op.
  - apply wp_ret. split; [done|]. intros _. unfold settled. rewrite He.
    destruct Hop; [by left|by right; left].
  - destruct Hop as [Hn Hu]. apply wp_bind. eapply wp_mono; [by apply unexportEndpointSlice_wp|].
    intros err s' Hs'. by apply wp_ret.
  - apply wp_bind.
    apply (wp_mono _ _ _ (λ x s', x.1.2 = None → named x.2 x.1.1 s' ∧ sameElse s s' ∧ sameSlice es x.2)).
    { destruct (uniqueNameOf es) as [name|] eqn:Hn; [|by apply assignUniqueNameAsAnnotation_wp; [|rewrite Hn]].
      rewrite isUniqueNameValid_spec. destruct (dns1123Subdomain name) eqn:Hv.
      - apply wp_ret. intros _. split; [|done]. split; [done|]. split; [done|]. by exists es.
      - apply assignUniqueNameAsAnnotation_wp; [done|]. rewrite Hn. by intros ? [= <-]. }
    intros [[name [err|]] es'] s' Hok; [by apply wp_ret|].
    destruct (Hok eq_refl) as (Hnd & (Hsv & _) & Hs). apply exportEndpointSlice_wp; [done|].
    simpl in Hs. rewrite <-Hs. unfold exportable. by rewrite Hsv.
Qed.
End safety.

(** ** Runs *)

Module Demo.
Definition r : Reconciler := {| MemberClusterID := "bravelion"; HubNamespace := "fleet-member-bravelion" |}.
Definition name : NamespacedName := {| nn_Namespace := "work"; nn_Name := "app-x1" |}.
Definition uniqueName := "bravelion-work-app-x1-00000".
Definition slice (annotations : gomap) : EndpointSlice := {|
  es_TypeMeta := {| tm_Kind := "EndpointSlice"; tm_APIVersion := "v1" |};
  es_ObjectMeta := setAnnotations annotations
    (setLabels (Some {[LabelServiceName := "app"]}) (newObjectMeta "work" "app-x1"));
  es_AddressType := AddressTypeIPv4;
  es_Endpoints := [{| de_Addresses := ["10.0.0.1"]; de_Ready := Some true |};
                   {| de_Addresses := ["10.0.0.2"]; de_Ready := Some false |};
                   {| de_Addresses := ["10.0.0.3"]; de_Ready := None |}];
  es_Ports := [] |}.
Definition condition (t status : string) : Condition := {|
  c_Type := t; c_Status := status; c_ObservedGeneration := 0; c_LastTransitionTime := None;
  c_Reason := ""; c_Message := "" |}.
Definition svcExport : ServiceExport := {|
  se_TypeMeta := {| tm_Kind := "ServiceExport"; tm_APIVersion := "v1beta1" |};
  se_ObjectMeta := newObjectMeta "work" "app";
  se_Conditions := [condition ServiceExportValid ConditionTrue;
                    condition ServiceExportConflict ConditionFalse] |}.
Definition world0 (annotations : gomap) (exported : bool) : world := {|
  w_member := storeAlter KEndpointSlice <[name := slice annotations]>
    (if exported
     then storeAlter KServiceExport <[{| nn_Namespace := "work"; nn_Name := "app" |} := svcExport]> emptyStore
     else emptyStore);
  w_hub := emptyStore; w_version := 1; w_clock := 0%Z |}.
Definition round (w : world) : world :=
  (run (serve (λ _ _ _, [])) (Reconcile (util := Reference.util) (loc := Reference.utc)
    (validation := ReferenceDns.validation) r name) w).2.
(** The unique name of the slice and the endpoints on the hub. *)
Definition view (w : world) : option (option string) * option (list Endpoint) :=
  (uniqueNameOf <$> w_member w KEndpointSlice !! name,
   (λ e, ese_Endpoints (ese_Spec e)) <$> w_hub w KEndpointSliceExport !! hubKey r uniqueName).
End Demo.

Lemma Reconcile_follows_slice_protocol_witness :
  wp (exportSliceProtocol (util := Reference.util) Demo.r Demo.name)
    (Reconcile (util := Reference.util) (loc := Reference.utc)
       (validation := ReferenceDns.validation) Demo.r Demo.name) nothingKnown
    (roundEnds (util := Reference.util)) ∧
  Demo.view (Demo.round (Demo.world0 None true)) =
    (Some (Some Demo.uniqueName),
     Some [{| ep_Addresses := ["10.0.0.1"] |}; {| ep_Addresses := ["10.0.0.3"] |}]) ∧
  Demo.view (Demo.round (Demo.world0
    (Some {[ExportedObjectAnnotationUniqueName := Demo.uniqueName]}) false)) = (Some None, None).
Proof.
  split; [apply (Reconcile_follows_slice_protocol (laws := Reference.laws)
                   (vlaws := ReferenceDns.validation_laws))|].
  split; vm_compute; reflexivity.
Defined.

End endpointslice.
