(* ===== verification/MemberEndpointSliceImport.v ===== *)
(** * [pkg/controllers/member/endpointsliceimport]: importing EndpointSlices

    The member controller that turns an EndpointSliceImport of the hub into an
    EndpointSlice of the Service derived from the MultiClusterService that
    imports its owner, and measures how long the slice was under way. *)

From S2P Require Import Prelude Prog Go Dns Api Fleet Azure Effects Deps.
From S2P Require Import Protocols ApiServer ObjectMeta.

Module endpointsliceimport.

Definition controllerID := "endpointsliceimport-controller.networking.fleet.azure.com".
Definition endpointSliceImportCleanupFinalizer :=
  "networking.fleet.azure.com/endpointsliceimport-cleanup".
Definition mcsServiceImportRefFieldKey := ".spec.serviceImport.name".
Definition endpointSliceImportRetryInterval : Duration := (Second * 2)%Z.
Definition endpointSliceExportImportDuration :=
  "fleet_networking_endpointslice_export_import_duration_milliseconds".

Record Reconciler := { MemberClusterID : string; FleetSystemNamespace : string }.

(** The index function of [SetupWithManager]. *)
Definition indexerFunc (mcs : MultiClusterService) : list string := [mcs_ServiceImport mcs].

(** ** Operations *)

Fixpoint scanForDerivedServiceName (items : list MultiClusterService) : string :=
  match items with
  | [] => ""
  | mcs :: items =>
      if isDeleting mcs then scanForDerivedServiceName items
      else match map_get (om_Labels (mcs_ObjectMeta mcs)) MultiClusterServiceLabelDerivedService with
           | Some svcName => svcName
           | None => scanForDerivedServiceName items
           end
  end.

Definition formatEndpointSliceFromImport (es : EndpointSlice) (derivedSvcName : string)
    (i : EndpointSliceImport) : EndpointSlice := {|
  es_TypeMeta := es_TypeMeta es;
  es_ObjectMeta := setLabels (Some (<[LabelManagedBy := controllerID]>
                                     {[LabelServiceName := derivedSvcName]})) (es_ObjectMeta es);
  es_AddressType := ese_AddressType (esi_Spec i);
  es_Endpoints := (λ e, {| de_Addresses := ep_Addresses e; de_Ready := None |})
                    <$> ese_Endpoints (esi_Spec i);
  es_Ports := ese_Ports (esi_Spec i) |}.

(** The EndpointSlice an EndpointSliceImport is imported as. *)
Definition newSlice (r : Reconciler) (i : EndpointSliceImport) : EndpointSlice := {|
  es_TypeMeta := {| tm_Kind := ""; tm_APIVersion := "" |};
  es_ObjectMeta := newObjectMeta (FleetSystemNamespace r) (om_Name (esi_ObjectMeta i));
  es_AddressType := ""; es_Endpoints := []; es_Ports := [] |}.

Definition lastObserved (i : EndpointSliceImport) : option string :=
  map_get (om_Annotations (esi_ObjectMeta i)) MetricsAnnotationLastObservedGeneration.
Definition currentGeneration (i : EndpointSliceImport) : string :=
  FormatInt (ref_Generation (ese_EndpointSliceReference (esi_Spec i))).

(** The [%t] verb. *)
Definition formatBool (b : bool) : string := if b then "true" else "false".

Section controller.
Context {util : ControllerUtil} {validation : Validation}.

Definition unimportEndpointSlice (r : Reconciler) (i : EndpointSliceImport) : IO (option error) :=
  if negb (hasFinalizer i endpointSliceImportCleanupFinalizer) then mret None else
  err ← Delete Member KEndpointSlice (newSlice r i);
  match IgnoreNotFound err with
  | Some err => mret (Some err)
  | None =>
      '(err, _) ← Update Hub KEndpointSliceImport
         (removeFinalizer i endpointSliceImportCleanupFinalizer);
      mret err
  end.

Definition addEndpointSliceImportCleanupFinalizer (i : EndpointSliceImport)
    : IO (option error * EndpointSliceImport) :=
  if hasFinalizer i endpointSliceImportCleanupFinalizer then mret (None, i)
  else Update Hub KEndpointSliceImport (addFinalizer i endpointSliceImportCleanupFinalizer).

Definition isDerivedServiceValid (r : Reconciler) (derivedSvcName : string)
    : IO (bool * option error) :=
  match IsDNS1035Label derivedSvcName with
  | _ :: _ => mret (false, None)
  | [] =>
      got ← Get Member KService
        {| nn_Namespace := FleetSystemNamespace r; nn_Name := derivedSvcName |};
      match got with
      | inl err => mret (false, IgnoreNotFound (Some err))
      | inr derivedSvc => mret (negb (isDeleting (derivedSvc : Service)), None)
      end
  end.

Definition observeMetrics (r : Reconciler) (i : EndpointSliceImport) (startTime : Time)
    : IO (option error) :=
  let isFirstImport := bool_decide (lastObserved i = None) in
  if bool_decide (lastObserved i = Some (currentGeneration i)) then mret None else
  annotations ← map_set (map_init (om_Annotations (esi_ObjectMeta i)))
    MetricsAnnotationLastObservedGeneration (currentGeneration i);
  '(err, i) ← Update Hub KEndpointSliceImport (updMeta (setAnnotations annotations) i);
  match err with
  | Some err => mret (Some err)
  | None =>
      let ref := ese_EndpointSliceReference (esi_Spec i) in
      match ref_ExportedSince ref with
      | None => mret None
      | Some exportedSince =>
          call (EMetric endpointSliceExportImportDuration
                  [ref_ClusterID ref; MemberClusterID r; formatBool isFirstImport]
                  (exportDuration startTime exportedSince));;
          mret None
      end
  end.

Definition Reconcile (r : Reconciler) (req : NamespacedName) : IO (Result * option error) :=
  got ← Get Hub KEndpointSliceImport req;
  match got with
  | inl err => mret (emptyResult, IgnoreNotFound (Some err))
  | inr i =>
      if isDeleting (i : EndpointSliceImport)
      then err ← unimportEndpointSlice r i; mret (emptyResult, err)
      else
      let owner := ese_OwnerServiceReference (esi_Spec i) in
      listed ← List Member KMultiClusterService
        {| lo_Namespace := Some (osr_Namespace owner);
           lo_Fields := [(mcsServiceImportRefFieldKey, osr_Name owner)]; lo_Labels := [] |};
      match listed with
      | inl err => mret (emptyResult, Some err)
      | inr [] => mret (emptyResult, None)
      | inr items =>
          let derivedSvcName := scanForDerivedServiceName items in
          '(isValid, err) ← isDerivedServiceValid r derivedSvcName;
          match err with
          | Some err => mret (emptyResult, Some err)
          | None =>
              if negb isValid
              then mret ({| Requeue := false; RequeueAfter := endpointSliceImportRetryInterval |}, None)
              else
              '(err, i) ← addEndpointSliceImportCleanupFinalizer i;
              match err with
              | Some err => mret (emptyResult, Some err)
              | None =>
                  '(err, _) ← CreateOrUpdate Member KEndpointSlice (newSlice r i)
                     (λ es, mret (None, formatEndpointSliceFromImport es derivedSvcName i));
                  match err with
                  | Some err => mret (emptyResult, Some err)
                  | None =>
                      now ← Now;
                      err ← observeMetrics r i now;
                      mret (emptyResult, err)
                  end
              end
          end
      end
  end.
End controller.

(** ** The protocol of the controller

    What it knows: the stored import, or that there is none; the
    MultiClusterServices that import its owner; the derived Service, which may
    be known not to exist; whether the deletion of the slice was accepted, or it
    was not found; the slice as it was read or written last; and whether the
    generation of the import was recorded in this round and not yet measured. *)
Record knowledge := {
  h_import : option EndpointSliceImport;
  h_missing : bool;
  h_mcs : option (list MultiClusterService);
  h_service : option (option Service);
  h_deleted : bool;
  h_slice : option EndpointSlice;
  h_fresh : bool;
}.
Definition nothingKnown : knowledge :=
  {| h_import := None; h_missing := false; h_mcs := None; h_service := None; h_deleted := false; h_slice := None;
     h_fresh := false |}.
Definition learnImport (i : EndpointSliceImport) (s : knowledge) : knowledge :=
  {| h_import := Some i; h_missing := h_missing s; h_mcs := h_mcs s; h_service := h_service s;
     h_deleted := h_deleted s; h_slice := h_slice s;
     h_fresh := h_fresh s || bool_decide (lastObserved <$> h_import s ≠ Some (lastObserved i)) |}.
Definition readImport (i : EndpointSliceImport) (s : knowledge) : knowledge :=
  {| h_import := Some i; h_missing := h_missing s; h_mcs := h_mcs s; h_service := h_service s;
     h_deleted := h_deleted s; h_slice := h_slice s; h_fresh := h_fresh s |}.
Definition learnMissing (s : knowledge) : knowledge :=
  {| h_import := h_import s; h_missing := true; h_mcs := h_mcs s; h_service := h_service s;
     h_deleted := h_deleted s; h_slice := h_slice s; h_fresh := h_fresh s |}.
Definition learnMcs (items : list MultiClusterService) (s : knowledge) : knowledge :=
  {| h_import := h_import s; h_missing := h_missing s; h_mcs := Some items; h_service := h_service s;
     h_deleted := h_deleted s; h_slice := h_slice s; h_fresh := h_fresh s |}.
Definition learnService (svc : option Service) (s : knowledge) : knowledge :=
  {| h_import := h_import s; h_missing := h_missing s; h_mcs := h_mcs s; h_service := Some svc;
     h_deleted := h_deleted s; h_slice := h_slice s; h_fresh := h_fresh s |}.
Definition learnDeleted (s : knowledge) : knowledge :=
  {| h_import := h_import s; h_missing := h_missing s; h_mcs := h_mcs s; h_service := h_service s;
     h_deleted := true; h_slice := None; h_fresh := h_fresh s |}.
Definition learnSlice (es : EndpointSlice) (s : knowledge) : knowledge :=
  {| h_import := h_import s; h_missing := h_missing s; h_mcs := h_mcs s; h_service := h_service s;
     h_deleted := h_deleted s; h_slice := Some es; h_fresh := h_fresh s |}.
Definition measured (s : knowledge) : knowledge :=
  {| h_import := h_import s; h_missing := h_missing s; h_mcs := h_mcs s; h_service := h_service s;
     h_deleted := h_deleted s; h_slice := h_slice s; h_fresh := false |}.

Section protocol.
Context (r : Reconciler) (req : NamespacedName).

Definition hasCleanup (i : EndpointSliceImport) : Prop :=
  endpointSliceImportCleanupFinalizer ∈ finalizersOf i.
Definition sliceKey : NamespacedName :=
  {| nn_Namespace := FleetSystemNamespace r; nn_Name := nn_Name req |}.
Definition ownerQuery (i : EndpointSliceImport) : ListOptions :=
  let owner := ese_OwnerServiceReference (esi_Spec i) in
  {| lo_Namespace := Some (osr_Namespace owner);
     lo_Fields := [(mcsServiceImportRefFieldKey, osr_Name owner)]; lo_Labels := [] |}.

(** [name] is the derived Service of a live MultiClusterService that imports
    the owner of the slice. *)
Definition derivedFrom (s : knowledge) (name : string) : Prop :=
  ∃ items mcs, h_mcs s = Some items ∧ mcs ∈ items ∧ isDeleting mcs = false ∧
    map_get (om_Labels (mcs_ObjectMeta mcs)) MultiClusterServiceLabelDerivedService = Some name.

(** The slice is the one the import describes, bound to the Service. *)
Definition represents (es : EndpointSlice) (i : EndpointSliceImport) (svc : string) : Prop :=
  om_Labels (es_ObjectMeta es) =
    Some {[LabelManagedBy := controllerID; LabelServiceName := svc]} ∧
  es_AddressType es = ese_AddressType (esi_Spec i) ∧
  de_Addresses <$> es_Endpoints es = ep_Addresses <$> ese_Endpoints (esi_Spec i) ∧
  Forall (λ e, de_Ready e = None) (es_Endpoints es) ∧ es_Ports es = ese_Ports (esi_Spec i).

(** The live derived Service the slice can be bound to. *)
Definition bindable (s : knowledge) (name : string) : Prop :=
  dns1035Label name = true ∧ derivedFrom s name ∧
  ∃ svc, h_service s = Some (Some svc) ∧ isDeleting svc = false ∧
    objectKey svc = {| nn_Namespace := FleetSystemNamespace r; nn_Name := name |}.

Definition mayImport (s : knowledge) (es : EndpointSlice) : Prop :=
  ∃ i name, h_import s = Some i ∧ isDeleting i = false ∧ hasCleanup i ∧
    objectKey es = sliceKey ∧ bindable s name ∧ represents es i name.

Definition importSliceProtocol : protocol eff knowledge := {|
  allowed X c s :=
    match c with
    | ENow => True
    | EGet Hub KEndpointSliceImport key => key = req
    | EList Member KMultiClusterService opts =>
        ∃ i, h_import s = Some i ∧ isDeleting i = false ∧ opts = ownerQuery i
    | EGet Member KService key => nn_Namespace key = FleetSystemNamespace r ∧
        (derivedFrom s (nn_Name key) ∧ dns1035Label (nn_Name key) = true)
    | EGet Member KEndpointSlice key => key = sliceKey
    | ECreate Member KEndpointSlice o => mayImport s o
    | EUpdate Member KEndpointSlice o => mayImport s o
    | EDelete Member KEndpointSlice key => key = sliceKey ∧
        ∃ i, h_import s = Some i ∧ isDeleting i = true ∧ hasCleanup i
    | EUpdate Hub KEndpointSliceImport o => ∃ i, h_import s = Some i ∧ objectKey o = req ∧
        esi_Spec o = esi_Spec i ∧
        (hasCleanup i → hasCleanup o ∨ isDeleting i = true ∧ h_deleted s = true)
    | EMetric name labels v => name = endpointSliceExportImportDuration ∧
        (1 ≤ v ≤ ExportDurationRightBound)%Z ∧ h_fresh s = true ∧
        ∃ i, h_import s = Some i ∧ lastObserved i = Some (currentGeneration i) ∧
          is_Some (h_slice s)
    | _ => False
    end;
  answer X c s := λ x, serverAnswer c x ∧
    (match c in eff X return X → Prop with
     (* updates keep the spec they are given and the deletion mark *)
     | EUpdate Hub KEndpointSliceImport o => λ x,
         match x with
         | inr o' => esi_Spec o' = esi_Spec o ∧ isDeleting o' = isDeleting o
         | inl _ => True
         end
     | ECreate Member KEndpointSlice o => λ x,
         match x with inr o' => es_AddressType o' = es_AddressType o ∧
             es_Endpoints o' = es_Endpoints o ∧ es_Ports o' = es_Ports o | inl _ => True end
     | EUpdate Member KEndpointSlice o => λ x,
         match x with inr o' => es_AddressType o' = es_AddressType o ∧
             es_Endpoints o' = es_Endpoints o ∧ es_Ports o' = es_Ports o | inl _ => True end
     | _ => λ _, True
     end) x;
  next X c :=
    match c in eff X return X → knowledge → knowledge with
    | EGet Hub KEndpointSliceImport key => λ x s,
        match x with inr i => readImport i s
                   | inl err => if IsNotFound err then learnMissing s else s end
    | EUpdate Hub KEndpointSliceImport o => λ x s,
        match x with inr i => learnImport i s | inl _ => s end
    | EList Member KMultiClusterService opts => λ x s,
        match x with inr items => learnMcs items s | inl _ => s end
    | EGet Member KService key => λ x s,
        match x with inr svc => learnService (Some svc) s
                   | inl err => if IsNotFound err then learnService None s else s end
    | EDelete Member KEndpointSlice key => λ x s,
        match IgnoreNotFound x with None => learnDeleted s | Some _ => s end
    | EGet Member KEndpointSlice key => λ x s,
        match x with inr es => learnSlice es s | inl _ => s end
    | ECreate Member KEndpointSlice o => λ x s,
        match x with inr es => learnSlice es s | inl _ => s end
    | EUpdate Member KEndpointSlice o => λ x s,
        match x with inr es => learnSlice es s | inl _ => s end
    | EMetric name labels v => λ _ s, measured s
    | _ => λ _ s, s
    end |}.

(** What a round that does not wait and reports no error leaves behind. *)
Definition settled (s : knowledge) : Prop :=
  match h_import s with
  | None => h_missing s = true
  | Some i =>
      if isDeleting i then ¬ hasCleanup i
      else h_mcs s = Some [] ∨
        (hasCleanup i ∧ lastObserved i = Some (currentGeneration i) ∧
         ∃ es name, h_slice s = Some es ∧ bindable s name ∧ represents es i name)
  end.
(** Why a round waits: the owner of a live import is imported, but the Service
    that is derived for it has no valid name, does not exist or is being
    deleted. *)
Definition waiting (s : knowledge) : Prop :=
  ∃ i items, h_import s = Some i ∧ isDeleting i = false ∧ h_mcs s = Some items ∧ items ≠ [] ∧
    (dns1035Label (scanForDerivedServiceName items) = false ∨ h_service s = Some None ∨
     ∃ svc, h_service s = Some (Some svc) ∧ isDeleting svc = true).
Definition roundEnds (x : Result * option error) (s : knowledge) : Prop :=
  x = ({| Requeue := false; RequeueAfter := endpointSliceImportRetryInterval |}, None) ∧ waiting s ∨
  x.1 = emptyResult ∧ (x.2 = None → settled s).
End protocol.


(** ** Safety *)

Lemma scan_found items name :
  scanForDerivedServiceName items = name → name ≠ "" →
  ∃ mcs, mcs ∈ items ∧ isDeleting mcs = false ∧
    map_get (om_Labels (mcs_ObjectMeta mcs)) MultiClusterServiceLabelDerivedService = Some name.
Proof.
  induction items as [|mcs items IH]; simpl; [by intros <-|]. intros Hs Hne.
  destruct (isDeleting mcs) eqn:Hd.
  - destruct (IH Hs Hne) as (m & ? & ?). exists m. split; [by right|done].
  - destruct (map_get _ _) eqn:Hl.
    + exists mcs. subst. split; [by left|done].
    + destruct (IH Hs Hne) as (m & ? & ?). exists m. split; [by right|done].
Qed.

Lemma format_represents es svc i : represents (formatEndpointSliceFromImport es svc i) i svc.
Proof.
  split; [done|]. split; [done|]. simpl. split; [|split; [|done]].
  - rewrite <-list_fmap_compose. done.
  - apply Forall_fmap. by apply Forall_true.
Qed.
Lemma lastObserved_sameMeta i i' :
  sameMeta (esi_ObjectMeta i) (esi_ObjectMeta i') → lastObserved i' = lastObserved i.
Proof. intros (_ & _ & _ & Ha & _). unfold lastObserved. by rewrite Ha. Qed.

Section safety.
Context {util : ControllerUtil} {laws : ControllerUtilLaws}.
Context {validation : Validation} {vlaws : ValidationLaws}.
Context (r : Reconciler) (req : NamespacedName).
Local Abbreviation P := (importSliceProtocol r req).

(** The import in hand is the stored one. *)
Definition holds (i : EndpointSliceImport) (s : knowledge) : Prop :=
  h_import s = Some i ∧ objectKey i = req.
Lemma newSlice_key i : objectKey i = req → objectKey (newSlice r i) = sliceKey r req.
Proof. by intros <-. Qed.

Lemma unimportEndpointSlice_wp i s :
  holds i s → isDeleting i = true →
  wp P (unimportEndpointSlice r i) s (λ err s', err = None → settled r s').
Proof.
  intros [Hi Hk] Hdel. unfold unimportEndpointSlice. destruct (hasFinalizer i _) eqn:Hf; simpl.
  2: { apply wp_ret. intros _. unfold settled. rewrite Hi, Hdel. by apply hasFinalizer_false. }
  apply hasFinalizer_spec in Hf.
  apply wp_bind, wp_Delete; [split; [by apply newSlice_key|by exists i]|].
  intros x _. simpl. destruct (IgnoreNotFound x); [by apply wp_ret|]. apply wp_bind, wp_Update.
  { exists i. split; [done|]. split; [rewrite <-Hk; apply (removeFinalizer_key (T := EndpointSliceImport))|].
    split; [done|]. by right. }
  intros [err|i'] [Hm Ha]; apply wp_ret; [done|]. intros _. unfold settled. simpl in *.
  destruct (removeFinalizer_stored i i' endpointSliceImportCleanupFinalizer) as [Hno _]; [exact Hm|].
  destruct Ha as [_ ->]. by rewrite (removeFinalizer_deleting (T := EndpointSliceImport)), Hdel.
Qed.

Lemma isDerivedServiceValid_wp name s :
  (name ≠ "" → derivedFrom s name) →
  wp P (isDerivedServiceValid r name) s (λ x s',
    h_import s' = h_import s ∧ h_mcs s' = h_mcs s ∧ h_fresh s' = h_fresh s ∧
    (x = (true, None) → bindable r s' name) ∧
    (x = (false, None) → dns1035Label name = false ∨ h_service s' = Some None ∨
       ∃ svc, h_service s' = Some (Some svc) ∧ isDeleting svc = true)).
Proof.
  intros Hd. unfold isDerivedServiceValid. pose proof (IsDNS1035Label_spec name) as Hspec.
  destruct (IsDNS1035Label name) as [|e errs].
  2: { apply wp_ret. do 4 (split; [done|]). intros _. left. apply not_true_is_false. by rewrite <-Hspec. }
  assert (dns1035Label name = true) as Hv by (by apply Hspec).
  assert (name ≠ "") as Hne by (by intros ->).
  apply wp_bind, wp_Get; [by split; [|split; [apply Hd|]]|].
  intros [err|svc] [Hk _]; apply wp_ret; simpl.
  { destruct (IsNotFound err); [|done]. do 4 (split; [done|]). intros _. right. by left. }
  do 3 (split; [done|]). split.
  - intros [= Hlive]. split; [done|]. split; [by apply Hd|]. exists svc. split; [done|].
    split; [by apply negb_true_iff|exact Hk].
  - intros [= Hlive]. do 2 right. exists svc. split; [done|]. by apply negb_false_iff.
Qed.

Lemma addFinalizer_wp i s :
  holds i s → isDeleting i = false →
  wp P (addEndpointSliceImportCleanupFinalizer i) s (λ x s',
    x.1 = None → holds x.2 s' ∧ hasCleanup x.2 ∧ isDeleting x.2 = false ∧
      h_mcs s' = h_mcs s ∧ h_service s' = h_service s).
Proof.
  intros [Hi Hk] Hdel. unfold addEndpointSliceImportCleanupFinalizer.
  destruct (hasFinalizer i _) eqn:Hf.
  { apply wp_ret. intros _. apply hasFinalizer_spec in Hf. by repeat split. }
  apply wp_Update.
  { exists i. split; [done|]. split; [rewrite <-Hk; apply (addFinalizer_key (T := EndpointSliceImport))|].
    split; [done|]. intros _. left. apply (addFinalizer_has (T := EndpointSliceImport)). }
  intros [err|i'] [Hm Ha]; [done|]. intros _. simpl in i', Ha.
  destruct (addFinalizer_stored i i' endpointSliceImportCleanupFinalizer) as [Hhas Hkey]; [exact Hm|].
  split; [split; [done|simpl; by rewrite Hkey]|]. split; [exact Hhas|]. split; [|done].
  simpl. destruct Ha as [_ ->]. by rewrite (addFinalizer_deleting (T := EndpointSliceImport)).
Qed.

(** Binding the slice. *)
Lemma bindSlice_wp i name s :
  holds i s → isDeleting i = false → hasCleanup i → bindable r s name →
  wp P (CreateOrUpdate Member KEndpointSlice (newSlice r i)
          (λ es, mret (None, formatEndpointSliceFromImport es name i))) s (λ x s',
    x.1 = None → holds i s' ∧ bindable r s' name ∧
      ∃ es, h_slice s' = Some es ∧ represents es i name).
Proof.
  intros [Hi Hk] Hdel Hfin Hb.
  assert (@objectKey _ (obj_Object KEndpointSlice) (newSlice r i) = sliceKey r req) as Hko
    by (by apply newSlice_key).
  assert (∀ es s', objectKey es = sliceKey r req → h_import s' = h_import s → bindable r s' name →
    mayImport r req s' (formatEndpointSliceFromImport es name i)) as Hmay.
  { intros es s' Hes Hi' Hb'. exists i, name. rewrite Hi'. do 4 (split; [done|]).
    split; [done|]. apply format_represents. }
  assert (∀ es es', sameMeta (es_ObjectMeta (formatEndpointSliceFromImport es name i)) (es_ObjectMeta es') →
    es_AddressType es' = ese_AddressType (esi_Spec i) ∧
    es_Endpoints es' = es_Endpoints (formatEndpointSliceFromImport es name i) ∧
    es_Ports es' = ese_Ports (esi_Spec i) → represents es' i name) as Hrep.
  { intros es es' (_ & _ & Hl & _) (Ht & He & Hp). pose proof (format_represents es name i) as Hr.
    unfold represents in *. by rewrite Hl, Ht, He, Hp. }
  apply CreateOrUpdate_wp; rewrite Hko; [done|]. intros [err|cur] Hget; simpl.
  - destruct (IsNotFound err); [|done]. apply wp_ret. split; [by apply newSlice_key|].
    split; [by apply Hmay; [apply newSlice_key| |]|].
    intros [err'|es'] [Hm Ha]; simpl; [done|]. intros _. split; [done|]. split; [done|].
    exists es'. split; [done|]. by eapply Hrep.
  - simpl in cur. destruct Hget as [Hkc _]. apply wp_ret. split; [exact Hkc|]. split.
    + intros Heq. intros _. split; [done|]. split; [done|]. exists cur. split; [done|].
      rewrite <-Heq. apply format_represents.
    + intros _. split; [by apply Hmay|].
      intros [err'|es'] [Hm Ha]; simpl; [done|]. intros _. split; [done|]. split; [done|].
      exists es'. split; [done|]. by eapply Hrep.
Qed.

Lemma observeMetrics_wp i name t s :
  holds i s → isDeleting i = false → hasCleanup i → bindable r s name →
  (∃ es, h_slice s = Some es ∧ represents es i name) →
  wp P (observeMetrics r i t) s (λ err s', err = None → settled r s').
Proof.
  intros [Hi Hk] Hdel Hfin Hb (es & Hes & Hrep). unfold observeMetrics.
  case_bool_decide as Hobs.
  { apply wp_ret. intros _. unfold settled. rewrite Hi, Hdel. right.
    split; [done|]. split; [done|]. by exists es, name. }
  unfold map_init, map_set. apply wp_bind, wp_ret, wp_bind, wp_Update.
  { exists i. split; [done|]. split; [exact Hk|]. split; [done|]. by left. }
  intros [err|i'] [Hm Ha]; simpl; [by apply wp_ret|]. simpl in i', Ha. destruct Ha as [Hspec Hd].
  assert (lastObserved i' = Some (currentGeneration i')) as Hlast.
  { etrans; [apply (lastObserved_sameMeta _ _ Hm)|]. unfold currentGeneration. rewrite Hspec.
    apply lookup_insert_eq. }
  assert (finalizersOf i' = finalizersOf i) as Hfs by exact (sameMeta_finalizers _ _ Hm).
  assert (settled r (learnImport i' s)) as Hend.
  { unfold settled. simpl. replace (isDeleting i') with false by (by rewrite Hd).
    right. split; [unfold hasCleanup; by rewrite Hfs|]. split; [done|].
    exists es, name. split; [done|]. split; [done|]. unfold represents. by rewrite Hspec. }
  destruct (ref_ExportedSince _) as [since|]; [|by apply wp_ret].
  apply wp_bind, wp_call; [|intros ? _; by apply wp_ret].
  split; [done|]. split; [apply exportDuration_bounds|]. split.
  - simpl. rewrite Hi. simpl. apply orb_true_iff. right. apply bool_decide_eq_true.
    intros [= Heq]. apply Hobs. rewrite Heq, Hlast. unfold currentGeneration. by rewrite Hspec.
  - exists i'. split; [done|]. split; [done|]. simpl. by rewrite Hes.
Qed.


(** C15: every exchange of a round follows the import protocol.  A slice is only
    created or updated for a live import whose cleanup finalizer is stored, and
    carries the endpoints and ports of the import and the name of an existing
    Service that is derived from a live MultiClusterService that imports the
    owner; it is only deleted for an import that is being deleted, and the
    finalizer is only given up once that deletion was accepted or the slice was
    not found.  A duration is only measured after the generation was recorded on
    the import, once per generation, and lies between a millisecond and the
    right bound.  A round waits only for a live import with a
    MultiClusterService but without a usable derived Service.  Any other round
    that reports no error found no import, or leaves a deleted import without
    the finalizer, a live one that nothing imports, or one with the finalizer,
    its generation recorded and the slice in place. *)
Theorem Reconcile_follows_slice_import_protocol :
  wp P (Reconcile r req) nothingKnown (roundEnds r).
Proof.
  apply wp_bind, wp_Get; [done|]. intros [err|i] [Hk _]; simpl.
  { unfold IgnoreNotFound. destruct (IsNotFound err); apply wp_ret; by right. }
  simpl in i, Hk. destruct (isDeleting i) eqn:Hdel.
  { apply wp_bind. eapply wp_mono; [by apply unimportEndpointSlice_wp|].
    intros err s' Hs'. apply wp_ret. by right. }
  apply wp_bind, wp_List; [by exists i|]. intros [err|items] _; simpl; [by apply wp_ret; right|].
  destruct items as [|mcs items].
  { apply wp_ret. right. split; [done|]. intros _. unfold settled. simpl. rewrite Hdel. by left. }
  cbv zeta. set (name := scanForDerivedServiceName (mcs :: items)). apply wp_bind.
  eapply wp_mono; [apply isDerivedServiceValid_wp|].
  { intros Hne. destruct (scan_found (mcs :: items) name) as (m & Hm); [done..|].
    by exists (mcs :: items), m. }
  intros [valid [err|]] s (Hi & Hl & _ & Hb & Hno); [by apply wp_ret; right|].
  destruct valid; simpl.
  2: { apply wp_ret. left. split; [done|]. exists i, (mcs :: items). rewrite Hi, Hl.
       do 4 (split; [done|]). by apply Hno. }
  specialize (Hb eq_refl). apply wp_bind.
  eapply wp_mono; [by apply addFinalizer_wp|].
  intros [[err|] i'] s1 Hok; [by apply wp_ret; right|].
  destruct (Hok eq_refl) as (Hh & Hfin & Hd & Hmcs & Hsvc). simpl in *. apply wp_bind.
  eapply wp_mono; [apply (bindSlice_wp i' name); [done..|]|].
  { unfold bindable, derivedFrom in *. by rewrite Hmcs, Hsvc. }
  intros [[err|] es] s2 Hok2; [by apply wp_ret; right|].
  destruct (Hok2 eq_refl) as (Hh2 & Hb2 & Hes). apply wp_bind, wp_Now; [done|]. intros t _.
  apply wp_bind. eapply wp_mono; [by apply (observeMetrics_wp i' name)|].
  intros err s3 Hs3. apply wp_ret. by right.
Qed.
End safety.

(** ** Runs *)

Module Demo.
Definition r : Reconciler := {| MemberClusterID := "bravelion"; FleetSystemNamespace := "fleet-system" |}.
Definition name : NamespacedName :=
  {| nn_Namespace := "fleet-member-bravelion"; nn_Name := "slice-1" |}.
Definition import : EndpointSliceImport := {|
  esi_TypeMeta := {| tm_Kind := "EndpointSliceImport"; tm_APIVersion := "v1alpha1" |};
  esi_ObjectMeta := newObjectMeta "fleet-member-bravelion" "slice-1";
  esi_Spec := {| ese_AddressType := AddressTypeIPv4;
    ese_Endpoints := [{| ep_Addresses := ["1.2.3.4"] |}]; ese_Ports := [];
    ese_EndpointSliceReference := FromMetaObjects "smartfish"
      {| tm_Kind := "EndpointSlice"; tm_APIVersion := "v1" |}
      (newObjectMeta "work" "app-x1") (Some 0%Z);
    ese_OwnerServiceReference :=
      {| osr_Namespace := "work"; osr_Name := "app"; osr_NamespacedName := "work/app" |} |} |}.
Definition mcs : MultiClusterService := {|
  mcs_TypeMeta := {| tm_Kind := "MultiClusterService"; tm_APIVersion := "v1alpha1" |};
  mcs_ObjectMeta := setLabels (Some {[MultiClusterServiceLabelDerivedService := "work-app"]})
    (newObjectMeta "work" "mcs");
  mcs_ServiceImport := "app"; mcs_LoadBalancer := []; mcs_Conditions := [] |}.
Definition derived : Service := {|
  svc_TypeMeta := {| tm_Kind := "Service"; tm_APIVersion := "v1" |};
  svc_ObjectMeta := newObjectMeta "fleet-system" "work-app"; svc_Type := ServiceTypeLoadBalancer;
  svc_ClusterIP := ""; svc_Ports := []; svc_Ingress := [] |}.
Definition world0 : world := {|
  w_member := storeAlter KMultiClusterService <[objectKey mcs := mcs]>
    (storeAlter KService <[objectKey derived := derived]> emptyStore);
  w_hub := storeAlter KEndpointSliceImport <[name := import]> emptyStore;
  w_version := 1; w_clock := Second |}.
Definition index (k : kind) (f : string) : obj k → list string :=
  match k return obj k → list string with
  | KMultiClusterService => indexerFunc
  | _ => λ _, []
  end.
(** The servers, with the durations measured. *)
Definition measuring X (e : eff X) (w : world * list Z) : X * (world * list Z) :=
  let '(x, w') := serve index X e w.1 in
  (x, (w', match e with EMetric _ _ v => v :: w.2 | _ => w.2 end)).
Definition rounds (n : nat) : world * list Z :=
  Nat.iter n (λ w, (run measuring (Reconcile (util := Reference.util)
    (validation := ReferenceDns.validation) r name) w).2) (world0, []).
Definition sliceAfter (n : nat) : option (option string * list (list string)) :=
  (λ es, (map_get (om_Labels (es_ObjectMeta es)) LabelServiceName,
          de_Addresses <$> es_Endpoints es)) <$>
    w_member (rounds n).1 KEndpointSlice !! sliceKey r name.
End Demo.

Lemma Reconcile_follows_slice_import_protocol_witness :
  wp (importSliceProtocol Demo.r Demo.name)
    (Reconcile (util := Reference.util) (validation := ReferenceDns.validation)
       Demo.r Demo.name) nothingKnown (roundEnds Demo.r) ∧
  Demo.sliceAfter 1 = Some (Some "work-app", [["1.2.3.4"]]) ∧
  (Demo.rounds 1).2 = [1000%Z] ∧ (Demo.rounds 2).2 = [1000%Z].
Proof.
  split; [apply (Reconcile_follows_slice_import_protocol (laws := Reference.laws)
                   (vlaws := ReferenceDns.validation_laws))|].
  repeat split; vm_compute; reflexivity.
Defined.

End endpointsliceimport.
