(* ===== verification/MemberEndpointSliceExport.v ===== *)
(** * [pkg/controllers/member/endpointsliceexport]: cleaning up exports

    The member controller that removes an EndpointSliceExport of the hub whose
    EndpointSlice no longer exists or no longer carries its name. *)

From S2P Require Import Prelude Prog Go Api Fleet Azure Effects Deps.
From S2P Require Import Protocols ApiServer ObjectMeta.

Module endpointsliceexport.

Definition endpointSliceExportRetryInterval : Duration := (Minute * 5)%Z.

Definition isEndpointSliceExportLinkedWithEndpointSlice (e : EndpointSliceExport)
    (es : EndpointSlice) : bool :=
  match map_get (om_Annotations (es_ObjectMeta es)) ExportedObjectAnnotationUniqueName with
  | None => false
  | Some uniqueName => bool_decide (uniqueName = om_Name (ese_ObjectMeta e))
  end.

Definition deleteEndpointSliceExport (e : EndpointSliceExport) : IO (Result * option error) :=
  err ← Delete Hub KEndpointSliceExport e;
  mret (emptyResult, IgnoreNotFound err).

Definition Reconcile (req : NamespacedName) : IO (Result * option error) :=
  got ← Get Hub KEndpointSliceExport req;
  match got with
  | inl err => mret (emptyResult, IgnoreNotFound (Some err))
  | inr e =>
      let ref := ese_EndpointSliceReference (ese_Spec e) in
      got ← Get Member KEndpointSlice {| nn_Namespace := ref_Namespace ref; nn_Name := ref_Name ref |};
      match got with
      | inl err => if IsNotFound err then deleteEndpointSliceExport e
                   else mret (emptyResult, Some err)
      | inr es =>
          if negb (isEndpointSliceExportLinkedWithEndpointSlice e es)
          then deleteEndpointSliceExport e
          else mret ({| Requeue := false; RequeueAfter := endpointSliceExportRetryInterval |}, None)
      end
  end.

(** ** The protocol of the controller

    What it knows: the export, the slice it refers to (or that there is none),
    and whether the hub did not find the export or accepted its deletion (an
    accepted deletion leaves the object until its finalizers are gone). *)
Record knowledge := {
  k_export : option EndpointSliceExport;
  k_slice : option (option EndpointSlice);
  k_deleted : bool;
}.
Definition nothingKnown : knowledge := {| k_export := None; k_slice := None; k_deleted := false |}.

(** The slice carries the name of its export. *)
Definition linked (e : EndpointSliceExport) (es : EndpointSlice) : Prop :=
  map_get (om_Annotations (es_ObjectMeta es)) ExportedObjectAnnotationUniqueName =
    Some (om_Name (ese_ObjectMeta e)).
Definition orphaned (e : EndpointSliceExport) (s : knowledge) : Prop :=
  k_slice s = Some None ∨ ∃ es, k_slice s = Some (Some es) ∧ ¬ linked e es.

Definition cleanupProtocol (req : NamespacedName) : protocol eff knowledge := {|
  allowed X c s :=
    match c with
    | EGet Hub KEndpointSliceExport key => key = req
    | EGet Member KEndpointSlice key => ∃ e, k_export s = Some e ∧
        nn_Namespace key = ref_Namespace (ese_EndpointSliceReference (ese_Spec e)) ∧
        nn_Name key = ref_Name (ese_EndpointSliceReference (ese_Spec e))
    | EDelete Hub KEndpointSliceExport key => key = req ∧ ∃ e, k_export s = Some e ∧ orphaned e s
    | _ => False
    end;
  answer X c s := serverAnswer c;
  next X c :=
    match c in eff X return X → knowledge → knowledge with
    | EGet Hub KEndpointSliceExport key => λ x s,
        match x with
        | inr e => {| k_export := Some e; k_slice := k_slice s; k_deleted := k_deleted s |}
        | inl err => {| k_export := k_export s; k_slice := k_slice s;
                        k_deleted := k_deleted s || IsNotFound err |}
        end
    | EGet Member KEndpointSlice key => λ x s,
        match x with
        | inr es => {| k_export := k_export s; k_slice := Some (Some es); k_deleted := k_deleted s |}
        | inl err => if IsNotFound err
                     then {| k_export := k_export s; k_slice := Some None; k_deleted := k_deleted s |}
                     else s
        end
    | EDelete Hub KEndpointSliceExport key => λ x s,
        match IgnoreNotFound x with
        | None => {| k_export := k_export s; k_slice := k_slice s; k_deleted := true |}
        | Some _ => s
        end
    | _ => λ _ s, s
    end |}.

(** The round waits for the next check of an export whose slice exists and
    carries its name, or it asks for nothing and, unless it reports an error,
    the export was not found or its deletion is accepted. *)
Definition roundEnds (x : Result * option error) (s : knowledge) : Prop :=
  x = ({| Requeue := false; RequeueAfter := endpointSliceExportRetryInterval |}, None) ∧
    (∃ e es, k_export s = Some e ∧ k_slice s = Some (Some es) ∧ linked e es) ∨
  x.1 = emptyResult ∧ (x.2 = None → k_deleted s = true).

Lemma linked_spec e es :
  isEndpointSliceExportLinkedWithEndpointSlice e es = true ↔ linked e es.
Proof.
  unfold isEndpointSliceExportLinkedWithEndpointSlice, linked.
  destruct (map_get _ _); [|done]. rewrite bool_decide_eq_true. naive_solver.
Qed.

(** C20: an export is deleted only when the slice it refers to is known not to
    exist or not to carry the name of the export.  A round that finds a slice
    that carries the name deletes nothing and asks to check again after five
    minutes; every other round asks for nothing, and unless it reports an
    error the hub did not find the export or accepted its deletion (accepted,
    the object may still wait for the finalizer of the hub). *)
Theorem Reconcile_follows_cleanup_protocol req :
  wp (cleanupProtocol req) (Reconcile req) nothingKnown roundEnds.
Proof.
  apply wp_bind, wp_Get; [done|]. intros [err|e] Hk; simpl.
  { apply wp_ret. right. split; [done|]. simpl. by destruct (IsNotFound err). }
  simpl in e, Hk.
  assert (∀ s, k_export s = Some e → orphaned e s →
    wp (cleanupProtocol req) (deleteEndpointSliceExport e) s roundEnds) as Hdel.
  { intros s He Ho. apply wp_bind, wp_Delete; [split; [exact Hk|by exists e]|].
    intros x _. apply wp_ret. right. split; [done|]. simpl. by destruct (IgnoreNotFound x). }
  apply wp_bind, wp_Get; [by exists e|]. intros [err|es] _; simpl.
  - destruct (IsNotFound err); [|by apply wp_ret; right]. apply Hdel; [done|]. by left.
  - simpl in es. destruct (isEndpointSliceExportLinkedWithEndpointSlice e es) eqn:Hl; simpl.
    + apply wp_ret. left. split; [done|]. exists e, es. by rewrite <-linked_spec.
    + apply Hdel; [done|]. right. exists es. split; [done|]. by rewrite <-linked_spec, Hl.
Qed.
End endpointsliceexport.
