(* ===== verification/MemberInternalServiceImport.v ===== *)
(** * [pkg/controllers/member/internalserviceimport]: reporting imports back

    The member controller that copies the status of an InternalServiceImport of
    the hub to the ServiceImport of the member cluster. *)

From S2P Require Import Prelude Prog Go Api Fleet Azure Effects Deps.
From S2P Require Import Protocols ApiServer.

Module internalserviceimport.

Definition Reconcile (req : NamespacedName) : IO (Result * option error) :=
  got ← Get Hub KInternalServiceImport req;
  match got with
  | inl err => mret (emptyResult, IgnoreNotFound (Some err))
  | inr i =>
      let ref := isi_ServiceImportReference i in
      got ← Get Member KServiceImport {| nn_Namespace := ref_Namespace ref; nn_Name := ref_Name ref |};
      match got with
      | inl err =>
          if IsNotFound err
          then err ← Delete Hub KInternalServiceImport i; mret (emptyResult, err)
          else mret (emptyResult, Some err)
      | inr si =>
          if decide (isi_Status i = si_Status si) then mret (emptyResult, None)
          else '(err, _) ← StatusUpdate Member KServiceImport (setImportStatus (isi_Status i) si);
               mret (emptyResult, err)
      end
  end.

(** ** The protocol of the controller *)

Record knowledge := {
  m_internal : option InternalServiceImport;
  m_import : option (option ServiceImport);
  m_deleted : bool;
}.
Definition nothingKnown : knowledge :=
  {| m_internal := None; m_import := None; m_deleted := false |}.

Definition referredTo (i : InternalServiceImport) : NamespacedName :=
  {| nn_Namespace := ref_Namespace (isi_ServiceImportReference i);
     nn_Name := ref_Name (isi_ServiceImportReference i) |}.

Definition reportProtocol (req : NamespacedName) : protocol eff knowledge := {|
  allowed X c s :=
    match c with
    | EGet Hub KInternalServiceImport key => key = req
    | EGet Member KServiceImport key => ∃ i, m_internal s = Some i ∧ key = referredTo i
    | EDelete Hub KInternalServiceImport key =>
        key = req ∧ is_Some (m_internal s) ∧ m_import s = Some None
    | EStatusUpdate Member KServiceImport o => ∃ i si, m_internal s = Some i ∧
        m_import s = Some (Some si) ∧ o = setImportStatus (isi_Status i) si ∧
        si_Status si ≠ isi_Status i
    | _ => False
    end;
  answer X c s := serverAnswer c;
  next X c :=
    match c in eff X return X → knowledge → knowledge with
    | EGet Hub KInternalServiceImport key => λ x s,
        match x with
        | inr i => {| m_internal := Some i; m_import := m_import s; m_deleted := m_deleted s |}
        | inl _ => s
        end
    | EGet Member KServiceImport key => λ x s,
        match x with
        | inr si => {| m_internal := m_internal s; m_import := Some (Some si); m_deleted := m_deleted s |}
        | inl err => if IsNotFound err
            then {| m_internal := m_internal s; m_import := Some None; m_deleted := m_deleted s |}
            else s
        end
    | EStatusUpdate Member KServiceImport o => λ x s,
        match x with
        | inr si => {| m_internal := m_internal s; m_import := Some (Some si); m_deleted := m_deleted s |}
        | inl _ => s
        end
    | EDelete Hub KInternalServiceImport key => λ x s,
        match x with
        | None => {| m_internal := m_internal s; m_import := m_import s; m_deleted := true |}
        | Some _ => s
        end
    | _ => λ _ s, s
    end |}.

(** The ServiceImport carries the reported status, or does not exist and the
    InternalServiceImport was deleted. *)
Definition roundEnds (x : Result * option error) (s : knowledge) : Prop :=
  x.2 = None → ∀ i, m_internal s = Some i →
    m_deleted s = true ∧ m_import s = Some None ∨
    ∃ si, m_import s = Some (Some si) ∧ si_Status si = isi_Status i.

(** C19: the status of the ServiceImport is only ever replaced by that of the
    InternalServiceImport and only when they differ, the InternalServiceImport
    is deleted only when the ServiceImport is known not to exist, and a round
    that ends without an error has reported the status or deleted the
    leftover. *)
Theorem Reconcile_follows_report_protocol req :
  wp (reportProtocol req) (Reconcile req) nothingKnown roundEnds.
Proof.
  apply wp_bind, wp_Get; [done|]. intros [err|i] Hk; simpl; [by apply wp_ret|].
  simpl in i, Hk. apply wp_bind, wp_Get; [by exists i|]. intros [err|si] _; simpl.
  - destruct (IsNotFound err); [|by apply wp_ret]. apply wp_bind, wp_Delete; [done|].
    intros [err'|] _; apply wp_ret; [done|]. intros _ ? [= <-]. by left.
  - simpl in si. case_decide as Heq.
    { apply wp_ret. intros _ ? [= <-]. right. by exists si. }
    apply wp_bind, wp_StatusUpdate; [by exists i, si|].
    intros [err|si'] [_ Hz]; apply wp_ret; [done|]. intros _ ? [= <-]. right. exists si'.
    split; [done|]. specialize (Hz si'). by apply (f_equal si_Status) in Hz.
Qed.
End internalserviceimport.
