(* ===== verification/MemberServiceImport.v ===== *)
(** * [pkg/controllers/member/serviceimport]: requesting imports

    The member controller that turns a ServiceImport of the member cluster into
    an InternalServiceImport of the hub, and withdraws it. *)

From S2P Require Import Prelude Prog Go Api Fleet Azure Effects Deps.
From S2P Require Import Protocols ApiServer.

Module serviceimport.

Definition ServiceImportFinalizer := "networking.fleet.azure.com/serviceimport-cleanup".

Record Reconciler := { MemberClusterID : string; HubNamespace : string }.

Definition formatInternalServiceImportName (si : ServiceImport) : string :=
  om_Namespace (si_ObjectMeta si) +:+ "-" +:+ om_Name (si_ObjectMeta si).

Definition newInternalServiceImport (r : Reconciler) (si : ServiceImport) : InternalServiceImport := {|
  isi_TypeMeta := {| tm_Kind := ""; tm_APIVersion := "" |};
  isi_ObjectMeta := newObjectMeta (HubNamespace r) (formatInternalServiceImportName si);
  isi_ServiceImportReference := emptyReference; isi_Status := emptyServiceImportStatus |}.

(** The function passed to [CreateOrUpdate]. *)
Definition mutateImport (r : Reconciler) (si : ServiceImport) (i : InternalServiceImport)
    : InternalServiceImport :=
  let m := si_ObjectMeta si in
  let reference :=
    match om_CreationTimestamp (isi_ObjectMeta i) with
    | None => FromMetaObjects (MemberClusterID r) (si_TypeMeta si) m (om_CreationTimestamp m)
    | Some _ => isi_ServiceImportReference i
    end in
  setInternalImportReference (UpdateFromMetaObject m (om_CreationTimestamp m) reference) i.

Section controller.
Context {util : ControllerUtil}.

Definition Reconcile (r : Reconciler) (req : NamespacedName) : IO (Result * option error) :=
  got ← Get Member KServiceImport req;
  match got with
  | inl err => mret (emptyResult, IgnoreNotFound (Some err))
  | inr si =>
      let internal := newInternalServiceImport r si in
      if isDeleting (si : ServiceImport)
      then
        if negb (hasFinalizer (si : ServiceImport) ServiceImportFinalizer)
        then mret (emptyResult, None)
        else
        err ← Delete Hub KInternalServiceImport internal;
        match IgnoreNotFound err with
        | Some err => mret (emptyResult, Some err)
        | None =>
            '(err, _) ← Update Member KServiceImport
               (removeFinalizer (si : ServiceImport) ServiceImportFinalizer);
            mret (emptyResult, err)
        end
      else
      '(err, si) ← (if hasFinalizer (si : ServiceImport) ServiceImportFinalizer then mret (None, si)
                    else Update Member KServiceImport
                           (addFinalizer (si : ServiceImport) ServiceImportFinalizer));
      match err with
      | Some err => mret (emptyResult, Some err)
      | None =>
          '(err, _) ← CreateOrUpdate Hub KInternalServiceImport internal
             (λ i, mret (None, mutateImport r si i));
          mret (emptyResult, err)
      end
  end.
End controller.

(** ** The protocol of the controller *)

Record knowledge := {
  n_import : option ServiceImport;
  n_missing : bool;                           (* the ServiceImport was not found *)
  n_had : bool;                               (* it had the finalizer when it was read *)
  n_internal : option InternalServiceImport;  (* as it was read or written last *)
  n_deleted : bool;                           (* its deletion was accepted, or it was not found *)
}.
Definition nothingKnown : knowledge :=
  {| n_import := None; n_missing := false; n_had := false; n_internal := None; n_deleted := false |}.
Definition learnRead (si : ServiceImport) (s : knowledge) : knowledge :=
  {| n_import := Some si; n_missing := n_missing s;
     n_had := bool_decide (ServiceImportFinalizer ∈ finalizersOf si);
     n_internal := n_internal s; n_deleted := n_deleted s |}.
Definition learnMissing (s : knowledge) : knowledge :=
  {| n_import := n_import s; n_missing := true; n_had := n_had s;
     n_internal := n_internal s; n_deleted := n_deleted s |}.
Definition learnImport (si : ServiceImport) (s : knowledge) : knowledge :=
  {| n_import := Some si; n_missing := n_missing s; n_had := n_had s;
     n_internal := n_internal s; n_deleted := n_deleted s |}.
Definition learnInternal (i : InternalServiceImport) (s : knowledge) : knowledge :=
  {| n_import := n_import s; n_missing := n_missing s; n_had := n_had s;
     n_internal := Some i; n_deleted := false |}.
Definition learnDeleted (s : knowledge) : knowledge :=
  {| n_import := n_import s; n_missing := n_missing s; n_had := n_had s;
     n_internal := None; n_deleted := true |}.

Section protocol.
Context (r : Reconciler) (req : NamespacedName).

Definition hasCleanup (si : ServiceImport) : Prop := ServiceImportFinalizer ∈ finalizersOf si.
Definition internalKey : NamespacedName :=
  {| nn_Namespace := HubNamespace r; nn_Name := nn_Namespace req +:+ "-" +:+ nn_Name req |}.

(** The reference follows the version of the ServiceImport. *)
Definition follows (ref : ExportedObjectReference) (si : ServiceImport) : Prop :=
  ref_ResourceVersion ref = om_ResourceVersion (si_ObjectMeta si) ∧
  ref_Generation ref = om_Generation (si_ObjectMeta si).
(** The identity of the referred object, which never changes. *)
Definition identity (ref : ExportedObjectReference) :=
  (ref_ClusterID ref, ref_APIVersion ref, ref_Kind ref, ref_Namespace ref, ref_Name ref,
   ref_UID ref, ref_NamespacedName ref).

Definition mayRequest (s : knowledge) (o : InternalServiceImport) : Prop :=
  ∃ si, n_import s = Some si ∧ isDeleting si = false ∧ hasCleanup si ∧
    objectKey o = internalKey ∧ follows (isi_ServiceImportReference o) si.

Definition requestProtocol : protocol eff knowledge := {|
  allowed X c s :=
    match c with
    | EGet Member KServiceImport key => key = req
    | EGet Hub KInternalServiceImport key => key = internalKey
    | ECreate Hub KInternalServiceImport o => mayRequest s o ∧
        ∃ si, n_import s = Some si ∧ identity (isi_ServiceImportReference o) =
          identity (FromMetaObjects (MemberClusterID r) (si_TypeMeta si) (si_ObjectMeta si) None)
    | EUpdate Hub KInternalServiceImport o => mayRequest s o ∧
        ∃ i, n_internal s = Some i ∧ isi_Status o = isi_Status i ∧
          identity (isi_ServiceImportReference o) = identity (isi_ServiceImportReference i)
    | EDelete Hub KInternalServiceImport key => key = internalKey ∧
        ∃ si, n_import s = Some si ∧ isDeleting si = true ∧ hasCleanup si
    | EUpdate Member KServiceImport o => ∃ si, n_import s = Some si ∧ objectKey o = req ∧
        si_Status o = si_Status si ∧
        (hasCleanup si → hasCleanup o ∨ isDeleting si = true ∧ n_deleted s = true)
    | _ => False
    end;
  answer X c s := λ x, serverAnswer c x ∧
    (match c in eff X return X → Prop with
     (* updates keep the deletion mark and the spec, and a stored object has a creation time *)
     | EUpdate Member KServiceImport o => λ x,
         match x with inr o' => isDeleting o' = isDeleting o | inl _ => True end
     | EGet Hub KInternalServiceImport key => λ x,
         match x with inr i => om_CreationTimestamp (isi_ObjectMeta i) ≠ None | inl _ => True end
     | ECreate Hub KInternalServiceImport o => λ x,
         match x with inr o' => isi_ServiceImportReference o' = isi_ServiceImportReference o
                    | inl _ => True end
     | EUpdate Hub KInternalServiceImport o => λ x,
         match x with inr o' => isi_ServiceImportReference o' = isi_ServiceImportReference o
                    | inl _ => True end
     | _ => λ _, True
     end) x;
  next X c :=
    match c in eff X return X → knowledge → knowledge with
    | EGet Member KServiceImport key => λ x s,
        match x with inr si => learnRead si s
                   | inl err => if IsNotFound err then learnMissing s else s end
    | EUpdate Member KServiceImport o => λ x s,
        match x with inr si => learnImport si s | inl _ => s end
    | EGet Hub KInternalServiceImport key => λ x s,
        match x with inr i => learnInternal i s
                   | inl err => if IsNotFound err then learnDeleted s else s end
    | ECreate Hub KInternalServiceImport o => λ x s,
        match x with inr i => learnInternal i s | inl _ => s end
    | EUpdate Hub KInternalServiceImport o => λ x s,
        match x with inr i => learnInternal i s | inl _ => s end
    | EDelete Hub KInternalServiceImport key => λ x s,
        match IgnoreNotFound x with None => learnDeleted s | Some _ => s end
    | _ => λ _ s, s
    end |}.

(** What a round that reports no error leaves behind. *)
Definition settled (s : knowledge) : Prop :=
  match n_import s with
  | None => n_missing s = true
  | Some si =>
      if isDeleting si then ¬ hasCleanup si ∧ (n_had s = true → n_deleted s = true)
      else hasCleanup si ∧ ∃ i, n_internal s = Some i ∧ follows (isi_ServiceImportReference i) si
  end.
Definition roundEnds (x : Result * option error) (s : knowledge) : Prop :=
  x.1 = emptyResult ∧ (x.2 = None → settled s).
End protocol.

Section safety.
Context {util : ControllerUtil} {laws : ControllerUtilLaws}.
Context (r : Reconciler) (req : NamespacedName).
Local Abbreviation P := (requestProtocol r req).

Lemma internal_key si : objectKey si = req → objectKey (newInternalServiceImport r si) = internalKey r req.
Proof. by intros <-. Qed.
Lemma mutateImport_follows si i : follows (isi_ServiceImportReference (mutateImport r si i)) si.
Proof. by unfold mutateImport; destruct (om_CreationTimestamp _). Qed.

Lemma requestImport_wp si si0 s :
  n_import s = Some si → objectKey si0 = req → isDeleting si = false → hasCleanup si →
  wp P ('(err, _) ← CreateOrUpdate Hub KInternalServiceImport (newInternalServiceImport r si0)
          (λ i, mret (None, mutateImport r si i)); mret (emptyResult, err)) s roundEnds.
Proof.
  intros Hsi Hk Hdel Hfin. apply wp_bind.
  assert (@objectKey _ (obj_Object KInternalServiceImport) (newInternalServiceImport r si0) =
    internalKey r req) as Hko by (by apply internal_key).
  assert (∀ (i : InternalServiceImport) s', n_import s' = Some si → objectKey i = internalKey r req →
    mayRequest r req s' (mutateImport r si i)) as Hmay.
  { intros i s' Hs' Hi. exists si. do 4 (split; [done|]). apply mutateImport_follows. }
  assert (∀ (i o : InternalServiceImport) s', n_import s' = Some si →
    isi_ServiceImportReference o = isi_ServiceImportReference (mutateImport r si i) →
    settled (learnInternal o s')) as Hend.
  { intros i o s' Hs' Ho. unfold settled. simpl. rewrite Hs', Hdel. split; [done|]. exists o.
    split; [done|]. rewrite Ho. apply mutateImport_follows. }
  apply CreateOrUpdate_wp; rewrite Hko; [done|]. intros [err|cur] [Hget Hcr]; simpl.
  - destruct (IsNotFound err); [|by apply wp_ret]. apply wp_ret. split; [by apply internal_key|].
    split; [split; [by apply Hmay; [|apply internal_key]|by exists si]|].
    intros [err'|i] [_ Ha]; apply wp_ret; split; [done|done|done|]. intros _. by eapply Hend.
  - simpl in cur, Hget, Hcr. apply wp_ret. split; [exact Hget|]. split.
    + intros Heq. apply wp_ret. split; [done|]. intros _. eapply (Hend cur cur); [done|]. by rewrite Heq.
    + intros _. split.
      { split; [by apply Hmay|]. exists cur. split; [done|]. split; [done|].
        unfold mutateImport. by destruct (om_CreationTimestamp _). }
      intros [err'|i] [_ Ha]; apply wp_ret; split; [done|done|done|]. intros _. by eapply Hend.
Qed.

(** C17: an InternalServiceImport is only created or updated for a live
    ServiceImport whose finalizer is stored; it is created with a reference to
    that ServiceImport, an update keeps the identity it refers to and its
    status, and both record the version and generation of the ServiceImport.
    It is only deleted for a ServiceImport that is being deleted, whose
    finalizer is only given up once the hub has accepted the deletion of the
    InternalServiceImport or answered that it does not exist (accepted, the
    object may still wait for the finalizer of the hub).  Nothing asks for a
    requeue.  A round that reports no error found no ServiceImport; or found
    one that is being deleted, which is left without the finalizer, its
    InternalServiceImport deleted in that sense if it had it; or left a live
    one with the finalizer and an up-to-date InternalServiceImport. *)
Theorem Reconcile_follows_request_protocol : wp P (Reconcile r req) nothingKnown roundEnds.
Proof.
  apply wp_bind, wp_Get; [done|]. intros [err|si] [Hk _]; simpl.
  { unfold IgnoreNotFound. destruct (IsNotFound err); by apply wp_ret. }
  simpl in si, Hk. destruct (isDeleting si) eqn:Hdel.
  - destruct (hasFinalizer si _) eqn:Hf; simpl.
    2: { apply wp_ret. split; [done|]. intros _. unfold settled. simpl. rewrite Hdel.
         apply hasFinalizer_false in Hf. by rewrite bool_decide_false. }
    apply hasFinalizer_spec in Hf.
    apply wp_bind, wp_Delete; [split; [by apply internal_key|by exists si]|].
    intros x _. simpl. destruct (IgnoreNotFound x); [by apply wp_ret|]. apply wp_bind, wp_Update.
    { exists si. split; [done|]. split; [rewrite <-Hk; apply (removeFinalizer_key (T := ServiceImport))|].
      split; [done|]. by right. }
    intros [err|si'] [Hm Ha]; apply wp_ret; split; [done|done|done|]. intros _. simpl in *.
    destruct (removeFinalizer_stored si si' ServiceImportFinalizer) as [Hno _]; [exact Hm|].
    unfold settled. simpl. by rewrite Ha, (removeFinalizer_deleting (T := ServiceImport)), Hdel.
  - apply wp_bind. destruct (hasFinalizer si _) eqn:Hf.
    { apply hasFinalizer_spec in Hf. apply wp_ret. by apply requestImport_wp. }
    apply wp_Update.
    { exists si. split; [done|]. split; [rewrite <-Hk; apply (addFinalizer_key (T := ServiceImport))|].
      split; [done|]. intros _. left. apply (addFinalizer_has (T := ServiceImport)). }
    intros [err|si'] [Hm Ha]; simpl; [by apply wp_ret|]. simpl in si', Ha.
    destruct (addFinalizer_stored si si' ServiceImportFinalizer) as [Hhas _]; [exact Hm|].
    apply requestImport_wp; [done|done| |exact Hhas].
    by rewrite Ha, (addFinalizer_deleting (T := ServiceImport)).
Qed.
End safety.

(** ** A run *)

Module Demo.
Definition r : Reconciler := {| MemberClusterID := "bravelion"; HubNamespace := "fleet-member-bravelion" |}.
Definition name : NamespacedName := {| nn_Namespace := "work"; nn_Name := "app" |}.
Definition import : ServiceImport := {|
  si_TypeMeta := {| tm_Kind := "ServiceImport"; tm_APIVersion := "v1alpha1" |};
  si_ObjectMeta := newObjectMeta "work" "app"; si_Status := emptyServiceImportStatus |}.
Definition world0 : world := {|
  w_member := storeAlter KServiceImport <[name := import]> emptyStore;
  w_hub := emptyStore; w_version := 1; w_clock := 0%Z |}.
Definition referenceAfter : option (string * string) :=
  let w := (run (serve (λ _ _ _, [])) (Reconcile (util := Reference.util) r name) world0).2 in
  (λ i, (ref_ClusterID (isi_ServiceImportReference i),
         ref_NamespacedName (isi_ServiceImportReference i))) <$>
    w_hub w KInternalServiceImport !! internalKey r name.
End Demo.

Lemma Reconcile_follows_request_protocol_witness :
  wp (requestProtocol Demo.r Demo.name) (Reconcile (util := Reference.util) Demo.r Demo.name)
    nothingKnown roundEnds ∧
  Demo.referenceAfter = Some ("bravelion", "work/app").
Proof.
  split; [apply (Reconcile_follows_request_protocol (laws := Reference.laws))|].
  vm_compute. reflexivity.
Defined.

End serviceimport.
