(* ===== verification/MemberAgent.v ===== *)
(** * The agent of a member cluster at work

    The controllers for ServiceExports and for ServiceImports of
    [cmd/member-net-controller-manager], which run concurrently against the API
    servers of the member cluster and of the hub.  What the agent keeps in the
    hub is covered by finalizers in the member cluster, in all reachable
    states. *)

From S2P Require Import Prelude Prog Go Api Fleet Azure Effects Deps Protocols ApiServer System Coverage.
From S2P Require Import Conditions ObjectMeta TimeFormat MemberServiceExport MemberServiceImport.

Module memberagent.

(** ** What each controller covers *)

Definition exportRelation (r : serviceexport.Reconciler) : relation := {|
  owner := (Member, KServiceExport); owned := (Hub, KInternalServiceExport);
  cleanup := serviceexport.svcExportCleanupFinalizer; target := serviceexport.targetKey r;
  scope key := nn_Namespace key = serviceexport.HubNamespace r |}.
Definition importRelation (r : serviceimport.Reconciler) : relation := {|
  owner := (Member, KServiceImport); owned := (Hub, KInternalServiceImport);
  cleanup := serviceimport.ServiceImportFinalizer; target := serviceimport.internalKey r;
  scope key := nn_Namespace key = serviceimport.HubNamespace r |}.

(** What a round of the export controller knows, as cover. *)
Definition coverOf (s : serviceexport.knowledge) : cover := {|
  cv_finalizer := serviceexport.k_finalizer s; cv_gone := serviceexport.k_gone s;
  cv_meta := serviceexport.k_meta s |}.

Section agent.
Context {util : ControllerUtil} {laws : ControllerUtilLaws} {loc : Location}.

Lemma export_covers r req :
  wp (coverProtocol (exportRelation r) req) (serviceexport.Reconcile r req) noCover (λ _ _, True).
Proof.
  eapply wp_mono; [|done].
  refine (wp_refine (serviceexport.exportProtocol r req) _ (λ s s', s' = coverOf s) _ _ _ _ _ eq_refl
    (serviceexport.Reconcile_wp r req)).
  clear. intros X e s _ -> Hal.
  destruct e as [c k key|c k opts|c k o|c k o|c k o|c k key| | | | | | | | | | | | | | |]; try done;
    try (destruct c, k; try done).
  - split; [done|]. intros x Ha. split; [exact Ha|]. simpl in Hal. subst key.
    destruct x as [err|o]; simpl; rewrite decide_True by done; done.
  - split; [done|]. intros x Ha. split; [exact Ha|]. by destruct x.
  - destruct Hal as (Hk & Hf & _). split; [done|]. intros x Ha. split; [exact Ha|]. by destruct x.
  - destruct Hal as [Hk Hmay]. split; [right; done|]. intros x Ha. split; [exact Ha|].
    by destruct x.
  - destruct Hal as (Hk & Hf & _). split; [left; done|]. intros x Ha. split; [exact Ha|]. by destruct x.
  - destruct Hal as [Hk Hm]. split; [done|]. intros x Ha. split; [exact Ha|]. by destruct x.
  - destruct Hal as (Hk & Hf & _). split; [done|]. intros x Ha. split; [exact Ha|]. simpl.
    by destruct (IgnoreNotFound x).
Qed.

(** The finalizer of the owner is known to be stored. *)
Lemma request_covers r (si si0 : ServiceImport) req s :
  objectKey si0 = req → cv_finalizer s = true →
  wp (coverProtocol (importRelation r) req) ('(err, _) ← CreateOrUpdate Hub KInternalServiceImport
        (serviceimport.newInternalServiceImport r si0)
        (λ i, mret (None, serviceimport.mutateImport r si i)); mret (emptyResult, err)) s (λ _ _, True).
Proof.
  intros Hk Hf. apply wp_bind.
  assert (@objectKey _ (obj_Object KInternalServiceImport) (serviceimport.newInternalServiceImport r si0)
    = serviceimport.internalKey r req) as Hko by (by apply serviceimport.internal_key).
  apply CreateOrUpdate_wp; [done|]. rewrite Hko. intros [err|cur] Hget; simpl in *.
  - destruct (IsNotFound err); [|by apply wp_ret]. apply wp_ret. split; [done|]. split; [done|].
    intros x _. by destruct (overwrite _ x).
  - apply wp_ret. split; [exact Hget|]. split; [by intros _; apply wp_ret|]. intros _.
    split; [left; done|]. intros x _. by destruct (overwrite _ x).
Qed.
Lemma import_covers r req :
  wp (coverProtocol (importRelation r) req) (serviceimport.Reconcile r req) noCover (λ _ _, True).
Proof.
  unfold serviceimport.Reconcile. apply wp_bind, wp_Get; [done|].
  intros [err|si] Hk; simpl; [by apply wp_ret|]. simpl in si, Hk. rewrite decide_True by done.
  set (s := seen (importRelation r) (k := KServiceImport) si noCover).
  assert (cv_finalizer s = bool_decide (serviceimport.ServiceImportFinalizer ∈ finalizersOf si))
    as Hs by done.
  destruct (isDeleting si).
  - destruct (negb _); [by apply wp_ret|].
    apply wp_bind, wp_Delete; [split; [done|by apply serviceimport.internal_key]|].
    intros x _. simpl. destruct (IgnoreNotFound x); [by apply wp_ret|]. apply wp_bind, wp_Update.
    { right. split; [done|]. split; [|by right]. rewrite <-Hk.
      apply (removeFinalizer_key (T := ServiceImport)). }
    intros [err|o] _; by apply wp_ret.
  - apply wp_bind. destruct (hasFinalizer si _) eqn:Hf.
    { apply hasFinalizer_spec in Hf. apply wp_ret, request_covers; [done|].
      rewrite Hs. by apply bool_decide_eq_true. }
    apply wp_Update.
    { right. split; [done|]. split; [rewrite <-Hk; apply (addFinalizer_key (T := ServiceImport))|].
      left. apply (addFinalizer_has (T := ServiceImport)). }
    intros [err|si'] Hm; simpl; [by apply wp_ret|].
    apply request_covers; [done|]. simpl.
    destruct (addFinalizer_stored si si' serviceimport.ServiceImportFinalizer) as [Hhas _]; [exact Hm|].
    by apply bool_decide_eq_true.
Qed.

(** ** The agent *)

Inductive controller := ServiceExports | ServiceImports.
#[global] Instance controller_eq_dec : EqDecision controller.
Proof. solve_decision. Defined.

Context (rx : serviceexport.Reconciler) (ri : serviceimport.Reconciler).

Definition relationOf (i : controller) : relation :=
  match i with ServiceExports => exportRelation rx | ServiceImports => importRelation ri end.
Definition reconcile (i : controller) : NamespacedName → IO (Result * option error) :=
  match i with
  | ServiceExports => serviceexport.Reconcile rx
  | ServiceImports => serviceimport.Reconcile ri
  end.
(** The other clients respect both relations. *)
Definition others (w w' : world) : Prop := ∀ i, respects (relationOf i) w w'.

Lemma relations_disjoint i j : i ≠ j → disjoint (relationOf i) (relationOf j).
Proof. by destruct i, j. Qed.
Lemma reconcile_covers i req :
  wp (coverProtocol (relationOf i) req) (reconcile i req) noCover (λ _ _, True).
Proof. destruct i; [apply export_covers|apply import_covers]. Qed.

Lemma agent_sound index w c :
  rtc (step index reconcile others) (w, allIdle) c → (∀ i, healthy (relationOf i) w) →
  ∀ i, healthy (relationOf i) c.1 ∧ ∀ req m, c.2 i ≠ Running req (Panic m).
Proof.
  apply (reachable_sound index reconcile others (λ i, coverProtocol (relationOf i)) (λ _, noCover)
    (λ i, knows (relationOf i)) (λ i, healthy (relationOf i)) (λ _ _ _ _, True)
    (λ i, respects (relationOf i))).
  - intros i. apply cover_protects; by destruct i.
  - apply reconcile_covers.
  - intros i w1 w2 He. apply He.
  - intros i j req s w1 X e x w2 Hij Hw Hs He Hx.
    exact (call_respects index _ _ req s w1 X e x w2 (relations_disjoint i j Hij) (proj1 Hw) Hs He Hx).
Qed.

(** C2: The agent of a member cluster, with its controllers for exports and for
    imports running concurrently: whatever the other clients do, whichever calls
    fail, carried out or not, and wherever a controller crashes and starts again,
    as long as the others leave the cleanup finalizers alone and do not write
    the objects of the agent into its namespace of the hub: in every reachable
    state every InternalServiceExport and InternalServiceImport in that namespace
    that is not being deleted belongs to a ServiceExport, or ServiceImport, of
    the member cluster that has the cleanup finalizer, if that holds at the
    beginning; and no round panics. *)
Theorem agent_keeps_cover index w0 w cs :
  versioned w0 → (∀ i, allCovered (relationOf i) w0) →
  rtc (step index reconcile others) (w0, allIdle) (w, cs) →
  (∀ i, allCovered (relationOf i) w) ∧ ∀ i req m, cs i ≠ Running req (Panic m).
Proof.
  intros Hv Hall Hsteps. split; intros i.
  - apply (agent_sound index w0 (w, cs) Hsteps (λ i, conj Hv (Hall i)) i).
  - apply (agent_sound index w0 (w, cs) Hsteps (λ i, conj Hv (Hall i)) i).
Qed.

End agent.

(** ** A run *)

Module Demo.
Definition index : ∀ k, string → obj k → list string := λ _ _ _, [].
Definition rx : serviceexport.Reconciler := serviceexport.Demo.reconciler.
Definition ri : serviceimport.Reconciler := serviceimport.Demo.r.
Definition world0 : world := serviceexport.Demo.world0.
Definition round : IO (Result * option error) :=
  reconcile (util := Reference.util) (loc := Reference.utc) rx ri ServiceExports serviceexport.Demo.req.
Definition world1 : world := (run (serve index) round world0).2.

Lemma versioned_world0 : versioned world0.
Proof.
  assert (∀ c k, map_Forall (λ key (o : obj k), objectKey o = key ∧
    (versionOf o = pretty 11%N ∨ versionOf o = pretty 12%N)) (storeOf c world0 k)) as Hall.
  { intros c k. apply (bool_decide_unpack _). by destruct c, k; vm_compute. }
  split.
  - intros c k key o Ho. apply (Hall c k key o Ho).
  - intros c k key o Ho. destruct (Hall c k key o Ho) as [_ [Hv|Hv]]; eexists; (split; [|exact Hv]); done.
Qed.
Lemma covered_world0 i : allCovered (relationOf rx ri i) world0.
Proof. intros key _ Hlive. destruct Hlive. intros o Ho. by destruct i; vm_compute in Ho. Qed.
Lemma steps : ∃ cs, rtc (step index (reconcile (util := Reference.util) (loc := Reference.utc) rx ri)
  (others rx ri)) (world0, allIdle) (world1, cs).
Proof.
  apply (round_steps index (reconcile (util := Reference.util) (loc := Reference.utc) rx ri) (others rx ri)
    ServiceExports serviceexport.Demo.req world0 allIdle (emptyResult, None)); by vm_compute.
Qed.
End Demo.

(** After a round of the export controller the hub holds an export, covered. *)
Lemma agent_keeps_cover_witness :
  let key := serviceexport.targetKey Demo.rx serviceexport.Demo.req in
  ¬ released (exportRelation Demo.rx) key Demo.world1 ∧
  ∃ req, key = serviceexport.targetKey Demo.rx req ∧ covered (exportRelation Demo.rx) req Demo.world1.
Proof.
  destruct Demo.steps as [cs Hsteps].
  destruct (agent_keeps_cover (laws := Reference.laws) Demo.rx Demo.ri _ _ _ _ Demo.versioned_world0
    Demo.covered_world0 Hsteps) as [Hall _].
  assert (¬ released (exportRelation Demo.rx)
    (serviceexport.targetKey Demo.rx serviceexport.Demo.req) Demo.world1) as Hlive.
  { intros Hr.
    destruct (objects (exportRelation Demo.rx) Demo.world1 !!
      serviceexport.targetKey Demo.rx serviceexport.Demo.req) as [o|] eqn:Ho.
    - specialize (Hr o Ho). vm_compute in Ho. injection Ho as <-. by vm_compute in Hr.
    - by vm_compute in Ho. }
  split; [exact Hlive|]. apply (Hall ServiceExports); [reflexivity|exact Hlive].
Defined.

End memberagent.
