(* ===== verification/HubClaims.v ===== *)
(** * The hub at work: who may import a Service

    The hub controllers that write ServiceImports, running concurrently against
    the API server: any number of workers of [hub/internalserviceimport], which
    record the claims of the clusters, and the controllers of
    [hub/internalserviceexport] and [hub/serviceimport].  A Service is claimed
    by one cluster at most in all reachable states. *)

From S2P Require Import Prelude Prog Go Api Fleet Azure Effects Deps Protocols ApiServer System.
From S2P Require Import Conditions ObjectMeta ApiRetry HubInternalServiceExport HubServiceImport.
From S2P Require Import HubInternalServiceImport.

Module hubclaims.
Import internalserviceimport.

(** ** The invariant *)

Definition imports (w : world) : gmap NamespacedName ServiceImport := storeOf Hub w KServiceImport.
(** The claims can be read, there is at most one, and a claimed ServiceImport
    waits for the withdrawal when it is deleted. *)
Definition wellClaimed (si : ServiceImport) : Prop :=
  readable si ∧ size (claimsOf si) ≤ 1 ∧ (claimsOf si ≠ ∅ → svcImportCleanupFinalizer ∈ finalizersOf si).
Definition singleClaims (w : world) : Prop := map_Forall (λ _, wellClaimed) (imports w).
Definition healthy (w : world) : Prop := versioned w ∧ singleClaims w.

(** A claim is not taken from a cluster by another one: claims are added where
    there are none, and otherwise only withdrawn. *)
Definition noTheft (w w' : world) : Prop := ∀ key si si',
  imports w !! key = Some si → imports w' !! key = Some si' → claimsOf si = ∅ ∨ claimsOf si' ⊆ claimsOf si.

(** The other clients leave the annotation and the finalizer alone; an object
    they create has no claims. *)
Definition sameClaims (si si' : ServiceImport) : Prop :=
  extractServiceInUseByInfoFromServiceImport si' = extractServiceInUseByInfoFromServiceImport si ∧
  (svcImportCleanupFinalizer ∈ finalizersOf si → svcImportCleanupFinalizer ∈ finalizersOf si').
Definition unclaimed (si : ServiceImport) : Prop := readable si ∧ claimsOf si = ∅.
Definition leavesClaims (w w' : world) : Prop :=
  evolves w w' ∧ ∀ key si', imports w' !! key = Some si' →
    unclaimed si' ∨ ∃ si, imports w !! key = Some si ∧ sameClaims si si'.

Lemma sameClaims_single si si' : sameClaims si si' → wellClaimed si → wellClaimed si'.
Proof. unfold wellClaimed, readable, claimsOf. intros [-> Hf] (Hr & Hs & Hc). by auto. Qed.
Lemma sameClaims_claims si si' : sameClaims si si' → claimsOf si' = claimsOf si.
Proof. unfold claimsOf. by intros [-> _]. Qed.
Lemma unclaimed_single si : unclaimed si → wellClaimed si.
Proof. intros [Hr Hc]. split; [done|]. rewrite Hc, map_size_empty. split; [lia|done]. Qed.
Lemma meta_sameClaims (si si' : ServiceImport) :
  om_Annotations (objectMeta si') = om_Annotations (objectMeta si) ∧ finalizersOf si' = finalizersOf si →
  sameClaims si si'.
Proof.
  unfold sameClaims, extractServiceInUseByInfoFromServiceImport. simpl. by intros [-> ->].
Qed.
Lemma leavesClaims_single w w' : leavesClaims w w' → singleClaims w → singleClaims w'.
Proof.
  intros [_ Hall] Hw key si' Hsi'.
  destruct (Hall key si' Hsi') as [Hnew|(si & Hsi & Hsame)]; [by apply unclaimed_single|].
  eapply sameClaims_single; [done|]. exact (Hw key si Hsi).
Qed.
Lemma noTheft_refl w : noTheft w w.
Proof. intros key si si' Hsi Hsi'. right. by replace si' with si by congruence. Qed.
Lemma leavesClaims_noTheft w w' : leavesClaims w w' → noTheft w w'.
Proof.
  intros [_ Hall] key si si' Hsi Hsi'. right.
  destruct (Hall key si' Hsi') as [[_ ->]|(si0 & Hsi0 & [Hsame _])]; [apply map_empty_subseteq|].
  simplify_eq. unfold claimsOf. by rewrite Hsame.
Qed.
Lemma leavesClaims_same w w' : evolves w w' → imports w' = imports w → leavesClaims w w'.
Proof. intros Hev Heq. split; [done|]. rewrite Heq. intros key si Hsi. right. by exists si. Qed.

(** ** The controllers that do not claim *)

(** They may do anything but update a ServiceImport, and create it unclaimed. *)
Definition bystander {X} (e : eff X) : Prop :=
  match e with
  | EUpdate Hub KServiceImport _ => False
  | ECreate Hub KServiceImport o => unclaimed o
  | _ => True
  end.
Definition bystanderProtocol : protocol eff knowledge := {|
  allowed X e s := bystander e; answer X e s x := True; next X e x s := s |}.

Section bystanders.
Context {util : ControllerUtil} {laws : ControllerUtilLaws}.
Local Abbreviation P := bystanderProtocol.
Local Abbreviation anything := (λ _ _, True).

(** Runs a program to its end, whatever the answers are. *)
Ltac any_run :=
  repeat (wp_step || (wp_call_step; [done|intros ? _; simpl]) ||
          match goal with |- wp _ (if ?b then _ else _) _ _ => destruct b end); try done.

Lemma exports_stand_by r req s : wp P (internalserviceexport.Reconcile r req) s anything.
Proof.
  unfold internalserviceexport.Reconcile, internalserviceexport.handleDelete,
    internalserviceexport.handleUpdate, internalserviceexport.resolveServiceImport,
    internalserviceexport.updateServiceImportStatus, internalserviceexport.removeFinalizer,
    internalserviceexport.updateInternalServiceExportStatus. any_run.
Qed.

Lemma wp_then {A} (p : IO A) s (Q : A → knowledge → Prop) :
  wp P p s anything → (∀ a s, Q a s) → wp P p s Q.
Proof. intros Hp HQ. eapply wp_mono; [done|]. auto. Qed.
Lemma do_stands_by {A} (fn : A → IO (option error * A)) a s :
  (∀ a s, wp P (fn a) s anything) → wp P (Do fn a) s anything.
Proof.
  intros Hfn. apply (Do_wp _ _ _ _ (λ _ _, True)); [|done]. intros b s' _.
  apply wp_then; [apply Hfn|]. by intros [[]].
Qed.
Lemma loop_stands_by {A T R} (body : A → T → IO (R + T)) l t s :
  (∀ a t s, wp P (body a t) s anything) → wp P (for_range body l t) s anything.
Proof.
  intros Hb. apply (wp_for_range _ _ (λ _ _ _, True)); [|done..]. intros a l' t' s' _.
  apply wp_then; [apply Hb|]. by intros [].
Qed.
Lemma mark_stands_by v b s : wp P (serviceimport.updateInternalServiceExportWithRetry v b) s anything.
Proof.
  unfold serviceimport.updateInternalServiceExportWithRetry. any_run. apply do_stands_by. intros. any_run.
Qed.
Lemma resolve_stands_by si ports change s :
  wp P (serviceimport.resolveServiceImport si ports change) s anything.
Proof.
  apply wp_bind, wp_then.
  { apply loop_stands_by. intros v [clusters updated] s1. apply wp_bind, wp_then; [apply mark_stands_by|].
    intros. any_run. }
  intros [res|[clusters updated]] s1; [done|]. case_decide; [done|]. apply wp_bind, wp_then.
  { apply loop_stands_by. intros v [] s2. apply wp_bind, wp_then; [apply mark_stands_by|]. intros. any_run. }
  intros [res|[]] s2; [done|]. apply wp_bind, wp_then; [apply do_stands_by; intros; any_run|].
  intros. any_run.
Qed.
Lemma resolver_stands_by req s : wp P (serviceimport.Reconcile req) s anything.
Proof.
  unfold serviceimport.Reconcile, serviceimport.deleteServiceImport. any_run. apply resolve_stands_by.
Qed.
End bystanders.

(** A call of a bystander, carried out or not, leaves the claims alone. *)
Lemma delete_keeps c k key w (o' : obj k) key' :
  storeOf c (serveDelete c k key w).2 k !! key' = Some o' →
  ∃ o, storeOf c w k !! key' = Some o ∧
    om_Annotations (objectMeta o') = om_Annotations (objectMeta o) ∧ finalizersOf o' = finalizersOf o.
Proof.
  unfold serveDelete. destruct (storeOf c w k !! key) as [o|] eqn:Ho; [|by eauto].
  case_bool_decide; [|destruct (isDeleting o); [by eauto|]]; simpl.
  - change (setStore c _ w) with (written c k (delete key) w). rewrite written_eq.
    intros [_ Hin]%lookup_delete_Some. by eauto.
  - match goal with |- context [<[key := ?o2]>] => change (setStore c _ w) with (written c k <[key := o2]> w) end.
    rewrite written_eq. intros [[<- <-]|[_ Hin]]%lookup_insert_Some; [|by eauto].
    exists o. unfold finalizersOf. by rewrite updMeta_meta.
Qed.
Lemma status_keeps c k (o : obj k) w (o' : obj k) key :
  keyed w → storeOf c (serveWrite c k true o w).2 k !! key = Some o' →
  ∃ o0, storeOf c w k !! key = Some o0 ∧
    om_Annotations (objectMeta o') = om_Annotations (objectMeta o0) ∧ finalizersOf o' = finalizersOf o0.
Proof.
  intros Hk. destruct (serveWrite_answer c k true o w) as [|stored f merged o1 Hs _ Hf]; simpl; [by eauto|].
  rewrite written_eq. destruct Hf as [->|[-> _]].
  - intros [[<- <-]|[_ Hin]]%lookup_insert_Some; [|by eauto]. exists stored. unfold finalizersOf.
    subst o1 merged. by rewrite updMeta_meta, withStatusOf_meta.
  - intros [_ Hin]%lookup_delete_Some. by eauto.
Qed.
(** A write of another kind of object. *)
Definition touches (c : cluster) (k : kind) (w w' : world) : Prop := w' = w ∨ ∃ f, w' = written c k f w.
Lemma touches_imports c k w w' :
  touches c k w w' → (c, k) ≠ (Hub, KServiceImport) → imports w' = imports w.
Proof. intros [->|[f ->]] Hne; [done|]. exact (written_ne c k f w Hub KServiceImport Hne). Qed.
Lemma create_touches c k o w : touches c k w (serveCreate c k o w).2.
Proof. destruct (serveCreate_answer c k o w); [by left|]. right. by eexists. Qed.
Lemma write_touches c k status o w : touches c k w (serveWrite c k status o w).2.
Proof. destruct (serveWrite_answer c k status o w); [by left|]. right. by eexists. Qed.
Lemma delete_touches c k key w : touches c k w (serveDelete c k key w).2.
Proof. destruct (serveDelete_answer c k key w); (by left) || (right; by eexists). Qed.

Section calls.
Context (index : ∀ k, string → obj k → list string).

Lemma bystander_leaves X (e : eff X) w x w' :
  versioned w → bystander e → answers index e w x w' → leavesClaims w w'.
Proof.
  intros Hw He Hx. pose proof (answers_evolves index X e w x w' Hw Hx) as Hev.
  destruct (atServer e) eqn:Hs.
  2: { unfold answers in Hx. rewrite Hs in Hx. destruct Hx as [_ ->]. by apply leavesClaims_same. }
  apply answers_world in Hx as [->| ->]; [by apply leavesClaims_same| |done].
  destruct e as [c k key|c k opts|c k o|c k o|c k o|c k key| | | | | | | | | | | | | | |]; try done; simpl in *;
    try by apply leavesClaims_same.
  all: destruct (decide ((c, k) = (Hub, KServiceImport))) as [[= -> ->]|Hne];
    [|apply leavesClaims_same; [done|]; eapply touches_imports; [|done];
      first [apply create_touches | apply write_touches | apply delete_touches]].
  - split; [done|]. intros key si. destruct (serveCreate_answer Hub KServiceImport o w) as [|o' _]; simpl.
    { intros Hsi. right. by exists si. }
    unfold imports. rewrite written_eq. intros [[<- <-]|[_ Hin]]%lookup_insert_Some; [left|right; by exists si].
    destruct He as [Hr Hc].
    assert (sameClaims o o') as [Hsame _] by (by apply meta_sameClaims).
    unfold unclaimed, readable, claimsOf in *. by rewrite Hsame.
  - done.
  - split; [done|]. intros key si Hsi. right.
    destruct (status_keeps Hub KServiceImport o w si key (proj1 Hw) Hsi) as (si0 & Hsi0 & Ha).
    exists si0. split; [done|]. by apply meta_sameClaims.
  - split; [done|]. intros key' si Hsi. right.
    destruct (delete_keeps Hub KServiceImport key w si key' Hsi) as (si0 & Hsi0 & Ha).
    exists si0. split; [done|]. by apply meta_sameClaims.
Qed.

(** ** The controller that claims *)

(** What a round knows of the hub: its objects are versions of what is stored. *)
Definition knows (req : NamespacedName) (s : knowledge) (w : world) : Prop :=
  (∀ i, z_internal s = Some i → snapshot Hub KInternalServiceImport w i ∧ objectKey i = req) ∧
  (∀ si, z_import s = Some (Some si) → snapshot Hub KServiceImport w si ∧ wellClaimed si).

Lemma knows_evolves req s w w' : evolves w w' → knows req s w → knows req s w'.
Proof.
  intros Hev [Hi Hsi]. split.
  - intros i [Hs Hk]%Hi. split; [by eapply snapshot_evolves|done].
  - intros si [Hs Hc]%Hsi. split; [by eapply snapshot_evolves|done].
Qed.
Lemma knows_internal req s w (i : InternalServiceImport) :
  knows req s w → snapshot Hub KInternalServiceImport w i → objectKey i = req → knows req (learnInternal i s) w.
Proof. intros [_ Hsi] Hs Hk. split; [by intros ? [= <-]|done]. Qed.
Lemma knows_import req s w (si : ServiceImport) :
  knows req s w → snapshot Hub KServiceImport w si → wellClaimed si → knows req (learnImport (Some si) s) w.
Proof. intros [Hi _] Hs Hk. split; [done|by intros ? [= <-]]. Qed.

Lemma knows_read req s w (i : InternalServiceImport) :
  knows req s w → snapshot Hub KInternalServiceImport w i → objectKey i = req → knows req (learnRead i s) w.
Proof. intros [_ Hsi] Hs Hk. split; [by intros ? [= <-]|done]. Qed.

(** The claims that are written. *)
Lemma claims_change i (si o : ServiceImport) :
  mayClaim i si o ∨ mayWithdraw i si o → claimsOf si = ∅ ∨ claimsOf o ⊆ claimsOf si.
Proof.
  intros [(_ & _ & _ & _ & Hc & _)|(_ & _ & -> & _)]; [by left|]. right. apply delete_subseteq.
Qed.
Lemma claims_wellClaimed i (si o : ServiceImport) :
  wellClaimed si → readable o → mayClaim i si o ∨ mayWithdraw i si o → wellClaimed o.
Proof.
  intros (_ & Hsize & _) Hr Hmay. split; [done|].
  destruct Hmay as [(_ & _ & _ & _ & _ & Hc & Hf)|(_ & _ & Hc & Hf)].
  - rewrite Hc, map_size_singleton. by split; [lia|].
  - split; [|intros Hne; apply dec_stable; intros Hno; by apply Hne, Hf].
    rewrite Hc. etrans; [|exact Hsize]. apply map_subseteq_size, delete_subseteq.
Qed.
(** What the server makes of an update has its claims. *)
Lemma update_claims w (stored o : ServiceImport) :
  sameClaims o (updMeta (stampUpdate w (objectMeta stored)) (withStatusOf (k := KServiceImport) stored o)).
Proof. by apply meta_sameClaims. Qed.

Lemma update_keeps_single (o : ServiceImport) w x w' :
  wellClaimed o → singleClaims w → answers index (EUpdate Hub KServiceImport o) w x w' → singleClaims w'.
Proof.
  intros Ho Hw Hx. apply answers_world in Hx as [->| ->]; [done| |done]. simpl.
  destruct (serveWrite_answer Hub KServiceImport false o w) as [|stored f merged o' _ _ Hf]; [done|].
  intros key si. cbn [snd]. unfold imports. rewrite written_eq. destruct Hf as [->|[-> _]].
  - intros [[<- <-]|[_ Hin]]%lookup_insert_Some; [|by eapply Hw].
    eapply sameClaims_single; [apply update_claims|done].
  - intros [_ Hin]%lookup_delete_Some. by eapply Hw.
Qed.
Lemma update_no_theft (si o : ServiceImport) w x w' :
  snapshot Hub KServiceImport w si → basedOn si o → claimsOf si = ∅ ∨ claimsOf o ⊆ claimsOf si →
  answers index (EUpdate Hub KServiceImport o) w x w' → noTheft w w'.
Proof.
  intros Hsnap Hb Hc Hx. apply answers_world in Hx as [->| ->]; [apply noTheft_refl|simpl|done].
  destruct (serveWrite_answer Hub KServiceImport false o w) as [|stored f merged o' Hs Hv Hf];
    [apply noTheft_refl|].
  assert (stored = si) as -> by (by apply (write_stored Hub KServiceImport si o stored w)).
  intros key si1 si2 H1 H2. cbn [snd] in H2. unfold imports in H1, H2. rewrite written_eq in H2.
  destruct (decide (key = @objectKey _ (obj_Object KServiceImport) o)) as [->|Hne].
  - pose proof (eq_trans (eq_sym H1) Hs) as [= ->].
    destruct Hf as [->|[-> _]]; [rewrite lookup_insert_eq in H2|by rewrite lookup_delete_eq in H2].
    injection H2 as <-. pose proof (sameClaims_claims _ _ (update_claims w si o)) as Heq.
    change (claimsOf o' = claimsOf o) in Heq. by rewrite Heq.
  - rewrite (commits_other _ _ _ _ _ Hf Hne) in H2. right.
    by pose proof (eq_trans (eq_sym H1) H2) as [= ->].
Qed.

(** The outcome of a call: it is answered as relied on, and the hub stays healthy. *)
Definition goesWell (req : NamespacedName) {X} (e : eff X) (s : knowledge) (x : X) (w w' : world) : Prop :=
  answer (claimProtocol req) e s x ∧ knows req (next (claimProtocol req) e x s) w' ∧ healthy w' ∧ noTheft w w'.

Lemma getInternal_goesWell req s w x w' :
  healthy w → knows req s w → answers index (EGet Hub KInternalServiceImport req) w x w' →
  goesWell req (EGet Hub KInternalServiceImport req) s x w w'.
Proof.
  intros Hw Hk Hx. destruct (answers_sent index _ _ w x w' (proj1 Hw) Hx) as [Ha _]; [done|].
  apply answers_read in Hx as [-> Hfound]. split; [by split|].
  split; [|by split; [|apply noTheft_refl]]. destruct x as [err|i]; [done|]. simpl in *.
  apply knows_read; [done| |exact Ha]. eapply snapshot_stored; [apply Hw|by apply Hfound].
Qed.
Lemma getImport_goesWell req key s w x w' :
  healthy w → knows req s w → answers index (EGet Hub KServiceImport key) w x w' →
  goesWell req (EGet Hub KServiceImport key) s x w w'.
Proof.
  intros Hw Hk Hx. destruct (answers_sent index _ _ w x w' (proj1 Hw) Hx) as [Ha _]; [done|].
  apply answers_read in Hx as [-> Hfound].
  assert (∀ si, x = inr si → wellClaimed si) as Hsi.
  { intros si Hsi%Hfound. by eapply (proj2 Hw). }
  split; [split; [done|]|split; [|by split; [|apply noTheft_refl]]].
  - destruct x as [err|si]; [done|]. by apply (Hsi si).
  - destruct x as [err|si]; simpl.
    + destruct (IsNotFound err); [|done]. by split; [apply Hk|].
    + apply knows_import; [done| |by apply Hsi]. eapply snapshot_stored; [apply Hw|by apply Hfound].
Qed.
Lemma updateImport_goesWell req s w i si o x w' :
  healthy w → knows req s w → z_import s = Some (Some si) → basedOn si o → si_Status o = si_Status si →
  readable o → mayClaim i si o ∨ mayWithdraw i si o →
  answers index (EUpdate Hub KServiceImport o) w x w' →
  goesWell req (EUpdate Hub KServiceImport o) s x w w'.
Proof.
  intros Hw Hk Hz Hb Hst Hr Hmay Hx. destruct (proj2 Hk si Hz) as [Hsnap Hsi].
  destruct (answers_sent index _ _ w x w' (proj1 Hw) Hx) as [Ha Hev]; [done|].
  assert (wellClaimed o) as Ho by (by eapply claims_wellClaimed).
  split; [split; [done|]|split; [|split; [split|]]].
  - destruct x as [err|o']; [done|]. apply update_answered in Hx.
    rewrite (write_based Hub KServiceImport false si o w o' w' Hsnap Hb Hx). split; [done|].
    exact (eq_sym (basedOn_deleting _ _ Hb)).
  - apply (knows_evolves _ _ _ _ Hev) in Hk. destruct x as [err|o']; [done|]. simpl.
    apply update_answered in Hx as Hx'. apply knows_import; [done|by eapply snapshot_written; [apply Hw|]|].
    rewrite (write_based Hub KServiceImport false si o w o' w' Hsnap Hb Hx').
    eapply sameClaims_single; [apply update_claims|done].
  - eapply evolves_versioned; [apply Hw|done].
  - eapply update_keeps_single; [done|apply Hw|done].
  - eapply update_no_theft; [done..| |done]. by eapply claims_change.
Qed.
Lemma written_elsewhere k w w' :
  healthy w → evolves w w' → touches Hub k w w' → k ≠ KServiceImport → healthy w' ∧ noTheft w w'.
Proof.
  intros [Hv Hs] Hev Ht Hk. assert (leavesClaims w w') as Hl.
  { apply leavesClaims_same; [done|]. apply (touches_imports _ _ _ _ Ht). congruence. }
  split; [split|]; [by eapply evolves_versioned|by eapply leavesClaims_single|by apply leavesClaims_noTheft].
Qed.
Lemma updateInternal_goesWell req s w i o x w' :
  healthy w → knows req s w → z_internal s = Some i → basedOn i o →
  answers index (EUpdate Hub KInternalServiceImport o) w x w' →
  goesWell req (EUpdate Hub KInternalServiceImport o) s x w w'.
Proof.
  intros Hw Hk Hz Hb Hx. destruct (proj1 Hk i Hz) as [Hsnap Hkey].
  destruct (answers_sent index _ _ w x w' (proj1 Hw) Hx) as [Ha Hev]; [done|].
  split; [split; [done|]|split].
  - destruct x as [err|o']; [done|]. apply update_answered in Hx.
    rewrite (write_based Hub KInternalServiceImport false i o w o' w' Hsnap Hb Hx). split; [done|].
    exact (eq_sym (basedOn_deleting _ _ Hb)).
  - apply (knows_evolves _ _ _ _ Hev) in Hk. destruct x as [err|o']; [done|]. simpl.
    apply update_answered in Hx as Hx'. apply knows_internal; [done|by eapply snapshot_written; [apply Hw|]|].
    rewrite <- Hkey, <- (proj1 Hb). by apply (sameMeta_key (T := InternalServiceImport)).
  - apply (written_elsewhere KInternalServiceImport); [done..| |done].
    apply answers_world in Hx as [->| ->]; [by left| |done]. apply write_touches.
Qed.
Lemma statusInternal_goesWell req s w i o x w' :
  healthy w → knows req s w → z_internal s = Some i → objectMeta o = objectMeta i →
  answers index (EStatusUpdate Hub KInternalServiceImport o) w x w' →
  goesWell req (EStatusUpdate Hub KInternalServiceImport o) s x w w'.
Proof.
  intros Hw Hk Hz Hm Hx. destruct (proj1 Hk i Hz) as [Hsnap Hkey].
  assert (basedOn i o) as Hb.
  { exact (conj (f_equal metaKey Hm) (conj (f_equal om_ResourceVersion Hm) (f_equal om_DeletionTimestamp Hm))). }
  destruct (answers_honest index _ (EStatusUpdate Hub KInternalServiceImport o) w x w' (proj1 Hw)) as [Ha Hev];
    [|done|].
  { change (copyOf Hub KInternalServiceImport w (objectMeta o)). rewrite Hm. by apply snapshot_copyOf. }
  split; [split; [done|]|split].
  - destruct x as [err|o']; [done|]. apply statusUpdate_answered in Hx.
    rewrite (write_based Hub KInternalServiceImport true i o w o' w' Hsnap Hb Hx).
    exact (eq_sym (basedOn_deleting _ _ Hb)).
  - apply (knows_evolves _ _ _ _ Hev) in Hk. destruct x as [err|o']; [done|]. simpl.
    apply statusUpdate_answered in Hx as Hx'. apply knows_internal; [done|by eapply snapshot_written; [apply Hw|]|].
    rewrite <- Hkey, <- (proj1 Hb). apply (sameMeta_key (T := InternalServiceImport)), Ha.
  - apply (written_elsewhere KInternalServiceImport); [done..| |done].
    apply answers_world in Hx as [->| ->]; [by left| |done]. apply write_touches.
Qed.

Lemma importer_goesWell req s w X (e : eff X) x w' :
  healthy w → knows req s w → allowed (claimProtocol req) e s → answers index e w x w' →
  goesWell req e s x w w'.
Proof.
  intros Hw Hk Hal Hx.
  destruct e as [c k key|c k opts|c k o|c k o|c k o|c k key| | | | | | | | | | | | | | |]; try done;
    destruct c, k; try done; simpl in Hal.
  - by apply getImport_goesWell.
  - subst key. by apply getInternal_goesWell.
  - destruct Hal as (i & si & Hi & Hz & Hb & Hst & Hr & Hmay). by eapply updateImport_goesWell.
  - destruct Hal as (i & Hi & _ & Hb & _). by eapply updateInternal_goesWell.
  - destruct Hal as (i & Hi & _ & Hm & _). by eapply statusInternal_goesWell.
Qed.
End calls.

(** ** The hub *)

(** The workers of the controller of imports may work on any requests at the
    same time. *)
Inductive controller := InternalServiceImports (worker : nat) | InternalServiceExports | ServiceImports.
#[global] Instance controller_eq_dec : EqDecision controller.
Proof. solve_decision. Defined.

Section hub.
Context {util : ControllerUtil} {laws : ControllerUtilLaws}.
Context (index : ∀ k, string → obj k → list string) (r : internalserviceexport.Reconciler).

Definition reconcile (i : controller) : NamespacedName → IO (Result * option error) :=
  match i with
  | InternalServiceImports _ => Reconcile
  | InternalServiceExports => internalserviceexport.Reconcile r
  | ServiceImports => serviceimport.Reconcile
  end.
Definition protocolOf (i : controller) (req : NamespacedName) : protocol eff knowledge :=
  match i with InternalServiceImports _ => claimProtocol req | _ => bystanderProtocol end.
Definition knowsOf (i : controller) (req : NamespacedName) (s : knowledge) (w : world) : Prop :=
  match i with InternalServiceImports _ => knows req s w | _ => True end.
Definition others (w w' : world) : Prop := evolves w w' ∧ (singleClaims w → singleClaims w').

Lemma reconcile_follows i req : wp (protocolOf i req) (reconcile i req) nothingKnown (λ _ _, True).
Proof.
  destruct i; [|apply exports_stand_by|apply resolver_stands_by].
  eapply wp_mono; [apply claim_round_wp|done].
Qed.
Lemma call_goesWell i req s w X (e : eff X) x w' :
  healthy w → knowsOf i req s w → allowed (protocolOf i req) e s → answers index e w x w' →
  answer (protocolOf i req) e s x ∧ knowsOf i req (next (protocolOf i req) e x s) w' ∧
  healthy w' ∧ noTheft w w'.
Proof.
  intros Hw Hk Hal Hx. destruct i; [by eapply importer_goesWell|..].
  all: assert (leavesClaims w w') as Hl by (exact (bystander_leaves index X e w x w' (proj1 Hw) Hal Hx)).
  all: split_and!; [done|done| |by apply leavesClaims_noTheft].
  all: split; [eapply evolves_versioned; [apply Hw|apply Hl]|by eapply leavesClaims_single; [|apply Hw]].
Qed.
Lemma call_others i req s w X (e : eff X) x w' :
  healthy w → knowsOf i req s w → allowed (protocolOf i req) e s → answers index e w x w' → others w w'.
Proof.
  intros Hw Hk Hal Hx. split; [by eapply answers_evolves; [apply Hw|]|]. intros _.
  by destruct (call_goesWell i req s w X e x w') as (_ & _ & [_ Hs] & _).
Qed.
Lemma hub_protects i :
  protects index others (protocolOf i) nothingKnown (knowsOf i) healthy.
Proof.
  split.
  - intros req w _. by destruct i.
  - intros w w' [Hev Hs] [Hv Hc]. split; [split; [by eapply evolves_versioned|auto]|].
    intros req s. destruct i; [|done..]. by apply knows_evolves.
  - intros req s w X e x w' Hw Hk Hal Hx.
    by destruct (call_goesWell i req s w X e x w') as (? & ? & ? & _).
Qed.
Lemma hub_sound w c :
  rtc (step index reconcile leavesClaims) (w, allIdle) c → healthy w →
  sound protocolOf knowsOf (λ _, healthy) (λ _ _ _ _, True) c.
Proof.
  intros Hsteps Hw.
  eapply (reachable_invariant index reconcile leavesClaims protocolOf (λ _, nothingKnown) knowsOf
    (λ _, healthy) (λ _ _ _ _, True) (λ _, others)); [apply hub_protects|apply reconcile_follows|..|done|done].
  - intros _ w1 w2 Hl. split; [apply Hl|by apply leavesClaims_single].
  - intros i j req s w1 X e x w2 _ Hh Hk Hal Hx. by eapply (call_others j).
Qed.

(** C3: On the hub a Service is claimed by one cluster at most, and no claim is
    taken away by another cluster.  With any number of workers of the controller
    that grants imports, and with the controllers of the exports and of the
    ServiceImports running concurrently, whichever calls fail, carried out or
    not, and wherever a controller crashes and starts again, as long as the
    other clients leave the annotation of the claims and its finalizer alone: in
    every reachable state every ServiceImport has at most one claim, and the
    cleanup finalizer if it has one; a step from it adds a claim only to a
    ServiceImport that has none and otherwise can only withdraw; and no round
    panics. *)
Theorem hub_claims_are_exclusive w0 w cs :
  versioned w0 → singleClaims w0 →
  rtc (step index reconcile leavesClaims) (w0, allIdle) (w, cs) →
  singleClaims w ∧ (∀ i req m, cs i ≠ Running req (Panic m)) ∧
  ∀ w' cs', step index reconcile leavesClaims (w, cs) (w', cs') → noTheft w w'.
Proof.
  intros Hv Hs Hsteps. pose proof (hub_sound w0 (w, cs) Hsteps (conj Hv Hs)) as Hsound.
  split; [apply (Hsound ServiceImports)|]. split.
  - intros i req m Heq. destruct (Hsound i) as [_ Hi]. simpl in Hi. rewrite Heq in Hi.
    by destruct Hi as (s & _ & []).
  - intros w' cs' Hstep. inversion Hstep as [| ? ? ? i req X e x k Hi Hx| | |? ? ? He]; subst;
      try apply noTheft_refl; [|by apply leavesClaims_noTheft].
    destruct (Hsound i) as [Hw Hc]. simpl in Hc. rewrite Hi in Hc. destruct Hc as (s & Hk & Hal & _).
    by destruct (call_goesWell i req s w X e x w') as (_ & _ & _ & ?).
Qed.
End hub.

(** ** A run: two clusters ask for the same Service *)

Module Demo.
Definition index : ∀ k, string → obj k → list string := λ _ _ _, [].
Definition r : internalserviceexport.Reconciler := {| internalserviceexport.RetryInternal := Second |}.
Definition stamp (version : string) (m : ObjectMeta) : ObjectMeta :=
  {| om_Name := om_Name m; om_Namespace := om_Namespace m; om_UID := om_UID m;
     om_ResourceVersion := version; om_Generation := om_Generation m;
     om_CreationTimestamp := om_CreationTimestamp m; om_DeletionTimestamp := om_DeletionTimestamp m;
     om_Labels := om_Labels m; om_Annotations := om_Annotations m;
     om_OwnerReferences := om_OwnerReferences m; om_Finalizers := om_Finalizers m |}.
Definition request (cluster version : string) : InternalServiceImport :=
  updMeta (stamp version) (internalserviceimport.Demo.internal cluster [] emptyServiceImportStatus).
Definition import : ServiceImport := updMeta (stamp "3") (internalserviceimport.Demo.import None).
Definition keyOf := internalserviceimport.Demo.keyOf.
Definition importKey := internalserviceimport.Demo.importKey.
Definition world0 : world := {|
  w_member := emptyStore;
  w_hub := storeAlter KServiceImport <[importKey := import]>
    (storeAlter KInternalServiceImport
       (λ m, <[keyOf "bravelion" := request "bravelion" "1"]>
               (<[keyOf "smartfish" := request "smartfish" "2"]> m)) emptyStore);
  w_version := 11; w_clock := 0%Z |}.
Definition reconciler := reconcile (util := Reference.util) r.
Definition round (worker : nat) (cluster : string) : IO (Result * option error) :=
  reconciler (InternalServiceImports worker) (keyOf cluster).
Definition world1 : world := (run (serve index) (round 0 "bravelion") world0).2.
Definition world2 : world := (run (serve index) (round 1 "smartfish") world1).2.
(** The claims on the Service and who got its specification. *)
Definition outcome (w : world) : option (gmap string string) * (bool * bool) :=
  (claimsOf <$> imports w !! importKey,
   let got c := bool_decide ((isi_Status <$> w_hub w KInternalServiceImport !! keyOf c) =
                             Some internalserviceimport.Demo.resolved) in
   (got "bravelion", got "smartfish")).

Lemma versioned_claims0 : versioned world0.
Proof.
  assert (∀ c k, map_Forall (λ key (o : obj k), objectKey o = key ∧
    (versionOf o = pretty 1%N ∨ versionOf o = pretty 2%N ∨ versionOf o = pretty 3%N)) (storeOf c world0 k)) as Hall.
  { intros c k. apply (bool_decide_unpack _). by destruct c, k; vm_compute. }
  split.
  - intros c k key o Ho. apply (Hall c k key o Ho).
  - intros c k key o Ho. destruct (Hall c k key o Ho) as [_ [Hv|[Hv|Hv]]]; eexists; (split; [|exact Hv]); done.
Qed.
Lemma singleClaims_world0 : singleClaims world0.
Proof.
  assert (map_Forall (λ _ si, om_Annotations (si_ObjectMeta si) = None) (imports world0)) as Hall
    by (apply (bool_decide_unpack _); by vm_compute).
  intros key si Hsi. apply Hall in Hsi. apply unclaimed_single.
  unfold unclaimed, readable, claimsOf, extractServiceInUseByInfoFromServiceImport. by rewrite Hsi.
Qed.
Lemma runs : ∃ cs, rtc (step index reconciler leavesClaims) (world0, allIdle) (world2, cs).
Proof.
  destruct (round_steps index reconciler leavesClaims (InternalServiceImports 0) (keyOf "bravelion") world0
    allIdle (emptyResult, None)) as [cs1 H1]; [by vm_compute|by vm_compute|].
  destruct (round_steps index reconciler leavesClaims (InternalServiceImports 1) (keyOf "smartfish") world1
    cs1 (emptyResult, None)) as [cs2 H2]; [by vm_compute|by vm_compute|].
  exists cs2. by etrans.
Qed.
End Demo.

(** The first cluster has the claim and the specification, the second nothing. *)
Lemma hub_claims_are_exclusive_witness :
  Demo.outcome Demo.world2 = (Some {["fleet-member-bravelion" := "bravelion"]}, (true, false)) ∧
  singleClaims Demo.world2.
Proof.
  split; [by vm_compute|]. destruct Demo.runs as [cs Hruns].
  apply (hub_claims_are_exclusive (laws := Reference.laws) Demo.index Demo.r Demo.world0 Demo.world2 cs
    Demo.versioned_claims0 Demo.singleClaims_world0 Hruns).
Defined.
End hubclaims.
