(* ===== verification/MemberInternalServiceExport.v ===== *)
(** * [pkg/controllers/member/internalserviceexport]: reporting conflicts back

    The member controller that copies the conflict condition of an
    InternalServiceExport of the hub to the ServiceExport of the member cluster,
    and measures how long the export took. *)

From S2P Require Import Prelude Prog Go Api Fleet Azure Effects Deps.
From S2P Require Import Protocols ApiServer ObjectMeta.

Module internalserviceexport.

Definition svcExportDuration := "fleet_networking_service_export_duration_milliseconds".

Record Reconciler := { MemberClusterID : string }.

(** [cond.DeepCopy()] with another observed generation. *)
Definition observedAt (generation : Z) (c : Condition) : Condition := {|
  c_Type := c_Type c; c_Status := c_Status c; c_ObservedGeneration := generation;
  c_LastTransitionTime := c_LastTransitionTime c; c_Reason := c_Reason c;
  c_Message := c_Message c |}.

Definition lastObserved (e : InternalServiceExport) : option string :=
  map_get (om_Annotations (ise_ObjectMeta e)) MetricsAnnotationLastObservedResourceVersion.
Definition currentVersion (e : InternalServiceExport) : string :=
  ref_ResourceVersion (ise_ServiceReference (ise_Spec e)).

Section controller.
Context {util : ControllerUtil}.

Definition reportBackConflictCondition (svcExport : ServiceExport) (e : InternalServiceExport)
    : IO (bool * option error) :=
  match FindStatusCondition (ise_Conditions e) ServiceExportConflict with
  | None => mret (false, None)
  | Some conflictCond =>
      let desired := observedAt (om_Generation (se_ObjectMeta svcExport)) conflictCond in
      if decide (Some conflictCond = FindStatusCondition (se_Conditions svcExport) ServiceExportConflict)
      then mret (true, None)
      else
      let name := om_Name (se_ObjectMeta svcExport) in
      (if bool_decide (c_Status conflictCond = ConditionTrue)
       then Event EventTypeWarning "ServiceExportConflictFound"
              ("Service " +:+ name +:+ " is in conflict with other exported services")
       else mret tt);;
      (if bool_decide (c_Status conflictCond = ConditionFalse)
       then Event EventTypeNormal "NoServiceExportConflictFound"
              ("Service " +:+ name +:+ " is exported without conflict")
       else mret tt);;
      cs ← SetStatusCondition (se_Conditions svcExport) desired;
      '(err, _) ← StatusUpdate Member KServiceExport (setExportConditions cs svcExport);
      mret (true, err)
  end.

Definition observeMetrics (r : Reconciler) (e : InternalServiceExport) (startTime : Time)
    : IO (option error) :=
  if bool_decide (lastObserved e = Some (currentVersion e)) then mret None else
  annotations ← map_set (map_init (om_Annotations (ise_ObjectMeta e)))
    MetricsAnnotationLastObservedResourceVersion (currentVersion e);
  '(err, e) ← Update Hub KInternalServiceExport (updMeta (setAnnotations annotations) e);
  match err with
  | Some err => mret (Some err)
  | None =>
      match ref_ExportedSince (ise_ServiceReference (ise_Spec e)) with
      | None => mret None
      | Some exportedSince =>
          call (EMetric svcExportDuration [MemberClusterID r] (exportDuration startTime exportedSince));;
          mret None
      end
  end.

Definition Reconcile (r : Reconciler) (req : NamespacedName) : IO (Result * option error) :=
  got ← Get Hub KInternalServiceExport req;
  match got with
  | inl err => mret (emptyResult, IgnoreNotFound (Some err))
  | inr e =>
      if isDeleting (e : InternalServiceExport) then mret (emptyResult, None) else
      let ref := ise_ServiceReference (ise_Spec e) in
      got ← Get Member KServiceExport {| nn_Namespace := ref_Namespace ref; nn_Name := ref_Name ref |};
      match got with
      | inl err =>
          if IsNotFound err
          then err ← Delete Hub KInternalServiceExport e; mret (emptyResult, err)
          else mret (emptyResult, Some err)
      | inr svcExport =>
          '(reported, err) ← reportBackConflictCondition svcExport e;
          match err with
          | Some err => mret (emptyResult, Some err)
          | None =>
              if reported : bool
              then now ← Now; err ← observeMetrics r e now; mret (emptyResult, err)
              else mret (emptyResult, None)
          end
      end
  end.
End controller.

(** ** The protocol of the controller

    What it knows: the export of the hub, the ServiceExport (or that there is
    none), whether the export was deleted, and whether the version was recorded
    in this round and not yet measured. *)
Record knowledge := {
  o_internal : option InternalServiceExport;
  o_export : option (option ServiceExport);
  o_deleted : bool;
  o_fresh : bool;
}.
Definition nothingKnown : knowledge :=
  {| o_internal := None; o_export := None; o_deleted := false; o_fresh := false |}.
Definition readInternal (e : InternalServiceExport) (s : knowledge) : knowledge :=
  {| o_internal := Some e; o_export := o_export s; o_deleted := o_deleted s; o_fresh := o_fresh s |}.
Definition learnInternal (e : InternalServiceExport) (s : knowledge) : knowledge :=
  {| o_internal := Some e; o_export := o_export s; o_deleted := o_deleted s;
     o_fresh := o_fresh s || bool_decide (lastObserved <$> o_internal s ≠ Some (lastObserved e)) |}.
Definition learnExport (se : option ServiceExport) (s : knowledge) : knowledge :=
  {| o_internal := o_internal s; o_export := Some se; o_deleted := o_deleted s; o_fresh := o_fresh s |}.
Definition learnDeleted (s : knowledge) : knowledge :=
  {| o_internal := o_internal s; o_export := o_export s; o_deleted := true; o_fresh := o_fresh s |}.
Definition measured (s : knowledge) : knowledge :=
  {| o_internal := o_internal s; o_export := o_export s; o_deleted := o_deleted s; o_fresh := false |}.

Section protocol.
Context {util : ControllerUtil} (r : Reconciler) (req : NamespacedName).

Definition conflictOf (cs : list Condition) : option Condition :=
  FindStatusCondition cs ServiceExportConflict.
(** The verdict a condition reports. *)
Definition verdict (c : Condition) := (c_Status c, c_Reason c, c_Message c).

(** The conditions [cs] report the verdict of the hub and keep the others. *)
Definition reports (e : InternalServiceExport) (se : ServiceExport) (cs : list Condition) : Prop :=
  ∃ c c', conflictOf (ise_Conditions e) = Some c ∧ conflictOf cs = Some c' ∧
    verdict c' = verdict c ∧ c_ObservedGeneration c' = om_Generation (se_ObjectMeta se) ∧
    ∀ t, t ≠ ServiceExportConflict → FindStatusCondition cs t = FindStatusCondition (se_Conditions se) t.

Definition conflictReportProtocol : protocol eff knowledge := {|
  allowed X c s :=
    match c with
    | ENow | EEvent _ _ _ => True
    | EGet Hub KInternalServiceExport key => key = req
    | EGet Member KServiceExport key => ∃ e, o_internal s = Some e ∧ isDeleting e = false ∧
        nn_Namespace key = ref_Namespace (ise_ServiceReference (ise_Spec e)) ∧
        nn_Name key = ref_Name (ise_ServiceReference (ise_Spec e))
    | EDelete Hub KInternalServiceExport key => key = req ∧ o_export s = Some None ∧
        ∃ e, o_internal s = Some e ∧ isDeleting e = false
    | EStatusUpdate Member KServiceExport o => ∃ e se, o_internal s = Some e ∧
        o_export s = Some (Some se) ∧ se_ObjectMeta o = se_ObjectMeta se ∧
        reports e se (se_Conditions o)
    | EUpdate Hub KInternalServiceExport o => ∃ e, o_internal s = Some e ∧
        objectKey o = req ∧ ise_Spec o = ise_Spec e ∧ finalizersOf o = finalizersOf e
    | EMetric name labels v => name = svcExportDuration ∧ labels = [MemberClusterID r] ∧
        (1 ≤ v ≤ ExportDurationRightBound)%Z ∧ o_fresh s = true ∧
        ∃ e, o_internal s = Some e ∧ lastObserved e = Some (currentVersion e) ∧
          is_Some (conflictOf (ise_Conditions e))
    | _ => False
    end;
  answer X c s := λ x, serverAnswer c x ∧
    (match c in eff X return X → Prop with
     (* an update keeps the spec it is given and the status *)
     | EUpdate Hub KInternalServiceExport o => λ x,
         match x with
         | inr o' => ise_Spec o' = ise_Spec o ∧ ise_Conditions o' = ise_Conditions o
         | inl _ => True
         end
     | _ => λ _, True
     end) x;
  next X c :=
    match c in eff X return X → knowledge → knowledge with
    | EGet Hub KInternalServiceExport key => λ x s,
        match x with inr e => readInternal e s | inl _ => s end
    | EUpdate Hub KInternalServiceExport o => λ x s,
        match x with inr e => learnInternal e s | inl _ => s end
    | EGet Member KServiceExport key => λ x s,
        match x with
        | inr se => learnExport (Some se) s
        | inl err => if IsNotFound err then learnExport None s else s
        end
    | EStatusUpdate Member KServiceExport o => λ x s,
        match x with inr se => learnExport (Some se) s | inl _ => s end
    | EDelete Hub KInternalServiceExport key => λ x s,
        match x with None => learnDeleted s | Some _ => s end
    | EMetric name labels v => λ _ s, measured s
    | _ => λ _ s, s
    end |}.

(** What a finished round leaves behind: nothing to report, the verdict of the
    hub on the ServiceExport and the version recorded, or no export. *)
Definition settled (s : knowledge) : Prop :=
  ∀ e, o_internal s = Some e → isDeleting e = false →
    o_deleted s = true ∨ conflictOf (ise_Conditions e) = None ∨
    lastObserved e = Some (currentVersion e) ∧
    ∃ se c c', o_export s = Some (Some se) ∧ conflictOf (ise_Conditions e) = Some c ∧
      conflictOf (se_Conditions se) = Some c' ∧ verdict c' = verdict c.
Definition roundEnds (x : Result * option error) (s : knowledge) : Prop :=
  x.2 = None → settled s.
End protocol.

Section safety.
Context {util : ControllerUtil} {laws : ControllerUtilLaws}.
Context (r : Reconciler) (req : NamespacedName).
Local Abbreviation P := (conflictReportProtocol r req).

(** The ServiceExport is known to carry the verdict of the hub. *)
Definition reported (e : InternalServiceExport) (s : knowledge) : Prop :=
  ∃ se c c', o_export s = Some (Some se) ∧ conflictOf (ise_Conditions e) = Some c ∧
    conflictOf (se_Conditions se) = Some c' ∧ verdict c' = verdict c.

Lemma desired_reports e se c now :
  conflictOf (ise_Conditions e) = Some c →
  reports e se (setCondition now (se_Conditions se)
                  (observedAt (om_Generation (se_ObjectMeta se)) c)).
Proof.
  intros Hc. assert (c_Type c = ServiceExportConflict) as Hty by (by apply FindStatusCondition_some in Hc as [_ ?]).
  set (d := observedAt _ c). assert (c_Type d = ServiceExportConflict) as Hd by done.
  destruct (setCondition_same now (se_Conditions se) d) as (c' & Hf & Hs & Hst & Hre & Hme & Hge).
  rewrite Hd in Hf. exists c, c'. split; [done|]. split; [exact Hf|].
  split; [unfold verdict; by rewrite Hst, Hre, Hme|]. split; [done|].
  intros t Ht. apply setCondition_other. by rewrite Hd.
Qed.

Lemma reportBackConflictCondition_wp se e s :
  o_internal s = Some e → o_export s = Some (Some se) →
  wp P (reportBackConflictCondition se e) s (λ x s',
    o_internal s' = o_internal s ∧ o_deleted s' = o_deleted s ∧ (x.2 = None →
      if x.1 then reported e s' else conflictOf (ise_Conditions e) = None)).
Proof.
  intros He Hse. unfold reportBackConflictCondition. fold (conflictOf (ise_Conditions e)).
  destruct (conflictOf (ise_Conditions e)) as [c|] eqn:Hc; [|by apply wp_ret].
  case_decide as Heq.
  { apply wp_ret. do 2 (split; [done|]). intros _. exists se, c, c. by rewrite Hc. }
  assert (∀ (b : bool) a b' m (p : IO (bool * option error)) Q,
    wp P p s Q → wp P ((if b then Event a b' m else mret tt) ≫= λ _, p) s Q) as Hev.
  { intros [] ???? Q Hp; apply wp_bind; [apply wp_Event; [done|]; intros ? _; exact Hp|by apply wp_ret]. }
  apply Hev, Hev, wp_bind, wp_SetStatusCondition; [done|]. intros now _.
  pose proof (desired_reports e se c now Hc) as Hrep. apply wp_bind, wp_StatusUpdate; [by exists e, se|].
  intros [err|se'] [[_ Hz] _]; apply wp_ret; [done|]. do 2 (split; [done|]). intros _.
  destruct Hrep as (c1 & c2 & Hc1 & Hc2 & Hv & _). exists se', c1, c2.
  split; [done|]. split; [done|]. split; [|done].
  specialize (Hz se'). apply (f_equal se_Conditions) in Hz. simpl in Hz. by rewrite Hz.
Qed.

Lemma lastObservedVersion_sameMeta e e' :
  sameMeta (ise_ObjectMeta e) (ise_ObjectMeta e') → lastObserved e' = lastObserved e.
Proof. intros (_ & _ & _ & Ha & _). unfold lastObserved. by rewrite Ha. Qed.

Lemma observeExport_wp e t s :
  o_internal s = Some e → objectKey e = req → reported e s →
  wp P (observeMetrics r e t) s (λ err s', err = None → settled s').
Proof.
  intros He Hk Hrep. unfold observeMetrics. case_bool_decide as Hobs.
  { apply wp_ret. intros _ ? [= <-]%(eq_trans (eq_sym He)) _. by do 2 right. }
  unfold map_init, map_set. apply wp_bind, wp_ret, wp_bind, wp_Update.
  { exists e. split; [done|]. split; [exact Hk|]. done. }
  intros [err|e'] [Hm Ha]; simpl; [by apply wp_ret|]. simpl in e', Ha. destruct Ha as [Hspec Hcs].
  assert (lastObserved e' = Some (currentVersion e')) as Hlast.
  { etrans; [apply (lastObservedVersion_sameMeta _ _ Hm)|]. unfold currentVersion. rewrite Hspec.
    apply lookup_insert_eq. }
  assert (settled (learnInternal e' s)) as Hend.
  { intros ? [= <-] _. do 2 right. split; [done|].
    destruct Hrep as (se & c & c' & Hse & Hc & Hrest). exists se, c, c'. by rewrite Hcs. }
  destruct (ref_ExportedSince _) as [since|]; [|by apply wp_ret].
  apply wp_bind, wp_call; [|intros ? _; by apply wp_ret].
  split; [done|]. split; [done|]. split; [apply exportDuration_bounds|]. split.
  - simpl. rewrite He. simpl. apply orb_true_iff. right. apply bool_decide_eq_true.
    intros [= Heq]. apply Hobs. rewrite Heq, Hlast. unfold currentVersion. by rewrite Hspec.
  - exists e'. split; [done|]. split; [done|]. rewrite Hcs.
    by destruct Hrep as (se & c & c' & _ & -> & _).
Qed.

(** C18: the ServiceExport only ever gets the verdict of the hub, at its own
    generation and beside its other conditions; the export of the hub is
    deleted only when its ServiceExport is known not to exist, and otherwise
    only annotated; a duration is only measured once per version, after the
    version was recorded, within the bounds.  A round that ends without an
    error has reported the verdict, or there is none, or the leftover was
    deleted. *)
Theorem Reconcile_follows_conflict_report_protocol :
  wp P (Reconcile r req) nothingKnown roundEnds.
Proof.
  apply wp_bind, wp_Get; [done|]. intros [err|e] [Hk _]; simpl; [by apply wp_ret|].
  simpl in e, Hk. destruct (isDeleting e) eqn:Hdel.
  { apply wp_ret. intros _ ? [= <-]. by rewrite Hdel. }
  apply wp_bind, wp_Get; [by exists e|]. intros [err|se] _; simpl.
  - destruct (IsNotFound err); [|by apply wp_ret].
    apply wp_bind, wp_Delete; [split; [exact Hk|split; [done|by exists e]]|].
    intros [err'|] _; apply wp_ret; [done|]. intros _ ? [= <-] _. by left.
  - simpl in se. apply wp_bind. eapply wp_mono; [by apply reportBackConflictCondition_wp|].
    intros [rep [err|]] s (He & Hd & Hok); [by apply wp_ret|]. specialize (Hok eq_refl). simpl in *.
    destruct rep.
    + apply wp_bind, wp_Now; [done|]. intros t _. apply wp_bind.
      eapply wp_mono; [by apply (observeExport_wp e)|]. intros err s' Hs'. by apply wp_ret.
    + apply wp_ret. intros _ ? Hes _. rewrite He in Hes. injection Hes as <-. right. by left.
Qed.
End safety.

(** ** Runs *)

Module Demo.
Definition r : Reconciler := {| MemberClusterID := "bravelion" |}.
Definition name : NamespacedName :=
  {| nn_Namespace := "fleet-member-bravelion"; nn_Name := "work-app" |}.
Definition svcName : NamespacedName := {| nn_Namespace := "work"; nn_Name := "app" |}.
Definition noConflict : Condition := {|
  c_Type := ServiceExportConflict; c_Status := ConditionFalse; c_ObservedGeneration := 0;
  c_LastTransitionTime := Some 5%Z; c_Reason := "NoConflictFound"; c_Message := "no conflict" |}.
Definition internal : InternalServiceExport := {|
  ise_TypeMeta := {| tm_Kind := "InternalServiceExport"; tm_APIVersion := "v1alpha1" |};
  ise_ObjectMeta := newObjectMeta "fleet-member-bravelion" "work-app";
  ise_Spec := {| ise_Ports := [];
    ise_ServiceReference := FromMetaObjects "bravelion"
      {| tm_Kind := "Service"; tm_APIVersion := "v1" |} (newObjectMeta "work" "app") (Some 0%Z);
    ise_Type := "ClusterIP"; ise_IsDNSLabelConfigured := false;
    ise_IsInternalLoadBalancer := false; ise_PublicIPResourceID := None; ise_Weight := None |};
  ise_Conditions := [noConflict] |}.
(** A ServiceExport of the given generation. *)
Definition svcExport (generation : Z) : ServiceExport := {|
  se_TypeMeta := {| tm_Kind := "ServiceExport"; tm_APIVersion := "v1beta1" |};
  se_ObjectMeta := {| om_Name := "app"; om_Namespace := "work"; om_UID := "uid";
    om_ResourceVersion := "1"; om_Generation := generation; om_CreationTimestamp := Some 0%Z;
    om_DeletionTimestamp := None; om_Labels := None; om_Annotations := None;
    om_OwnerReferences := []; om_Finalizers := [] |};
  se_Conditions := [] |}.
Definition world0 (generation : Z) : world := {|
  w_member := storeAlter KServiceExport <[svcName := svcExport generation]> emptyStore;
  w_hub := storeAlter KInternalServiceExport <[name := internal]> emptyStore;
  w_version := 2; w_clock := Second |}.
(** The servers, with the number of status updates of each round. *)
Definition counting X (e : eff X) (w : world * nat) : X * (world * nat) :=
  let '(x, w') := serve (λ _ _ _, []) X e w.1 in
  (x, (w', match e with EStatusUpdate _ _ _ => S w.2 | _ => w.2 end)).
Definition rounds (generation : Z) (n : nat) : world * nat :=
  Nat.iter n (λ w, (run counting (Reconcile (util := Reference.util) r name) w).2)
    (world0 generation, 0).
Definition statusAfter (generation : Z) (n : nat) : option (option string) :=
  (λ se, c_Status <$> conflictOf (util := Reference.util) (se_Conditions se)) <$>
    w_member (rounds generation n).1 KServiceExport !! svcName.
End Demo.

Lemma Reconcile_follows_conflict_report_protocol_witness :
  wp (conflictReportProtocol (util := Reference.util) Demo.r Demo.name)
    (Reconcile (util := Reference.util) Demo.r Demo.name) nothingKnown
    (roundEnds (util := Reference.util)) ∧
  Demo.statusAfter 0 1 = Some (Some ConditionFalse).
Proof.
  split; [apply (Reconcile_follows_conflict_report_protocol (laws := Reference.laws))|].
  vm_compute. reflexivity.
Defined.

(** When the generation of the ServiceExport differs from the one the hub
    observed, every round writes the same condition again; the comparison is
    with the condition before its generation is adjusted.  With equal
    generations the second round writes nothing. *)
Theorem report_repeats_with_generation :
  (Demo.rounds 0 1).2 = 1 ∧ (Demo.rounds 0 2).2 = 1 ∧
  (Demo.rounds 1 1).2 = 1 ∧ (Demo.rounds 1 2).2 = 2 ∧ (Demo.rounds 1 3).2 = 3.
Proof. repeat split; vm_compute; reflexivity. Qed.

End internalserviceexport.
