(* ===== verification/MultiClusterServiceController.v ===== *)
(** * [pkg/controllers/multiclusterservice]: importing a Service

    The member controller that owns the ServiceImport a MultiClusterService
    names, derives a load balancer Service from it in the fleet namespace, and
    reports the load balancer back. *)

From S2P Require Import Prelude Prog Go Api Fleet Azure Effects Deps.
From S2P Require Import Protocols ApiServer Conditions ObjectMeta.

(** [controllerutil.SetControllerReference] with the scheme of the manager: the
    owner references of an object after the owner was made its controller. *)
Class OwnerUtil := {
  SetControllerReference :
    MultiClusterService → list OwnerReference → error + list OwnerReference;
}.
(** The reference is that of the controlling owner. *)
Definition controls (mcs : MultiClusterService) (ref : OwnerReference) : Prop :=
  or_Controller ref = Some true ∧ or_Name ref = om_Name (mcs_ObjectMeta mcs) ∧
  or_UID ref = om_UID (mcs_ObjectMeta mcs).
Class OwnerUtilLaws `{OwnerUtil} : Prop := {
  (* the owner is the only controller *)
  SetControllerReference_controls mcs refs refs' :
    SetControllerReference mcs refs = inr refs' →
    (∃ ref, ref ∈ refs' ∧ controls mcs ref) ∧
    ∀ ref, ref ∈ refs' → or_Controller ref = Some true → controls mcs ref;
  (* an object with another controller is refused *)
  SetControllerReference_owned mcs refs ref refs' :
    SetControllerReference mcs refs = inr refs' → ref ∈ refs →
    or_Controller ref = Some true → or_Name ref = om_Name (mcs_ObjectMeta mcs);
}.

Module multiclusterservice.

Definition multiClusterServiceFinalizer := "networking.fleet.azure.com/service-resources-cleanup".
Definition multiClusterServiceLabelServiceImport := "networking.fleet.azure.com/service-import".
Definition serviceLabelMCSName := "networking.fleet.azure.com/multi-cluster-service-name".
Definition serviceLabelMCSNamespace := "networking.fleet.azure.com/multi-cluster-service-namespace".
Definition conditionReasonUnknownServiceImport := "UnknownServiceImport".
Definition conditionReasonFoundServiceImport := "FoundServiceImport".
Definition mcsRetryInterval : Duration := (Second * 5)%Z.
Definition multiClusterServiceAnnotationInternalLoadBalancer :=
  "networking.fleet.azure.com/azure-load-balancer-internal".
Definition serviceAnnotationInternalLoadBalancer :=
  "service.beta.kubernetes.io/azure-load-balancer-internal".

Record Reconciler := { FleetSystemNamespace : string }.

(** ** Names and objects *)

Definition mcsLabel (key : string) (mcs : MultiClusterService) : option string :=
  map_get (om_Labels (mcs_ObjectMeta mcs)) key.
Definition derivedServiceFromLabel (r : Reconciler) (mcs : MultiClusterService)
    : option NamespacedName :=
  (λ val, {| nn_Namespace := FleetSystemNamespace r; nn_Name := val |}) <$>
    mcsLabel MultiClusterServiceLabelDerivedService mcs.
Definition serviceImportFromLabel (mcs : MultiClusterService) : option NamespacedName :=
  (λ val, {| nn_Namespace := om_Namespace (mcs_ObjectMeta mcs); nn_Name := val |}) <$>
    mcsLabel multiClusterServiceLabelServiceImport mcs.
Definition generateDerivedServiceName (r : Reconciler) (mcs : MultiClusterService)
    : NamespacedName :=
  {| nn_Namespace := FleetSystemNamespace r;
     nn_Name := om_Namespace (mcs_ObjectMeta mcs) +:+ "-" +:+ om_Name (mcs_ObjectMeta mcs) |}.

Definition emptyType : TypeMeta := {| tm_Kind := ""; tm_APIVersion := "" |}.
Definition newService (name : NamespacedName) : Service := {|
  svc_TypeMeta := emptyType; svc_ObjectMeta := newObjectMeta (nn_Namespace name) (nn_Name name);
  svc_Type := ""; svc_ClusterIP := ""; svc_Ports := []; svc_Ingress := [] |}.
Definition newServiceImport (name : NamespacedName) : ServiceImport := {|
  si_TypeMeta := emptyType; si_ObjectMeta := newObjectMeta (nn_Namespace name) (nn_Name name);
  si_Status := emptyServiceImportStatus |}.
(** [&corev1.Service{}]. *)
Definition emptyService : Service := newService {| nn_Namespace := ""; nn_Name := "" |}.

Definition isServiceImportOwnedByOthers (mcs : MultiClusterService) (si : ServiceImport) : bool :=
  existsb (λ owner,
    bool_decide (or_APIVersion owner = tm_APIVersion (mcs_TypeMeta mcs)) &&
    bool_decide (or_Kind owner = tm_Kind (mcs_TypeMeta mcs)) &&
    bool_decide (or_Controller owner = Some true) &&
    negb (bool_decide (or_Name owner = om_Name (mcs_ObjectMeta mcs))))
    (om_OwnerReferences (si_ObjectMeta si)).

Definition configureInternalLoadBalancer (mcs : MultiClusterService) (service : Service) : Service :=
  match ParseBool (map_getz (om_Annotations (mcs_ObjectMeta mcs))
                     multiClusterServiceAnnotationInternalLoadBalancer) with
  | Some true => updMeta (λ m, setAnnotations
      (Some (<[serviceAnnotationInternalLoadBalancer := "true"]> (default ∅ (om_Annotations m)))) m)
      service
  | _ => service
  end.

Definition ensureDerivedService (mcs : MultiClusterService) (si : ServiceImport) (service : Service)
    : Service :=
  let m := svc_ObjectMeta service in
  let labels := <[serviceLabelMCSNamespace := om_Namespace (mcs_ObjectMeta mcs)]>
    (<[serviceLabelMCSName := om_Name (mcs_ObjectMeta mcs)]> (default ∅ (om_Labels m))) in
  configureInternalLoadBalancer mcs {|
    svc_TypeMeta := svc_TypeMeta service; svc_ObjectMeta := setLabels (Some labels) m;
    svc_Type := ServiceTypeLoadBalancer; svc_ClusterIP := svc_ClusterIP service;
    svc_Ports := ToServicePort <$> sis_Ports (si_Status si);
    svc_Ingress := svc_Ingress service |}.

Definition desiredCondition (mcs : MultiClusterService) (si : ServiceImport) : Condition :=
  let condition status reason message := {|
    c_Type := MultiClusterServiceValid; c_Status := status;
    c_ObservedGeneration := om_Generation (mcs_ObjectMeta mcs); c_LastTransitionTime := None;
    c_Reason := reason; c_Message := message |} in
  if decide (sis_Clusters (si_Status si) = [])
  then condition ConditionUnknown conditionReasonUnknownServiceImport
    "importing service; if the condition remains for a while, please verify that service has been exported or service has been exported by other multiClusterService"
  else condition ConditionTrue conditionReasonFoundServiceImport "found valid service import".

(** The map function of the watch on Services. *)
Definition serviceEventHandler (r : Reconciler) (service : Service) : list NamespacedName :=
  let labels := om_Labels (svc_ObjectMeta service) in
  let namespace := map_getz labels serviceLabelMCSNamespace in
  let name := map_getz labels serviceLabelMCSName in
  if negb (bool_decide (om_Namespace (svc_ObjectMeta service) = FleetSystemNamespace r)) ||
     bool_decide (namespace = "") || bool_decide (name = "")
  then [] else [{| nn_Namespace := namespace; nn_Name := name |}].

(** ** Operations *)

Section controller.
Context {util : ControllerUtil} {owners : OwnerUtil}.

Definition deleteDerivedService (serviceName : option NamespacedName) : IO (option error) :=
  match serviceName with
  | None => mret None
  | Some name => Delete Member KService (newService name)
  end.
Definition deleteServiceImport (serviceImportName : option NamespacedName) : IO (option error) :=
  match serviceImportName with
  | None => mret None
  | Some name => Delete Member KServiceImport (newServiceImport name)
  end.

Definition ensureServiceImport (si : ServiceImport) (mcs : MultiClusterService)
    : option error * ServiceImport :=
  match SetControllerReference mcs (om_OwnerReferences (si_ObjectMeta si)) with
  | inl err => (Some err, si)
  | inr refs => (None, updMeta (setOwnerReferences refs) si)
  end.

Definition updateMultiClusterLabel (mcs : MultiClusterService) (key value : string)
    : IO (option error * MultiClusterService) :=
  if bool_decide (mcsLabel key mcs = Some value) then mret (None, mcs) else
  labels ← map_set (map_init (om_Labels (mcs_ObjectMeta mcs))) key value;
  Update Member KMultiClusterService (updMeta (setLabels labels) mcs).

Definition updateMultiClusterServiceStatus (mcs : MultiClusterService) (si : ServiceImport)
    (service : Service) : IO (option error * MultiClusterService) :=
  let currentCond := FindStatusCondition (mcs_Conditions mcs) MultiClusterServiceValid in
  let desiredCond := desiredCondition mcs si in
  if bool_decide (mcs_LoadBalancer mcs = svc_Ingress service) &&
     EqualCondition currentCond (Some desiredCond)
  then mret (None, mcs)
  else
    cs ← SetStatusCondition (mcs_Conditions mcs) desiredCond;
    StatusUpdate Member KMultiClusterService (setMcsStatus (svc_Ingress service) cs mcs).

Definition handleInvalidServiceImport (r : Reconciler) (mcs : MultiClusterService)
    (si : ServiceImport) : IO (option error) :=
  '(err, mcs) ← updateMultiClusterServiceStatus mcs si emptyService;
  match err with
  | Some err => mret (Some err)
  | None =>
      Event EventTypeNormal "SuccessfulUpdateStatus"
        ("Importing " +:+ om_Name (si_ObjectMeta si) +:+ " service and updated " +:+
         om_Name (mcs_ObjectMeta mcs) +:+ " status");;
      match derivedServiceFromLabel r mcs with
      | None => mret None
      | Some serviceName =>
          err ← deleteDerivedService (Some serviceName);
          match IgnoreNotFound err with
          | Some err => mret (Some err)
          | None =>
              '(err, _) ← Update Member KMultiClusterService
                 (updMeta (λ m, setLabels (map_delete (om_Labels m)
                    MultiClusterServiceLabelDerivedService) m) mcs);
              mret err
          end
      end
  end.

(** The [%s] verb on a pointer to a name. *)
Definition formatName (name : option NamespacedName) : string :=
  match name with Some n => NamespacedName_String n | None => "<nil>" end.

Definition handleDelete (r : Reconciler) (mcs : MultiClusterService) : IO (Result * option error) :=
  if negb (hasFinalizer mcs multiClusterServiceFinalizer) then mret (emptyResult, None) else
  err ← deleteDerivedService (derivedServiceFromLabel r mcs);
  match IgnoreNotFound err with
  | Some err => mret (emptyResult, Some err)
  | None =>
      let serviceImportName := serviceImportFromLabel mcs in
      err ← deleteServiceImport serviceImportName;
      match IgnoreNotFound err with
      | Some err => mret (emptyResult, Some err)
      | None =>
          Event EventTypeNormal "UnimportedService"
            ("Unimported service " +:+ formatName serviceImportName);;
          '(err, _) ← Update Member KMultiClusterService
             (removeFinalizer mcs multiClusterServiceFinalizer);
          mret (emptyResult, err)
      end
  end.

(** The failed creation or update of the ServiceImport. *)
Definition handleUnowned (r : Reconciler) (mcs : MultiClusterService) (name : NamespacedName)
    (err : error) : IO (Result * option error) :=
  got ← Get Member KServiceImport name;
  match got with
  | inr si =>
      if isServiceImportOwnedByOthers mcs si
      then
        err ← handleInvalidServiceImport r mcs (setImportStatus emptyServiceImportStatus si);
        match err with
        | Some err => mret (emptyResult, Some err)
        | None => mret ({| Requeue := false; RequeueAfter := mcsRetryInterval |}, None)
        end
      else mret (emptyResult, Some err)
  | inl _ => mret (emptyResult, Some err)
  end.

(** The derived Service of a valid ServiceImport. *)
Definition handleValidServiceImport (r : Reconciler) (mcs : MultiClusterService) (si : ServiceImport)
    : IO (Result * option error) :=
  Event EventTypeNormal "FoundValidService"
    ("Found valid service " +:+ om_Name (si_ObjectMeta si) +:+ " and importing");;
  let serviceName := default (generateDerivedServiceName r mcs) (derivedServiceFromLabel r mcs) in
  '(err, mcs) ← updateMultiClusterLabel mcs MultiClusterServiceLabelDerivedService (nn_Name serviceName);
  match err with
  | Some err => mret (emptyResult, Some err)
  | None =>
      '(err, service) ← CreateOrUpdate Member KService (newService serviceName)
         (λ service, mret (None, ensureDerivedService mcs si service));
      match err with
      | Some err => mret (emptyResult, Some err)
      | None =>
          '(err, mcs) ← updateMultiClusterServiceStatus mcs si service;
          match err with
          | Some err => mret (emptyResult, Some err)
          | None =>
              Event EventTypeNormal "SuccessfulUpdateStatus"
                ("Imported " +:+ om_Name (si_ObjectMeta si) +:+ " service and updated " +:+
                 om_Name (mcs_ObjectMeta mcs) +:+ " status");;
              mret (emptyResult, None)
          end
      end
  end.

Definition handleUpdate (r : Reconciler) (mcs : MultiClusterService) : IO (Result * option error) :=
  let current := serviceImportFromLabel mcs in
  let desired := {| nn_Namespace := om_Namespace (mcs_ObjectMeta mcs);
                    nn_Name := mcs_ServiceImport mcs |} in
  err ← match current with
        | Some name => if bool_decide (nn_Name name = nn_Name desired) then mret None
                       else deleteServiceImport current
        | None => mret None
        end;
  match IgnoreNotFound err with
  | Some err => mret (emptyResult, Some err)
  | None =>
      '(err, mcs) ← updateMultiClusterLabel mcs multiClusterServiceLabelServiceImport (nn_Name desired);
      match err with
      | Some err => mret (emptyResult, Some err)
      | None =>
          '(err, si) ← CreateOrUpdate Member KServiceImport (newServiceImport desired)
             (λ si, mret (ensureServiceImport si mcs));
          match err with
          | Some err => handleUnowned r mcs desired err
          | None =>
              if decide (sis_Clusters (si_Status si) = [])
              then err ← handleInvalidServiceImport r mcs si; mret (emptyResult, err)
              else handleValidServiceImport r mcs si
          end
      end
  end.

Definition Reconcile (r : Reconciler) (req : NamespacedName) : IO (Result * option error) :=
  got ← Get Member KMultiClusterService req;
  match got with
  | inl err => mret (emptyResult, IgnoreNotFound (Some err))
  | inr mcs =>
      if isDeleting (mcs : MultiClusterService) then handleDelete r mcs else
      '(err, mcs) ←
        (if hasFinalizer (mcs : MultiClusterService) multiClusterServiceFinalizer
         then mret (None, mcs)
         else Update Member KMultiClusterService
                (addFinalizer (mcs : MultiClusterService) multiClusterServiceFinalizer));
      match err with
      | Some err => mret (emptyResult, Some err)
      | None => handleUpdate r mcs
      end
  end.
End controller.

(** ** The protocol of the controller

    What it knows: the stored MultiClusterService, the ServiceImport and the
    derived Service as they were read or written last, and the ServiceImports
    and Services that were not found or whose deletion was accepted. *)
Record knowledge := {
  q_mcs : option MultiClusterService;
  q_import : option ServiceImport;
  q_service : option Service;
  q_goneImports : gset NamespacedName;
  q_goneServices : gset NamespacedName;
}.
Definition nothingKnown : knowledge :=
  {| q_mcs := None; q_import := None; q_service := None; q_goneImports := ∅; q_goneServices := ∅ |}.
Definition learnMcs (mcs : MultiClusterService) (s : knowledge) : knowledge :=
  {| q_mcs := Some mcs; q_import := q_import s; q_service := q_service s;
     q_goneImports := q_goneImports s; q_goneServices := q_goneServices s |}.
Definition learnImport (si : ServiceImport) (s : knowledge) : knowledge :=
  {| q_mcs := q_mcs s; q_import := Some si; q_service := q_service s;
     q_goneImports := q_goneImports s ∖ {[objectKey si]}; q_goneServices := q_goneServices s |}.
Definition learnService (svc : Service) (s : knowledge) : knowledge :=
  {| q_mcs := q_mcs s; q_import := q_import s; q_service := Some svc;
     q_goneImports := q_goneImports s; q_goneServices := q_goneServices s ∖ {[objectKey svc]} |}.
Definition learnImportGone (key : NamespacedName) (s : knowledge) : knowledge :=
  {| q_mcs := q_mcs s; q_import := q_import s; q_service := q_service s;
     q_goneImports := {[key]} ∪ q_goneImports s; q_goneServices := q_goneServices s |}.
Definition learnServiceGone (key : NamespacedName) (s : knowledge) : knowledge :=
  {| q_mcs := q_mcs s; q_import := q_import s; q_service := q_service s;
     q_goneImports := q_goneImports s; q_goneServices := {[key]} ∪ q_goneServices s |}.

Section protocol.
Context {util : ControllerUtil} (r : Reconciler) (req : NamespacedName).

Definition hasCleanup (mcs : MultiClusterService) : Prop :=
  multiClusterServiceFinalizer ∈ finalizersOf mcs.
Definition importKey (mcs : MultiClusterService) : NamespacedName :=
  {| nn_Namespace := om_Namespace (mcs_ObjectMeta mcs); nn_Name := mcs_ServiceImport mcs |}.

(** What the labels of [mcs] point to and those of [o] do not is gone. *)
Definition nothingLeaks (mcs o : MultiClusterService) (s : knowledge) : Prop :=
  (∀ key, serviceImportFromLabel mcs = Some key →
     serviceImportFromLabel o = Some key ∨ key ∈ q_goneImports s) ∧
  (∀ key, derivedServiceFromLabel r mcs = Some key →
     derivedServiceFromLabel r o = Some key ∨ key ∈ q_goneServices s).
Definition allGone (mcs : MultiClusterService) (s : knowledge) : Prop :=
  (∀ key, serviceImportFromLabel mcs = Some key → key ∈ q_goneImports s) ∧
  (∀ key, derivedServiceFromLabel r mcs = Some key → key ∈ q_goneServices s).

(** The stored MultiClusterService is live and has its finalizer. *)
Definition active (s : knowledge) (mcs : MultiClusterService) : Prop :=
  q_mcs s = Some mcs ∧ isDeleting mcs = false ∧ hasCleanup mcs.
Definition owned (mcs : MultiClusterService) (si : ServiceImport) : Prop :=
  (∃ ref, ref ∈ om_OwnerReferences (si_ObjectMeta si) ∧ controls mcs ref) ∧
  ∀ ref, ref ∈ om_OwnerReferences (si_ObjectMeta si) → or_Controller ref = Some true → controls mcs ref.
(** The Service that is derived from a ServiceImport. *)
Definition derives (mcs : MultiClusterService) (si : ServiceImport) (svc : Service) : Prop :=
  svc_Type svc = ServiceTypeLoadBalancer ∧
  svc_Ports svc = ToServicePort <$> sis_Ports (si_Status si) ∧
  map_get (om_Labels (svc_ObjectMeta svc)) serviceLabelMCSName = Some (om_Name (mcs_ObjectMeta mcs)) ∧
  map_get (om_Labels (svc_ObjectMeta svc)) serviceLabelMCSNamespace =
    Some (om_Namespace (mcs_ObjectMeta mcs)).
(** Another MultiClusterService controls the ServiceImport. *)
Definition ownedByOther (mcs : MultiClusterService) (si : ServiceImport) : Prop :=
  ∃ ref, ref ∈ om_OwnerReferences (si_ObjectMeta si) ∧
    or_APIVersion ref = tm_APIVersion (mcs_TypeMeta mcs) ∧ or_Kind ref = tm_Kind (mcs_TypeMeta mcs) ∧
    or_Controller ref = Some true ∧ or_Name ref ≠ om_Name (mcs_ObjectMeta mcs).
(** The Service of the ServiceImport cannot be used. *)
Definition unusable (mcs : MultiClusterService) (si : ServiceImport) : Prop :=
  sis_Clusters (si_Status si) = [] ∨ ownedByOther mcs si.
Definition validStatus (mcs : MultiClusterService) : option string :=
  c_Status <$> FindStatusCondition (mcs_Conditions mcs) MultiClusterServiceValid.

Definition mayWriteImport (s : knowledge) (o : ServiceImport) : Prop :=
  ∃ mcs, active s mcs ∧ objectKey o = importKey mcs ∧
    serviceImportFromLabel mcs = Some (importKey mcs) ∧ owned mcs o.
Definition mayWriteService (s : knowledge) (o : Service) : Prop :=
  ∃ mcs si, active s mcs ∧ derivedServiceFromLabel r mcs = Some (objectKey o) ∧
    q_import s = Some si ∧ sis_Clusters (si_Status si) ≠ [] ∧ derives mcs si o.
Definition reportsStatus (s : knowledge) (mcs : MultiClusterService) : Prop :=
  ∃ si, q_import s = Some si ∧
    (validStatus mcs = Some ConditionUnknown ∧ mcs_LoadBalancer mcs = [] ∧ unusable mcs si ∨
     validStatus mcs = Some ConditionTrue ∧ sis_Clusters (si_Status si) ≠ [] ∧
     ∃ svc, q_service s = Some svc ∧ derives mcs si svc ∧ mcs_LoadBalancer mcs = svc_Ingress svc).

Definition mcsProtocol : protocol eff knowledge := {|
  allowed X c s :=
    match c with
    | ENow | EEvent _ _ _ => True
    | EGet Member KMultiClusterService key => key = req
    | EGet Member KServiceImport key => ∃ mcs, q_mcs s = Some mcs ∧ key = importKey mcs
    | EGet Member KService key => ∃ mcs, q_mcs s = Some mcs ∧ derivedServiceFromLabel r mcs = Some key
    | ECreate Member KServiceImport o => mayWriteImport s o
    | EUpdate Member KServiceImport o => mayWriteImport s o
    | ECreate Member KService o => mayWriteService s o
    | EUpdate Member KService o => mayWriteService s o
    | EDelete Member KServiceImport key => ∃ mcs, q_mcs s = Some mcs ∧ hasCleanup mcs ∧
        serviceImportFromLabel mcs = Some key ∧ (isDeleting mcs = true ∨ key ≠ importKey mcs)
    | EDelete Member KService key => ∃ mcs, q_mcs s = Some mcs ∧ hasCleanup mcs ∧
        derivedServiceFromLabel r mcs = Some key ∧
        (isDeleting mcs = true ∨ ∃ si, q_import s = Some si ∧ unusable mcs si)
    | EUpdate Member KMultiClusterService o => ∃ mcs, q_mcs s = Some mcs ∧ objectKey o = req ∧
        mcs_ServiceImport o = mcs_ServiceImport mcs ∧ nothingLeaks mcs o s ∧
        (hasCleanup mcs → hasCleanup o ∨ isDeleting mcs = true ∧ allGone mcs s)
    | EStatusUpdate Member KMultiClusterService o => ∃ mcs, active s mcs ∧
        mcs_ObjectMeta o = mcs_ObjectMeta mcs ∧ reportsStatus s o
    | _ => False
    end;
  answer X c s := λ x, serverAnswer c x ∧
    (match c in eff X return X → Prop with
     (* updates keep the spec, the type and the deletion mark, and leave the status alone *)
     | EUpdate Member KMultiClusterService o => λ x,
         match x with
         | inr o' => mcs_ServiceImport o' = mcs_ServiceImport o ∧ isDeleting o' = isDeleting o ∧
             mcs_TypeMeta o' = mcs_TypeMeta o ∧ om_UID (mcs_ObjectMeta o') = om_UID (mcs_ObjectMeta o) ∧
             mcs_Conditions o' = mcs_Conditions o ∧ mcs_LoadBalancer o' = mcs_LoadBalancer o
         | inl _ => True
         end
     | EStatusUpdate Member KMultiClusterService o => λ x,
         match x with
         | inr o' => mcs_ServiceImport o' = mcs_ServiceImport o ∧ isDeleting o' = isDeleting o ∧
             mcs_TypeMeta o' = mcs_TypeMeta o ∧ om_UID (mcs_ObjectMeta o') = om_UID (mcs_ObjectMeta o)
         | inl _ => True
         end
     | ECreate Member KService o => λ x,
         match x with inr o' => svc_Type o' = svc_Type o ∧ svc_Ports o' = svc_Ports o | inl _ => True end
     | EUpdate Member KService o => λ x,
         match x with inr o' => svc_Type o' = svc_Type o ∧ svc_Ports o' = svc_Ports o | inl _ => True end
     | _ => λ _, True
     end) x;
  next X c :=
    match c in eff X return X → knowledge → knowledge with
    | EGet Member KMultiClusterService key => λ x s,
        match x with inr mcs => learnMcs mcs s | inl _ => s end
    | EUpdate Member KMultiClusterService o => λ x s,
        match x with inr mcs => learnMcs mcs s | inl _ => s end
    | EStatusUpdate Member KMultiClusterService o => λ x s,
        match x with inr mcs => learnMcs mcs s | inl _ => s end
    | EGet Member KServiceImport key => λ x s,
        match x with inr si => learnImport si s | inl _ => s end
    | ECreate Member KServiceImport o => λ x s,
        match x with inr si => learnImport si s | inl _ => s end
    | EUpdate Member KServiceImport o => λ x s,
        match x with inr si => learnImport si s | inl _ => s end
    | EGet Member KService key => λ x s,
        match x with inr svc => learnService svc s | inl _ => s end
    | ECreate Member KService o => λ x s,
        match x with inr svc => learnService svc s | inl _ => s end
    | EUpdate Member KService o => λ x s,
        match x with inr svc => learnService svc s | inl _ => s end
    | EDelete Member KServiceImport key => λ x s,
        match IgnoreNotFound x with None => learnImportGone key s | Some _ => s end
    | EDelete Member KService key => λ x s,
        match IgnoreNotFound x with None => learnServiceGone key s | Some _ => s end
    | _ => λ _ s, s
    end |}.

(** What a finished round leaves behind. *)
Definition settled (s : knowledge) : Prop :=
  ∀ mcs, q_mcs s = Some mcs →
  if isDeleting mcs then ¬ hasCleanup mcs
  else hasCleanup mcs ∧ serviceImportFromLabel mcs = Some (importKey mcs) ∧ reportsStatus s mcs ∧
    ∃ si, q_import s = Some si ∧ (unusable mcs si → derivedServiceFromLabel r mcs = None).
Definition roundEnds (x : Result * option error) (s : knowledge) : Prop :=
  x.2 = None → settled s.
End protocol.


(** ** Safety *)

(** Two versions of a MultiClusterService that differ in labels, annotations,
    finalizers and status at most. *)
Record sameMcs (m m' : MultiClusterService) : Prop := {
  same_key : objectKey m' = objectKey m;
  same_uid : om_UID (mcs_ObjectMeta m') = om_UID (mcs_ObjectMeta m);
  same_type : mcs_TypeMeta m' = mcs_TypeMeta m;
  same_spec : mcs_ServiceImport m' = mcs_ServiceImport m;
  same_deleting : isDeleting m' = isDeleting m;
}.
#[export] Instance sameMcs_equivalence : Equivalence sameMcs.
Proof.
  split.
  - intros m. by split.
  - intros m m' []. by split.
  - intros m1 m2 m3 [] []. split; congruence.
Qed.
Lemma same_name m m' : sameMcs m m' →
  om_Name (mcs_ObjectMeta m') = om_Name (mcs_ObjectMeta m) ∧
  om_Namespace (mcs_ObjectMeta m') = om_Namespace (mcs_ObjectMeta m).
Proof. intros Hs. injection (same_key _ _ Hs). auto. Qed.
Lemma importKey_same m m' : sameMcs m m' → importKey m' = importKey m.
Proof.
  intros Hs. destruct (same_name _ _ Hs) as [_ Hns]. unfold importKey.
  by rewrite Hns, (same_spec _ _ Hs).
Qed.
Lemma owned_same m m' si : sameMcs m m' → owned m si → owned m' si.
Proof.
  intros Hs. unfold owned, controls. by rewrite (proj1 (same_name _ _ Hs)), (same_uid _ _ Hs).
Qed.
Lemma isServiceImportOwnedByOthers_spec mcs si :
  isServiceImportOwnedByOthers mcs si = true ↔ ownedByOther mcs si.
Proof.
  unfold isServiceImportOwnedByOthers, ownedByOther. rewrite existsb_exists.
  setoid_rewrite <-list_elem_of_In. setoid_rewrite andb_true_iff. setoid_rewrite andb_true_iff.
  setoid_rewrite andb_true_iff. setoid_rewrite negb_true_iff. setoid_rewrite bool_decide_eq_true.
  setoid_rewrite bool_decide_eq_false. naive_solver.
Qed.
Lemma ownedByOther_same m m' si : sameMcs m m' → ownedByOther m' si ↔ ownedByOther m si.
Proof.
  intros Hs. unfold ownedByOther. by rewrite (proj1 (same_name _ _ Hs)), (same_type _ _ Hs).
Qed.
Lemma unusable_same m m' si : sameMcs m m' → unusable m si → unusable m' si.
Proof. intros Hs. unfold unusable. by rewrite (ownedByOther_same _ _ _ Hs). Qed.
Lemma derives_same m m' si svc : sameMcs m m' → derives m si svc → derives m' si svc.
Proof. intros Hs. unfold derives. by destruct (same_name _ _ Hs) as [-> ->]. Qed.
Lemma owned_not_others mcs si : owned mcs si → ¬ ownedByOther mcs si.
Proof. intros [_ Ho] (ref & Hin & _ & _ & Hc & Hn). by destruct (Ho ref Hin Hc) as (_ & Hname & _). Qed.

(** Labels are part of the metadata a write keeps. *)
Lemma mcsLabel_sameMeta key m m' :
  sameMeta (mcs_ObjectMeta m) (mcs_ObjectMeta m') → mcsLabel key m' = mcsLabel key m.
Proof. intros (_ & _ & Hl & _). unfold mcsLabel. by rewrite Hl. Qed.
Lemma importLabel_sameMeta m m' :
  sameMeta (mcs_ObjectMeta m) (mcs_ObjectMeta m') →
  serviceImportFromLabel m' = serviceImportFromLabel m.
Proof.
  intros Hm. unfold serviceImportFromLabel. rewrite (mcsLabel_sameMeta _ _ _ Hm).
  by destruct Hm as (_ & -> & _).
Qed.
Lemma derivedLabel_sameMeta r m m' :
  sameMeta (mcs_ObjectMeta m) (mcs_ObjectMeta m') →
  derivedServiceFromLabel r m' = derivedServiceFromLabel r m.
Proof. intros Hm. unfold derivedServiceFromLabel. by rewrite (mcsLabel_sameMeta _ _ _ Hm). Qed.

Lemma ensureDerivedService_derives mcs si svc :
  derives mcs si (ensureDerivedService mcs si svc) ∧
  objectKey (ensureDerivedService mcs si svc) = objectKey svc.
Proof.
  unfold ensureDerivedService, configureInternalLoadBalancer.
  assert (∀ svc', svc_Type svc' = ServiceTypeLoadBalancer →
    svc_Ports svc' = ToServicePort <$> sis_Ports (si_Status si) →
    om_Labels (svc_ObjectMeta svc') = Some (<[serviceLabelMCSNamespace := om_Namespace (mcs_ObjectMeta mcs)]>
      (<[serviceLabelMCSName := om_Name (mcs_ObjectMeta mcs)]> (default ∅ (om_Labels (svc_ObjectMeta svc))))) →
    derives mcs si svc') as Hd.
  { intros svc' Ht Hp Hl. split; [done|]. split; [done|]. rewrite Hl, !map_get_some.
    split; [|apply lookup_insert_eq]. rewrite lookup_insert_ne by done. apply lookup_insert_eq. }
  destruct (ParseBool _) as [[]|]; (split; [by apply Hd|done]).
Qed.

Section safety.
Context {util : ControllerUtil} {laws : ControllerUtilLaws}.
Context {owners : OwnerUtil} {ownerLaws : OwnerUtilLaws}.
Context (r : Reconciler) (req : NamespacedName).
Local Abbreviation P := (mcsProtocol r req).

(** The MultiClusterService in hand is the stored one, live, with its
    finalizer. *)
Definition holds (mcs : MultiClusterService) (s : knowledge) : Prop :=
  active s mcs ∧ objectKey mcs = req.

(** An update that keeps the finalizer. *)
Lemma updateMcs_wp mcs o s :
  holds mcs s → sameMcs mcs o → finalizersOf o = finalizersOf mcs → nothingLeaks r mcs o s →
  wp P (Update Member KMultiClusterService o) s (λ x s',
    x.1 = None → holds x.2 s' ∧ s' = learnMcs x.2 s ∧ sameMcs mcs x.2 ∧
      sameMeta (mcs_ObjectMeta o) (mcs_ObjectMeta x.2) ∧
      mcs_Conditions x.2 = mcs_Conditions o ∧ mcs_LoadBalancer x.2 = mcs_LoadBalancer o).
Proof.
  intros [(Hm & Hdel & Hfin) Hk] Hs Hf Hl. apply wp_Update.
  { exists mcs. split; [done|]. split; [etrans; [exact (same_key _ _ Hs)|done]|].
    split; [by apply same_spec|]. split; [done|]. intros _. left. unfold hasCleanup. by rewrite Hf. }
  intros [err|o'] [Hm' Ha]; [done|]. intros _. simpl in o', Ha.
  destruct Ha as (Hsp & Hd & Ht & Hu & Hc & Hlb).
  assert (sameMcs mcs o') as Hs'.
  { etrans; [exact Hs|]. split; [by apply (sameMeta_key o o')|done..]. }
  assert (finalizersOf o' = finalizersOf o) as Hff by exact (sameMeta_finalizers _ _ Hm').
  simpl. split; [|done]. split; [|by rewrite (same_key _ _ Hs')].
  split; [done|]. split; [by rewrite (same_deleting _ _ Hs')|].
  unfold hasCleanup. by rewrite Hff, Hf.
Qed.

(** A MultiClusterService with a label set. *)
Definition labelled (key value : string) (mcs : MultiClusterService) : MultiClusterService :=
  updMeta (λ m, setLabels (Some (<[key := value]> (default ∅ (om_Labels m)))) m) mcs.
Lemma labelled_label key value mcs key' :
  mcsLabel key' (labelled key value mcs) = if decide (key' = key) then Some value else mcsLabel key' mcs.
Proof.
  unfold mcsLabel, labelled.
  change (map_get (Some (<[key := value]> (default ∅ (om_Labels (mcs_ObjectMeta mcs))))) key' =
    if decide (key' = key) then Some value else map_get (om_Labels (mcs_ObjectMeta mcs)) key').
  rewrite map_get_some. case_decide as Hk; [subst; apply lookup_insert_eq|].
  rewrite lookup_insert_ne by done. destruct (om_Labels _); [done|]. simpl. by rewrite lookup_empty.
Qed.

Lemma updateMultiClusterLabel_wp mcs key value s :
  holds mcs s → nothingLeaks r mcs (labelled key value mcs) s →
  wp P (updateMultiClusterLabel mcs key value) s (λ x s',
    x.1 = None → holds x.2 s' ∧ sameMcs mcs x.2 ∧ (s' = s ∧ x.2 = mcs ∨ s' = learnMcs x.2 s) ∧
      ∀ key', mcsLabel key' x.2 = if decide (key' = key) then Some value else mcsLabel key' mcs).
Proof.
  intros Hh Hl. unfold updateMultiClusterLabel. case_bool_decide as Heq.
  { apply wp_ret. intros _. split; [done|]. split; [done|]. split; [by left|].
    intros key'. simpl. case_decide; by subst. }
  unfold map_init, map_set. apply wp_bind, wp_ret.
  eapply wp_mono; [apply (updateMcs_wp mcs (labelled key value mcs)); [done|by split|done|done]|].
  intros [err mcs'] s' Hok Hnone. destruct (Hok Hnone) as (Hh' & -> & Hs & Hm & _).
  split; [done|]. split; [done|]. split; [by right|].
  intros key'. by rewrite (mcsLabel_sameMeta _ (labelled key value mcs) mcs' Hm), labelled_label.
Qed.

Lemma reportsStatus_learn s m mcs : reportsStatus s mcs → reportsStatus (learnMcs m s) mcs.
Proof. done. Qed.
(** A report only depends on the status and the identity. *)
Lemma reportsStatus_same s m m' :
  sameMcs m m' → mcs_Conditions m' = mcs_Conditions m → mcs_LoadBalancer m' = mcs_LoadBalancer m →
  reportsStatus s m → reportsStatus s m'.
Proof.
  intros Hs Hc Hl (si & Hsi & Hr). exists si. split; [done|]. unfold validStatus in *.
  rewrite Hc, Hl. destruct Hr as [(? & ? & ?)|(? & ? & svc & ? & ? & ?)]; [left|right].
  - eauto using unusable_same.
  - split; [done|]. split; [done|]. exists svc. eauto using derives_same.
Qed.

Lemma updateMultiClusterServiceStatus_wp mcs si svc s :
  holds mcs s →
  (∀ m', sameMcs mcs m' → validStatus m' = Some (c_Status (desiredCondition mcs si)) →
     mcs_LoadBalancer m' = svc_Ingress svc → reportsStatus s m') →
  wp P (updateMultiClusterServiceStatus mcs si svc) s (λ x s',
    x.1 = None → holds x.2 s' ∧ sameMcs mcs x.2 ∧ (s' = s ∧ x.2 = mcs ∨ s' = learnMcs x.2 s) ∧
      (∀ key, mcsLabel key x.2 = mcsLabel key mcs) ∧ reportsStatus s' x.2).
Proof.
  intros Hh Hrep. unfold updateMultiClusterServiceStatus.
  set (desired := desiredCondition mcs si).
  assert (c_Type desired = MultiClusterServiceValid) as Hty
    by (unfold desired, desiredCondition; by case_decide).
  destruct (bool_decide _ && _) eqn:Hsame.
  { apply andb_true_iff in Hsame as [Hlb%bool_decide_eq_true Heq].
    apply wp_ret. intros _. split; [done|]. split; [done|]. split; [by left|]. split; [done|].
    apply Hrep; [done| |done]. unfold validStatus. destruct (FindStatusCondition _ _); [|done].
    apply EqualCondition_spec in Heq as (_ & Hst & _). simpl. by rewrite Hst. }
  destruct Hh as [(Hm & Hdel & Hfin) Hk].
  apply wp_bind, wp_SetStatusCondition; [done|]. intros now _.
  set (o := setMcsStatus _ _ mcs).
  assert (sameMcs mcs o) as Hso by (by split).
  assert (reportsStatus s o) as Hro.
  { apply Hrep; [done| |done]. unfold validStatus.
    destruct (setCondition_same now (mcs_Conditions mcs) desired) as (c & Hf & _ & Hst & _).
    rewrite Hty in Hf. simpl. rewrite Hf. simpl. by rewrite Hst. }
  apply wp_StatusUpdate; [by exists mcs|].
  intros [err|m'] [[Hm' Hz] Ha]; [done|]. intros _. simpl in m', Ha.
  destruct Ha as (Hsp & Hd & Ht & Hu). assert (sameMcs o m') as Hs'.
  { split; [by apply (sameMeta_key o m')|done..]. }
  assert (finalizersOf m' = finalizersOf mcs) as Hff by exact (sameMeta_finalizers _ _ Hm').
  simpl. split.
  { split; [split; [done|]; split; [by rewrite Hd|unfold hasCleanup; by rewrite Hff]|].
    by rewrite (same_key _ _ Hs'). }
  split; [by etrans|]. split; [by right|].
  split; [intros key; apply (mcsLabel_sameMeta key o m' Hm')|].
  specialize (Hz m'). apply (reportsStatus_same _ o); [done| | |done].
  - by apply (f_equal mcs_Conditions) in Hz.
  - by apply (f_equal mcs_LoadBalancer) in Hz.
Qed.

Lemma importLabel_labels m m' : sameMcs m m' →
  mcsLabel multiClusterServiceLabelServiceImport m' = mcsLabel multiClusterServiceLabelServiceImport m →
  serviceImportFromLabel m' = serviceImportFromLabel m.
Proof.
  intros Hs Hl. unfold serviceImportFromLabel. by rewrite Hl, (proj2 (same_name _ _ Hs)).
Qed.

Lemma handleInvalidServiceImport_wp mcs si si0 s :
  holds mcs s → serviceImportFromLabel mcs = Some (importKey mcs) →
  q_import s = Some si0 → unusable mcs si0 → sis_Clusters (si_Status si) = [] →
  wp P (handleInvalidServiceImport r mcs si) s (λ err s', err = None → settled r s').
Proof.
  intros Hh Hlab Hsi0 Hun Hcl. apply wp_bind.
  eapply wp_mono; [apply updateMultiClusterServiceStatus_wp; [done|]|].
  { intros m' Hs Hv Hlb. exists si0. split; [done|]. left.
    unfold desiredCondition in Hv. rewrite decide_True in Hv by done.
    split; [done|]. split; [done|]. by eapply unusable_same. }
  intros [[err|] m1] s1 Hok; [by apply wp_ret|].
  destruct (Hok eq_refl) as (Hh1 & Hs1 & Hst & Hl1 & Hr1). simpl in *.
  assert (q_import s1 = Some si0) as Hsi1 by (by destruct Hst as [[-> _]| ->]).
  assert (serviceImportFromLabel m1 = Some (importKey m1)) as Hlab1.
  { by rewrite (importKey_same _ _ Hs1), (importLabel_labels _ _ Hs1). }
  apply wp_bind, wp_Event; [done|]. intros ? _.
  destruct (derivedServiceFromLabel r m1) as [[kns kn]|] eqn:Hder.
  2: { apply wp_ret. intros _ ? Hq. destruct Hh1 as [(Hq1 & Hd1 & Hf1) _].
       cbn [next mcsProtocol] in Hq. rewrite Hq1 in Hq. injection Hq as <-. rewrite Hd1.
       split; [done|]. split; [done|]. split; [done|]. by exists si0. }
  destruct Hh1 as [(Hq1 & Hd1 & Hf1) Hk1]. apply wp_bind, wp_Delete.
  { exists m1. split; [done|]. split; [done|]. split; [exact Hder|]. right. exists si0.
    split; [done|]. by eapply unusable_same. }
  intros x _. simpl. destruct (IgnoreNotFound x); [by apply wp_ret|]. apply wp_bind.
  set (o := updMeta _ m1).
  assert (∀ k, mcsLabel k o = if decide (k = MultiClusterServiceLabelDerivedService) then None
                              else mcsLabel k m1) as Hlo.
  { intros k. unfold mcsLabel, o. case_decide as Hkd; [subst; apply map_get_delete_eq|].
    by apply map_get_delete_ne. }
  assert (sameMcs m1 o) as Hso by (by split).
  eapply wp_mono; [apply (updateMcs_wp m1 o); [by split|done|done|]|].
  { split; intros k Hk.
    - left. rewrite <-Hk. apply importLabel_labels; [done|]. by rewrite Hlo.
    - right. simpl. rewrite Hder in Hk. injection Hk as <-. set_solver. }
  intros [[err|] m2] s2 Hok2; [by apply wp_ret|].
  destruct (Hok2 eq_refl) as (Hh2 & -> & Hs2 & Hm2 & Hc2 & Hlb2). simpl in *.
  apply wp_ret. intros _ ? [= <-]. destruct Hh2 as [(_ & Hd2 & Hf2) _]. rewrite Hd2.
  split; [done|]. split.
  { rewrite (importLabel_sameMeta o m2 Hm2), (importKey_same _ _ Hs2), <-Hlab1.
    apply importLabel_labels; [done|]. by rewrite Hlo. }
  split; [by apply (reportsStatus_same _ m1)|].
  exists si0. split; [done|]. intros _.
  rewrite (derivedLabel_sameMeta r o m2 Hm2). unfold derivedServiceFromLabel. by rewrite Hlo.
Qed.

Lemma derives_sameMeta mcs si svc svc' :
  sameMeta (svc_ObjectMeta svc) (svc_ObjectMeta svc') → svc_Type svc' = svc_Type svc →
  svc_Ports svc' = svc_Ports svc → derives mcs si svc → derives mcs si svc'.
Proof. intros (_ & _ & Hl & _) Ht Hp. unfold derives. by rewrite Hl, Ht, Hp. Qed.

(** Creating or updating the derived Service. *)
Lemma syncService_wp mcs si name s :
  holds mcs s → derivedServiceFromLabel r mcs = Some name →
  q_import s = Some si → sis_Clusters (si_Status si) ≠ [] →
  wp P (CreateOrUpdate Member KService (newService name)
          (λ svc, mret (None, ensureDerivedService mcs si svc))) s (λ x s',
    x.1 = None → q_mcs s' = q_mcs s ∧ q_import s' = q_import s ∧
      q_service s' = Some x.2 ∧ derives mcs si x.2).
Proof.
  intros [Ha Hk] Hder Hsi Hcl.
  assert (@objectKey _ (obj_Object KService) (newService name) = name) as Hko by (by destruct name).
  assert (∀ svc s', objectKey svc = name → q_mcs s' = q_mcs s → q_import s' = q_import s →
    mayWriteService r s' (ensureDerivedService mcs si svc)) as Hmay.
  { intros svc s' Hks Hq Hi. destruct (ensureDerivedService_derives mcs si svc) as [Hd Hke].
    exists mcs, si. split; [unfold active; by rewrite Hq|]. split; [by rewrite Hke, Hks|].
    rewrite Hi. by split. }
  apply CreateOrUpdate_wp; rewrite Hko; [exists mcs; split; [apply Ha|done]|].
  intros [err|cur] Hget; simpl.
  - destruct (IsNotFound err); [|done]. apply wp_ret.
    destruct (ensureDerivedService_derives mcs si (newService name)) as [Hd Hke].
    split; [etrans; [exact Hke|exact Hko]|]. split; [by apply Hmay|].
    intros [err'|svc'] [Hm Hx]; simpl; [done|]. intros _. do 3 (split; [done|]).
    simpl in Hx. eapply derives_sameMeta; [exact Hm|by destruct Hx..|exact Hd].
  - simpl in cur. destruct Hget as [Hkc _]. apply wp_ret.
    destruct (ensureDerivedService_derives mcs si cur) as [Hd Hke].
    split; [etrans; [exact Hke|exact Hkc]|]. split.
    + intros Heq _. do 3 (split; [simpl; congruence|]). exact Hd.
    + intros _. split; [by apply Hmay|].
      intros [err'|svc'] [Hm Hx]; simpl; [done|]. intros _. do 3 (split; [done|]).
      simpl in Hx. eapply derives_sameMeta; [exact Hm|by destruct Hx..|exact Hd].
Qed.

(** Owning the ServiceImport. *)
Lemma ensureServiceImport_owned mcs si si' :
  ensureServiceImport si mcs = (None, si') → owned mcs si' ∧ objectKey si' = objectKey si.
Proof.
  unfold ensureServiceImport. destruct (SetControllerReference _ _) as [|refs] eqn:Hset; [done|].
  intros [= <-]. split; [|done]. by apply SetControllerReference_controls in Hset.
Qed.
Lemma owned_sameMeta mcs si si' :
  sameMeta (si_ObjectMeta si) (si_ObjectMeta si') → owned mcs si → owned mcs si'.
Proof. intros (_ & _ & _ & _ & Ho & _). unfold owned. by rewrite Ho. Qed.

Lemma ownImport_wp mcs s :
  holds mcs s → serviceImportFromLabel mcs = Some (importKey mcs) →
  wp P (CreateOrUpdate Member KServiceImport (newServiceImport (importKey mcs))
          (λ si, mret (ensureServiceImport si mcs))) s (λ x s',
    q_mcs s' = q_mcs s ∧ (x.1 = None → q_import s' = Some x.2 ∧ owned mcs x.2)).
Proof.
  intros [Ha Hk] Hlab.
  assert (@objectKey _ (obj_Object KServiceImport) (newServiceImport (importKey mcs)) = importKey mcs)
    as Hko by done.
  assert (∀ (o : ServiceImport) s', objectKey o = importKey mcs → owned mcs o → q_mcs s' = q_mcs s →
    mayWriteImport s' o) as Hmay.
  { intros o s' Hko' Ho Hq. exists mcs. split; [unfold active; by rewrite Hq|done]. }
  apply CreateOrUpdate_wp; rewrite Hko; [exists mcs; split; [apply Ha|done]|].
  intros [err|cur] Hget; simpl.
  - destruct (IsNotFound err); [|done]. apply wp_ret.
    destruct (ensureServiceImport _ mcs) as [[e|] o] eqn:He; [done|].
    apply ensureServiceImport_owned in He as [Ho Hke].
    split; [exact Hke|]. split; [by apply Hmay|].
    intros [err'|si'] [Hm _]; simpl; [done|]. split; [done|]. intros _. split; [done|].
    by eapply owned_sameMeta.
  - simpl in cur. destruct Hget as [Hkc _]. apply wp_ret.
    destruct (ensureServiceImport cur mcs) as [[e|] o] eqn:He; [done|].
    apply ensureServiceImport_owned in He as [Ho Hke].
    split; [etrans; [exact Hke|exact Hkc]|]. split.
    + intros ->. split; [done|]. intros _. by split.
    + intros _. split; [apply Hmay; [by rewrite Hke|done|done]|].
      intros [err'|si'] [Hm _]; simpl; [done|]. split; [done|]. intros _. split; [done|].
      by eapply owned_sameMeta.
Qed.


Lemma handleValidServiceImport_wp mcs si s :
  holds mcs s → serviceImportFromLabel mcs = Some (importKey mcs) →
  q_import s = Some si → sis_Clusters (si_Status si) ≠ [] → owned mcs si →
  wp P (handleValidServiceImport r mcs si) s (roundEnds r).
Proof.
  intros Hh Hlab Hsi Hcl Hown. apply wp_bind, wp_Event; [done|]. intros ? _. cbv zeta.
  set (name := default _ (derivedServiceFromLabel r mcs)).
  assert (name = {| nn_Namespace := FleetSystemNamespace r; nn_Name := nn_Name name |}) as Hname.
  { unfold name, derivedServiceFromLabel. by destruct (mcsLabel _ mcs). }
  apply wp_bind. eapply wp_mono; [apply updateMultiClusterLabel_wp; [done|]|].
  { split; intros k Hkey; left; rewrite <-Hkey.
    - apply importLabel_labels; [by split|]. by rewrite labelled_label.
    - unfold derivedServiceFromLabel. rewrite labelled_label, decide_True by done.
      unfold name. rewrite Hkey. unfold derivedServiceFromLabel in Hkey.
      destruct (mcsLabel _ mcs); [|done]. injection Hkey as <-. done. }
  intros [[err|] m1] s1 Hok; [by apply wp_ret|].
  destruct (Hok eq_refl) as (Hh1 & Hs1 & Hst & Hl1). simpl in Hh1, Hs1, Hst, Hl1.
  assert (q_import s1 = Some si) as Hsi1 by (by destruct Hst as [[-> _]| ->]).
  assert (derivedServiceFromLabel r m1 = Some name) as Hder1.
  { unfold derivedServiceFromLabel. rewrite Hl1, decide_True by done. by rewrite Hname at 2. }
  assert (serviceImportFromLabel m1 = Some (importKey m1)) as Hlab1.
  { rewrite (importKey_same _ _ Hs1), <-Hlab. apply importLabel_labels; [done|]. by rewrite Hl1. }
  apply wp_bind. eapply wp_mono; [by apply (syncService_wp m1 si name)|].
  intros [[err|] svc] s2 Hok2; [by apply wp_ret|].
  destruct (Hok2 eq_refl) as (Hq2 & Hi2 & Hsv2 & Hd2). simpl in Hd2.
  assert (holds m1 s2) as Hh2.
  { destruct Hh1 as [(? & ? & ?) ?]. split; [|done]. unfold active. by rewrite Hq2. }
  apply wp_bind. eapply wp_mono; [apply updateMultiClusterServiceStatus_wp; [done|]|].
  { intros m' Hs Hv Hlb. exists si. split; [by rewrite Hi2|]. right.
    unfold desiredCondition in Hv. rewrite decide_False in Hv by done.
    split; [done|]. split; [done|]. exists svc. split; [done|]. split; [|done]. by eapply derives_same. }
  intros [[err|] m2] s3 Hok3; [by apply wp_ret|].
  destruct (Hok3 eq_refl) as (Hh3 & Hs3 & Hst3 & Hl3 & Hr3). simpl in Hh3, Hs3, Hst3, Hl3, Hr3.
  apply wp_bind, wp_Event; [done|]. intros ? _. apply wp_ret. intros _ ? Hq.
  cbn [next mcsProtocol] in Hq. destruct Hh3 as [(Hq3 & Hdel3 & Hf3) _]. rewrite Hq3 in Hq.
  injection Hq as <-. rewrite Hdel3. split; [done|]. split.
  { by rewrite (importKey_same _ _ Hs3), (importLabel_labels _ _ Hs3). }
  split; [done|]. exists si. split; [destruct Hst3 as [[-> _]| ->]; simpl; by rewrite Hi2|].
  intros [?|Hoth]; [done|]. exfalso. eapply owned_not_others; [|exact Hoth].
  eapply owned_same; [exact Hs3|]. by eapply owned_same.
Qed.

Lemma handleUnowned_wp mcs err s :
  holds mcs s → serviceImportFromLabel mcs = Some (importKey mcs) →
  wp P (handleUnowned r mcs (importKey mcs) err) s (roundEnds r).
Proof.
  intros Hh Hlab. pose proof Hh as [(Hq & _) _]. apply wp_bind, wp_Get; [by exists mcs|].
  intros [err'|si] _; simpl; [by apply wp_ret|]. simpl in si.
  destruct (isServiceImportOwnedByOthers mcs si) eqn:Ho; [|by apply wp_ret]. apply wp_bind.
  apply isServiceImportOwnedByOthers_spec in Ho.
  eapply wp_mono; [apply (handleInvalidServiceImport_wp mcs _ si); [exact Hh|done|done|by right|done]|].
  intros [err'|] s' Hok; apply wp_ret; [done|]. intros _. by apply Hok.
Qed.

Lemma importService_wp mcs s : holds mcs s → wp P (handleUpdate r mcs) s (roundEnds r).
Proof.
  intros Hh. pose proof Hh as [(Hq & Hdel & Hfin) Hk]. apply wp_bind.
  apply (wp_mono _ _ _ (λ err s', IgnoreNotFound err = None → holds mcs s' ∧
    ∀ key, serviceImportFromLabel mcs = Some key → key = importKey mcs ∨ key ∈ q_goneImports s')).
  { destruct (serviceImportFromLabel mcs) as [[ns n]|] eqn:Hcur; [|by apply wp_ret].
    assert (ns = om_Namespace (mcs_ObjectMeta mcs)) as Hns.
    { unfold serviceImportFromLabel in Hcur. destruct (mcsLabel _ mcs); [|done]. by injection Hcur. }
    case_bool_decide as Hsame; simpl in Hsame.
    - apply wp_ret. intros _. split; [done|]. intros ? [= <-]. left. unfold importKey. by subst.
    - apply wp_Delete.
      { exists mcs. split; [done|]. split; [done|]. split; [exact Hcur|]. right. intros Heq.
        apply Hsame. exact (f_equal nn_Name Heq). }
      intros x _ Hx. simpl in *. rewrite Hx. split; [done|]. intros ? [= <-]. right. simpl. set_solver. }
  intros err s1 Hok. destruct (IgnoreNotFound err); [by apply wp_ret|].
  destruct (Hok eq_refl) as [Hh1 Hgone]. clear Hok. apply wp_bind.
  eapply wp_mono; [apply updateMultiClusterLabel_wp; [done|]|].
  { split; intros k Hkey.
    - destruct (Hgone k Hkey) as [->|?]; [left|by right].
      unfold serviceImportFromLabel. by rewrite labelled_label.
    - left. rewrite <-Hkey. unfold derivedServiceFromLabel. by rewrite labelled_label. }
  intros [[e|] m1] s2 Hok; [by apply wp_ret|].
  destruct (Hok eq_refl) as (Hh2 & Hs2 & _ & Hl2). simpl in Hh2, Hs2, Hl2.
  assert (serviceImportFromLabel m1 = Some (importKey m1)) as Hlab.
  { unfold serviceImportFromLabel, importKey. rewrite Hl2, decide_True by done.
    by rewrite (same_spec _ _ Hs2). }
  change {| nn_Namespace := _; nn_Name := _ |} with (importKey mcs).
  rewrite <-(importKey_same _ _ Hs2). apply wp_bind.
  eapply wp_mono; [by apply ownImport_wp|]. intros [e si] s3 [Hq3 Hx]. simpl in Hx.
  assert (holds m1 s3) as Hh3.
  { destruct Hh2 as [(? & ? & ?) ?]. split; [|done]. unfold active. by rewrite Hq3. }
  destruct e as [e|]; [by apply handleUnowned_wp|]. destruct (Hx eq_refl) as [Hi3 Ho3].
  case_decide as Hcl; [|by apply handleValidServiceImport_wp].
  apply wp_bind. eapply wp_mono; [by apply (handleInvalidServiceImport_wp m1 si si); [..|left|]|].
  intros e s' Hs'. by apply wp_ret.
Qed.


Lemma unimportService_wp mcs s :
  q_mcs s = Some mcs → objectKey mcs = req → isDeleting mcs = true →
  wp P (handleDelete r mcs) s (roundEnds r).
Proof.
  intros Hq Hk Hdel. unfold handleDelete. destruct (hasFinalizer mcs _) eqn:Hf; simpl.
  2: { apply wp_ret. intros _ ? [= <-]%(eq_trans (eq_sym Hq)). rewrite Hdel.
       by apply hasFinalizer_false. }
  apply hasFinalizer_spec in Hf. apply wp_bind.
  apply (wp_mono _ _ _ (λ err s', IgnoreNotFound err = None → q_mcs s' = Some mcs ∧
    ∀ key, derivedServiceFromLabel r mcs = Some key → key ∈ q_goneServices s')).
  { destruct (derivedServiceFromLabel r mcs) as [[kns kn]|] eqn:Hder; [|by apply wp_ret].
    apply wp_Delete; [by exists mcs; eauto|]. intros x _ Hx. simpl in *. rewrite Hx.
    split; [done|]. intros ? [= <-]. set_solver. }
  intros err s1 Hok. destruct (IgnoreNotFound err); [by apply wp_ret|].
  destruct (Hok eq_refl) as [Hq1 Hg1]. clear Hok. apply wp_bind.
  apply (wp_mono _ _ _ (λ err s', IgnoreNotFound err = None → q_mcs s' = Some mcs ∧ allGone r mcs s')).
  { destruct (serviceImportFromLabel mcs) as [[kns kn]|] eqn:Himp.
    - apply wp_Delete; [by exists mcs; eauto|]. intros x _ Hx. simpl in *. rewrite Hx.
      split; [done|]. split; [|done]. rewrite Himp. intros ? [= <-]. set_solver.
    - apply wp_ret. intros _. split; [done|]. split; [|done]. by rewrite Himp. }
  intros err' s2 Hok. destruct (IgnoreNotFound err'); [by apply wp_ret|].
  destruct (Hok eq_refl) as [Hq2 Hg2]. apply wp_bind, wp_Event; [done|]. intros ? _.
  apply wp_bind, wp_Update.
  { exists mcs. split; [done|].
    split; [rewrite <-Hk; apply (removeFinalizer_key (T := MultiClusterService))|].
    split; [done|]. split; [|by right]. split; intros key Hkey; by left. }
  intros [e|m'] [Hm Ha]; apply wp_ret; [done|]. intros _ ? [= <-]. simpl in *.
  destruct Ha as (_ & Hd & _).
  destruct (removeFinalizer_stored mcs m' multiClusterServiceFinalizer) as [Hno _]; [exact Hm|].
  by rewrite Hd, (removeFinalizer_deleting (T := MultiClusterService)), Hdel.
Qed.

(** C16: a round of the MultiClusterService controller puts the finalizer on
    before it owns or creates anything; it writes only the ServiceImport that
    the spec names, and only with the MultiClusterService as its sole
    controller; it creates a load balancer Service only under the name that the
    label of the stored object records, and derived from a ServiceImport that
    clusters export; the labels give up a ServiceImport or a Service only once
    its deletion was accepted or it was not found, and the finalizer goes only
    when this holds of both; a status that
    says the import is valid reports the load balancer of the derived Service,
    and every other status reports none. When the round ends without an error,
    the finalizer is gone from a deleted object, and a live object is labelled
    and reports its import, without a derived Service when the import is
    unusable. *)
Theorem Reconcile_follows_mcs_protocol : wp P (Reconcile r req) nothingKnown (roundEnds r).
Proof.
  apply wp_bind, wp_Get; [done|]. intros [err|mcs] [Hk _]; simpl; [by apply wp_ret|].
  simpl in mcs, Hk. destruct (isDeleting mcs) eqn:Hdel; [by apply unimportService_wp|].
  apply wp_bind. destruct (hasFinalizer mcs _) eqn:Hf.
  { apply hasFinalizer_spec in Hf. apply wp_ret. apply importService_wp. by split. }
  apply wp_Update.
  { exists mcs. split; [done|].
    split; [rewrite <-Hk; apply (addFinalizer_key (T := MultiClusterService))|].
    split; [done|]. split; [split; intros key Hkey; by left|].
    intros _. left. apply (addFinalizer_has (T := MultiClusterService)). }
  intros [err|m'] [Hm Ha]; simpl; [by apply wp_ret|]. simpl in m', Ha.
  destruct Ha as (_ & Hd & _).
  destruct (addFinalizer_stored mcs m' multiClusterServiceFinalizer) as [Hhas Hk']; [exact Hm|].
  apply importService_wp. split; [|by rewrite <-Hk]. split; [done|]. split; [|exact Hhas].
  by rewrite Hd, (addFinalizer_deleting (T := MultiClusterService)).
Qed.
End safety.


(** ** A run *)

Module Demo.
Definition sameObject (a b : OwnerReference) : bool :=
  bool_decide (or_APIVersion a = or_APIVersion b) && bool_decide (or_Kind a = or_Kind b) &&
  bool_decide (or_Name a = or_Name b).
Definition refTo (mcs : MultiClusterService) : OwnerReference := {|
  or_APIVersion := tm_APIVersion (mcs_TypeMeta mcs); or_Kind := tm_Kind (mcs_TypeMeta mcs);
  or_Name := om_Name (mcs_ObjectMeta mcs); or_UID := om_UID (mcs_ObjectMeta mcs);
  or_Controller := Some true |}.
(** The controller reference replaces a reference to the same object, and an
    object that something else controls is refused. *)
Definition setController (mcs : MultiClusterService) (refs : list OwnerReference)
    : error + list OwnerReference :=
  if existsb (λ o, bool_decide (or_Controller o = Some true) && negb (sameObject o (refTo mcs))) refs
  then inl (ErrorString "already owned by another controller")
  else inr (filter (λ o, sameObject o (refTo mcs) = false) refs ++ [refTo mcs]).
Instance owners : OwnerUtil := {| SetControllerReference := setController |}.

Lemma setController_spec mcs refs refs' :
  setController mcs refs = inr refs' →
  refs' = filter (λ o, sameObject o (refTo mcs) = false) refs ++ [refTo mcs] ∧
  ∀ o, o ∈ refs → or_Controller o = Some true → sameObject o (refTo mcs) = true.
Proof.
  unfold setController. destruct (existsb _ refs) eqn:Hex; [done|]. intros [= <-].
  split; [done|]. intros o Ho Hc. apply not_false_is_true. intros Hs.
  apply not_true_iff_false in Hex. apply Hex, existsb_exists. exists o.
  split; [by apply list_elem_of_In|]. by rewrite bool_decide_true, Hs.
Qed.
Lemma owners_laws : OwnerUtilLaws.
Proof.
  split; simpl.
  - intros mcs refs refs' [-> Hc]%setController_spec. split.
    + exists (refTo mcs). split; [|done]. apply elem_of_app. right. by apply list_elem_of_singleton.
    + intros o [[Hs Ho]%list_elem_of_filter| ->%list_elem_of_singleton]%elem_of_app Ht; [|done].
      by rewrite (Hc o Ho Ht) in Hs.
  - intros mcs refs o refs' [_ Hc]%setController_spec Ho Ht.
    specialize (Hc o Ho Ht) as [_ Hn]%andb_true_iff. by apply bool_decide_eq_true in Hn.
Qed.

Definition r : Reconciler := {| FleetSystemNamespace := "fleet-system" |}.
Definition name : NamespacedName := {| nn_Namespace := "work"; nn_Name := "app" |}.
Definition mcs (ns n : string) : MultiClusterService := {|
  mcs_TypeMeta := {| tm_Kind := "MultiClusterService"; tm_APIVersion := "v1alpha1" |};
  mcs_ObjectMeta := newObjectMeta ns n; mcs_ServiceImport := "app";
  mcs_LoadBalancer := []; mcs_Conditions := [] |}.
Definition import : ServiceImport := {|
  si_TypeMeta := emptyType; si_ObjectMeta := newObjectMeta "work" "app";
  si_Status := {| sis_Ports := [{| sp_Name := "http"; sp_Protocol := "TCP"; sp_AppProtocol := None;
      sp_Port := 80; sp_TargetPort := FromInt 8080 |}];
    sis_Clusters := [{| cs_Cluster := "bravelion" |}]; sis_IPs := []; sis_Type := "";
    sis_SessionAffinity := ""; sis_SessionAffinityConfig := None |} |}.
Definition world0 : world := {|
  w_member := storeAlter KServiceImport <[name := import]>
    (storeAlter KMultiClusterService <[name := mcs "work" "app"]> emptyStore);
  w_hub := emptyStore; w_version := 1; w_clock := 0%Z |}.
(** The ports of the derived Service and the verdict after a round. *)
Definition after : option (list Z) * option (option string) :=
  let w := (run (serve (λ _ _ _, []))
    (Reconcile (util := Reference.util) (owners := owners) r name) world0).2 in
  ((λ s, csp_Port <$> svc_Ports s) <$>
     w_member w KService !! generateDerivedServiceName r (mcs "work" "app"),
   validStatus (util := Reference.util) <$> w_member w KMultiClusterService !! name).
End Demo.

Lemma Reconcile_follows_mcs_protocol_witness :
  wp (mcsProtocol (util := Reference.util) Demo.r Demo.name)
    (Reconcile (util := Reference.util) (owners := Demo.owners) Demo.r Demo.name)
    nothingKnown (roundEnds (util := Reference.util) Demo.r) ∧
  Demo.after = (Some [80%Z], Some (Some ConditionTrue)).
Proof.
  split; [apply (Reconcile_follows_mcs_protocol (laws := Reference.laws)
                   (ownerLaws := Demo.owners_laws))|].
  vm_compute. reflexivity.
Defined.

(** Two MultiClusterServices can have the same derived Service: the name of a
    derived Service is not unique. *)
Theorem derived_names_collide :
  let mcs1 := Demo.mcs "work" "web-app" in let mcs2 := Demo.mcs "work-web" "app" in
  objectKey mcs1 ≠ objectKey mcs2 ∧
  generateDerivedServiceName Demo.r mcs1 = generateDerivedServiceName Demo.r mcs2.
Proof. by split. Qed.

End multiclusterservice.
