(* ===== verification/Conc.v ===== *)
(** * Goroutines and [errgroup]

    The goroutines of an errgroup run interleaved: between two calls of one of
    them the scheduler can run the others.  The rule for them is that of rely and
    guarantee: each is verified against environments that move the protocol state
    along a preorder, and moves it along the same preorder. *)

From S2P Require Import Prelude Prog Go Api Fleet Azure Effects.

(** ** Interleaving *)

(** A goroutine that panics takes the program down. *)
Fixpoint par2 {A B} (p : IO A) : IO B → IO (A * B) :=
  match p with
  | Ret a => λ q, bind (λ b, Ret (a, b)) q
  | Panic m => λ _, Panic m
  | Vis e k =>
      fix right (q : IO B) : IO (A * B) :=
        match q with
        | Ret b => Vis e (λ x, bind (λ a, Ret (a, b)) (k x))
        | Panic m => Panic m
        | Vis f l => Vis EGoroutine (λ left : bool,
            if left then Vis e (λ x, par2 (k x) q) else Vis f (λ y, right (l y)))
        end
  end.

Fixpoint parAll {A} (ps : list (IO A)) : IO (list A) :=
  match ps with
  | [] => mret []
  | p :: ps => '(a, l) ← par2 p (parAll ps); mret (a :: l)
  end.

(** [errgroup.WithContext], [Go] for each of the functions, and [Wait]: the
    result is the error that was returned first, and any of them can be. *)
Definition errgroup (ps : list (IO (option error))) : IO (option error) :=
  results ← parAll ps;
  match omap id results with
  | [] => mret None
  | err :: errs => n ← call EFirst; mret (Some (default err ((err :: errs) !! n)))
  end.

(** ** Rely and guarantee *)

Section rely.
Context {S : Type} (P : protocol eff S) (R : relation S) `{!PreOrder R}.

(** [rg p s Q]: from [s] on, with the environment moving along [R] before every
    call, [p] makes allowed calls only, moves along [R], and ends in [Q]. *)
Fixpoint rg {A} (p : IO A) (s : S) (Q : A → S → Prop) : Prop :=
  match p with
  | Ret a => Q a s
  | Panic _ => False
  | Vis e k => ∀ s1, R s s1 → allowed P e s1 ∧
      ∀ x, answer P e s1 x → R s1 (next P e x s1) ∧ rg (k x) (next P e x s1) Q
  end.

Definition stable {A} (Q : A → S → Prop) : Prop := ∀ a s s', Q a s → R s s' → Q a s'.

Lemma rg_env {A} (p : IO A) s s' Q : stable Q → rg p s Q → R s s' → rg p s' Q.
Proof.
  intros HQ. destruct p as [a|m|X e k]; simpl; [by eauto|done|].
  intros Hp Hs s1 Hs1. apply Hp. by etrans.
Qed.
Lemma rg_wp {A} (p : IO A) s Q : rg p s Q → wp P p s Q.
Proof.
  revert s. induction p as [a|m|X e k IH]; intros s; [done|done|]. intros Hp.
  destruct (Hp s) as [Hal Hk]; [done|]. split; [done|]. intros x Hx. by apply IH, Hk.
Qed.
Lemma rg_mono {A} (p : IO A) s (Q Q' : A → S → Prop) :
  rg p s Q → (∀ a s', Q a s' → Q' a s') → rg p s Q'.
Proof.
  intros Hp HQ. revert s Hp. induction p as [a|m|X e k IH]; intros s; simpl; auto.
  intros Hp s1 Hs1. destruct (Hp s1 Hs1) as [Hal Hk]. split; [done|].
  intros x Hx. destruct (Hk x Hx). auto.
Qed.
(** A run moves along the preorder. *)
Lemma rg_moves {A} (p : IO A) s Q : rg p s Q → rg p s (λ a s', Q a s' ∧ R s s').
Proof.
  assert (∀ s0, R s0 s → rg p s Q → rg p s (λ a s', Q a s' ∧ R s0 s')) as Hgen; [|by apply Hgen].
  intros s0. revert s. induction p as [a|m|X e k IH]; intros s Hs0; simpl; [done|done|].
  intros Hp s1 Hs1. destruct (Hp s1 Hs1) as [Hal Hk]. split; [done|].
  intros x Hx. destruct (Hk x Hx) as [Hr Hrg]. split; [done|]. apply IH; [|done].
  by do 2 (etrans; [done|]).
Qed.
Lemma rg_bind {A B} (p : IO A) (f : A → IO B) s Q :
  rg p s (λ a s', rg (f a) s' Q) → rg (p ≫= f) s Q.
Proof.
  unfold mbind, prog_bind. revert s.
  induction p as [a|m|X e k IH]; intros s; simpl; [done|done|].
  intros Hp s1 Hs1. destruct (Hp s1 Hs1) as [Hal Hk]. split; [done|].
  intros x Hx. destruct (Hk x Hx). auto.
Qed.

(** The scheduler is free and leaves the state alone. *)
Context (sched_allowed : ∀ s, allowed P EGoroutine s ∧ allowed P EFirst s).
Context (sched_next : ∀ b s, next P EGoroutine b s = s).
Context (first_next : ∀ n s, next P EFirst n s = s).

Lemma rg_par2 {A B} (p : IO A) (q : IO B) s Q1 Q2 :
  stable Q1 → stable Q2 → rg p s Q1 → rg q s Q2 →
  rg (par2 p q) s (λ ab s', Q1 ab.1 s' ∧ Q2 ab.2 s').
Proof.
  intros HQ1 HQ2. revert q s. induction p as [a|m|X e k IHp]; intros q s Hp Hq; [|done|].
  - simpl in Hp |- *. apply (rg_bind q (λ b, Ret (a, b))). eapply rg_mono; [by apply rg_moves|].
    intros b s' [Hb Hs']. simpl. split; [by eapply HQ1|done].
  - revert s Hp Hq. induction q as [b|m|Y f l IHq]; intros s Hp Hq; [|done|].
    + intros s1 Hs1. destruct (Hp s1 Hs1) as [Hal Hk]. split; [done|].
      intros x Hx. destruct (Hk x Hx) as [Hr Hrg]. split; [done|].
      apply (rg_bind (k x) (λ a, Ret (a, b))). eapply rg_mono; [by apply rg_moves|].
      intros a s' [Ha Hs']. split; [done|]. simpl. eapply HQ2; [exact Hq|].
      etrans; [exact Hs1|]. by etrans.
    + intros s1 Hs1. split; [apply sched_allowed|]. intros left _. rewrite sched_next.
      split; [done|].
      pose proof (rg_env _ _ _ _ HQ1 Hp Hs1) as Hp1. pose proof (rg_env _ _ _ _ HQ2 Hq Hs1) as Hq1.
      destruct left; intros s2 Hs2.
      * destruct (Hp1 s2 Hs2) as [Hal Hk]. split; [done|]. intros x Hx.
        destruct (Hk x Hx) as [Hr Hrg]. split; [done|]. apply IHp; [done|].
        eapply (rg_env (Vis f l)); [done|done|]. by etrans.
      * destruct (Hq1 s2 Hs2) as [Hal Hk]. split; [done|]. intros x Hx.
        destruct (Hk x Hx) as [Hr Hrg]. split; [done|]. apply IHq; [|done].
        eapply (rg_env (Vis e k)); [done|done|]. by etrans.
Qed.

Lemma rg_parAll {T A} (body : T → IO A) (Q : T → A → S → Prop) l s :
  (∀ x, stable (Q x)) → (∀ x, x ∈ l → rg (body x) s (Q x)) →
  rg (parAll (body <$> l)) s (λ as_ s', Forall2 (λ x a, Q x a s') l as_).
Proof.
  intros HQ. induction l as [|x l IH]; intros Hl; simpl; [by constructor|].
  apply rg_bind. eapply rg_mono;
    [apply (rg_par2 _ _ _ (Q x) (λ as_ s', Forall2 (λ x a, Q x a s') l as_))|].
  - apply HQ.
  - intros as_ s1 s2 HF Hs. eapply Forall2_impl; [exact HF|]. intros y a Hy. exact (HQ y a s1 s2 Hy Hs).
  - apply Hl. by left.
  - apply IH. intros y Hy. apply Hl. by right.
  - intros [a as_] s' [Ha Has]. simpl. by constructor.
Qed.

(** The rule of an errgroup: without an error every goroutine succeeded, and an
    error is that of one of them. *)
Lemma errgroup_wp {T} (body : T → IO (option error)) (Q : T → option error → S → Prop) l s :
  (∀ x, stable (Q x)) → (∀ x, x ∈ l → rg (body x) s (Q x)) →
  wp P (errgroup (body <$> l)) s (λ r s', R s s' ∧
    match r with
    | None => ∀ x, x ∈ l → Q x None s'
    | Some err => ∃ x, x ∈ l ∧ Q x (Some err) s'
    end).
Proof.
  intros HQ Hl. apply wp_bind. eapply wp_mono; [by apply rg_wp, rg_moves, rg_parAll|].
  intros rs s' [HF Hs']. destruct (omap id rs) as [|err errs] eqn:Ho.
  - apply wp_ret. split; [done|]. intros x [i Hi]%list_elem_of_lookup.
    destruct (Forall2_lookup_l _ _ _ _ _ HF Hi) as ([err|] & Hr & HQx); [|done].
    assert (err ∈ omap id rs) as Hin; [|rewrite Ho in Hin; by apply not_elem_of_nil in Hin].
    apply list_elem_of_omap. exists (Some err). split; [|done]. by eapply list_elem_of_lookup_2.
  - apply wp_bind, wp_call; [apply sched_allowed|]. intros n _. rewrite first_next.
    apply wp_ret. split; [done|].
    assert (default err ((err :: errs) !! n) ∈ omap id rs) as Hin.
    { rewrite Ho. destruct ((err :: errs) !! n) as [e|] eqn:Hn; simpl; [|by left].
      by eapply list_elem_of_lookup_2. }
    set (e := default err _) in *. apply list_elem_of_omap in Hin as (r & [i Hi]%list_elem_of_lookup & Hr).
    unfold id in Hr. subst r. destruct (Forall2_lookup_r _ _ _ _ _ HF Hi) as (x & Hx & HQx).
    exists x. split; [by eapply list_elem_of_lookup_2|done].
Qed.
End rely.
Arguments rg {S} P R {A} p s Q : simpl never.

Lemma rg_call {S X} (P : protocol eff S) (R : relation S) (e : eff X) s (Q : X → S → Prop) :
  (∀ s1, R s s1 → allowed P e s1 ∧
     ∀ x, answer P e s1 x → R s1 (next P e x s1) ∧ Q x (next P e x s1)) →
  rg P R (call e) s Q.
Proof. done. Qed.
Lemma rg_ret {S A} (P : protocol eff S) (R : relation S) (a : A) s (Q : A → S → Prop) :
  Q a s → rg P R (mret a) s Q.
Proof. done. Qed.
