(* ===== verification/Float64.v ===== *)
(** * IEEE 754 double precision, as far as the weights need it

    Go's [float64] of the integers and their quotients: a finite value is
    [m * 2 ^ e] with a mantissa of 53 bits, and every operation rounds the exact
    result to the nearest such value, ties to the even mantissa.  Overflow and
    subnormal numbers are out of the reach of quotients of 64-bit integers. *)

From S2P Require Import Prelude.
#[local] Open Scope Z_scope.

Inductive float64 :=
| Finite (m e : Z)
| Infinite (negative : bool)
| NaN.

(** [n / d] rounded to the nearest integer, ties to even. *)
Definition roundDiv (n d : Z) : Z :=
  let q := n / d in
  match 2 * (n mod d) ?= d with
  | Lt => q
  | Gt => q + 1
  | Eq => if Z.even q then q else q + 1
  end.

(** The exponent that leaves 53 bits of [n / d]. *)
Definition exponentOf (n d : Z) : Z :=
  let e := Z.log2 n - Z.log2 d - 53 in
  if 2 ^ 53 * d * 2 ^ Z.max 0 e <=? n * 2 ^ Z.max 0 (- e) then e + 1 else e.

(** The positive quotient [n / d], rounded. *)
Definition roundPos (n d : Z) : float64 :=
  let e := exponentOf n d in
  Finite (roundDiv (n * 2 ^ Z.max 0 (- e)) (d * 2 ^ Z.max 0 e)) e.

Definition opposite (x : float64) : float64 :=
  match x with
  | Finite m e => Finite (- m) e
  | Infinite b => Infinite (negb b)
  | NaN => NaN
  end.

(** The quotient [n / d] for a positive [d], rounded. *)
Definition roundQuot (n d : Z) : float64 :=
  if n =? 0 then Finite 0 0
  else if 0 <? n then roundPos n d else opposite (roundPos (- n) d).

(** [float64(x)]. *)
Definition ofInt (x : Z) : float64 := roundQuot x 1.

(** [x / y]. *)
Definition div (x y : float64) : float64 :=
  match x, y with
  | NaN, _ | _, NaN | Infinite _, Infinite _ => NaN
  | Finite _ _, Infinite _ => Finite 0 0
  | Infinite b, Finite m _ => Infinite (xorb b (m <? 0))
  | Finite m e, Finite m' e' =>
      if m' =? 0 then (if m =? 0 then NaN else Infinite (m <? 0))
      else
        let n := m * 2 ^ Z.max 0 (e - e') in
        let d := m' * 2 ^ Z.max 0 (e' - e) in
        roundQuot (Z.sgn d * n) (Z.abs d)
  end.

(** [math.Ceil]. *)
Definition Ceil (x : float64) : float64 :=
  match x with
  | Finite m e => if 0 <=? e then x else Finite (- (- m / 2 ^ (- e))) 0
  | _ => x
  end.

(** [int64(x)] truncates; the language leaves the result open when it does not
    fit: [otherwise] is the choice of the implementation. *)
Definition toInt64 (otherwise : Z) (x : float64) : Z :=
  match x with
  | Finite m e =>
      let z := if 0 <=? e then m * 2 ^ e else Z.quot m (2 ^ (- e)) in
      if (- 2 ^ 63 <=? z) && (z <? 2 ^ 63) then z else otherwise
  | _ => otherwise
  end.

Example div_ex :
  Ceil (div (ofInt 1000) (ofInt 3)) = Finite 334 0 ∧ Ceil (div (ofInt 9) (ofInt 3)) = Finite 3 0 ∧
  div (ofInt 0) (ofInt 0) = NaN ∧
  toInt64 0 (div (ofInt (-7)) (ofInt 2)) = -3 ∧
  (* 0.1 and 1/3 as every IEEE implementation has them *)
  div (ofInt 1) (ofInt 10) = Finite 7205759403792794 (-56) ∧
  div (ofInt 1) (ofInt 3) = Finite 6004799503160661 (-54) ∧
  ofInt (2 ^ 53 + 1) = Finite (2 ^ 52) 1.
Proof. vm_compute. tauto. Qed.

(** ** Quotients of integers that fit the mantissa *)

Lemma roundDiv_le n d k : 0 < d → n ≤ k * d → roundDiv n d ≤ k.
Proof.
  intros Hd Hn. unfold roundDiv.
  pose proof (Z.div_mod n d ltac:(lia)) as Hdm. pose proof (Z.mod_pos_bound n d Hd) as Hb.
  set (q := n / d) in *. set (r := n mod d) in *.
  assert (q ≤ k) by nia. assert (q = k → r = 0) by nia.
  destruct (Z.compare_spec (2 * r) d); [destruct (Z.even q)|..]; nia.
Qed.
Lemma roundDiv_gt n d j : 0 < d → (2 * j + 1) * d < 2 * n → j < roundDiv n d.
Proof.
  intros Hd Hn. unfold roundDiv.
  pose proof (Z.div_mod n d ltac:(lia)) as Hdm. pose proof (Z.mod_pos_bound n d Hd) as Hb.
  set (q := n / d) in *. set (r := n mod d) in *.
  assert (j ≤ q) by nia. assert (q = j → d < 2 * r) by nia.
  destruct (Z.compare_spec (2 * r) d); [destruct (Z.even q)|..]; nia.
Qed.
Lemma roundDiv_exact k d : 0 < d → roundDiv (k * d) d = k.
Proof.
  intros Hd. apply Z.le_antisymm; [by apply roundDiv_le; lia|].
  apply Z.lt_pred_le, roundDiv_gt; [done|]. nia.
Qed.

(** [2 ^ max 0 (- e)] and [2 ^ max 0 e] scale a quotient by [2 ^ (- e)]. *)
Lemma scale_nonneg e : 0 < 2 ^ Z.max 0 e.
Proof. apply Z.pow_pos_nonneg; lia. Qed.

(** The quotient has at least 53 bits. *)
Lemma exponentOf_spec n d : 0 < n → 0 < d →
  2 ^ 52 * (d * 2 ^ Z.max 0 (exponentOf n d)) ≤ n * 2 ^ Z.max 0 (- exponentOf n d).
Proof.
  intros Hn Hd. unfold exponentOf.
  pose proof (Z.log2_spec n Hn) as [Hn1 Hn2]. pose proof (Z.log2_spec d Hd) as [Hd1 Hd2].
  pose proof (Z.log2_nonneg n). pose proof (Z.log2_nonneg d).
  set (a := Z.log2 n) in *. set (b := Z.log2 d) in *. set (e := a - b - 53).
  destruct (Z.leb_spec (2 ^ 53 * d * 2 ^ Z.max 0 e) (n * 2 ^ Z.max 0 (- e))) as [Hle|Hlt].
  - destruct (Z.le_gt_cases 0 e).
    + rewrite !Z.max_r, !Z.max_l in * by lia. rewrite Z.pow_add_r by lia. lia.
    + rewrite Z.max_l, Z.max_r in Hle by lia. rewrite Z.max_l, Z.max_r by lia.
      replace (- e) with (1 + - (e + 1)) in Hle by lia. rewrite Z.pow_add_r in Hle by lia. lia.
  - rewrite Z.pow_succ_r in Hd2 by lia.
    assert (2 ^ 52 * 2 ^ (b + 1) * 2 ^ Z.max 0 e = 2 ^ a * 2 ^ Z.max 0 (- e)) as Heq.
    { rewrite <-!Z.pow_add_r by lia. f_equal. lia. }
    rewrite Z.pow_add_r in Heq by lia.
    pose proof (scale_nonneg e). pose proof (scale_nonneg (- e)). nia.
Qed.

Definition ceilDiv (a b : Z) : Z := (a + b - 1) / b.
Lemma ceilDiv_spec a b : 0 < b → (ceilDiv a b - 1) * b < a ≤ ceilDiv a b * b.
Proof.
  intros Hb. unfold ceilDiv.
  pose proof (Z.div_mod (a + b - 1) b ltac:(lia)). pose proof (Z.mod_pos_bound (a + b - 1) b Hb). nia.
Qed.
Lemma ceilDiv_unique a b k : 0 < b → (k - 1) * b < a ≤ k * b → ceilDiv a b = k.
Proof. intros Hb Hk. pose proof (ceilDiv_spec a b Hb). nia. Qed.

Lemma inRange z other : - 2 ^ 63 ≤ z < 2 ^ 63 →
  (if (- 2 ^ 63 <=? z) && (z <? 2 ^ 63) then z else other) = z.
Proof. intros. by destruct (Z.leb_spec (- 2 ^ 63) z), (Z.ltb_spec z (2 ^ 63)); simpl; lia. Qed.
Lemma toInt64_int other k : - 2 ^ 63 ≤ k < 2 ^ 63 → toInt64 other (Finite k 0) = k.
Proof. intros. unfold toInt64. change (0 <=? 0) with true. rewrite Z.mul_1_r. by apply inRange. Qed.

Lemma Ceil_roundPos other n d a b :
  0 < n → 0 < d → 0 < a < 2 ^ 53 → 0 < b → n * b = a * d →
  toInt64 other (Ceil (roundPos n d)) = ceilDiv a b.
Proof.
  intros Hn Hd Ha Hb Heq. pose proof (exponentOf_spec n d Hn Hd) as He. unfold roundPos.
  set (e := exponentOf n d) in *. pose proof (ceilDiv_spec a b Hb) as Hk. set (k := ceilDiv a b) in *.
  assert (0 < k ≤ a) as Hka by nia. simpl. destruct (Z.leb_spec 0 e) as [Hpos|Hneg].
  - replace (Z.max 0 e) with e in * by lia. replace (Z.max 0 (- e)) with 0 in * by lia.
    assert (0 < 2 ^ e) by (apply Z.pow_pos_nonneg; lia).
    rewrite Z.mul_1_r in *. set (t := 2 ^ e) in *.
    assert (2 ^ 52 * (t * b) * d ≤ a * d) by nia. assert (2 ^ 52 * (t * b) ≤ a) by nia.
    assert (t = 1) as Ht1 by nia. assert (b = 1) as -> by nia.
    simpl. destruct (Z.leb_spec 0 e); [|lia]. rewrite Ht1, !Z.mul_1_r in *. change (2 ^ 0) with 1.
    rewrite Heq, roundDiv_exact by done.
    assert (k = a) as -> by nia. change (2 ^ e) with t. rewrite Ht1, Z.mul_1_r.
    destruct (Z.leb_spec (- 2 ^ 63) a), (Z.ltb_spec a (2 ^ 63)); simpl; lia.
  - replace (Z.max 0 e) with 0 in * by lia. replace (Z.max 0 (- e)) with (- e) in * by lia.
    set (s := 2 ^ (- e)) in *.
    assert (0 < s) by (apply Z.pow_pos_nonneg; lia). change (2 ^ 0) with 1 in *.
    rewrite Z.mul_1_r in He |- *.
    assert (n * b ≤ k * d * b) by nia. assert (n ≤ k * d) by nia.
    assert (roundDiv (n * s) d ≤ k * s) by (apply roundDiv_le; [done|nia]).
    assert ((k - 1) * s < roundDiv (n * s) d).
    { apply roundDiv_gt; [done|]. assert (2 ^ 52 * b ≤ a * s) by nia. nia. }
    assert (- (- roundDiv (n * s) d / s) = k) as ->.
    { set (m := roundDiv (n * s) d) in *. pose proof (Z.div_mod (- m) s ltac:(lia)).
      pose proof (Z.mod_pos_bound (- m) s ltac:(lia)). nia. }
    apply toInt64_int. lia.
Qed.

(** Integers of 53 bits are represented exactly. *)
Lemma ofInt_exact a : 0 < a < 2 ^ 53 →
  ∃ e, ofInt a = Finite (a * 2 ^ (- e)) e ∧ e ≤ 0.
Proof.
  intros Ha. unfold ofInt, roundQuot.
  destruct (Z.eqb_spec a 0); [lia|]. destruct (Z.ltb_spec 0 a); [|lia].
  pose proof (Z.log2_spec a ltac:(lia)) as [Hl _]. pose proof (Z.log2_nonneg a).
  assert (Z.log2 a < 53) by (apply Z.log2_lt_pow2; lia).
  exists (Z.log2 a - 52). split; [|lia]. unfold roundPos.
  assert (exponentOf a 1 = Z.log2 a - 52) as ->.
  { unfold exponentOf. change (Z.log2 1) with 0.
    replace (Z.max 0 (Z.log2 a - 0 - 53)) with 0 by lia.
    replace (Z.max 0 (- (Z.log2 a - 0 - 53))) with (53 - Z.log2 a) by lia.
    destruct (Z.leb_spec (2 ^ 53 * 1 * 2 ^ 0) (a * 2 ^ (53 - Z.log2 a))) as [|Hlt]; [lia|].
    assert (2 ^ 53 = 2 ^ Z.log2 a * 2 ^ (53 - Z.log2 a)) by (rewrite <-Z.pow_add_r by lia; f_equal; lia).
    assert (0 < 2 ^ (53 - Z.log2 a)) by (apply Z.pow_pos_nonneg; lia). nia. }
  replace (Z.max 0 (Z.log2 a - 52)) with 0 by lia.
  replace (Z.max 0 (- (Z.log2 a - 52))) with (- (Z.log2 a - 52)) by lia.
  f_equal. change (1 * 2 ^ 0) with 1. rewrite <-(Z.mul_1_r (a * _)) at 1. by apply roundDiv_exact.
Qed.

(** Rounding the quotient of two integers of 53 bits up is exact, although the
    quotient itself is rounded. *)
Theorem Ceil_div_exact other a b :
  0 ≤ a < 2 ^ 53 → 0 < b < 2 ^ 53 →
  toInt64 other (Ceil (div (ofInt a) (ofInt b))) = ceilDiv a b.
Proof.
  intros Ha Hb. destruct (ofInt_exact b Hb) as (e' & -> & He').
  assert (0 < 2 ^ (- e')) by (apply Z.pow_pos_nonneg; lia).
  assert ((b * 2 ^ (- e') =? 0) = false) as Hz by (apply Z.eqb_neq; nia).
  destruct (Z.eq_dec a 0) as [->|Hpos].
  { change (ofInt 0) with (Finite 0 0). unfold div. rewrite Hz, Z.mul_0_l, Z.mul_0_r.
    symmetry. apply ceilDiv_unique; [lia|]. change (toInt64 other (Ceil (roundQuot 0 _))) with 0. lia. }
  destruct (ofInt_exact a ltac:(lia)) as (e & -> & He). simpl. rewrite Hz.
  assert (0 < 2 ^ (- e)) by (apply Z.pow_pos_nonneg; lia).
  pose proof (scale_nonneg (e - e')). pose proof (scale_nonneg (e' - e)).
  set (n := a * 2 ^ (- e) * _). set (d := b * 2 ^ (- e') * _).
  assert (0 < n) by (unfold n; nia). assert (0 < d) by (unfold d; nia).
  rewrite Z.sgn_pos, Z.abs_eq, Z.mul_1_l by lia. unfold roundQuot.
  destruct (Z.eqb_spec n 0); [lia|]. destruct (Z.ltb_spec 0 n); [|lia].
  apply Ceil_roundPos; [done|done|lia|lia|]. unfold n, d.
  assert (2 ^ (- e) * 2 ^ Z.max 0 (e - e') = 2 ^ (- e') * 2 ^ Z.max 0 (e' - e)) as Heq.
  { rewrite <-!Z.pow_add_r by lia. f_equal. lia. }
  transitivity (a * b * (2 ^ (- e) * 2 ^ Z.max 0 (e - e'))); [lia|]. rewrite Heq. lia.
Qed.
