(* ===== verification/Defaulter.v ===== *)
(** * [pkg/common/defaulter]: default values of the Traffic Manager resources *)

From S2P Require Import Prelude Prog Go Api Fleet.

Module defaulter.

Definition emptyMonitorConfig : MonitorConfig := {|
  mc_IntervalInSeconds := None; mc_Path := None; mc_Port := None; mc_Protocol := None;
  mc_CustomHeaders := []; mc_TimeoutInSeconds := None; mc_ToleratedNumberOfFailures := None |}.

(** [if p == nil { p = v }]. *)
Definition orElse {A} (p : option A) (v : A) : option A := Some (default v p).

Definition defaultMonitorConfig (mc : MonitorConfig) : MonitorConfig :=
  let interval := default 30%Z (mc_IntervalInSeconds mc) in {|
  mc_IntervalInSeconds := Some interval;
  mc_Path := orElse (mc_Path mc) "/";
  mc_Port := orElse (mc_Port mc) 80%Z;
  mc_Protocol := orElse (mc_Protocol mc) TrafficManagerMonitorProtocolHTTP;
  mc_CustomHeaders := mc_CustomHeaders mc;
  mc_TimeoutInSeconds :=
    match mc_TimeoutInSeconds mc with
    | Some t => Some t
    | None => if (interval =? 30)%Z then Some 10%Z
              else if (interval =? 10)%Z then Some 9%Z else None
    end;
  mc_ToleratedNumberOfFailures := orElse (mc_ToleratedNumberOfFailures mc) 3%Z |}.

Definition setMonitorConfig (mc : option MonitorConfig) (p : TrafficManagerProfile)
    : TrafficManagerProfile := {|
  tmp_TypeMeta := tmp_TypeMeta p; tmp_ObjectMeta := tmp_ObjectMeta p;
  tmp_ResourceGroup := tmp_ResourceGroup p; tmp_MonitorConfig := mc;
  tmp_DNSName := tmp_DNSName p; tmp_ResourceID := tmp_ResourceID p;
  tmp_Conditions := tmp_Conditions p |}.
Definition SetDefaultsTrafficManagerProfile (p : TrafficManagerProfile) : TrafficManagerProfile :=
  setMonitorConfig
    (Some (defaultMonitorConfig (default emptyMonitorConfig (tmp_MonitorConfig p)))) p.

Definition SetDefaultsTrafficManagerBackend (b : TrafficManagerBackend) : TrafficManagerBackend := {|
  tmb_TypeMeta := tmb_TypeMeta b; tmb_ObjectMeta := tmb_ObjectMeta b;
  tmb_Profile := tmb_Profile b; tmb_Backend := tmb_Backend b;
  tmb_Weight := orElse (tmb_Weight b) 1%Z;
  tmb_Endpoints := tmb_Endpoints b; tmb_Conditions := tmb_Conditions b |}.

(** ** What the defaults guarantee *)

(** The intervals the API server admits. *)
Definition admittedInterval (mc : MonitorConfig) : Prop :=
  ∀ i, mc_IntervalInSeconds mc = Some i → i = 10%Z ∨ i = 30%Z.
Definition admitted (p : TrafficManagerProfile) : Prop :=
  ∀ mc, tmp_MonitorConfig p = Some mc → admittedInterval mc.

(** Every field the Azure profile needs is set. *)
Record complete (mc : MonitorConfig) : Prop := {
  complete_interval : is_Some (mc_IntervalInSeconds mc);
  complete_path : is_Some (mc_Path mc);
  complete_port : is_Some (mc_Port mc);
  complete_protocol : is_Some (mc_Protocol mc);
  complete_timeout : is_Some (mc_TimeoutInSeconds mc);
  complete_failures : is_Some (mc_ToleratedNumberOfFailures mc);
}.

Lemma defaultMonitorConfig_complete mc : admittedInterval mc → complete (defaultMonitorConfig mc).
Proof.
  intros Hadm. split; try by eexists. simpl. destruct (mc_TimeoutInSeconds mc); [by eexists|].
  unfold admittedInterval in Hadm. destruct (mc_IntervalInSeconds mc) as [i|]; simpl; [|by eexists].
  by destruct (Hadm i eq_refl) as [->| ->]; eexists.
Qed.

(** What was set is kept. *)
Lemma defaultMonitorConfig_id mc : complete mc → defaultMonitorConfig mc = mc.
Proof.
  destruct mc as [i p pt pr h t f]. intros [[? Hi] [? Hp] [? Hpt] [? Hpr] [? Ht] [? Hf]].
  simpl in *. by subst.
Qed.
End defaulter.
