(* ===== verification/TrafficManagerProfileController.v ===== *)
(** * [pkg/controllers/hub/trafficmanagerprofile]: programming a Traffic Manager
    profile

    The hub controller that keeps an Azure Traffic Manager profile in the shape
    a TrafficManagerProfile asks for, and reports its DNS name. *)

From stdpp Require Import sorting.
From S2P Require Import Prelude Prog Go Api Fleet Azure Effects Deps.
From S2P Require Import Protocols ApiServer Conditions ObjectMeta AzureErrors Defaulter.

Module trafficmanagerprofile.

Definition profileEventReasonAzureAPIError := "AzureAPIError".
Definition profileEventReasonProgrammed := "Programmed".
Definition profileEventReasonDeleted := "Deleted".
Definition DefaultDNSTTL : Z := 60.
Definition trafficManagerProfileStatusLastTimestampSeconds :=
  "traffic_manager_profile_status_last_timestamp_seconds".

Definition GenerateAzureTrafficManagerProfileName (profile : TrafficManagerProfile) : string :=
  "fleet-" +:+ om_UID (tmp_ObjectMeta profile).

(** ** The Azure profile *)

Definition headerOf (h : MonitorConfigCustomHeader) : AtmCustomHeader :=
  {| ach_Name := Some (mch_Name h); ach_Value := Some (mch_Value h) |}.

Definition monitorOf (mc : MonitorConfig) (protocol : string) : AtmMonitorConfig := {|
  amc_IntervalInSeconds := mc_IntervalInSeconds mc; amc_Path := mc_Path mc;
  amc_Port := mc_Port mc; amc_Protocol := Some protocol;
  amc_TimeoutInSeconds := mc_TimeoutInSeconds mc;
  amc_ToleratedNumberOfFailures := mc_ToleratedNumberOfFailures mc;
  amc_CustomHeaders := headerOf <$> mc_CustomHeaders mc |}.

Definition generateAzureTrafficManagerProfile (profile : TrafficManagerProfile) : IO AtmProfile :=
  mc ← derefPtr (tmp_MonitorConfig profile);
  protocol ← derefPtr (mc_Protocol mc);
  let m := tmp_ObjectMeta profile in
  mret {|
    ap_ID := None; ap_Name := None; ap_Location := Some "global";
    ap_Properties := Some {|
      app_DNSConfig := Some {|
        dns_RelativeName := Some (om_Namespace m +:+ "-" +:+ om_Name m);
        dns_TTL := Some DefaultDNSTTL; dns_Fqdn := None |};
      app_Endpoints := [];
      app_MonitorConfig := Some (monitorOf mc protocol);
      app_ProfileStatus := Some ProfileStatusEnabled;
      app_TrafficRoutingMethod := Some TrafficRoutingMethodWeighted |};
    ap_Tags := Some {[ AzureTrafficManagerProfileTagKey :=
                       Some (NamespacedName_String (objectKey profile)) ]} |}.

(** *** Comparison *)

Definition hasRequiredProperties (profile : AtmProfile) : bool :=
  match ap_Properties profile with
  | None => false
  | Some properties =>
      bool_decide (app_MonitorConfig properties ≠ None) &&
      bool_decide (app_ProfileStatus properties ≠ None) &&
      bool_decide (app_TrafficRoutingMethod properties ≠ None) &&
      bool_decide (app_DNSConfig properties ≠ None)
  end.

(** [sort.Slice] by the name of the headers; a comparison dereferences the
    names. *)
Definition headerLess (a b : AtmCustomHeader) : bool :=
  String.ltb (default "" (ach_Name a)) (default "" (ach_Name b)).
Definition sortHeaders (l : list AtmCustomHeader) : IO (list AtmCustomHeader) :=
  if decide (length l ≤ 1) then mret l
  else if decide (Forall (λ h, is_Some (ach_Name h)) l) then sortSlice headerLess l
  else Panic "nil pointer dereference".

(** The verdict, and the two slices as the comparison sorted them in place. *)
Definition equalMonitorConfigWithCustomHeaders (current desired : list AtmCustomHeader)
    : IO (bool * list AtmCustomHeader * list AtmCustomHeader) :=
  current ← sortHeaders current;
  desired ← sortHeaders desired;
  mret (bool_decide (current = desired), current, desired).

Definition setCustomHeaders (l : list AtmCustomHeader) (mc : AtmMonitorConfig) : AtmMonitorConfig := {|
  amc_IntervalInSeconds := amc_IntervalInSeconds mc; amc_Path := amc_Path mc;
  amc_Port := amc_Port mc; amc_Protocol := amc_Protocol mc;
  amc_TimeoutInSeconds := amc_TimeoutInSeconds mc;
  amc_ToleratedNumberOfFailures := amc_ToleratedNumberOfFailures mc; amc_CustomHeaders := l |}.

(** [*p != *q], the operands of a chain of [||]. *)
Definition differ {A} `{EqDecision A} (p q : option A) : IO bool :=
  a ← derefPtr p; b ← derefPtr q; mret (negb (bool_decide (a = b))).
Definition orIO (p q : IO bool) : IO bool := b ← p; if (b : bool) then mret true else q.

Definition equalMonitorConfig (current desired : AtmMonitorConfig)
    : IO (bool * AtmMonitorConfig * AtmMonitorConfig) :=
  if bool_decide (amc_IntervalInSeconds current = None) || bool_decide (amc_Path current = None) ||
     bool_decide (amc_Port current = None) || bool_decide (amc_Protocol current = None) ||
     bool_decide (amc_TimeoutInSeconds current = None) ||
     bool_decide (amc_ToleratedNumberOfFailures current = None)
  then mret (false, current, desired) else
  different ←
    orIO (differ (amc_IntervalInSeconds current) (amc_IntervalInSeconds desired))
    (orIO (differ (amc_Path current) (amc_Path desired))
    (orIO (differ (amc_Port current) (amc_Port desired))
    (orIO (differ (amc_Protocol current) (amc_Protocol desired))
    (orIO (differ (amc_TimeoutInSeconds current) (amc_TimeoutInSeconds desired))
      (differ (amc_ToleratedNumberOfFailures current) (amc_ToleratedNumberOfFailures desired))))));
  if (different : bool) then mret (false, current, desired) else
  '(equal, headers, headers') ←
    equalMonitorConfigWithCustomHeaders (amc_CustomHeaders current) (amc_CustomHeaders desired);
  mret (equal, setCustomHeaders headers current, setCustomHeaders headers' desired).

(** The order in which the tags are ranged over does not matter. *)
Definition desiredTagsExistInCurrentTags (currentTags desiredTags : option (gmap string (option string)))
    : bool :=
  match currentTags with
  | None => false
  | Some currentTags =>
      forallb (λ '(key, value),
        match value, currentTags !! key with
        | Some v, Some (Some cv) => bool_decide (cv = v)
        | _, _ => false
        end) (map_to_list (default ∅ desiredTags))
  end.

Definition setMonitor (mc : AtmMonitorConfig) (p : AtmProfile) : AtmProfile := {|
  ap_ID := ap_ID p; ap_Name := ap_Name p; ap_Location := ap_Location p; ap_Tags := ap_Tags p;
  ap_Properties := (λ q, {| app_DNSConfig := app_DNSConfig q; app_Endpoints := app_Endpoints q;
    app_MonitorConfig := Some mc; app_ProfileStatus := app_ProfileStatus q;
    app_TrafficRoutingMethod := app_TrafficRoutingMethod q |}) <$> ap_Properties p |}.

(** The verdict, and the two profiles with their headers as they were sorted. *)
Definition equalAzureTrafficManagerProfile (current desired : AtmProfile)
    : IO (bool * AtmProfile * AtmProfile) :=
  if negb (hasRequiredProperties current) then mret (false, current, desired) else
  cp ← derefPtr (ap_Properties current);
  dp ← derefPtr (ap_Properties desired);
  monitor ← derefPtr (app_MonitorConfig cp);
  monitor' ← derefPtr (app_MonitorConfig dp);
  '(equal, monitor, monitor') ← equalMonitorConfig monitor monitor';
  let current := setMonitor monitor current in
  let desired := setMonitor monitor' desired in
  if negb equal then mret (false, current, desired) else
  different ← differ (app_ProfileStatus cp) (app_ProfileStatus dp);
  if (different : bool) then mret (false, current, desired) else
  different ← differ (app_TrafficRoutingMethod cp) (app_TrafficRoutingMethod dp);
  if (different : bool) then mret (false, current, desired) else
  dns ← derefPtr (app_DNSConfig cp);
  different ←
    (if bool_decide (dns_TTL dns = None) then mret true else
     dns' ← derefPtr (app_DNSConfig dp);
     differ (dns_TTL dns) (dns_TTL dns'));
  if (different : bool) then mret (false, current, desired) else
  if negb (desiredTagsExistInCurrentTags (ap_Tags current) (ap_Tags desired))
  then mret (false, current, desired)
  else mret (true, current, desired).

(** *** The request *)

Definition resetMonitor (current desired : AtmMonitorConfig) : AtmMonitorConfig := {|
  amc_IntervalInSeconds := amc_IntervalInSeconds desired; amc_Path := amc_Path desired;
  amc_Port := amc_Port desired; amc_Protocol := amc_Protocol desired;
  amc_TimeoutInSeconds := amc_TimeoutInSeconds desired;
  amc_ToleratedNumberOfFailures := amc_ToleratedNumberOfFailures desired;
  amc_CustomHeaders := amc_CustomHeaders desired |}.

Definition buildAzureTrafficManagerProfileRequest (current desired : AtmProfile) : IO AtmProfile :=
  properties ←
    match ap_Properties current with
    | None => mret (ap_Properties desired)
    | Some cp =>
        dp ← derefPtr (ap_Properties desired);
        monitor ← match app_MonitorConfig cp with
                  | None => mret (app_MonitorConfig dp)
                  | Some cm => dm ← derefPtr (app_MonitorConfig dp); mret (Some (resetMonitor cm dm))
                  end;
        mret (Some {|
          app_DNSConfig := app_DNSConfig dp;
          app_Endpoints := app_Endpoints cp;
          app_MonitorConfig := monitor;
          app_ProfileStatus := app_ProfileStatus dp;
          app_TrafficRoutingMethod := app_TrafficRoutingMethod dp |})
    end;
  mret {|
    ap_ID := ap_ID current; ap_Name := ap_Name current; ap_Location := ap_Location desired;
    ap_Properties := properties;
    ap_Tags := match ap_Tags current with
               | None => ap_Tags desired
               | Some tags => Some (default ∅ (ap_Tags desired) ∪ tags)
               end |}.

(** ** Operations *)

Definition setProfileStatus (dns : option string) (id : string) (cs : list Condition)
    (p : TrafficManagerProfile) : TrafficManagerProfile := {|
  tmp_TypeMeta := tmp_TypeMeta p; tmp_ObjectMeta := tmp_ObjectMeta p;
  tmp_ResourceGroup := tmp_ResourceGroup p; tmp_MonitorConfig := tmp_MonitorConfig p;
  tmp_DNSName := dns; tmp_ResourceID := id; tmp_Conditions := cs |}.

Definition programmedCondition (profile : TrafficManagerProfile) (armErr : option error) : Condition :=
  let condition status reason message := {|
    c_Type := TrafficManagerProfileConditionProgrammed; c_Status := status;
    c_ObservedGeneration := om_Generation (tmp_ObjectMeta profile); c_LastTransitionTime := None;
    c_Reason := reason; c_Message := message |} in
  let text := formatError armErr in
  if azureerrors.IsConflict armErr
  then condition ConditionFalse TrafficManagerProfileReasonDNSNameNotAvailable
    "Domain name is not available. Please choose a different profile name or namespace"
  else if azureerrors.IsClientError armErr && negb (azureerrors.IsThrottled armErr)
  then condition ConditionFalse TrafficManagerProfileReasonInvalid ("Invalid profile: " +:+ text)
  else match armErr with
  | Some _ => condition ConditionUnknown TrafficManagerProfileReasonPending
      ("Failed to configure profile and retrying: " +:+ text)
  | None => condition ConditionTrue TrafficManagerProfileReasonProgrammed
      "Successfully configured the Azure Traffic Manager profile"
  end.

(** The DNS name and the resource id the status reports. *)
Definition reportedDNSName (p : AtmProfile) : option string :=
  properties ← ap_Properties p; dns ← app_DNSConfig properties; dns_Fqdn dns.
Definition reportedID (p : AtmProfile) : string := default "" (ap_ID p).

Section controller.
Context {util : ControllerUtil} {fleetUtil : FleetUtil}.

(** The functions that write the profile also return what the caller's pointer
    refers to afterwards. *)
Definition updateProfileStatus (profile : TrafficManagerProfile) (atmProfile : option AtmProfile)
    (armErr : option error) : IO (Result * option error * TrafficManagerProfile) :=
  '(dnsName, resourceID) ←
    match armErr with
    | None => p ← derefPtr atmProfile; mret (reportedDNSName p, reportedID p)
    | Some _ => mret (None, "")
    end;
  cs ← SetStatusCondition (tmp_Conditions profile) (programmedCondition profile armErr);
  '(err, profile) ← StatusUpdate Hub KTrafficManagerProfile
     (setProfileStatus dnsName resourceID cs profile);
  match err with
  | Some err => mret (emptyResult, NewUpdateIgnoreConflictError err, profile)
  | None => mret (emptyResult, armErr, profile)
  end.

(** The finalizer is registered, then the request is sent. *)
Definition createOrUpdateProfile (profile : TrafficManagerProfile) (atmProfileName : string)
    (desired : AtmProfile) : IO (Result * option error * TrafficManagerProfile) :=
  '(err, profile) ←
    (if hasFinalizer profile TrafficManagerProfileFinalizer then mret (None, profile)
     else Update Hub KTrafficManagerProfile (addFinalizer profile TrafficManagerProfileFinalizer));
  match err with
  | Some err => mret (emptyResult, NewUpdateIgnoreConflictError err, profile)
  | None =>
      res ← call (EProfileCreateOrUpdate (tmp_ResourceGroup profile) atmProfileName desired);
      match res with
      | inl updateErr =>
          Event EventTypeWarning profileEventReasonAzureAPIError
            ("Failed to create or update Azure Traffic Manager profile " +:+ atmProfileName +:+
             ": " +:+ errorString updateErr);;
          match asResponseError updateErr with
          | None => mret (emptyResult, Some updateErr, profile)
          | Some _ => updateProfileStatus profile None (Some updateErr)
          end
      | inr p =>
          Event EventTypeNormal profileEventReasonProgrammed
            ("Created or updated Azure Traffic Manager profile " +:+ atmProfileName);;
          updateProfileStatus profile (Some p) None
      end
  end.

Definition handleUpdate (profile : TrafficManagerProfile)
    : IO (Result * option error * TrafficManagerProfile) :=
  let atmProfileName := GenerateAzureTrafficManagerProfileName profile in
  desired ← generateAzureTrafficManagerProfile profile;
  getRes ← call (EProfileGet (tmp_ResourceGroup profile) atmProfileName);
  match getRes with
  | inl getErr =>
      if azureerrors.IsNotFound (Some getErr) then createOrUpdateProfile profile atmProfileName desired
      else
        Event EventTypeWarning profileEventReasonAzureAPIError
          ("Failed to get Azure Traffic Manager profile " +:+ atmProfileName +:+ ": " +:+
           errorString getErr);;
        if azureerrors.IsForbidden (Some getErr)
        then updateProfileStatus profile None (Some getErr)
        else mret (emptyResult, Some getErr, profile)
  | inr current =>
      '(equal, current, desired) ← equalAzureTrafficManagerProfile current desired;
      if (equal : bool) then updateProfileStatus profile (Some current) None else
      desired ← buildAzureTrafficManagerProfileRequest current desired;
      createOrUpdateProfile profile atmProfileName desired
  end.

(** The rest of [handleDelete], after the metrics: [needUpdate] tells whether
    the metrics finalizer was removed. *)
Definition removeProfileFinalizers (profile : TrafficManagerProfile) (needUpdate : bool)
    : IO (Result * option error) :=
  if negb needUpdate then mret (emptyResult, None) else
  '(err, _) ← Update Hub KTrafficManagerProfile profile;
  match err with
  | Some err => mret (emptyResult, NewUpdateIgnoreConflictError err)
  | None => mret (emptyResult, None)
  end.

Definition handleDelete (profile : TrafficManagerProfile) : IO (Result * option error) :=
  '(profile, needUpdate) ←
    (if hasFinalizer profile MetricsFinalizer
     then
       call (EMetricDelete trafficManagerProfileStatusLastTimestampSeconds
         [("namespace", om_Namespace (tmp_ObjectMeta profile));
          ("name", om_Name (tmp_ObjectMeta profile))]);;
       mret (removeFinalizer profile MetricsFinalizer, true)
     else mret (profile, false));
  if hasFinalizer profile TrafficManagerProfileFinalizer
  then
    let atmProfileName := GenerateAzureTrafficManagerProfileName profile in
    err ← call (EProfileDelete (tmp_ResourceGroup profile) atmProfileName);
    if bool_decide (err ≠ None) && negb (azureerrors.IsNotFound err)
    then
      Event EventTypeWarning profileEventReasonAzureAPIError
        ("Failed to delete Azure Traffic Manager profile " +:+ atmProfileName +:+ ": " +:+
         formatError err);;
      mret (emptyResult, err)
    else
      Event EventTypeNormal profileEventReasonDeleted
        ("Deleted Azure Traffic Manager profile " +:+ atmProfileName);;
      removeProfileFinalizers (removeFinalizer profile TrafficManagerProfileFinalizer) true
  else removeProfileFinalizers profile needUpdate.

(** [SetToCurrentTime] reads the clock. *)
Definition emitTrafficManagerProfileStatusMetric (profile : TrafficManagerProfile) : IO unit :=
  let m := tmp_ObjectMeta profile in
  match FindStatusCondition (tmp_Conditions profile) TrafficManagerProfileConditionProgrammed with
  | Some cond =>
      if (c_ObservedGeneration cond =? om_Generation m)%Z
      then
        now ← Now;
        call (EMetric trafficManagerProfileStatusLastTimestampSeconds
          [om_Namespace m; om_Name m; FormatInt (om_Generation m);
           TrafficManagerProfileConditionProgrammed; c_Status cond; c_Reason cond] now)
      else mret tt
  | None => mret tt
  end.

Definition Reconcile (req : NamespacedName) : IO (Result * option error) :=
  got ← Get Hub KTrafficManagerProfile req;
  match got with
  | inl err => if IsNotFound err then mret (emptyResult, None)
               else mret (emptyResult, NewAPIServerError true err)
  | inr profile =>
      if isDeleting (profile : TrafficManagerProfile) then handleDelete profile else
      '(err, profile) ←
        (if hasFinalizer (profile : TrafficManagerProfile) MetricsFinalizer then mret (None, profile)
         else Update Hub KTrafficManagerProfile
                (addFinalizer (profile : TrafficManagerProfile) MetricsFinalizer));
      match err with
      | Some err => mret (emptyResult, Some err)
      | None =>
          '(result, err, profile) ←
            handleUpdate (defaulter.SetDefaultsTrafficManagerProfile profile);
          emitTrafficManagerProfileStatusMetric profile;;
          mret (result, err)
      end
  end.
End controller.

(** ** What an Azure profile in shape is *)

(** The monitor configuration a TrafficManagerProfile asks for. *)
Definition wanted (profile : TrafficManagerProfile) : MonitorConfig :=
  defaulter.defaultMonitorConfig (default defaulter.emptyMonitorConfig (tmp_MonitorConfig profile)).

(** The order of the headers does not matter. *)
Record monitorsAs (mc : MonitorConfig) (m : AtmMonitorConfig) : Prop := {
  as_interval : amc_IntervalInSeconds m = mc_IntervalInSeconds mc;
  as_path : amc_Path m = mc_Path mc;
  as_port : amc_Port m = mc_Port mc;
  as_protocol : amc_Protocol m = mc_Protocol mc;
  as_timeout : amc_TimeoutInSeconds m = mc_TimeoutInSeconds mc;
  as_failures : amc_ToleratedNumberOfFailures m = mc_ToleratedNumberOfFailures mc;
  as_headers : amc_CustomHeaders m ≡ₚ headerOf <$> mc_CustomHeaders mc;
}.

(** The Azure profile does what the TrafficManagerProfile asks for. *)
Record programs (profile : TrafficManagerProfile) (p : AtmProfile) : Prop := {
  programs_tag : ap_Tags p ≫= lookup AzureTrafficManagerProfileTagKey =
    Some (Some (NamespacedName_String (objectKey profile)));
  programs_properties : ∃ q m dns, ap_Properties p = Some q ∧
    app_MonitorConfig q = Some m ∧ monitorsAs (wanted profile) m ∧
    app_ProfileStatus q = Some ProfileStatusEnabled ∧
    app_TrafficRoutingMethod q = Some TrafficRoutingMethodWeighted ∧
    app_DNSConfig q = Some dns ∧ dns_TTL dns = Some DefaultDNSTTL;
}.
(** A request for it also says where it is and which name it answers to. *)
Definition requests (profile : TrafficManagerProfile) (p : AtmProfile) : Prop :=
  programs profile p ∧ ap_Location p = Some "global" ∧
  ∃ q dns, ap_Properties p = Some q ∧ app_DNSConfig q = Some dns ∧
    dns_RelativeName dns = Some (om_Namespace (tmp_ObjectMeta profile) +:+ "-" +:+
                                 om_Name (tmp_ObjectMeta profile)).
(** What others own of an Azure profile: its identity, its endpoints and its
    other tags. *)
Definition endpointsOf (p : AtmProfile) : list AtmEndpoint :=
  default [] (app_Endpoints <$> ap_Properties p).
Record keeps (current p : AtmProfile) : Prop := {
  keeps_id : ap_ID p = ap_ID current;
  keeps_name : ap_Name p = ap_Name current;
  keeps_endpoints : endpointsOf p = endpointsOf current;
  keeps_tags key : key ≠ AzureTrafficManagerProfileTagKey →
    ap_Tags p ≫= lookup key = ap_Tags current ≫= lookup key;
}.
#[export] Instance keeps_preorder : PreOrder keeps.
Proof.
  split; [by split|]. intros p1 p2 p3 [? ? ? Ht] [? ? ? Ht']. split; [congruence..|].
  intros key Hk. by rewrite Ht', Ht.
Qed.
(** Azure answers headers with names. *)
Definition namedHeaders (p : AtmProfile) : Prop :=
  ∀ q m, ap_Properties p = Some q → app_MonitorConfig q = Some m →
    Forall (λ h, is_Some (ach_Name h)) (amc_CustomHeaders m).

(** What the controller builds from a TrafficManagerProfile, before and after
    its headers are sorted. *)
Record desires (profile : TrafficManagerProfile) (d : AtmProfile) : Prop := {
  desires_requests : requests profile d;
  desires_tags : ap_Tags d = Some {[ AzureTrafficManagerProfileTagKey :=
    Some (NamespacedName_String (objectKey profile)) ]};
  desires_endpoints : endpointsOf d = [];
}.

(** ** Comparison and request meet their specification *)

Section comparison.
Context {S : Type} (P : protocol eff S) (s : S).
Context (order_allowed : allowed P EOrder s) (order_next : ∀ code, next P EOrder code s = s).

Lemma headerLess_le a b :
  mayPrecede headerLess a b ↔ String.le (default "" (ach_Name a)) (default "" (ach_Name b)).
Proof.
  unfold mayPrecede, headerLess, String.le, String.ltb, String.leb.
  rewrite (String.compare_antisym (default "" (ach_Name b))).
  by destruct (String.compare _ _).
Qed.
#[local] Instance headerLess_trans : Transitive (mayPrecede headerLess).
Proof. intros a b c. rewrite !headerLess_le. apply transitivity. Qed.
#[local] Instance headerLess_total : Total (mayPrecede headerLess).
Proof. intros a b. rewrite !headerLess_le. apply total. apply _. Qed.

(** Sorting rearranges the headers, and leaves one arrangement only when the
    names differ. *)
Lemma sortHeaders_wp l Q :
  Forall (λ h, is_Some (ach_Name h)) l →
  (∀ l', l' ≡ₚ l → StronglySorted (mayPrecede headerLess) l' → Q l' s) →
  wp P (sortHeaders l) s Q.
Proof.
  intros Hn HQ. unfold sortHeaders. case_decide as Hlen.
  - apply wp_ret, HQ; [done|]. destruct l as [|h [|h' l]]; simpl in Hlen; [constructor| |lia].
    by repeat constructor.
  - rewrite decide_True by done. apply wp_sortSlice; [apply _..|done|].
    intros code l' Hp Hs. rewrite order_next. by apply HQ.
Qed.
Lemma sorted_headers_unique l l' :
  NoDup (ach_Name <$> l) → Forall (λ h, is_Some (ach_Name h)) l → l ≡ₚ l' →
  StronglySorted (mayPrecede headerLess) l → StronglySorted (mayPrecede headerLess) l' → l = l'.
Proof.
  intros Hnd Hn Hp Hs Hs'. eapply StronglySorted_unique_strong; [|done..].
  intros a b Ha Hb%(elem_of_Permutation_proper _ _ _ Hp) Hab%headerLess_le Hba%headerLess_le.
  pose proof (anti_symm String.le _ _ Hab Hba) as Heq.
  rewrite Forall_forall in Hn. destruct (Hn a Ha) as [x Hx], (Hn b Hb) as [y Hy].
  rewrite Hx, Hy in Heq. simpl in Heq. subst y.
  apply list_elem_of_lookup in Ha as [i Hi], Hb as [j Hj].
  assert (i = j) as ->; [|congruence].
  eapply NoDup_lookup; [exact Hnd|..]; rewrite list_lookup_fmap.
  - by rewrite Hi; simpl; rewrite Hx.
  - by rewrite Hj; simpl; rewrite Hy.
Qed.


Lemma differ_wp {A} `{EqDecision A} (p q : option A) Q :
  is_Some p → is_Some q → Q (negb (bool_decide (p = q))) s → wp P (differ p q) s Q.
Proof.
  intros [a ->] [b ->] HQ. apply wp_bind, wp_ret, wp_bind, wp_ret, wp_ret.
  destruct (decide (a = b)) as [->|Hne].
  - by rewrite bool_decide_true in HQ |- *.
  - rewrite bool_decide_false in HQ |- *; [done|congruence..].
Qed.
Lemma orIO_differ_wp {A} `{EqDecision A} (p q : option A) rest Q :
  is_Some p → is_Some q → (p ≠ q → Q true s) → (p = q → wp P rest s Q) →
  wp P (orIO (differ p q) rest) s Q.
Proof.
  intros Hp Hq Hne Heq. apply wp_bind, differ_wp; [done..|].
  case_bool_decide; simpl; [auto|apply wp_ret; auto].
Qed.

(** What a comparison of monitor configurations leaves behind. *)
Definition comparesMonitors (mc : MonitorConfig) (current : AtmMonitorConfig)
    (r : bool * AtmMonitorConfig * AtmMonitorConfig) : Prop :=
  monitorsAs mc r.2 ∧ (r.1.1 = true → monitorsAs mc current) ∧
  (NoDup (mch_Name <$> mc_CustomHeaders mc) → monitorsAs mc current → r.1.1 = true).

Lemma monitorsAs_headers mc m l :
  monitorsAs mc m → l ≡ₚ amc_CustomHeaders m → monitorsAs mc (setCustomHeaders l m).
Proof. intros [] Hl. split; [done..|]. simpl. by rewrite Hl. Qed.
Lemma monitorsAs_names mc m :
  monitorsAs mc m → Forall (λ h, is_Some (ach_Name h)) (amc_CustomHeaders m).
Proof.
  intros Hm. rewrite (as_headers _ _ Hm). apply Forall_fmap, Forall_true. by eexists.
Qed.
Lemma monitorsAs_NoDup mc m :
  monitorsAs mc m → NoDup (mch_Name <$> mc_CustomHeaders mc) →
  NoDup (ach_Name <$> amc_CustomHeaders m).
Proof.
  intros Hm Hnd. rewrite (as_headers _ _ Hm), <-list_fmap_compose.
  change (NoDup ((Some ∘ mch_Name) <$> mc_CustomHeaders mc)).
  rewrite list_fmap_compose. by apply NoDup_fmap; [apply _|].
Qed.

Lemma equalHeaders_wp mc m d Q :
  monitorsAs mc d → Forall (λ h, is_Some (ach_Name h)) (amc_CustomHeaders m) →
  amc_IntervalInSeconds m = amc_IntervalInSeconds d → amc_Path m = amc_Path d →
  amc_Port m = amc_Port d → amc_Protocol m = amc_Protocol d →
  amc_TimeoutInSeconds m = amc_TimeoutInSeconds d →
  amc_ToleratedNumberOfFailures m = amc_ToleratedNumberOfFailures d →
  (∀ b l l', comparesMonitors mc m (b, setCustomHeaders l m, setCustomHeaders l' d) → Q (b, l, l') s) →
  wp P (equalMonitorConfigWithCustomHeaders (amc_CustomHeaders m) (amc_CustomHeaders d)) s Q.
Proof.
  intros Hd Hn H1 H2 H3 H4 H5 H6 HQ. pose proof Hd as [D1 D2 D3 D4 D5 D6 Dh].
  apply wp_bind, sortHeaders_wp; [done|]. intros l Hl Hsl.
  apply wp_bind, sortHeaders_wp; [by eapply monitorsAs_names|]. intros l' Hl' Hsl'.
  apply wp_ret, HQ. split; [by apply monitorsAs_headers|]. split; simpl.
  - intros ->%bool_decide_eq_true. split; [congruence..|]. by rewrite <-Hl, Hl'.
  - intros Hnd Hm. apply bool_decide_eq_true. apply sorted_headers_unique; [..|done|done].
    + rewrite Hl. by eapply monitorsAs_NoDup.
    + by rewrite Hl.
    + rewrite Hl, Hl', (as_headers _ _ Hm). by symmetry.
Qed.

(** One operand of the chain: a difference decides the comparison. *)
Local Ltac compare_field differs set :=
  apply orIO_differ_wp;
    [done|by rewrite set|intros ?; apply wp_ret, differs; intros []; congruence|].

Lemma equalMonitorConfig_wp mc current desired Q :
  defaulter.complete mc → monitorsAs mc desired →
  Forall (λ h, is_Some (ach_Name h)) (amc_CustomHeaders current) →
  (∀ r, comparesMonitors mc current r → Q r s) →
  wp P (equalMonitorConfig current desired) s Q.
Proof.
  intros Hc Hd Hn HQ. unfold equalMonitorConfig.
  assert ((monitorsAs mc current → False) → Q (false, current, desired) s) as Hfalse.
  { intros Hf. apply HQ. split; [done|]. by split; [|intros _ ?%Hf]. }
  destruct Hc as [I1 I2 I3 I4 I5 I6]. pose proof Hd as [D1 D2 D3 D4 D5 D6 _].
  assert (∀ A (x y : option A), is_Some x → y = None → y ≠ x) as Hnone.
  { by intros A x y [a ->] ->. }
  destruct (_ || _) eqn:Hnil.
  { apply wp_ret, Hfalse. intros [].
    rewrite !orb_true_iff, !bool_decide_eq_true in Hnil.
    destruct Hnil as [[[[[H|H]|H]|H]|H]|H]; (eapply Hnone; [|exact H|eassumption]; eassumption). }
  rewrite !orb_false_iff, !bool_decide_eq_false in Hnil.
  destruct Hnil as [[[[[J1%not_eq_None_Some J2%not_eq_None_Some] J3%not_eq_None_Some]
    J4%not_eq_None_Some] J5%not_eq_None_Some] J6%not_eq_None_Some].
  apply wp_bind.
  compare_field Hfalse D1; intros E1.
  compare_field Hfalse D2; intros E2.
  compare_field Hfalse D3; intros E3.
  compare_field Hfalse D4; intros E4.
  compare_field Hfalse D5; intros E5.
  apply differ_wp; [done|by rewrite D6|].
  case_bool_decide as E6; [|apply wp_ret, Hfalse; intros []; congruence].
  apply wp_bind. apply (equalHeaders_wp mc); [done..|]. intros b l l' Hr. by apply wp_ret, HQ.
Qed.
(** *** Profiles *)

Lemma generate_wp profile Q :
  defaulter.complete (wanted profile) → tmp_MonitorConfig profile = Some (wanted profile) →
  (∀ d, desires profile d → Q d s) →
  wp P (generateAzureTrafficManagerProfile profile) s Q.
Proof.
  intros Hc Hmc HQ. unfold generateAzureTrafficManagerProfile. rewrite Hmc.
  apply wp_bind, wp_ret. destruct (defaulter.complete_protocol _ Hc) as [protocol Hpr]. rewrite Hpr.
  apply wp_bind, wp_ret, wp_ret, HQ. split; [|done|done]. split; [|by eauto 6].
  split; [apply lookup_insert_eq|]. do 3 eexists. split; [done|]. split; [done|].
  split; [by split|]. done.
Qed.

(** Sorting the headers changes nothing else. *)
Lemma setMonitor_keeps m p : keeps p (setMonitor m p).
Proof. split; [done|done| |done]. unfold endpointsOf. simpl. by destruct (ap_Properties p). Qed.
Lemma setMonitor_desires profile d m :
  desires profile d → monitorsAs (wanted profile) m → desires profile (setMonitor m d).
Proof.
  intros [Hr Ht He] Hm. pose proof (setMonitor_keeps m d) as [_ _ Hend _].
  destruct Hr as ([Htag (q & m0 & dns & Hq & _ & _ & Hs & Hmt & Hdns & Httl)] & Hl & q' & dns' & Hq' & Hdns' & Hn).
  assert (q' = q) as -> by congruence. assert (dns' = dns) as -> by congruence.
  split; [|done|by rewrite Hend]. split; [split; [done|]|split; [done|]]; simpl; rewrite Hq; simpl.
  - do 3 eexists. done.
  - by do 2 eexists.
Qed.

(** A tag is looked up in the current tags. *)
Lemma desiredTags_spec current key v :
  desiredTagsExistInCurrentTags current (Some {[ key := Some v ]}) = true ↔
  current ≫= lookup key = Some (Some v).
Proof.
  unfold desiredTagsExistInCurrentTags. simpl. destruct current as [tags|]; [|done].
  rewrite map_to_list_singleton. simpl. rewrite andb_true_r.
  change (Some tags ≫= lookup key) with (tags !! key).
  destruct (tags !! key) as [[cv|]|]; [|done..]. rewrite bool_decide_eq_true. naive_solver.
Qed.

Definition compares (profile : TrafficManagerProfile) (current : AtmProfile)
    (r : bool * AtmProfile * AtmProfile) : Prop :=
  desires profile r.2 ∧ keeps current r.1.2 ∧
  (ap_Properties r.1.2 = None ↔ ap_Properties current = None) ∧
  reportedDNSName r.1.2 = reportedDNSName current ∧
  (r.1.1 = true → programs profile current) ∧
  (NoDup (mch_Name <$> mc_CustomHeaders (wanted profile)) → programs profile current → r.1.1 = true).

Lemma hasRequiredProperties_spec p :
  hasRequiredProperties p = true ↔ ∃ q m st mt dns, ap_Properties p = Some q ∧
    app_MonitorConfig q = Some m ∧ app_ProfileStatus q = Some st ∧
    app_TrafficRoutingMethod q = Some mt ∧ app_DNSConfig q = Some dns.
Proof.
  unfold hasRequiredProperties. destruct (ap_Properties p) as [q|]; [|naive_solver].
  rewrite !andb_true_iff, !bool_decide_eq_true, !not_eq_None_Some. unfold is_Some. naive_solver.
Qed.

Lemma programs_with profile p q m dns :
  ap_Properties p = Some q → app_MonitorConfig q = Some m → app_DNSConfig q = Some dns →
  programs profile p →
  monitorsAs (wanted profile) m ∧ app_ProfileStatus q = Some ProfileStatusEnabled ∧
  app_TrafficRoutingMethod q = Some TrafficRoutingMethodWeighted ∧ dns_TTL dns = Some DefaultDNSTTL.
Proof.
  intros Hq Hm Hdns [_ (q0 & m0 & dns0 & H1 & H2 & Has & Hst & Hmt & H3 & Httl)].
  assert (q0 = q) as -> by congruence. assert (m0 = m) as -> by congruence.
  by assert (dns0 = dns) as -> by congruence.
Qed.
Lemma equalAzureTrafficManagerProfile_wp profile current desired Q :
  defaulter.complete (wanted profile) → desires profile desired → namedHeaders current →
  (∀ r, compares profile current r → Q r s) →
  wp P (equalAzureTrafficManagerProfile current desired) s Q.
Proof.
  intros Hc Hd Hn HQ. unfold equalAzureTrafficManagerProfile.
  destruct (hasRequiredProperties current) eqn:Hreq; simpl.
  2: { apply wp_ret, HQ. split; [done|]. do 3 (split; [done|]). split; [done|].
       intros _ [_ (q & m & dns & Hq & Hm & _ & Hst & Hmt & Hdns & _)].
       apply not_true_iff_false in Hreq as []. apply hasRequiredProperties_spec. by eauto 10. }
  apply hasRequiredProperties_spec in Hreq as (q & m & st & mt & dns & Hq & Hm & Hst & Hmt & Hdns).
  pose proof Hd as [([_ (dq & dm & ddns & Hdq & Hdm & Hdas & Hdst & Hdmt & Hddns & Hdttl)] & _) Htags _].
  rewrite Hq, Hdq. apply wp_bind, wp_ret, wp_bind, wp_ret. rewrite Hm, Hdm.
  apply wp_bind, wp_ret, wp_bind, wp_ret, wp_bind.
  apply (equalMonitorConfig_wp (wanted profile)); [done|done|by eapply Hn|].
  intros [[equal m'] dm'] (Hdas' & Heq & Hneq). simpl in *.
  assert (∀ b, (b = true → programs profile current) →
    (NoDup (mch_Name <$> mc_CustomHeaders (wanted profile)) → programs profile current → b = true) →
    Q (b, setMonitor m' current, setMonitor dm' desired) s) as Hret.
  { intros b Hb1 Hb2. apply HQ. split; [by apply setMonitor_desires|].
    split; [apply setMonitor_keeps|]. unfold reportedDNSName. simpl. rewrite Hq. done. }
  assert ((programs profile current → False) → Q (false, setMonitor m' current, setMonitor dm' desired) s)
    as Hfalse.
  { intros Hf. apply Hret; [done|]. by intros _ ?%Hf. }
  pose proof (programs_with profile current q m dns Hq Hm Hdns) as Hwith.
  destruct equal; simpl.
  2: { apply wp_ret, Hret; [done|]. intros Hnd [Has _]%Hwith. by apply Hneq. }
  rewrite Hst, Hdst, Hmt, Hdmt, Hdns, Hddns.
  apply wp_bind, differ_wp; [by eauto..|]. case_bool_decide as E1; simpl.
  2: { apply wp_ret, Hfalse. intros (_ & Hx & _)%Hwith. congruence. }
  apply wp_bind, differ_wp; [by eauto..|]. case_bool_decide as E2; simpl.
  2: { apply wp_ret, Hfalse. intros (_ & _ & Hx & _)%Hwith. congruence. }
  apply wp_bind, wp_ret, wp_bind.
  apply (wp_mono _ _ _ (λ b s', s' = s ∧ (b = false ↔ dns_TTL dns = Some DefaultDNSTTL))).
  { case_bool_decide as Hnil; [apply wp_ret; naive_solver congruence|].
    apply wp_bind, wp_ret, differ_wp; [by apply not_eq_None_Some|by rewrite Hdttl|].
    rewrite Hdttl. split; [done|]. rewrite negb_false_iff, bool_decide_eq_true. done. }
  intros different s' [-> Hdiff]. destruct different.
  { apply wp_ret, Hfalse. intros (_ & _ & _ & Hx)%Hwith. by apply Hdiff in Hx. }
  rewrite Htags. destruct (desiredTagsExistInCurrentTags _ _) eqn:Ht; simpl.
  - apply desiredTags_spec in Ht. apply wp_ret, Hret; [|done]. intros _.
    split; [done|]. exists q, m, dns. split; [done|]. split; [done|]. split; [by apply Heq|].
    split; [congruence|]. split; [congruence|]. split; [done|]. by apply Hdiff.
  - apply wp_ret, Hfalse. intros [Hx _]. apply not_true_iff_false in Ht as []. by apply desiredTags_spec.
Qed.

Lemma buildAzureTrafficManagerProfileRequest_wp profile current desired Q :
  desires profile desired → (∀ p, requests profile p → keeps current p → Q p s) →
  wp P (buildAzureTrafficManagerProfileRequest current desired) s Q.
Proof.
  intros [([Htag (dq & dm & ddns & Hdq & Hdm & Hdas & Hdst & Hdmt & Hddns & Hdttl)] & Hloc &
    q' & dns' & Hq' & Hdns' & Hrel) Htags Hend] HQ.
  assert (q' = dq) as -> by congruence. assert (dns' = ddns) as -> by congruence. clear Hq' Hdns'.
  assert (∀ q m, app_MonitorConfig q = Some m → monitorsAs (wanted profile) m →
    app_DNSConfig q = Some ddns → app_ProfileStatus q = Some ProfileStatusEnabled →
    app_TrafficRoutingMethod q = Some TrafficRoutingMethodWeighted →
    app_Endpoints q = endpointsOf current →
    Q {| ap_ID := ap_ID current; ap_Name := ap_Name current; ap_Location := ap_Location desired;
         ap_Properties := Some q;
         ap_Tags := match ap_Tags current with
                    | None => ap_Tags desired
                    | Some tags => Some (default ∅ (ap_Tags desired) ∪ tags)
                    end |} s) as Hp.
  { intros q m Hm Has Hdns Hst Hmt He. rewrite Htags. simpl. apply HQ.
    - split; [|by eauto 6]. split; [|by eauto 10]. simpl.
      destruct (ap_Tags current) as [tags|]; [apply lookup_union_Some_l|]; apply lookup_insert_eq.
    - split; [done..|]. intros key Hkey. simpl. destruct (ap_Tags current) as [tags|]; simpl.
      + by apply (lookup_union_r (M := gmap string)), lookup_singleton_ne.
      + by apply (lookup_singleton_ne (M := gmap string)). }
  unfold buildAzureTrafficManagerProfileRequest. unfold endpointsOf in Hend, Hp.
  destruct (ap_Properties current) as [cq|] eqn:Hcq; simpl in Hp.
  - rewrite Hdq. apply wp_bind, wp_bind, wp_ret, wp_bind. rewrite Hdm.
    destruct (app_MonitorConfig cq) as [cm|]; [apply wp_bind, wp_ret|]; apply wp_ret, wp_ret, wp_ret.
    + apply (Hp _ (resetMonitor cm dm)); [done| |done..]. by destruct Hdas; split.
    + by apply (Hp _ dm).
  - rewrite Hdq. rewrite Hdq in Hend. by apply wp_bind, wp_ret, wp_ret, (Hp dq dm).
Qed.
End comparison.

(** The defaults are applied once: a profile with its defaults asks for the
    same as the profile without. *)
Lemma wanted_complete profile :
  defaulter.admitted profile → defaulter.complete (wanted profile).
Proof.
  intros Ha. apply defaulter.defaultMonitorConfig_complete.
  destruct (tmp_MonitorConfig profile) as [mc|] eqn:Hmc; simpl; [by apply Ha|by intros].
Qed.
Lemma wanted_set profile :
  defaulter.admitted profile →
  wanted (defaulter.SetDefaultsTrafficManagerProfile profile) = wanted profile.
Proof. intros Ha. apply defaulter.defaultMonitorConfig_id. by apply wanted_complete. Qed.

(** One comparison and, when it fails, the request that follows. *)
Definition programOnce (profile : TrafficManagerProfile) (current : AtmProfile)
    : IO (bool * AtmProfile) :=
  desired ← generateAzureTrafficManagerProfile profile;
  '(equal, current, desired) ← equalAzureTrafficManagerProfile current desired;
  if (equal : bool) then mret (true, current)
  else request ← buildAzureTrafficManagerProfileRequest current desired; mret (false, request).

(** The environment only picks the order of equivalent headers. *)
Definition orderOnly : protocol eff unit := {|
  allowed X c _ := match c with EOrder => True | _ => False end;
  answer _ _ _ _ := True;
  next _ _ _ s := s |}.

Lemma programOnce_wp profile current Q :
  defaulter.complete (wanted profile) → tmp_MonitorConfig profile = Some (wanted profile) →
  namedHeaders current →
  (∀ b p, keeps current p → (b = true → programs profile current) →
     (b = false → requests profile p) →
     (NoDup (mch_Name <$> mc_CustomHeaders (wanted profile)) → programs profile current → b = true) →
     Q (b, p) tt) →
  wp orderOnly (programOnce profile current) tt Q.
Proof.
  intros Hc Hmc Hn HQ. apply wp_bind, generate_wp; [done..|]. intros d Hd. apply wp_bind.
  apply (equalAzureTrafficManagerProfile_wp orderOnly tt I (λ _, eq_refl) profile); [done..|].
  intros [[b c'] d'] (Hd' & Hk & _ & _ & Hb & Hb'). simpl in *. destruct b.
  - by apply wp_ret, HQ.
  - apply wp_bind, (buildAzureTrafficManagerProfileRequest_wp _ _ profile); [done|].
    intros p Hp Hkp. by apply wp_ret, HQ; [etrans|..].
Qed.

Lemma programs_named profile p : programs profile p → namedHeaders p.
Proof.
  intros [_ (q & m & dns & Hq & Hm & Has & _)] q' m' Hq' Hm'.
  assert (q' = q) as -> by congruence. assert (m' = m) as -> by congruence.
  by eapply monitorsAs_names.
Qed.

(** C11: programming an Azure profile converges in one request. Whatever
    profile Azure has, the comparison accepts it only if it is in the shape the
    TrafficManagerProfile asks for; otherwise the request keeps the identity,
    the endpoints and the foreign tags of that profile, brings everything else
    into shape, and the next comparison accepts the result, so that nothing
    more is sent. The names of the headers are distinct. *)
Theorem programming_converges profile current :
  defaulter.admitted profile → namedHeaders current →
  NoDup (mch_Name <$> mc_CustomHeaders (wanted profile)) →
  let p := defaulter.SetDefaultsTrafficManagerProfile profile in
  wp orderOnly
    ('(equal, request) ← programOnce p current;
     if (equal : bool) then mret None else
     '(again, _) ← programOnce p request; mret (Some (request, again))) tt
    (λ r _, match r with
            | None => programs p current
            | Some (request, again) => requests p request ∧ keeps current request ∧ again = true
            end).
Proof.
  intros Ha Hn Hnd p. assert (wanted p = wanted profile) as Hw by (by apply wanted_set).
  assert (defaulter.complete (wanted p)) as Hc by (rewrite Hw; by apply wanted_complete).
  apply wp_bind, programOnce_wp; [done|by rewrite Hw|done|]. intros [] request Hk Hb Hb' _.
  - apply wp_ret. auto.
  - destruct (Hb' eq_refl) as [Hp Hrest].
    apply wp_bind, programOnce_wp; [done|by rewrite Hw|by eapply programs_named|].
    intros b p' _ _ _ Hbt. apply wp_ret. split; [done|]. split; [done|]. apply Hbt; [by rewrite Hw|done].
Qed.

(** ** The protocol of the controller

    What it knows: the stored TrafficManagerProfile; the Azure profile as it was
    read or written last, and whether it was written; the last error of Azure;
    whether the Azure profile and the metrics are gone. *)
Record knowledge := {
  q_profile : option TrafficManagerProfile;
  q_atm : option (AtmProfile * bool);
  q_error : option error;
  q_gone : bool;
  q_metricsGone : bool;
}.
Definition nothingKnown : knowledge :=
  {| q_profile := None; q_atm := None; q_error := None; q_gone := false; q_metricsGone := false |}.
Definition learnProfile (p : TrafficManagerProfile) (s : knowledge) : knowledge :=
  {| q_profile := Some p; q_atm := q_atm s; q_error := q_error s; q_gone := q_gone s;
     q_metricsGone := q_metricsGone s |}.
Definition learnAtm (written : bool) (x : error + AtmProfile) (s : knowledge) : knowledge :=
  {| q_profile := q_profile s;
     q_atm := match x with inr p => Some (p, written) | inl _ => None end;
     q_error := match x with inr _ => None | inl err => Some err end;
     q_gone := q_gone s; q_metricsGone := q_metricsGone s |}.
Definition learnGone (s : knowledge) : knowledge :=
  {| q_profile := q_profile s; q_atm := q_atm s; q_error := q_error s; q_gone := true;
     q_metricsGone := q_metricsGone s |}.
Definition learnMetricsGone (s : knowledge) : knowledge :=
  {| q_profile := q_profile s; q_atm := q_atm s; q_error := q_error s; q_gone := q_gone s;
     q_metricsGone := true |}.

(** How an HTTP status of Azure is reported. *)
Definition verdict (code : option Z) : string * string :=
  match code with
  | Some c =>
      if (c =? 409)%Z then (ConditionFalse, TrafficManagerProfileReasonDNSNameNotAvailable)
      else if (400 <=? c)%Z && (c <? 500)%Z && negb (c =? 429)%Z
      then (ConditionFalse, TrafficManagerProfileReasonInvalid)
      else (ConditionUnknown, TrafficManagerProfileReasonPending)
  | None => (ConditionUnknown, TrafficManagerProfileReasonPending)
  end.

Section protocol.
Context {util : ControllerUtil} (req : NamespacedName).

Definition hasCleanup (p : TrafficManagerProfile) : Prop :=
  TrafficManagerProfileFinalizer ∈ finalizersOf p.
Definition hasMetrics (p : TrafficManagerProfile) : Prop := MetricsFinalizer ∈ finalizersOf p.
(** The Azure profile that belongs to a TrafficManagerProfile. *)
Definition azureName (p : TrafficManagerProfile) (rg name : string) : Prop :=
  rg = tmp_ResourceGroup p ∧ name = GenerateAzureTrafficManagerProfileName p.

(** The status says what Azure answered last. *)
Definition reports (s : knowledge) (p : TrafficManagerProfile) : Prop :=
  ∃ c, FindStatusCondition (tmp_Conditions p) TrafficManagerProfileConditionProgrammed = Some c ∧
    c_ObservedGeneration c = om_Generation (tmp_ObjectMeta p) ∧
    (c_Status c = ConditionTrue ∧ (∃ atm written, q_atm s = Some (atm, written) ∧
       (written = true ∨ programs p atm) ∧
       tmp_DNSName p = reportedDNSName atm ∧ tmp_ResourceID p = reportedID atm) ∨
     (∃ err, q_error s = Some err ∧ (c_Status c, c_Reason c) = verdict (asResponseError err)) ∧
       tmp_DNSName p = None ∧ tmp_ResourceID p = "").

Definition live (s : knowledge) (p : TrafficManagerProfile) : Prop :=
  q_profile s = Some p ∧ isDeleting p = false ∧ hasMetrics p.

Definition profileProtocol : protocol eff knowledge := {|
  allowed X c s :=
    match c with
    | ENow | EEvent _ _ _ | EOrder => True
    | EGet Hub KTrafficManagerProfile key => key = req
    | EUpdate Hub KTrafficManagerProfile o => ∃ p, q_profile s = Some p ∧ objectKey o = req ∧
        tmp_ResourceGroup o = tmp_ResourceGroup p ∧ wanted o = wanted p ∧
        (hasCleanup p → hasCleanup o ∨ isDeleting p = true ∧ q_gone s = true) ∧
        (hasMetrics p → hasMetrics o ∨ isDeleting p = true ∧ q_metricsGone s = true)
    | EStatusUpdate Hub KTrafficManagerProfile o => ∃ p, live s p ∧
        tmp_ObjectMeta o = tmp_ObjectMeta p ∧ reports s o
    | EProfileGet rg name => ∃ p, live s p ∧ azureName p rg name
    | EProfileCreateOrUpdate rg name atm => ∃ p, live s p ∧ hasCleanup p ∧ azureName p rg name ∧
        requests p atm ∧ (∀ current written, q_atm s = Some (current, written) → keeps current atm)
    | EProfileDelete rg name => ∃ p, q_profile s = Some p ∧ isDeleting p = true ∧ hasCleanup p ∧
        azureName p rg name
    | EMetric name labels _ => name = trafficManagerProfileStatusLastTimestampSeconds ∧
        take 2 labels = [nn_Namespace req; nn_Name req] ∧ ∃ p, live s p
    | EMetricDelete name labels => name = trafficManagerProfileStatusLastTimestampSeconds ∧
        labels = [("namespace", nn_Namespace req); ("name", nn_Name req)] ∧
        ∃ p, q_profile s = Some p ∧ isDeleting p = true
    | _ => False
    end;
  (* the API server admits valid intervals only, and a write of the status
     leaves the spec as it is stored *)
  answer X c s := λ x, serverAnswer c x ∧
    (match c in eff X return X → Prop with
     | EGet Hub KTrafficManagerProfile key => λ x,
         match x with inr p => defaulter.admitted p | inl _ => True end
     | EUpdate Hub KTrafficManagerProfile o => λ x,
         match x with
         | inr o' => tmp_ResourceGroup o' = tmp_ResourceGroup o ∧
             tmp_MonitorConfig o' = tmp_MonitorConfig o ∧ isDeleting o' = isDeleting o ∧
             om_UID (tmp_ObjectMeta o') = om_UID (tmp_ObjectMeta o)
         | inl _ => True
         end
     | EStatusUpdate Hub KTrafficManagerProfile o => λ x,
         match x with
         | inr o' => (∀ p, q_profile s = Some p → tmp_MonitorConfig o' = tmp_MonitorConfig p) ∧
             isDeleting o' = isDeleting o ∧
             om_Generation (tmp_ObjectMeta o') = om_Generation (tmp_ObjectMeta o)
         | inl _ => True
         end
     | EProfileGet rg name => λ x,
         match x with inr atm => namedHeaders atm | inl _ => True end
     | _ => λ _, True
     end) x;
  next X c :=
    match c in eff X return X → knowledge → knowledge with
    | EGet Hub KTrafficManagerProfile key => λ x s,
        match x with inr p => learnProfile p s | inl _ => s end
    | EUpdate Hub KTrafficManagerProfile o => λ x s,
        match x with inr p => learnProfile p s | inl _ => s end
    | EStatusUpdate Hub KTrafficManagerProfile o => λ x s,
        match x with inr p => learnProfile p s | inl _ => s end
    | EProfileGet rg name => learnAtm false
    | EProfileCreateOrUpdate rg name atm => learnAtm true
    | EProfileDelete rg name => λ x s,
        match x with
        | None => learnGone s
        | Some err => if azureerrors.IsNotFound (Some err) then learnGone s else s
        end
    | EMetricDelete name labels => λ _ s, learnMetricsGone s
    | _ => λ _ s, s
    end |}.

(** What a finished round leaves behind. *)
Definition settled (s : knowledge) : Prop :=
  ∀ p, q_profile s = Some p →
  if isDeleting p then ¬ hasCleanup p ∧ ¬ hasMetrics p
  else hasMetrics p ∧ reports s p ∧
    c_Status <$> FindStatusCondition (tmp_Conditions p) TrafficManagerProfileConditionProgrammed =
      Some ConditionTrue.
Definition roundEnds (x : Result * option error) (s : knowledge) : Prop :=
  x.2 = None → settled s.
End protocol.

(** ** Safety *)

Lemma programs_same p p' atm :
  wanted p' = wanted p → objectKey p' = objectKey p → programs p atm → programs p' atm.
Proof. intros Hw Hk [Ht Hp]. split; [by rewrite Hk|by rewrite Hw]. Qed.
Lemma requests_same p p' atm :
  wanted p' = wanted p → objectKey p' = objectKey p → requests p atm → requests p' atm.
Proof.
  intros Hw Hk (Hp & Hl & q & dns & Hq & Hdns & Hn). split; [by eapply programs_same|].
  split; [done|]. exists q, dns. injection Hk as Hns Hname. rewrite Hns, Hname. done.
Qed.

Lemma programmedCondition_error p err :
  let c := programmedCondition p (Some err) in
  (c_Status c, c_Reason c) = verdict (asResponseError err).
Proof.
  unfold programmedCondition, verdict, azureerrors.IsConflict, azureerrors.IsClientError,
    azureerrors.IsThrottled, azureerrors.statusCode. simpl.
  change (Some err ≫= asResponseError) with (asResponseError err).
  destruct (asResponseError err) as [c|]; [|done].
  change azureerrors.StatusConflict with 409%Z. change azureerrors.StatusTooManyRequests with 429%Z.
  destruct (c =? 409)%Z; [done|].
  change azureerrors.StatusBadRequest with 400%Z. change azureerrors.StatusInternalServerError with 500%Z.
  by destruct ((400 <=? c)%Z && (c <? 500)%Z && negb (c =? 429)%Z).
Qed.
Lemma verdict_not_true code : (verdict code).1 ≠ ConditionTrue.
Proof. unfold verdict. by repeat case_match. Qed.

Section safety.
Context {util : ControllerUtil} {laws : ControllerUtilLaws}.
Context {fleetUtil : FleetUtil} {fleetLaws : FleetUtilLaws} (req : NamespacedName).
Local Abbreviation P := (profileProtocol req).

(** The profile in memory is the stored one with its defaults. *)
Record holds (m : TrafficManagerProfile) (s : knowledge) : Prop := {
  holds_key : objectKey m = req;
  holds_config : tmp_MonitorConfig m = Some (wanted m);
  holds_complete : defaulter.complete (wanted m);
  holds_stored : ∃ p, live s p ∧ tmp_ObjectMeta m = tmp_ObjectMeta p ∧
    tmp_ResourceGroup m = tmp_ResourceGroup p ∧ wanted m = wanted p;
}.
Definition updateEnds (x : Result * option error * TrafficManagerProfile) (s : knowledge) : Prop :=
  (∃ p, live s p) ∧ objectKey x.2 = req ∧ (x.1.2 = None → settled s).

(** A failed write leaves the profile live. *)
Lemma holds_ends m s r err : holds m s → is_Some err → updateEnds (r, err, m) s.
Proof.
  intros [Hk _ _ (p & Hl & _)] [e ->]. split; [by exists p|]. split; [done|]. done.
Qed.
Lemma holds_azureName m s : holds m s →
  ∃ p, live s p ∧ azureName p (tmp_ResourceGroup m) (GenerateAzureTrafficManagerProfileName m).
Proof.
  intros [_ _ _ (p & Hl & Hm & Hrg & _)]. exists p. split; [done|]. split; [done|].
  unfold GenerateAzureTrafficManagerProfileName. by rewrite Hm.
Qed.

(** What Azure answered is what the status is to report. *)
Definition outcomeOf (m : TrafficManagerProfile) (atmProfile : option AtmProfile)
    (armErr : option error) (s : knowledge) : Prop :=
  match armErr with
  | Some err => q_error s = Some err
  | None => ∃ p atm written, atmProfile = Some p ∧ q_atm s = Some (atm, written) ∧
      (written = true ∨ programs m atm) ∧
      reportedDNSName p = reportedDNSName atm ∧ reportedID p = reportedID atm
  end.

Lemma reports_outcome m atmProfile armErr s now dns id :
  outcomeOf m atmProfile armErr s →
  match armErr with
  | Some _ => dns = None ∧ id = ""
  | None => ∃ p, atmProfile = Some p ∧ dns = reportedDNSName p ∧ id = reportedID p
  end →
  reports s (setProfileStatus dns id
    (setCondition now (tmp_Conditions m) (programmedCondition m armErr)) m) ∧
  (armErr = None → c_Status <$> FindStatusCondition
    (setCondition now (tmp_Conditions m) (programmedCondition m armErr))
    TrafficManagerProfileConditionProgrammed = Some ConditionTrue).
Proof.
  intros Ho Hd.
  assert (c_Type (programmedCondition m armErr) = TrafficManagerProfileConditionProgrammed) as Ht.
  { unfold programmedCondition. by repeat case_match. }
  assert (c_ObservedGeneration (programmedCondition m armErr) = om_Generation (tmp_ObjectMeta m)) as Hg.
  { unfold programmedCondition. by repeat case_match. }
  destruct (setCondition_same now (tmp_Conditions m) (programmedCondition m armErr))
    as (c & Hf & _ & Hst & Hre & _ & Hge).
  rewrite Ht in Hf. split.
  - exists c. split; [done|]. split; [simpl; congruence|]. destruct armErr as [err|].
    + right. destruct Hd as [-> ->]. split; [|done]. exists err. split; [done|].
      rewrite Hst, Hre. apply programmedCondition_error.
    + left. destruct Ho as (p & atm & written & -> & Hq & Hw & Hdns & Hid).
      destruct Hd as (? & [= <-] & -> & ->). split; [by rewrite Hst|]. exists atm, written.
      split; [done|]. split; [|done]. destruct Hw; [by left|right]. by apply (programs_same m).
  - intros ->. by rewrite Hf; simpl; rewrite Hst.
Qed.


Lemma updateProfileStatus_wp m atmProfile armErr s :
  holds m s → outcomeOf m atmProfile armErr s →
  wp P (updateProfileStatus m atmProfile armErr) s updateEnds.
Proof.
  intros Hh Ho. pose proof Hh as [Hk Hmc Hc (p & Hl & Hm & Hrg & Hw)]. apply wp_bind.
  apply (wp_mono _ _ _ (λ r s', s' = s ∧ match armErr with
    | Some _ => r.1 = None ∧ r.2 = ""
    | None => ∃ p, atmProfile = Some p ∧ r.1 = reportedDNSName p ∧ r.2 = reportedID p
    end)).
  { destruct armErr as [err|]; [by apply wp_ret|]. destruct Ho as (atm & _ & _ & -> & _).
    apply wp_bind, wp_ret, wp_ret. by eauto. }
  intros [dns id] ? [-> Hd]. simpl in Hd. apply wp_bind, wp_SetStatusCondition; [done|].
  intros now _. destruct (reports_outcome m atmProfile armErr s now dns id Ho Hd) as [Hr Htrue].
  set (o := setProfileStatus _ _ _ _) in *. apply wp_bind, wp_StatusUpdate; [by exists p|].
  intros [err|o'] [[Hsm Hz] Ha]; simpl.
  - apply wp_ret, (holds_ends o); [by split; [..|exists p]|apply NewUpdateIgnoreConflictError_some].
  - simpl in o', Ha. destruct Ha as (Hspec & Hdel & Hgen). specialize (Hspec p (proj1 Hl)).
    assert (objectKey o' = req) as Hk'.
    { rewrite <-Hk. exact (sameMeta_key _ _ Hsm). }
    assert (finalizersOf o' = finalizersOf p) as Hff.
    { etrans; [exact (sameMeta_finalizers _ _ Hsm)|]. unfold finalizersOf. simpl. by rewrite Hm. }
    destruct Hl as (Hq & Hdp & Hmet).
    assert (isDeleting o' = false) as Hdo'.
    { rewrite Hdel, <-Hdp. unfold isDeleting. simpl. by rewrite Hm. }
    assert (hasMetrics o') as Hmo' by (unfold hasMetrics; by rewrite Hff).
    pose proof (Hz o) as Hzo. simpl in Hzo. injection Hzo as Hzd Hzi Hzc.
    apply wp_ret. split; [by exists o'|]. split; [done|]. intros Hnone ? [= <-]. rewrite Hdo'.
    split; [done|]. rewrite Hzc. split; [|by apply Htrue].
    destruct Hr as (c & Hf & Hg & Hcase). exists c. rewrite Hzc, Hgen. split; [done|]. split; [done|].
    simpl in Hnone. subst armErr. rewrite Hzd, Hzi. destruct Hcase as [(Hst & Hatm)|Herr]; [left|by right].
    split; [done|]. destruct Hatm as (atm & written & Hqa & Hwr & Hrep). exists atm, written.
    split; [done|]. split; [|done]. destruct Hwr as [|Hpr]; [by left|right].
    apply (programs_same o); [|by rewrite Hk'|done].
    unfold wanted. rewrite Hspec. exact (eq_sym Hw).
Qed.

Lemma holds_atm m s written x : holds m s → holds m (learnAtm written x s).
Proof. intros [Hk Hmc Hc (p & Hl & Hrest)]. split; [done..|]. by exists p. Qed.

(** Adding a finalizer to the profile in memory and storing it. *)
Lemma registerCleanup_wp m f s :
  holds m s →
  wp P (Update Hub KTrafficManagerProfile (addFinalizer m f)) s (λ r s',
    match r.1 with
    | Some _ => s' = s ∧ objectKey r.2 = req
    | None => holds r.2 s' ∧ q_profile s' = Some r.2 ∧ q_atm s' = q_atm s ∧
        wanted r.2 = wanted m ∧ tmp_ResourceGroup r.2 = tmp_ResourceGroup m ∧
        GenerateAzureTrafficManagerProfileName r.2 = GenerateAzureTrafficManagerProfileName m ∧
        f ∈ finalizersOf r.2
    end).
Proof.
  intros [Hk Hmc Hc (p & (Hq & Hdp & Hmet) & Hm & Hrg & Hw)].
  assert (∀ f', f' ∈ finalizersOf p → f' ∈ finalizersOf (addFinalizer m f)) as Hkeep.
  { intros f' Hf'. apply (addFinalizer_spec (T := TrafficManagerProfile)). left.
    unfold finalizersOf in *. simpl in *. by rewrite Hm. }
  apply wp_Update.
  { exists p. split; [done|].
    split; [rewrite <-Hk; apply (addFinalizer_key (T := TrafficManagerProfile))|].
    split; [exact Hrg|]. split; [exact Hw|]. split; intros Hx; left; by apply Hkeep. }
  intros [err|o'] [Hsm Ha]; simpl.
  { split; [done|]. rewrite <-Hk. apply (addFinalizer_key (T := TrafficManagerProfile)). }
  simpl in o', Ha. destruct Ha as (Hrg' & Hmc' & Hd' & Hu').
  destruct (addFinalizer_stored m o' f Hsm) as [Hhas Hk'].
  assert (wanted o' = wanted m) as Hw' by (unfold wanted; by rewrite Hmc').
  split; [|split; [done|]; split; [done|]; split; [done|]; split; [done|]; split; [|done]].
  - split; [by rewrite <-Hk|by rewrite Hmc', Hw'|by rewrite Hw'|]. exists o'.
    split; [|done]. split; [done|]. split.
    + rewrite Hd', (addFinalizer_deleting (T := TrafficManagerProfile)), <-Hdp.
      unfold isDeleting. simpl. by rewrite Hm.
    + unfold hasMetrics. assert (finalizersOf o' = finalizersOf (addFinalizer m f)) as ->
        by exact (sameMeta_finalizers _ _ Hsm). by apply Hkeep.
  - unfold GenerateAzureTrafficManagerProfileName. by rewrite Hu'.
Qed.

Lemma createOrUpdateProfile_wp m name desired s :
  holds m s → name = GenerateAzureTrafficManagerProfileName m → requests m desired →
  (∀ current written, q_atm s = Some (current, written) → keeps current desired) →
  wp P (createOrUpdateProfile m name desired) s updateEnds.
Proof.
  intros Hh -> Hreq Hkeep. apply wp_bind.
  apply (wp_mono _ _ _ (λ r s', objectKey r.2 = req ∧ (∃ p, live s' p) ∧
    (r.1 = None → holds r.2 s' ∧ q_atm s' = q_atm s ∧
      ∃ p, live s' p ∧ hasCleanup p ∧ requests p desired ∧
        azureName p (tmp_ResourceGroup r.2) (GenerateAzureTrafficManagerProfileName m)))).
  { destruct (hasFinalizer m _) eqn:Hf.
    - apply hasFinalizer_spec in Hf. pose proof Hh as [Hk _ _ (p & Hl & Hm & Hrg & Hw)].
      apply wp_ret. split; [done|]. split; [by exists p|]. intros _. split; [done|].
      split; [done|]. exists p. split; [done|].
      assert (objectKey p = objectKey m) as Hkp by (unfold objectKey; simpl; by rewrite Hm).
      split; [unfold hasCleanup, finalizersOf in *; simpl in *; by rewrite <-Hm|].
      split; [by apply (requests_same m)|]. split; [done|].
      unfold GenerateAzureTrafficManagerProfileName. by rewrite Hm.
    - eapply wp_mono; [by apply registerCleanup_wp|]. intros [[err|] m'] s'; simpl.
      + intros [-> Hk']. pose proof Hh as [_ _ _ (p & Hl & _)]. split; [done|]. by split; [exists p|].
      + intros (Hh' & Hq & Hatm & Hw & Hrg & Hn & Hhas).
        pose proof Hh' as [Hk' _ _ (p & Hl & Hm & _)].
        assert (p = m') as -> by (destruct Hl; congruence). split; [done|]. split; [by exists m'|].
        intros _. split; [done|]. split; [done|]. exists m'. split; [done|].
        split; [done|]. split; [|by split]. apply (requests_same m); [done| |done].
        by rewrite Hk', (holds_key _ _ Hh). }
  intros [[err|] m'] s' (Hk & Hlive & Hok); simpl in *.
  { apply wp_ret. split; [done|]. split; [done|]. simpl.
    by destruct (NewUpdateIgnoreConflictError_some err) as [? ->]. }
  destruct (Hok eq_refl) as (Hh' & Hatm & p & Hl & Hcl & Hrq & Haz). apply wp_bind, wp_call.
  { exists p. split; [done|]. split; [done|]. split; [done|]. split; [done|]. by rewrite Hatm. }
  intros [err|atm] _; apply wp_bind, wp_Event; try done; intros ? _; cbn [next profileProtocol].
  - destruct (asResponseError err).
    + by apply updateProfileStatus_wp; [apply holds_atm|].
    + apply wp_ret, (holds_ends m'); [by apply holds_atm|by eexists].
  - apply updateProfileStatus_wp; [by apply holds_atm|]. exists atm, atm, true. by auto.
Qed.


Lemma programProfile_wp m s : holds m s → wp P (handleUpdate m) s updateEnds.
Proof.
  intros Hh. pose proof Hh as [Hk Hmc Hc _]. apply wp_bind, generate_wp; [done..|]. intros d Hd.
  apply wp_bind, wp_call; [by apply holds_azureName|]. intros [err|current] [_ Hn]; cbn [next profileProtocol].
  - destruct (azureerrors.IsNotFound (Some err)).
    { by apply createOrUpdateProfile_wp; [apply holds_atm|..|]; [..|apply Hd|]. }
    apply wp_bind, wp_Event; [done|]. intros ? _. cbn [next profileProtocol].
    destruct (azureerrors.IsForbidden (Some err)).
    + by apply updateProfileStatus_wp; [apply holds_atm|].
    + apply wp_ret, (holds_ends m); [by apply holds_atm|by eexists].
  - apply wp_bind.
    apply (equalAzureTrafficManagerProfile_wp P _ I (λ _, eq_refl) m); [done..|].
    intros [[b c'] d'] (Hd' & Hkp & _ & Hdns & Hb & _). simpl in *. destruct b.
    + apply updateProfileStatus_wp; [by apply holds_atm|]. exists c', current, false.
      split; [done|]. split; [done|]. split; [by right; apply Hb|]. split; [done|].
      unfold reportedID. by rewrite (keeps_id _ _ Hkp).
    + apply wp_bind, (buildAzureTrafficManagerProfileRequest_wp P _ m); [done|]. intros p Hp Hkp'.
      apply createOrUpdateProfile_wp; [by apply holds_atm|done|done|].
      intros ? ? [= <- <-]. by etrans.
Qed.

Lemma removeProfileFinalizers_wp p o (b : bool) s :
  q_profile s = Some p → isDeleting p = true → objectKey p = req → isDeleting o = true →
  objectKey o = req → tmp_ResourceGroup o = tmp_ResourceGroup p → wanted o = wanted p →
  ¬ hasCleanup o → ¬ hasMetrics o → (hasCleanup p → q_gone s = true) →
  (hasMetrics p → q_metricsGone s = true) → (b = false → o = p) →
  wp P (removeProfileFinalizers o b) s (roundEnds).
Proof.
  intros Hq Hd Hk Hdo Hko Hrg Hw Hc Hm Hg Hmg Hb. destruct b; simpl.
  - apply wp_bind, wp_Update.
    { exists p. do 4 (split; [done|]). split; right; auto. }
    intros [err|o'] [Hsm Ha]; simpl; apply wp_ret.
    + intros Hn. by destruct (NewUpdateIgnoreConflictError_some err) as [? Hx]; rewrite Hx in Hn.
    + intros _ ? [= <-]. simpl in o', Ha. destruct Ha as (_ & _ & Hd' & _). rewrite Hd', Hdo.
      assert (finalizersOf o' = finalizersOf o) as Hff by exact (sameMeta_finalizers _ _ Hsm).
      unfold hasCleanup, hasMetrics. by rewrite Hff.
  - apply wp_ret. intros _ ? [= <-]%(eq_trans (eq_sym Hq)). rewrite Hd. by rewrite <-(Hb eq_refl).
Qed.

Lemma unprogramProfile_wp p s :
  q_profile s = Some p → isDeleting p = true → objectKey p = req →
  wp P (handleDelete p) s roundEnds.
Proof.
  intros Hq Hd Hk. apply wp_bind.
  apply (wp_mono _ _ _ (λ r s', q_profile s' = Some p ∧ isDeleting r.1 = true ∧ objectKey r.1 = req ∧
    tmp_ResourceGroup r.1 = tmp_ResourceGroup p ∧ wanted r.1 = wanted p ∧ ¬ hasMetrics r.1 ∧
    om_UID (tmp_ObjectMeta r.1) = om_UID (tmp_ObjectMeta p) ∧
    (hasCleanup r.1 ↔ hasCleanup p) ∧ (hasMetrics p → q_metricsGone s' = true) ∧
    (r.2 = false → r.1 = p))).
  { destruct (hasFinalizer p MetricsFinalizer) eqn:Hf.
    - apply wp_bind, wp_call.
      { split; [done|]. split; [|by exists p]. by rewrite <-Hk. }
      intros ? _. apply wp_ret. simpl. split; [done|].
      split; [by rewrite (removeFinalizer_deleting (T := TrafficManagerProfile))|].
      split; [rewrite <-Hk; apply (removeFinalizer_key (T := TrafficManagerProfile))|].
      split; [done|]. split; [done|]. split.
      { unfold hasMetrics. rewrite (removeFinalizer_spec (T := TrafficManagerProfile)). tauto. }
      split; [done|]. split; [|done].
      unfold hasCleanup. rewrite (removeFinalizer_spec (T := TrafficManagerProfile)). naive_solver.
    - apply hasFinalizer_false in Hf. apply wp_ret. simpl. naive_solver. }
  intros [o b] s' (Hq' & Hdo & Hko & Hrg & Hw & Hm & Hu & Hcl & Hmg & Hb). simpl in *.
  destruct (hasFinalizer o _) eqn:Hf.
  2: { apply hasFinalizer_false in Hf. apply (removeProfileFinalizers_wp p); try done.
       by intros ?%Hcl. }
  apply hasFinalizer_spec in Hf. apply wp_bind, wp_call.
  { exists p. split; [done|]. split; [done|]. split; [by apply Hcl|]. split; [done|].
    unfold GenerateAzureTrafficManagerProfileName. by rewrite Hu. }
  intros err _. cbn [next profileProtocol]. destruct (_ && _) eqn:Hfail.
  { apply wp_bind, wp_Event; [done|]. intros ? _. apply wp_ret. intros Hn. simpl in Hn. by subst. }
  apply wp_bind, wp_Event; [done|]. intros ? _.
  assert (match err with None => learnGone s' | Some e => if azureerrors.IsNotFound (Some e) then
    learnGone s' else s' end = learnGone s') as ->.
  { destruct err as [e|]; [|done]. simpl in Hfail. by destruct (azureerrors.IsNotFound (Some e)). }
  apply (removeProfileFinalizers_wp p); try done.
  - unfold hasCleanup. rewrite (removeFinalizer_spec (T := TrafficManagerProfile)). tauto.
  - unfold hasMetrics. rewrite (removeFinalizer_spec (T := TrafficManagerProfile)). tauto.
Qed.


Lemma emitMetric_wp m s Q :
  objectKey m = req → (∃ p, live s p) → Q tt s →
  wp P (emitTrafficManagerProfileStatusMetric m) s Q.
Proof.
  intros Hk Hl HQ. unfold emitTrafficManagerProfileStatusMetric.
  destruct (FindStatusCondition _ _) as [c|]; [|by apply wp_ret].
  destruct (_ =? _)%Z; [|by apply wp_ret]. apply wp_bind, wp_Now; [done|]. intros now _.
  apply wp_call; [|by intros [] _]. split; [done|]. split; [|done]. by rewrite <-Hk.
Qed.

Lemma holds_defaults p s :
  live s p → objectKey p = req → defaulter.admitted p →
  holds (defaulter.SetDefaultsTrafficManagerProfile p) s.
Proof.
  intros Hl Hk Ha. pose proof (wanted_set p Ha) as Hw. split.
  - exact Hk.
  - by rewrite Hw.
  - rewrite Hw. by apply wanted_complete.
  - by exists p.
Qed.

(** C10: a round of the TrafficManagerProfile controller creates or updates the
    Azure profile of its object only with the cleanup finalizer stored, and
    only with a request that is in the shape the object asks for and keeps the
    identity, the endpoints and the foreign tags of the profile Azure has; it
    gives up the finalizer of a deleted object only after Azure no longer has
    the profile, and the one of the metrics only after they are deleted; the
    status says [Programmed] only with the DNS name and the resource id of a
    profile that was just written or is in shape, and otherwise reports the
    class of the error Azure answered. When the round ends without an error,
    no finalizer is left on a deleted object, and a live object is reported as
    programmed. *)
Theorem Reconcile_follows_profile_protocol : wp P (Reconcile req) nothingKnown roundEnds.
Proof.
  apply wp_bind, wp_Get; [done|]. intros [err|p] [Hk Ha]; simpl.
  { by destruct (IsNotFound err); apply wp_ret. }
  simpl in p, Hk, Ha. destruct (isDeleting p) eqn:Hdel; [by apply unprogramProfile_wp|].
  apply wp_bind.
  apply (wp_mono _ _ _ (λ r s', r.1 = None → live s' r.2 ∧ objectKey r.2 = req ∧ defaulter.admitted r.2)).
  { destruct (hasFinalizer p _) eqn:Hf.
    - apply hasFinalizer_spec in Hf. by apply wp_ret.
    - apply wp_Update.
      { exists p. split; [done|].
        split; [rewrite <-Hk; apply (addFinalizer_key (T := TrafficManagerProfile))|].
        split; [done|]. split; [done|].
        split; intros Hx; left; apply (addFinalizer_spec (T := TrafficManagerProfile)); by left. }
      intros [err|o'] [Hsm Hax]; simpl; [done|]. intros _. simpl in o', Hax.
      destruct Hax as (_ & Hmc & Hd' & _), (addFinalizer_stored p o' MetricsFinalizer Hsm) as [Hhas Hk'].
      split; [|split; [by rewrite <-Hk|]].
      + split; [done|]. split; [|done]. by rewrite Hd', (addFinalizer_deleting (T := TrafficManagerProfile)).
      + intros mc Hx. apply Ha. by rewrite <-Hx, Hmc. }
  intros [[err|] m] s Hok; simpl; [by apply wp_ret|]. destruct (Hok eq_refl) as (Hl & Hkm & Had).
  apply wp_bind. eapply wp_mono; [by apply programProfile_wp, holds_defaults|].
  intros [[res err] m'] s' (Hl' & Hk' & Hend). simpl in *.
  apply wp_bind, emitMetric_wp; [done..|]. by apply wp_ret.
Qed.
End safety.

(** ** Runs *)

Module Demo.
Definition name : NamespacedName := {| nn_Namespace := "work"; nn_Name := "app" |}.
Definition header (n v : string) : MonitorConfigCustomHeader := {| mch_Name := n; mch_Value := v |}.
Definition profile : TrafficManagerProfile := {|
  tmp_TypeMeta := {| tm_Kind := "TrafficManagerProfile"; tm_APIVersion := "v1beta1" |};
  tmp_ObjectMeta := newObjectMeta "work" "app"; tmp_ResourceGroup := "rg";
  tmp_MonitorConfig := Some {| mc_IntervalInSeconds := Some 10%Z; mc_Path := Some "/healthz";
    mc_Port := None; mc_Protocol := None;
    mc_CustomHeaders := [header "Host" "contoso.com"; header "Accept" "*"];
    mc_TimeoutInSeconds := None; mc_ToleratedNumberOfFailures := None |};
  tmp_DNSName := None; tmp_ResourceID := ""; tmp_Conditions := [] |}.
Definition world0 : world := {|
  w_member := emptyStore;
  w_hub := storeAlter KTrafficManagerProfile <[name := profile]> emptyStore;
  w_version := 1; w_clock := 0%Z |}.
(** The finalizers, the reported name and the verdict after a round on an Azure
    that answers with [serveAzure]. *)
Definition after (h : ∀ X, eff X → world → X * world)
    : option (list string * option string * option string) :=
  let w := (run h (Reconcile (util := Reference.util) (fleetUtil := Reference.fleetUtil) name) world0).2 in
  (λ p, (tail (finalizersOf p), tmp_DNSName p,
         c_Reason <$> Reference.findCondition (tmp_Conditions p) TrafficManagerProfileConditionProgrammed)) <$>
    w_hub w KTrafficManagerProfile !! name.
(** Azure creates the profile under its DNS name. *)
Definition serveAzure X (e : eff X) : world → X * world :=
  match e in eff X return world → X * world with
  | EProfileCreateOrUpdate _ name p => λ w,
      (inr {| ap_ID := Some "/id"; ap_Name := Some name; ap_Location := ap_Location p;
              ap_Tags := ap_Tags p; ap_Properties := (λ q, {|
                app_DNSConfig := (λ d, {| dns_RelativeName := dns_RelativeName d; dns_TTL := dns_TTL d;
                  dns_Fqdn := (λ n, n +:+ ".trafficmanager.net") <$> dns_RelativeName d |}) <$>
                    app_DNSConfig q;
                app_Endpoints := app_Endpoints q; app_MonitorConfig := app_MonitorConfig q;
                app_ProfileStatus := app_ProfileStatus q;
                app_TrafficRoutingMethod := app_TrafficRoutingMethod q |}) <$> ap_Properties p |}, w)
  | e => serve (λ _ _ _, []) _ e
  end.
(** Azure refuses the DNS name. *)
Definition serveTaken X (e : eff X) : world → X * world :=
  match e in eff X return world → X * world with
  | EProfileCreateOrUpdate _ _ _ => λ w, (inl (ResponseError 409 "conflict"), w)
  | e => serve (λ _ _ _, []) _ e
  end.
(** A profile that someone created by hand: other headers and an endpoint. *)
Definition foreign : AtmProfile := {|
  ap_ID := Some "/id"; ap_Name := Some "fleet-"; ap_Location := Some "global";
  ap_Tags := Some {[ "owner" := Some "team" ]};
  ap_Properties := Some {| app_DNSConfig := None;
    app_Endpoints := [{| ae_ID := None; ae_Name := Some "ep"; ae_Type := None; ae_Properties := None |}];
    app_MonitorConfig := None; app_ProfileStatus := None; app_TrafficRoutingMethod := None |} |}.
End Demo.

Lemma Reconcile_follows_profile_protocol_witness :
  wp (profileProtocol (util := Reference.util) Demo.name)
    (Reconcile (util := Reference.util) (fleetUtil := Reference.fleetUtil) Demo.name)
    nothingKnown (roundEnds (util := Reference.util)) ∧
  Demo.after Demo.serveAzure = Some ([TrafficManagerProfileFinalizer],
    Some "work-app.trafficmanager.net", Some TrafficManagerProfileReasonProgrammed) ∧
  Demo.after Demo.serveTaken = Some ([TrafficManagerProfileFinalizer], None,
    Some TrafficManagerProfileReasonDNSNameNotAvailable).
Proof.
  split; [apply (Reconcile_follows_profile_protocol (laws := Reference.laws)
                   (fleetLaws := Reference.fleetUtil_laws))|].
  vm_compute. split; reflexivity.
Defined.

Lemma programming_converges_witness :
  let p := defaulter.SetDefaultsTrafficManagerProfile Demo.profile in
  wp orderOnly
    ('(equal, request) ← programOnce p Demo.foreign;
     if (equal : bool) then mret None else
     '(again, _) ← programOnce p request; mret (Some (request, again))) tt
    (λ r _, match r with
            | None => programs p Demo.foreign
            | Some (request, again) =>
                requests p request ∧ keeps Demo.foreign request ∧ again = true
            end).
Proof.
  apply (programming_converges Demo.profile Demo.foreign).
  - intros mc [= <-] i [= <-]. by left.
  - by intros q m [= <-].
  - simpl. by repeat constructor; set_solver.
Defined.

End trafficmanagerprofile.
