(* ===== verification/HubMemberCluster.v ===== *)
(** * [pkg/controllers/hub/membercluster]: letting go of a cluster that is gone

    The hub controller that removes the finalizers of the EndpointSliceImports in
    the namespace of a member cluster whose deletion takes too long. *)

From S2P Require Import Prelude Prog Go Api Fleet Azure Effects Deps Conc.
From S2P Require Import Protocols ApiServer.

(** [hubconfig.HubNamespaceNameFormat]. *)
Definition hubNamespace (cluster : string) : string := "fleet-member-" +:+ cluster.

Module membercluster.

Record Reconciler := { ForceDeleteWaitTime : Duration }.

(** [time.Since]. *)
Definition Since (t : Time) : IO Duration := now ← Now; mret (Sub now t).

Definition clearFinalizers (esi : EndpointSliceImport) : EndpointSliceImport :=
  updMeta (setFinalizers []) esi.

(** The goroutine of one EndpointSliceImport. *)
Definition clearImport (esi : EndpointSliceImport) : IO (option error) :=
  '(err, _) ← Update Hub KEndpointSliceImport (clearFinalizers esi);
  mret err.

Definition removeFinalizer (mc : MemberCluster) : IO (Result * option error) :=
  let mcNamespace := hubNamespace (om_Name (mcl_ObjectMeta mc)) in
  got ← List Hub KEndpointSliceImport (InNamespace mcNamespace);
  match got with
  | inl err => mret (emptyResult, Some err)
  | inr items => err ← errgroup (clearImport <$> items); mret (emptyResult, err)
  end.

Definition Reconcile (r : Reconciler) (req : NamespacedName) : IO (Result * option error) :=
  got ← Get Hub KMemberCluster req;
  match got with
  | inl err => if IsNotFound err then mret (emptyResult, None) else mret (emptyResult, Some err)
  | inr mc =>
      match om_DeletionTimestamp (mcl_ObjectMeta mc) with
      | None => mret (emptyResult, None)
      | Some deletedAt =>
          since ← Since deletedAt;
          if (ForceDeleteWaitTime r <=? since)%Z then removeFinalizer mc else
          since ← Since deletedAt;
          mret ({| Requeue := false; RequeueAfter := wrap64 (ForceDeleteWaitTime r - since) |}, None)
      end
  end.

(** The event filter: [true] when the event starts a round. *)
Inductive watchEvent := CreateEvent | DeleteEvent | UpdateEvent (new : MemberCluster) | GenericEvent.
Definition customPredicate (e : watchEvent) : bool :=
  match e with
  | CreateEvent => false
  | DeleteEvent => true
  | UpdateEvent new => isDeleting new
  | GenericEvent => true
  end.

(** ** The protocol of the controller

    What it knows: the MemberCluster, or that there is none; the first and the
    last reading of the clock; the EndpointSliceImports of its namespace, and
    which of them have no finalizer any more. *)
Record knowledge := {
  q_cluster : option MemberCluster;
  q_missing : bool;
  q_first : option Time;
  q_last : option Time;
  q_imports : option (list EndpointSliceImport);
  q_cleared : gset NamespacedName;
}.
Definition nothingKnown : knowledge :=
  {| q_cluster := None; q_missing := false; q_first := None; q_last := None; q_imports := None;
     q_cleared := ∅ |}.
Definition learnCluster (mc : MemberCluster) (s : knowledge) : knowledge :=
  {| q_cluster := Some mc; q_missing := q_missing s; q_first := q_first s; q_last := q_last s;
     q_imports := q_imports s; q_cleared := q_cleared s |}.
Definition learnMissing (s : knowledge) : knowledge :=
  {| q_cluster := q_cluster s; q_missing := true; q_first := q_first s; q_last := q_last s;
     q_imports := q_imports s; q_cleared := q_cleared s |}.
Definition learnClock (t : Time) (s : knowledge) : knowledge :=
  {| q_cluster := q_cluster s; q_missing := q_missing s; q_first := Some (default t (q_first s));
     q_last := Some t; q_imports := q_imports s; q_cleared := q_cleared s |}.
Definition learnImports (l : list EndpointSliceImport) (s : knowledge) : knowledge :=
  {| q_cluster := q_cluster s; q_missing := q_missing s; q_first := q_first s; q_last := q_last s;
     q_imports := Some l; q_cleared := q_cleared s |}.
Definition learnCleared (key : NamespacedName) (s : knowledge) : knowledge :=
  {| q_cluster := q_cluster s; q_missing := q_missing s; q_first := q_first s; q_last := q_last s;
     q_imports := q_imports s; q_cleared := {[key]} ∪ q_cleared s |}.

Section protocol.
Context (r : Reconciler) (req : NamespacedName).

(** The deletion of the cluster had waited long enough at the first reading of
    the clock. *)
Definition overdue (s : knowledge) (mc : MemberCluster) : Prop :=
  q_cluster s = Some mc ∧ ∃ deletedAt now, om_DeletionTimestamp (mcl_ObjectMeta mc) = Some deletedAt ∧
    q_first s = Some now ∧ (ForceDeleteWaitTime r ≤ Sub now deletedAt)%Z.

Definition clusterProtocol : protocol eff knowledge := {|
  allowed X c s :=
    match c with
    | ENow | EGoroutine | EFirst => True
    | EGet Hub KMemberCluster key => key = req
    | EList Hub KEndpointSliceImport opts => ∃ mc, overdue s mc ∧
        opts = InNamespace (hubNamespace (om_Name (mcl_ObjectMeta mc)))
    | EUpdate Hub KEndpointSliceImport o => ∃ mc items esi, overdue s mc ∧ q_imports s = Some items ∧
        esi ∈ items ∧ o = updMeta (setFinalizers []) esi ∧
        om_Namespace (objectMeta o) = hubNamespace (om_Name (mcl_ObjectMeta mc))
    | _ => False
    end;
  answer X c s := λ x, serverAnswer c x;
  next X c :=
    match c in eff X return X → knowledge → knowledge with
    | EGet Hub KMemberCluster key => λ x s, 
        match x with
        | inr mc => learnCluster mc s
        | inl err => if IsNotFound err then learnMissing s else s
        end
    | ENow => learnClock
    | EList Hub KEndpointSliceImport opts => λ x s,
        match x with inr l => learnImports l s | inl _ => s end
    | EUpdate Hub KEndpointSliceImport o => λ x s,
        match x with inr o' => learnCleared (objectKey o') s | inl _ => s end
    | _ => λ _ s, s
    end |}.

(** How a round ends.  The first reading of the clock decides about a cluster
    that is being deleted: when its time is over the round asks for nothing, and
    it has cleared every import it listed unless it reports an error; when it is
    not, the round only asks to be repeated after the time that was left at the
    last reading. *)
Definition roundEnds (x : Result * option error) (s : knowledge) : Prop :=
  match q_cluster s with
  | None => x.1 = emptyResult ∧ (x.2 = None → q_missing s = true)
  | Some mc =>
      match om_DeletionTimestamp (mcl_ObjectMeta mc) with
      | None => x = (emptyResult, None)
      | Some deletedAt => ∃ first, q_first s = Some first ∧
          if (ForceDeleteWaitTime r <=? Sub first deletedAt)%Z
          then x.1 = emptyResult ∧ (x.2 = None → ∃ items, q_imports s = Some items ∧
                 ∀ esi, esi ∈ items → objectKey esi ∈ q_cleared s)
          else ∃ last, q_last s = Some last ∧
                 x = ({| Requeue := false;
                         RequeueAfter := wrap64 (ForceDeleteWaitTime r - Sub last deletedAt) |}, None)
      end
  end.
End protocol.

(** ** Safety *)

Section safety.
Context (r : Reconciler) (req : NamespacedName).
Local Abbreviation P := (clusterProtocol r req).

(** What the goroutines leave alone, and what only grows. *)
Definition grows (s s' : knowledge) : Prop :=
  q_cluster s' = q_cluster s ∧ q_first s' = q_first s ∧ q_imports s' = q_imports s ∧
  q_cleared s ⊆ q_cleared s'.
#[local] Instance grows_preorder : PreOrder grows.
Proof.
  split; [done|]. intros s1 s2 s3 (? & ? & ? & ?) (? & ? & ? & ?).
  repeat split; try congruence. by etrans.
Qed.
Lemma overdue_grows s s' mc : overdue r s mc → grows s s' → overdue r s' mc.
Proof. intros [Hq Ho] (Hq' & Hc & _). split; [by rewrite Hq'|]. by rewrite Hc. Qed.

Lemma clearImport_rg mc items esi s :
  overdue r s mc → q_imports s = Some items → esi ∈ items →
  om_Namespace (objectMeta esi) = hubNamespace (om_Name (mcl_ObjectMeta mc)) →
  rg P grows (clearImport esi) s (λ err s', err = None → objectKey esi ∈ q_cleared s').
Proof.
  intros Ho Hi Hin Hns. apply rg_bind, rg_bind, rg_call. intros s1 Hs1.
  split.
  { exists mc, items, esi. split; [by eapply overdue_grows|].
    split; [destruct Hs1 as (_ & _ & -> & _); done|]. done. }
  intros [err|o'] Ha; (split; [|apply rg_ret, rg_ret]); simpl; [done|done| |].
  - repeat split. set_solver.
  - intros _. apply elem_of_union_l, elem_of_singleton. symmetry.
    exact (sameMeta_key (clearFinalizers esi) o' Ha).
Qed.

(** C31: a round of the MemberCluster controller lists and writes nothing before
    the deletion of the cluster has waited for the configured time, as the clock
    was first read; it then writes only EndpointSliceImports of the namespace of
    the cluster, and only to drop their finalizers, in any interleaving of its
    goroutines.  When the time was over at the first reading, a round that
    reports no error has dropped the finalizers of every import it listed.  When
    it was not, the round asks to be repeated after the configured time less
    the time passed at its last reading of the clock, which is negative when
    the time ran out between the two readings.  A cluster that does not exist
    or is not being deleted is left alone. *)
Theorem Reconcile_follows_force_delete_protocol : wp P (Reconcile r req) nothingKnown (roundEnds r).
Proof.
  apply wp_bind, wp_Get; [done|]. intros [err|mc] _.
  { simpl. by destruct (IsNotFound err); apply wp_ret. }
  simpl in mc |- *. destruct (om_DeletionTimestamp _) as [deletedAt|] eqn:Hdel.
  2: { apply wp_ret. unfold roundEnds. simpl. by rewrite Hdel. }
  apply wp_bind, wp_bind, wp_Now; [done|]. intros now _. apply wp_ret.
  destruct (Z.leb_spec (ForceDeleteWaitTime r) (Sub now deletedAt)) as [Hle|Hlt].
  - assert (overdue r (learnClock now (learnCluster mc nothingKnown)) mc) as Ho.
    { split; [done|]. by exists deletedAt, now. }
    apply wp_bind, wp_List; [by exists mc|]. intros [err|items] Hitems.
    { apply wp_ret. unfold roundEnds. simpl. rewrite Hdel. exists now. split; [done|].
      by rewrite (proj2 (Z.leb_le _ _) Hle). }
    simpl in items, Hitems. apply wp_bind. eapply wp_mono.
    { apply (errgroup_wp P grows) with (Q := λ esi err s', err = None → objectKey esi ∈ q_cleared s').
      - done.
      - done.
      - done.
      - intros esi err s1 s2 Hc (_ & _ & _ & Hsub) Hn. by apply Hsub, Hc.
      - intros esi Hin. apply (clearImport_rg mc items); [done|done|done|].
        destruct (Hitems esi Hin) as [Hns _]. by apply Hns. }
    intros err s' [(Hq & Hf & Hi & _) Hres]. apply wp_ret. unfold roundEnds. simpl in *.
    rewrite Hq, Hdel. exists now. split; [done|]. rewrite (proj2 (Z.leb_le _ _) Hle).
    split; [done|]. intros ->. exists items. split; [done|]. intros esi Hin. by apply Hres.
  - apply wp_bind, wp_bind, wp_Now; [done|]. intros now' _. apply wp_ret, wp_ret.
    unfold roundEnds. simpl. rewrite Hdel. exists now. split; [done|].
    rewrite (proj2 (Z.leb_gt _ _) Hlt). by exists now'.
Qed.
End safety.

(** ** Runs *)

Module Demo.
Definition r : Reconciler := {| ForceDeleteWaitTime := (15 * Minute)%Z |}.
Definition name : NamespacedName := {| nn_Namespace := ""; nn_Name := "bravelion" |}.
Definition cluster : MemberCluster := {| mcl_ObjectMeta := {|
  om_Name := "bravelion"; om_Namespace := ""; om_UID := "uid"; om_ResourceVersion := "1";
  om_Generation := 1; om_CreationTimestamp := None; om_DeletionTimestamp := Some 0%Z;
  om_Labels := None; om_Annotations := None; om_OwnerReferences := []; om_Finalizers := ["x"] |} |}.
Definition world0 : world := {|
  w_member := emptyStore; w_hub := storeAlter KMemberCluster <[name := cluster]> emptyStore;
  w_version := 1; w_clock := (15 * Minute - 1)%Z |}.
(** A clock that moves by two nanoseconds between readings. *)
Definition serveTicking X (e : eff X) : world → X * world :=
  match e in eff X return world → X * world with
  | ENow => λ w, (w_clock w, {| w_member := w_member w; w_hub := w_hub w;
      w_version := w_version w; w_clock := (w_clock w + 2)%Z |})
  | e => serve (λ _ _ _, []) _ e
  end.
End Demo.

(** The clock is read once to decide and again to tell how long to wait: when
    the time runs out in between, the round removes nothing and asks to be
    repeated after a negative time, which controller-runtime takes as no
    request at all. *)
Theorem deadline_between_readings :
  (run Demo.serveTicking (Reconcile Demo.r Demo.name) Demo.world0).1 =
    Done ({| Requeue := false; RequeueAfter := (-1)%Z |}, None).
Proof. vm_compute. reflexivity. Qed.

End membercluster.
