(* ===== verification/TrafficManagerBackendController.v ===== *)
(** * [pkg/controllers/hub/trafficmanagerbackend]: endpoints of a Traffic Manager
    profile

    The hub controller that turns the Services exported behind a ServiceImport
    into weighted endpoints of an Azure Traffic Manager profile. *)

From S2P Require Import Prelude Prog Go Float64 Api Fleet Azure Effects Deps Conc.
From S2P Require Import Protocols ApiServer Conditions ObjectMeta AzureErrors Defaulter.
From S2P Require Import TrafficManagerProfileController.

(** What a Go implementation makes of [int64(x)] when [x] does not fit. *)
Class FloatConversion := { outOfRange : float64 → Z }.

Module trafficmanagerbackend.
Import trafficmanagerprofile (GenerateAzureTrafficManagerProfileName).

Definition trafficManagerBackendProfileFieldKey := ".spec.profile.name".
Definition trafficManagerBackendBackendFieldKey := ".spec.backend.name".
Definition exportedServiceFieldNamespacedName := ".spec.serviceReference.namespacedName".
Definition backendEventReasonAzureAPIError := "AzureAPIError".
Definition backendEventReasonAccepted := "Accepted".
Definition backendEventReasonDeleted := "Deleted".
Definition trafficManagerBackendStatusLastTimestampSeconds :=
  "traffic_manager_backend_status_last_timestamp_seconds".

(** ** Endpoints *)

Definition endpointNamePrefix (backend : TrafficManagerBackend) : string :=
  "fleet-" +:+ om_UID (tmb_ObjectMeta backend) +:+ "#".
Definition isEndpointOwnedByBackend (backend : TrafficManagerBackend) (endpoint : string) : bool :=
  HasPrefix endpoint (endpointNamePrefix backend).
Definition endpointName (backend : TrafficManagerBackend) (cluster : string) : string :=
  endpointNamePrefix backend +:+ tmb_Backend backend +:+ "#" +:+ cluster.

Record desiredEndpoint := {
  de_Endpoint : AtmEndpoint;
  de_FromCluster : FromCluster;
}.

Definition isValidTrafficManagerEndpoint (export : InternalServiceExport) : option error :=
  let spec := ise_Spec export in
  if negb (bool_decide (ise_Type spec = ServiceTypeLoadBalancer))
  then Some (ErrorString ("unsupported service type " +:+ Quote (ise_Type spec)))
  else if ise_IsInternalLoadBalancer spec
  then Some (ErrorString "internal load balancer is not supported")
  else if bool_decide (ise_PublicIPResourceID spec = None)
  then Some (ErrorString "in the processing of configuring public IP")
  else if negb (ise_IsDNSLabelConfigured spec)
  then Some (ErrorString "DNS label is not configured to the public IP")
  else None.

Definition clusterOf (export : InternalServiceExport) : string :=
  ref_ClusterID (ise_ServiceReference (ise_Spec export)).
(** The weight of an export; older objects have none. *)
Definition weightOf (export : InternalServiceExport) : Z := default 1%Z (ise_Weight (ise_Spec export)).

Definition azureEndpointType := "Microsoft.Network/trafficManagerProfiles/" +:+ EndpointTypeAzureEndpoints.
Definition generateAzureTrafficManagerEndpoint (backend : TrafficManagerBackend)
    (serviceExport : InternalServiceExport) : AtmEndpoint := {|
  ae_ID := None;
  ae_Name := Some (endpointName backend (clusterOf serviceExport));
  ae_Type := Some azureEndpointType;
  ae_Properties := Some {|
    aep_TargetResourceID := ise_PublicIPResourceID (ise_Spec serviceExport);
    aep_EndpointStatus := Some EndpointStatusEnabled;
    aep_Weight := Some (weightOf serviceExport);
    aep_Target := None |} |}.

Definition buildAcceptedEndpointStatus (endpoint : AtmEndpoint) (desired : desiredEndpoint)
    : IO TrafficManagerEndpointStatus :=
  name ← derefPtr (ae_Name endpoint);
  properties ← derefPtr (ae_Properties endpoint);
  mret {| tes_Name := ToLower name;
          tes_Target := aep_Target properties;
          tes_Weight := aep_Weight properties;
          tes_From := Some (de_FromCluster desired);
          tes_ResourceID := default "" (ae_ID endpoint) |}.

(** [&&] and [||] whose right operand dereferences pointers. *)
Definition equalAzureTrafficManagerEndpoint (current desired : AtmEndpoint) : IO bool :=
  differentType ←
    match ae_Type current with
    | None => mret true
    | Some t => t' ← derefPtr (ae_Type desired); mret (negb (EqualFold t t'))
    end;
  if (differentType : bool) then mret false else
  match ae_Properties current with
  | None => mret false
  | Some p =>
      match aep_TargetResourceID p, aep_Weight p, aep_EndpointStatus p with
      | Some id, Some weight, Some status =>
          p' ← derefPtr (ae_Properties desired);
          id' ← derefPtr (aep_TargetResourceID p');
          if negb (EqualFold id id') then mret false else
          weight' ← derefPtr (aep_Weight p');
          if negb (weight =? weight')%Z then mret false else
          status' ← derefPtr (aep_EndpointStatus p');
          mret (bool_decide (status = status'))
      | _, _, _ => mret false
      end
  end.

(** ** From exports to desired endpoints *)

(** [internalServiceExportMap]. *)
Definition exportsByCluster (items : list InternalServiceExport) : gmap string InternalServiceExport :=
  foldl (λ m e, <[clusterOf e := e]> m) ∅ items.

(** [desiredEndpoints], [invalidServices] and [totalWeight]. *)
Record collected := {
  col_desired : gmap string desiredEndpoint;
  col_invalid : gmap string error;
  col_total : Z;
}.
Definition nothingCollected : collected :=
  {| col_desired := ∅; col_invalid := ∅; col_total := 0%Z |}.

(** The loop over the clusters of the ServiceImport; [inl] is the cluster whose
    export is missing. *)
Fixpoint collectEndpoints (backend : TrafficManagerBackend) (exports : gmap string InternalServiceExport)
    (clusters : list ClusterStatus) (acc : collected) : string + collected :=
  match clusters with
  | [] => inr acc
  | clusterStatus :: clusters =>
      let cluster := cs_Cluster clusterStatus in
      match exports !! cluster with
      | None => inl cluster
      | Some export =>
          match isValidTrafficManagerEndpoint export with
          | Some err => collectEndpoints backend exports clusters {|
              col_desired := col_desired acc;
              col_invalid := <[cluster := err]> (col_invalid acc);
              col_total := col_total acc |}
          | None =>
              let endpoint := generateAzureTrafficManagerEndpoint backend export in
              collectEndpoints backend exports clusters {|
                col_desired := <[endpointName backend (clusterOf export) := {|
                  de_Endpoint := endpoint;
                  de_FromCluster := {| fc_Cluster := cluster; fc_Weight := Some (weightOf export) |} |}]>
                  (col_desired acc);
                col_invalid := col_invalid acc;
                col_total := wrap64 (col_total acc + weightOf export) |}
          end
      end
  end.

(** The share of the weight of the backend, rounded up. *)
Definition desiredWeight `{FloatConversion} (backendWeight weight total : Z) : Z :=
  let share := Ceil (div (ofInt (wrap64 (backendWeight * weight))) (ofInt total)) in
  toInt64 (outOfRange share) share.

Definition setEndpointWeight (w : Z) (e : AtmEndpoint) : AtmEndpoint := {|
  ae_ID := ae_ID e; ae_Name := ae_Name e; ae_Type := ae_Type e;
  ae_Properties := (λ p, {| aep_TargetResourceID := aep_TargetResourceID p;
    aep_EndpointStatus := aep_EndpointStatus p; aep_Weight := Some w;
    aep_Target := aep_Target p |}) <$> ae_Properties e |}.
Definition endpointWeight (e : AtmEndpoint) : Z :=
  default 0%Z (ae_Properties e ≫= aep_Weight).
(** The loop that replaces the weights; every endpoint has properties and a
    weight. *)
Definition assignWeights `{FloatConversion} (backendWeight total : Z)
    (desired : gmap string desiredEndpoint) : gmap string desiredEndpoint :=
  (λ d, {| de_Endpoint := setEndpointWeight
             (desiredWeight backendWeight (endpointWeight (de_Endpoint d)) total) (de_Endpoint d);
           de_FromCluster := de_FromCluster d |}) <$> desired.

(** ** Operations *)

Section controller.
Context {util : ControllerUtil} {fleetUtil : FleetUtil} {fleetCond : FleetCondition}
  {conv : FloatConversion}.

Definition acceptedCondition (backend : TrafficManagerBackend) (status reason message : string)
    : Condition := {|
  c_Type := TrafficManagerBackendConditionAccepted; c_Status := status;
  c_ObservedGeneration := om_Generation (tmb_ObjectMeta backend); c_LastTransitionTime := None;
  c_Reason := reason; c_Message := message |}.
Definition setStatus (backend : TrafficManagerBackend) (es : list TrafficManagerEndpointStatus)
    (cond : Condition) : IO TrafficManagerBackend :=
  cs ← SetStatusCondition (tmb_Conditions backend) cond;
  mret (setBackendStatus es cs backend).

Definition setFalseCondition (backend : TrafficManagerBackend)
    (acceptedEndpoints : list TrafficManagerEndpointStatus) (message : string)
    : IO TrafficManagerBackend :=
  setStatus backend acceptedEndpoints
    (acceptedCondition backend ConditionFalse TrafficManagerBackendReasonInvalid message).
Definition setUnknownCondition (backend : TrafficManagerBackend) (message : string)
    : IO TrafficManagerBackend :=
  setStatus backend []
    (acceptedCondition backend ConditionUnknown TrafficManagerBackendReasonPending message).
Definition setTrueCondition (backend : TrafficManagerBackend)
    (acceptedEndpoints : list TrafficManagerEndpointStatus) : IO TrafficManagerBackend :=
  setStatus backend acceptedEndpoints
    (acceptedCondition backend ConditionTrue TrafficManagerBackendReasonAccepted
       (pretty (length acceptedEndpoints) +:+
        " service(s) exported from clusters have been accepted as Traffic Manager endpoints")).

Definition updateTrafficManagerBackendStatus (backend : TrafficManagerBackend)
    : IO (option error * TrafficManagerBackend) :=
  '(err, backend) ← StatusUpdate Hub KTrafficManagerBackend backend;
  mret (match err with Some err => NewUpdateIgnoreConflictError err | None => None end, backend).

(** The unknown condition is stored and [err] returned to repeat the round. *)
Definition reportUnknown (backend : TrafficManagerBackend) (message : string) (err : error)
    : IO (option error * TrafficManagerBackend) :=
  backend ← setUnknownCondition backend message;
  '(updateErr, backend) ← updateTrafficManagerBackendStatus backend;
  match updateErr with
  | Some updateErr => mret (Some updateErr, backend)
  | None => mret (Some err, backend)
  end.

(** *** Deleting endpoints *)

(** The goroutine of one endpoint. *)
Definition deleteEndpoint (resourceGroup atmProfileName name : string) : IO (option error) :=
  err ← call (EEndpointDelete resourceGroup atmProfileName name);
  match err with
  | Some err => if azureerrors.IsNotFound (Some err) then mret None else mret (Some err)
  | None => mret None
  end.

(** The endpoints of the profile that are deleted for the backend. *)
Definition ownedEndpoints (backend : TrafficManagerBackend) (endpoints : list AtmEndpoint) : list string :=
  omap (λ e,
    match ae_Name e with
    | None => None
    | Some name => if isEndpointOwnedByBackend backend name then Some name else None
    end) endpoints.

Definition cleanupEndpoints (resourceGroup : string) (backend : TrafficManagerBackend)
    (atmProfile : AtmProfile) : IO (option error) :=
  match ap_Properties atmProfile with
  | None => mret None
  | Some properties =>
      atmProfileName ← derefPtr (ap_Name atmProfile);
      errgroup (deleteEndpoint resourceGroup atmProfileName <$>
                ownedEndpoints backend (app_Endpoints properties))
  end.

Definition profileKey (backend : TrafficManagerBackend) : NamespacedName :=
  {| nn_Namespace := om_Namespace (tmb_ObjectMeta backend); nn_Name := tmb_Profile backend |}.
Definition importKey (backend : TrafficManagerBackend) : NamespacedName :=
  {| nn_Namespace := om_Namespace (tmb_ObjectMeta backend); nn_Name := tmb_Backend backend |}.

Definition deleteAzureTrafficManagerEndpoints (backend : TrafficManagerBackend) : IO (option error) :=
  got ← Get Hub KTrafficManagerProfile (profileKey backend);
  match got with
  | inl err => if IsNotFound err then mret None else mret (NewAPIServerError true err)
  | inr profile =>
      let atmProfileName := GenerateAzureTrafficManagerProfileName profile in
      getRes ← call (EProfileGet (tmp_ResourceGroup profile) atmProfileName);
      match getRes with
      | inl getErr => if azureerrors.IsNotFound (Some getErr) then mret None else mret (Some getErr)
      | inr atmProfile => cleanupEndpoints (tmp_ResourceGroup profile) backend atmProfile
      end
  end.

Definition removeBackendFinalizers (backend : TrafficManagerBackend) (needUpdate : bool)
    : IO (Result * option error) :=
  if negb needUpdate then mret (emptyResult, None) else
  '(err, _) ← Update Hub KTrafficManagerBackend backend;
  match err with
  | Some err => mret (emptyResult, NewUpdateIgnoreConflictError err)
  | None => mret (emptyResult, None)
  end.

Definition handleDelete (backend : TrafficManagerBackend) : IO (Result * option error) :=
  '(backend, needUpdate) ←
    (if hasFinalizer backend MetricsFinalizer
     then
       call (EMetricDelete trafficManagerBackendStatusLastTimestampSeconds
         [("namespace", om_Namespace (tmb_ObjectMeta backend));
          ("name", om_Name (tmb_ObjectMeta backend))]);;
       mret (removeFinalizer backend MetricsFinalizer, true)
     else mret (backend, false));
  if hasFinalizer backend TrafficManagerBackendFinalizer
  then
    err ← deleteAzureTrafficManagerEndpoints backend;
    match err with
    | Some err =>
        Event EventTypeWarning backendEventReasonAzureAPIError
          ("Failed to delete Azure Traffic Manager endpoints: " +:+ errorString err);;
        mret (emptyResult, Some err)
    | None =>
        Event EventTypeNormal backendEventReasonDeleted "Deleted Azure Traffic Manager endpoints";;
        removeBackendFinalizers (removeFinalizer backend TrafficManagerBackendFinalizer) true
    end
  else removeBackendFinalizers backend needUpdate.

(** *** Validation *)

(** A validation returns the object it found, or nil with the error of the
    round; and the backend, whose status it may have written. *)
Definition validateTrafficManagerProfile (backend : TrafficManagerBackend)
    : IO (option TrafficManagerProfile * option error * TrafficManagerBackend) :=
  got ← Get Hub KTrafficManagerProfile (profileKey backend);
  match got with
  | inl err =>
      if IsNotFound err
      then
        backend ← setFalseCondition backend []
          ("TrafficManagerProfile " +:+ Quote (tmb_Profile backend) +:+ " is not found");
        '(err, backend) ← updateTrafficManagerBackendStatus backend;
        mret (None, err, backend)
      else
        '(err, backend) ← reportUnknown backend
           ("Failed to get the trafficManagerProfile " +:+ Quote (tmb_Profile backend) +:+ ": " +:+
            errorString err) err;
        mret (None, err, backend)
  | inr profile =>
      let programmed := FindStatusCondition (tmp_Conditions profile)
        TrafficManagerProfileConditionProgrammed in
      let generation := om_Generation (tmp_ObjectMeta profile) in
      if IsConditionStatusTrue programmed generation then mret (Some profile, None, backend) else
      backend ←
        (if IsConditionStatusFalse programmed generation
         then setFalseCondition backend [] ("Invalid trafficManagerProfile " +:+
           Quote (tmb_Profile backend) +:+ ", please check the trafficManagerProfile status")
         else setUnknownCondition backend
           ("In the processing of trafficManagerProfile " +:+ Quote (tmb_Profile backend)));
      '(err, backend) ← updateTrafficManagerBackendStatus backend;
      mret (None, err, backend)
  end.

Definition validateAzureTrafficManagerProfile (backend : TrafficManagerBackend)
    (profile : TrafficManagerProfile) : IO (option AtmProfile * option error * TrafficManagerBackend) :=
  let atmProfileName := GenerateAzureTrafficManagerProfileName profile in
  let rg := tmp_ResourceGroup profile in
  getRes ← call (EProfileGet rg atmProfileName);
  match getRes with
  | inr atmProfile => mret (Some atmProfile, None, backend)
  | inl getErr =>
      Event EventTypeWarning backendEventReasonAzureAPIError
        ("Failed to get Azure Traffic Manager profile " +:+ Quote atmProfileName +:+ " under " +:+
         Quote rg +:+ ": " +:+ errorString getErr);;
      if azureerrors.IsNotFound (Some getErr)
      then
        backend ← setFalseCondition backend []
          ("Azure Traffic Manager profile " +:+ Quote atmProfileName +:+ " under " +:+ Quote rg +:+
           " is not found");
        '(err, backend) ← updateTrafficManagerBackendStatus backend;
        mret (None, err, backend)
      else
        '(err, backend) ← reportUnknown backend
           ("Failed to get the Azure Traffic Manager profile " +:+ Quote atmProfileName +:+
            " under " +:+ Quote rg +:+ ": " +:+ errorString getErr) getErr;
        mret (None, err, backend)
  end.

Definition validateServiceImportAndCleanupEndpointsIfInvalid (resourceGroup : string)
    (backend : TrafficManagerBackend) (azureProfile : AtmProfile)
    : IO (option ServiceImport * option error * TrafficManagerBackend) :=
  got ← Get Hub KServiceImport (importKey backend);
  match got with
  | inr serviceImport => mret (Some serviceImport, None, backend)
  | inl err =>
      if IsNotFound err
      then
        cleanupErr ← cleanupEndpoints resourceGroup backend azureProfile;
        match cleanupErr with
        | Some err =>
            Event EventTypeWarning backendEventReasonAzureAPIError
              ("Failed to delete stale endpoints for an invalid serviceImport: " +:+ errorString err);;
            mret (None, Some err, backend)
        | None =>
            backend ← setStatus backend []
              (acceptedCondition backend ConditionFalse TrafficManagerBackendReasonInvalid
                 ("ServiceImport " +:+ Quote (tmb_Backend backend) +:+ " is not found"));
            '(err, backend) ← updateTrafficManagerBackendStatus backend;
            mret (None, err, backend)
        end
      else
        '(err, backend) ← reportUnknown backend
           ("Failed to get the serviceImport " +:+ Quote (tmb_Profile backend) +:+ ": " +:+
            errorString err) err;
        mret (None, err, backend)
  end.


Definition importName (serviceImport : ServiceImport) : string :=
  NamespacedName_String (objectKey serviceImport).

(** [None] for the maps is nil. *)
Definition validateAndProcessServiceImportForBackend (backend : TrafficManagerBackend)
    (serviceImport : ServiceImport)
    : IO (option (gmap string desiredEndpoint * gmap string error) * option error *
          TrafficManagerBackend) :=
  let clusters := sis_Clusters (si_Status serviceImport) in
  if decide (clusters = [])
  then
    backend ← setUnknownCondition backend "In the process of exporting the services";
    '(err, backend) ← updateTrafficManagerBackendStatus backend;
    mret (None, err, backend)
  else
    got ← List Hub KInternalServiceExport
      (MatchingFields [(exportedServiceFieldNamespacedName, importName serviceImport)]);
    match got with
    | inl listErr =>
        '(err, backend) ← reportUnknown backend
           ("Failed to list the exported service " +:+ Quote (importName serviceImport) +:+ ": " +:+
            errorString listErr) listErr;
        mret (None, err, backend)
    | inr items =>
        match collectEndpoints backend (exportsByCluster items) clusters nothingCollected with
        | inl cluster =>
            backend ← setUnknownCondition backend
              ("Failed to find the exported service " +:+ Quote (importName serviceImport) +:+
               " for " +:+ Quote cluster +:+ ": failed to find the internalServiceExport for the cluster " +:+
               Quote cluster);
            '(err, backend) ← updateTrafficManagerBackendStatus backend;
            mret (None, err, backend)
        | inr col =>
            if decide (col_desired col = ∅) then mret (Some (∅, col_invalid col), None, backend) else
            weight ← derefPtr (tmb_Weight backend);
            mret (Some (assignWeights weight (col_total col) (col_desired col), col_invalid col),
                  None, backend)
        end
    end.

(** *** Updating the endpoints *)

(** A round of the first loop, over the endpoints that the profile has: [inl]
    leaves the function with an error. *)
Definition reviewEndpoint (resourceGroup : string) (backend : TrafficManagerBackend)
    (profile : AtmProfile) (endpoint : AtmEndpoint)
    (st : gmap string desiredEndpoint * list TrafficManagerEndpointStatus)
    : IO (option error * TrafficManagerBackend +
          gmap string desiredEndpoint * list TrafficManagerEndpointStatus) :=
  let '(desiredEndpoints, accepted) := st in
  match ae_Name endpoint with
  | None => mret (inr st)
  | Some name =>
      let lowerName := ToLower name in
      if negb (isEndpointOwnedByBackend backend lowerName) then mret (inr st) else
      match desiredEndpoints !! lowerName with
      | None =>
          profileName ← derefPtr (ap_Name profile);
          deleteErr ← call (EEndpointDelete resourceGroup profileName name);
          match deleteErr with
          | Some err =>
              if azureerrors.IsNotFound (Some err) then mret (inr st) else
              Event EventTypeWarning backendEventReasonAzureAPIError
                ("Failed to delete Azure Traffic Manager endpoint " +:+ Quote lowerName +:+ ": " +:+
                 errorString err);;
              failed ← reportUnknown backend
                ("Failed to cleanup the existing " +:+ Quote lowerName +:+ " for " +:+
                 Quote profileName +:+ ": " +:+ errorString err) err;
              mret (inl failed)
          | None => mret (inr st)
          end
      | Some desired =>
          equal ← equalAzureTrafficManagerEndpoint endpoint (de_Endpoint desired);
          if (equal : bool)
          then
            status ← buildAcceptedEndpointStatus endpoint desired;
            mret (inr (delete lowerName desiredEndpoints, accepted ++ [status]))
          else mret (inr st)
      end
  end.

(** A round of the second loop, over the endpoints that are to be written. *)
Definition programEndpoint (resourceGroup : string) (backend : TrafficManagerBackend)
    (profile : AtmProfile) (entry : string * desiredEndpoint)
    (st : list TrafficManagerEndpointStatus * list error)
    : IO (option error * TrafficManagerBackend + list TrafficManagerEndpointStatus * list error) :=
  let '(accepted, bad) := st in
  let desired := snd entry in
  name ← derefPtr (ae_Name (de_Endpoint desired));
  profileName ← derefPtr (ap_Name profile);
  res ← call (EEndpointCreateOrUpdate resourceGroup profileName name (de_Endpoint desired));
  match res with
  | inl err =>
      Event EventTypeWarning backendEventReasonAzureAPIError
        ("Failed to create or update Azure Traffic Manager endpoint " +:+ Quote name +:+ ": " +:+
         errorString err);;
      match asResponseError err with
      | None => mret (inl (Some err, backend))
      | Some _ =>
          if azureerrors.IsClientError (Some err) && negb (azureerrors.IsThrottled (Some err))
          then mret (inr (accepted, bad ++ [err]))
          else
            failed ← reportUnknown backend
              ("Failed to create or update " +:+ Quote name +:+ " for " +:+ Quote profileName +:+
               ": " +:+ errorString err) err;
            mret (inl failed)
      end
  | inr endpoint =>
      Event EventTypeNormal backendEventReasonAccepted
        ("Successfully created or updated Azure Traffic Manager endpoint " +:+ Quote name);;
      status ← buildAcceptedEndpointStatus endpoint desired;
      mret (inr (accepted ++ [status], bad))
  end.

Definition updateTrafficManagerEndpointsAndUpdateStatusIfUnknown (resourceGroup : string)
    (backend : TrafficManagerBackend) (profile : AtmProfile)
    (desiredEndpoints : gmap string desiredEndpoint)
    : IO (option error * TrafficManagerBackend + list TrafficManagerEndpointStatus * list error) :=
  properties ← derefPtr (ap_Properties profile);
  reviewed ← for_range (reviewEndpoint resourceGroup backend profile) (app_Endpoints properties)
    (desiredEndpoints, []);
  match reviewed with
  | inl failed => mret (inl failed)
  | inr (desiredEndpoints, accepted) =>
      entries ← rangeMap desiredEndpoints;
      for_range (programEndpoint resourceGroup backend profile) entries (accepted, [])
  end.

(** [errors.Join]. *)
Definition Join (errs : list error) : option error :=
  match errs with [] => None | _ => Some (JoinError errs) end.

(** The message of the false condition. *)
Definition invalidMessage (bad : list error) (invalid : gmap string error) : IO string :=
  let message :=
    match bad with
    | [] => ""
    | err :: _ => pretty (length bad) +:+
        " endpoint(s) failed to be created/updated in the Azure Traffic Manager, for example, " +:+
        errorString err +:+ "; "
    end in
  entries ← rangeMap invalid;
  match entries with
  | [] => mret message
  | (clusterID, err) :: _ => mret (message +:+ pretty (length entries) +:+
      " service(s) exported from clusters cannot be exposed as the Azure Traffic Manager, for example, service exported from "
      +:+ clusterID +:+ " is invalid: " +:+ errorString err)
  end.

(** The end of [handleUpdate]: the finalizer, the endpoints and the status. *)
Definition exposeServices (backend : TrafficManagerBackend) (resourceGroup : string)
    (atmProfile : AtmProfile) (desired : gmap string desiredEndpoint) (invalid : gmap string error)
    : IO (Result * option error * TrafficManagerBackend) :=
  '(err, backend) ←
    (if hasFinalizer backend TrafficManagerBackendFinalizer then mret (None, backend)
     else Update Hub KTrafficManagerBackend (addFinalizer backend TrafficManagerBackendFinalizer));
  match err with
  | Some err => mret (emptyResult, NewUpdateIgnoreConflictError err, backend)
  | None =>
      updated ← updateTrafficManagerEndpointsAndUpdateStatusIfUnknown resourceGroup backend
                  atmProfile desired;
      match updated with
      | inl (err, backend) => mret (emptyResult, err, backend)
      | inr (accepted, bad) =>
          backend ←
            (if bool_decide (size invalid = 0 ∧ bad = []) then setTrueCondition backend accepted
             else message ← invalidMessage bad invalid; setFalseCondition backend accepted message);
          '(err, backend) ← updateTrafficManagerBackendStatus backend;
          match err with
          | Some err => mret (emptyResult, Some err, backend)
          | None => mret (emptyResult, Join bad, backend)
          end
      end
  end.

Definition removeEndpoints (backend : TrafficManagerBackend) (resourceGroup : string)
    (atmProfile : AtmProfile) : IO (Result * option error * TrafficManagerBackend) :=
  err ← cleanupEndpoints resourceGroup backend atmProfile;
  match err with
  | Some err =>
      Event EventTypeWarning backendEventReasonAzureAPIError
        ("Failed to delete Azure Traffic Manager endpoints: " +:+ errorString err);;
      mret (emptyResult, Some err, backend)
  | None =>
      Event EventTypeNormal backendEventReasonAccepted
        "Successfully removed all endpoints from Azure Traffic Manager due to zero weight";;
      backend ← setTrueCondition backend [];
      '(err, backend) ← updateTrafficManagerBackendStatus backend;
      mret (emptyResult, err, backend)
  end.

Definition handleUpdate (backend : TrafficManagerBackend)
    : IO (Result * option error * TrafficManagerBackend) :=
  '(profile, err, backend) ← validateTrafficManagerProfile backend;
  match err, profile with
  | None, Some profile =>
      '(atmProfile, err, backend) ← validateAzureTrafficManagerProfile backend profile;
      match err, atmProfile with
      | None, Some atmProfile =>
          '(serviceImport, err, backend) ← validateServiceImportAndCleanupEndpointsIfInvalid
             (tmp_ResourceGroup profile) backend atmProfile;
          match err, serviceImport with
          | None, Some serviceImport =>
              weight ← derefPtr (tmb_Weight backend);
              if (weight =? 0)%Z
              then removeEndpoints backend (tmp_ResourceGroup profile) atmProfile
              else
                '(maps, err, backend) ← validateAndProcessServiceImportForBackend backend serviceImport;
                match err, maps with
                | None, Some (desired, invalid) =>
                    exposeServices backend (tmp_ResourceGroup profile) atmProfile desired invalid
                | err, _ => mret (emptyResult, err, backend)
                end
          | err, _ => mret (emptyResult, err, backend)
          end
      | err, _ => mret (emptyResult, err, backend)
      end
  | err, _ => mret (emptyResult, err, backend)
  end.

Definition emitTrafficManagerBackendStatusMetric (backend : TrafficManagerBackend) : IO unit :=
  let m := tmb_ObjectMeta backend in
  match FindStatusCondition (tmb_Conditions backend) TrafficManagerBackendConditionAccepted with
  | Some cond =>
      if (c_ObservedGeneration cond =? om_Generation m)%Z
      then
        now ← Now;
        call (EMetric trafficManagerBackendStatusLastTimestampSeconds
          [om_Namespace m; om_Name m; FormatInt (om_Generation m);
           TrafficManagerBackendConditionAccepted; c_Status cond; c_Reason cond] now)
      else mret tt
  | None => mret tt
  end.

Definition Reconcile (req : NamespacedName) : IO (Result * option error) :=
  got ← Get Hub KTrafficManagerBackend req;
  match got with
  | inl err => if IsNotFound err then mret (emptyResult, None)
               else mret (emptyResult, NewAPIServerError true err)
  | inr backend =>
      if isDeleting (backend : TrafficManagerBackend) then handleDelete backend else
      '(err, backend) ←
        (if hasFinalizer (backend : TrafficManagerBackend) MetricsFinalizer then mret (None, backend)
         else Update Hub KTrafficManagerBackend
                (addFinalizer (backend : TrafficManagerBackend) MetricsFinalizer));
      match err with
      | Some err => mret (emptyResult, Some err)
      | None =>
          '(result, err, backend) ←
            handleUpdate (defaulter.SetDefaultsTrafficManagerBackend backend);
          emitTrafficManagerBackendStatusMetric backend;;
          mret (result, err)
      end
  end.
End controller.


(** ** Events *)

Section events.
Context {util : ControllerUtil} {fleetCond : FleetCondition}.

Definition shouldHandleTrafficManagerProfileUpdateEvent (old new : TrafficManagerProfile) : bool :=
  let find p := FindStatusCondition (tmp_Conditions p) TrafficManagerProfileConditionProgrammed in
  negb (fleetEqualConditionIgnoreReason (find old) (find new)).
Definition shouldHandleServiceImportUpateEvent (old new : ServiceImport) : bool :=
  negb (bool_decide (sis_Clusters (si_Status old) = sis_Clusters (si_Status new))).
Definition shouldHandleInternalServiceExportUpdateEvent (old new : InternalServiceExport) : bool :=
  let o := ise_Spec old in let n := ise_Spec new in
  negb (bool_decide (ise_Type o = ise_Type n)) ||
  negb (bool_decide (ise_IsDNSLabelConfigured o = ise_IsDNSLabelConfigured n)) ||
  negb (bool_decide (ise_IsInternalLoadBalancer o = ise_IsInternalLoadBalancer n)) ||
  negb (bool_decide (ise_PublicIPResourceID o = ise_PublicIPResourceID n)) ||
  negb (bool_decide (ise_Weight o = ise_Weight n)).

(** The requests an event adds to the queue. *)
Definition backendsIn (namespace field value : string) : ListOptions :=
  {| lo_Namespace := Some namespace; lo_Fields := [(field, value)]; lo_Labels := [] |}.
Definition requestsOf (got : error + list TrafficManagerBackend) : list NamespacedName :=
  match got with inl _ => [] | inr items => objectKey <$> items end.
Definition handleTrafficManagerProfileEvent (profile : TrafficManagerProfile) : IO (list NamespacedName) :=
  got ← List Hub KTrafficManagerBackend (backendsIn (om_Namespace (tmp_ObjectMeta profile))
    trafficManagerBackendProfileFieldKey (om_Name (tmp_ObjectMeta profile)));
  mret (requestsOf got).
Definition handleServiceImportEvent (serviceImport : ServiceImport) : IO (list NamespacedName) :=
  got ← List Hub KTrafficManagerBackend (backendsIn (om_Namespace (si_ObjectMeta serviceImport))
    trafficManagerBackendBackendFieldKey (om_Name (si_ObjectMeta serviceImport)));
  mret (requestsOf got).
Definition handleInternalServiceExportEvent (export : InternalServiceExport) : IO (list NamespacedName) :=
  let ref := ise_ServiceReference (ise_Spec export) in
  got ← Get Hub KServiceImport {| nn_Namespace := ref_Namespace ref; nn_Name := ref_Name ref |};
  match got with
  | inl _ => mret []
  | inr serviceImport =>
      requests ← for_range (R := Empty_set) (λ cs requests,
          if bool_decide (cs_Cluster cs = ref_ClusterID ref)
          then more ← handleServiceImportEvent serviceImport; mret (inr (requests ++ more))
          else mret (inr requests))
        (sis_Clusters (si_Status serviceImport)) [];
      mret (match requests with inl e => Empty_set_rect (λ _, list NamespacedName) e | inr requests => requests end)
  end.
End events.

(** An update of an export that starts no round changes neither the validity of
    the export nor the endpoint that is made of it. *)
Lemma skipped_export_update old new :
  clusterOf new = clusterOf old → shouldHandleInternalServiceExportUpdateEvent old new = false →
  isValidTrafficManagerEndpoint new = isValidTrafficManagerEndpoint old ∧
  weightOf new = weightOf old ∧
  ∀ backend, generateAzureTrafficManagerEndpoint backend new =
    generateAzureTrafficManagerEndpoint backend old.
Proof.
  unfold shouldHandleInternalServiceExportUpdateEvent.
  rewrite !orb_false_iff, !negb_false_iff, !bool_decide_eq_true.
  intros Hc ((((Ht & Hd) & Hi) & Hp) & Hw).
  assert (weightOf new = weightOf old) as Hwo by (unfold weightOf; by rewrite Hw).
  split; [unfold isValidTrafficManagerEndpoint; by rewrite Ht, Hd, Hi, Hp|]. split; [done|].
  intros backend. unfold generateAzureTrafficManagerEndpoint. by rewrite Hc, Hp, Hwo.
Qed.

(** ** The protocol of the controller

    What it knows: the stored backend; the TrafficManagerProfile, the Azure
    profile and the ServiceImport, [Some None] when there is none; the exports;
    the endpoints that are deleted; the endpoints as Azure answered them; whether
    Azure refused one; whether the metrics are gone. *)
Record knowledge := {
  q_backend : option TrafficManagerBackend;
  q_profile : option (option TrafficManagerProfile);
  q_atm : option (option AtmProfile);
  q_import : option (option ServiceImport);
  q_exports : option (list InternalServiceExport);
  q_deleted : gset string;
  q_written : list (string * AtmEndpoint);
  q_refused : bool;
  q_metricsGone : bool;
}.
Definition nothingKnown : knowledge :=
  {| q_backend := None; q_profile := None; q_atm := None; q_import := None; q_exports := None;
     q_deleted := ∅; q_written := []; q_refused := false; q_metricsGone := false |}.
Definition learnBackend (b : TrafficManagerBackend) (s : knowledge) : knowledge :=
  {| q_backend := Some b; q_profile := q_profile s; q_atm := q_atm s; q_import := q_import s;
     q_exports := q_exports s; q_deleted := q_deleted s; q_written := q_written s;
     q_refused := q_refused s; q_metricsGone := q_metricsGone s |}.
Definition learnProfile (p : option TrafficManagerProfile) (s : knowledge) : knowledge :=
  {| q_backend := q_backend s; q_profile := Some p; q_atm := q_atm s; q_import := q_import s;
     q_exports := q_exports s; q_deleted := q_deleted s; q_written := q_written s;
     q_refused := q_refused s; q_metricsGone := q_metricsGone s |}.
Definition learnAtm (p : option AtmProfile) (s : knowledge) : knowledge :=
  {| q_backend := q_backend s; q_profile := q_profile s; q_atm := Some p; q_import := q_import s;
     q_exports := q_exports s; q_deleted := q_deleted s; q_written := q_written s;
     q_refused := q_refused s; q_metricsGone := q_metricsGone s |}.
Definition learnImport (i : option ServiceImport) (s : knowledge) : knowledge :=
  {| q_backend := q_backend s; q_profile := q_profile s; q_atm := q_atm s; q_import := Some i;
     q_exports := q_exports s; q_deleted := q_deleted s; q_written := q_written s;
     q_refused := q_refused s; q_metricsGone := q_metricsGone s |}.
Definition learnExports (l : list InternalServiceExport) (s : knowledge) : knowledge :=
  {| q_backend := q_backend s; q_profile := q_profile s; q_atm := q_atm s; q_import := q_import s;
     q_exports := Some l; q_deleted := q_deleted s; q_written := q_written s;
     q_refused := q_refused s; q_metricsGone := q_metricsGone s |}.
Definition learnDeleted (name : string) (s : knowledge) : knowledge :=
  {| q_backend := q_backend s; q_profile := q_profile s; q_atm := q_atm s; q_import := q_import s;
     q_exports := q_exports s; q_deleted := {[name]} ∪ q_deleted s; q_written := q_written s;
     q_refused := q_refused s; q_metricsGone := q_metricsGone s |}.
Definition learnWritten (name : string) (x : error + AtmEndpoint) (s : knowledge) : knowledge :=
  {| q_backend := q_backend s; q_profile := q_profile s; q_atm := q_atm s; q_import := q_import s;
     q_exports := q_exports s; q_deleted := q_deleted s;
     q_written := match x with inr e => (name, e) :: q_written s | inl _ => q_written s end;
     q_refused := match x with inr _ => q_refused s | inl _ => true end;
     q_metricsGone := q_metricsGone s |}.
Definition learnMetricsGone (s : knowledge) : knowledge :=
  {| q_backend := q_backend s; q_profile := q_profile s; q_atm := q_atm s; q_import := q_import s;
     q_exports := q_exports s; q_deleted := q_deleted s; q_written := q_written s;
     q_refused := q_refused s; q_metricsGone := true |}.

(** *** What the controller may do *)

Definition wantedWeight (b : TrafficManagerBackend) : Z := default 1%Z (tmb_Weight b).
Definition hasCleanup (b : TrafficManagerBackend) : Prop :=
  TrafficManagerBackendFinalizer ∈ finalizersOf b.
Definition hasMetrics (b : TrafficManagerBackend) : Prop := MetricsFinalizer ∈ finalizersOf b.

(** The Service of the export is reachable from the outside, under a name. *)
Definition exposable (export : InternalServiceExport) (ip : string) : Prop :=
  ise_Type (ise_Spec export) = ServiceTypeLoadBalancer ∧
  ise_IsInternalLoadBalancer (ise_Spec export) = false ∧
  ise_IsDNSLabelConfigured (ise_Spec export) = true ∧
  ise_PublicIPResourceID (ise_Spec export) = Some ip.
Lemma isValid_exposable export :
  isValidTrafficManagerEndpoint export = None ↔ ∃ ip, exposable export ip.
Proof.
  unfold isValidTrafficManagerEndpoint, exposable.
  case_bool_decide; simpl; [|naive_solver].
  destruct (ise_IsInternalLoadBalancer _); [naive_solver|].
  case_bool_decide as Hip; [naive_solver congruence|].
  apply not_eq_None_Some in Hip as [ip ->].
  destruct (ise_IsDNSLabelConfigured _); simpl; naive_solver.
Qed.

(** The name of an endpoint of the backend starts with the UID of the backend. *)
Definition owns (b : TrafficManagerBackend) (name : string) : Prop :=
  ∃ rest, name = ("fleet-" +:+ om_UID (tmb_ObjectMeta b) +:+ "#") +:+ rest.
Lemma isEndpointOwnedByBackend_spec b name : isEndpointOwnedByBackend b name = true ↔ owns b name.
Proof. apply HasPrefix_spec. Qed.

(** The weights of the exposable exports of the clusters, added up. *)
Definition totalWeight (exports : gmap string InternalServiceExport) (clusters : list ClusterStatus)
    (start : Z) : Z :=
  foldl (λ total c,
    match exports !! cs_Cluster c with
    | Some e => if bool_decide (isValidTrafficManagerEndpoint e = None)
                then wrap64 (total + weightOf e) else total
    | None => total
    end) start clusters.

(** The ServiceImport lists the cluster, and its export is exposable. *)
Definition exposed (s : knowledge) (cluster : string) (export : InternalServiceExport) (ip : string)
    (total : Z) : Prop :=
  ∃ si items, q_import s = Some (Some si) ∧ q_exports s = Some items ∧
    {| cs_Cluster := cluster |} ∈ sis_Clusters (si_Status si) ∧
    exportsByCluster items !! cluster = Some export ∧ exposable export ip ∧
    total = totalWeight (exportsByCluster items) (sis_Clusters (si_Status si)) 0.

Section protocol.
Context {util : ControllerUtil} {fleetCond : FleetCondition} {conv : FloatConversion}.
Context (req : NamespacedName).

(** The endpoint of an exposed cluster: its target, and its share of the weight
    of the backend. *)
Definition endpointFor (b : TrafficManagerBackend) (cluster ip : string) (weight total : Z) : AtmEndpoint := {|
  ae_ID := None; ae_Name := Some (endpointName b cluster); ae_Type := Some azureEndpointType;
  ae_Properties := Some {| aep_TargetResourceID := Some ip;
    aep_EndpointStatus := Some EndpointStatusEnabled;
    aep_Weight := Some (desiredWeight (wantedWeight b) weight total); aep_Target := None |} |}.

(** The endpoint Azure has is the one for the cluster. *)
Definition inShape (b : TrafficManagerBackend) (cluster ip : string) (weight total : Z) (e : AtmEndpoint)
    : Prop :=
  ∃ name type p id, ae_Name e = Some name ∧ ToLower name = endpointName b cluster ∧
    ae_Type e = Some type ∧ EqualFold type azureEndpointType = true ∧ ae_Properties e = Some p ∧
    aep_TargetResourceID p = Some id ∧ EqualFold id ip = true ∧
    aep_Weight p = Some (desiredWeight (wantedWeight b) weight total) ∧
    aep_EndpointStatus p = Some EndpointStatusEnabled.

(** Azure has an endpoint for the cluster: the profile lists it, or it was just
    written. *)
Definition azureHas (s : knowledge) (b : TrafficManagerBackend) (cluster ip : string) (weight total : Z)
    (e : AtmEndpoint) : Prop :=
  (∃ atm q, q_atm s = Some (Some atm) ∧ ap_Properties atm = Some q ∧ e ∈ app_Endpoints q ∧
     inShape b cluster ip weight total e) ∨
  (endpointName b cluster, e) ∈ q_written s.

(** An entry of the status is an endpoint Azure has for an exposed cluster. *)
Definition accepts (s : knowledge) (b : TrafficManagerBackend) (es : TrafficManagerEndpointStatus)
    : Prop :=
  ∃ cluster export ip total e name p, exposed s cluster export ip total ∧
    azureHas s b cluster ip (weightOf export) total e ∧
    ae_Name e = Some name ∧ ae_Properties e = Some p ∧
    es = {| tes_Name := ToLower name; tes_ResourceID := default "" (ae_ID e);
            tes_Weight := aep_Weight p; tes_Target := aep_Target p;
            tes_From := Some {| fc_Cluster := cluster; fc_Weight := Some (weightOf export) |} |}.

(** None of the endpoints of the profile belongs to the backend. *)
Definition cleaned (s : knowledge) (b : TrafficManagerBackend) : Prop :=
  q_profile s = Some None ∨ q_atm s = Some None ∨
  ∃ atm, q_atm s = Some (Some atm) ∧ ∀ q e name, ap_Properties atm = Some q → e ∈ app_Endpoints q →
    ae_Name e = Some name → owns b name → name ∈ q_deleted s.

(** Nothing exposed is behind an endpoint of that name. *)
Definition stale (s : knowledge) (b : TrafficManagerBackend) (name : string) : Prop :=
  q_import s = Some None ∨ wantedWeight b = 0%Z ∨
  (is_Some (q_exports s) ∧
   ∀ cluster export ip total, exposed s cluster export ip total → endpointName b cluster ≠ name).

Definition mayDeleteEndpoint (s : knowledge) (rg profileName name : string) : Prop :=
  ∃ b p atm q e, q_backend s = Some b ∧ q_profile s = Some (Some p) ∧ rg = tmp_ResourceGroup p ∧
    q_atm s = Some (Some atm) ∧ ap_Name atm = Some profileName ∧ ap_Properties atm = Some q ∧
    e ∈ app_Endpoints q ∧ ae_Name e = Some name ∧
    (owns b name ∨ owns b (ToLower name)) ∧
    (isDeleting b = true ∧ hasCleanup b ∨ isDeleting b = false ∧ stale s b (ToLower name)).

Definition live (s : knowledge) (b : TrafficManagerBackend) : Prop :=
  q_backend s = Some b ∧ isDeleting b = false ∧ hasMetrics b.

Definition mayWriteEndpoint (s : knowledge) (rg profileName name : string) (e : AtmEndpoint) : Prop :=
  ∃ b p atm cluster export ip total, live s b ∧ hasCleanup b ∧ wantedWeight b ≠ 0%Z ∧
    q_profile s = Some (Some p) ∧ rg = tmp_ResourceGroup p ∧
    q_atm s = Some (Some atm) ∧ ap_Name atm = Some profileName ∧
    exposed s cluster export ip total ∧ name = endpointName b cluster ∧
    e = endpointFor b cluster ip (weightOf export) total.

(** Something is wrong with the profile, the import or one of the exports. *)
Definition notProgrammed (p : TrafficManagerProfile) : Prop :=
  IsConditionStatusFalse (FindStatusCondition (tmp_Conditions p) TrafficManagerProfileConditionProgrammed)
    (om_Generation (tmp_ObjectMeta p)) = true.
Definition invalidExport (s : knowledge) : Prop :=
  ∃ si items export, q_import s = Some (Some si) ∧ q_exports s = Some items ∧
    {| cs_Cluster := clusterOf export |} ∈ sis_Clusters (si_Status si) ∧ export ∈ items ∧
    ∀ ip, ¬ exposable export ip.
Definition nothingToExpose (s : knowledge) (b : TrafficManagerBackend) : Prop :=
  q_profile s = Some None ∨ (∃ p, q_profile s = Some (Some p) ∧ notProgrammed p) ∨
  q_atm s = Some None ∨ q_import s = Some None ∧ cleaned s b.

(** The verdict [st] with the entries [es] is what the round found. *)
Definition justified (s : knowledge) (b : TrafficManagerBackend)
    (es : list TrafficManagerEndpointStatus) (st : string) : Prop :=
  (∀ e, e ∈ es → accepts s b e) ∧
  (st = ConditionUnknown ∧ es = [] ∨
   st = ConditionFalse ∧
     (nothingToExpose s b ∧ es = [] ∨ invalidExport s ∨ q_refused s = true) ∨
   st = ConditionTrue ∧ (∃ si, q_import s = Some (Some si) ∧
     (wantedWeight b = 0%Z ∧ es = [] ∧ cleaned s b ∨
      ∀ c, c ∈ sis_Clusters (si_Status si) →
        ∃ e w, e ∈ es ∧ tes_From e = Some {| fc_Cluster := cs_Cluster c; fc_Weight := Some w |}))).
Definition reports (s : knowledge) (b : TrafficManagerBackend) : Prop :=
  ∃ c, FindStatusCondition (tmb_Conditions b) TrafficManagerBackendConditionAccepted = Some c ∧
    c_ObservedGeneration c = om_Generation (tmb_ObjectMeta b) ∧
    justified s b (tmb_Endpoints b) (c_Status c).

Definition backendProtocol : protocol eff knowledge := {|
  allowed X c s :=
    match c with
    | ENow | EEvent _ _ _ | EOrder | EGoroutine | EFirst => True
    | EGet Hub KTrafficManagerBackend key => key = req
    | EGet Hub KTrafficManagerProfile key => ∃ b, q_backend s = Some b ∧ key = profileKey b
    | EGet Hub KServiceImport key => ∃ b, live s b ∧ key = importKey b
    | EList Hub KInternalServiceExport opts => ∃ si, q_import s = Some (Some si) ∧
        opts = MatchingFields [(exportedServiceFieldNamespacedName, importName si)]
    | EProfileGet rg name => ∃ p, q_profile s = Some (Some p) ∧ rg = tmp_ResourceGroup p ∧
        name = GenerateAzureTrafficManagerProfileName p
    | EEndpointDelete rg profileName name => mayDeleteEndpoint s rg profileName name
    | EEndpointCreateOrUpdate rg profileName name e => mayWriteEndpoint s rg profileName name e
    | EUpdate Hub KTrafficManagerBackend o => ∃ b, q_backend s = Some b ∧ objectKey o = req ∧
        tmb_Profile o = tmb_Profile b ∧ tmb_Backend o = tmb_Backend b ∧
        wantedWeight o = wantedWeight b ∧
        (hasCleanup b → hasCleanup o ∨ isDeleting b = true ∧ cleaned s b) ∧
        (hasMetrics b → hasMetrics o ∨ isDeleting b = true ∧ q_metricsGone s = true)
    | EStatusUpdate Hub KTrafficManagerBackend o => ∃ b, live s b ∧
        tmb_ObjectMeta o = tmb_ObjectMeta b ∧ reports s o
    | EMetric name labels _ => name = trafficManagerBackendStatusLastTimestampSeconds ∧
        take 2 labels = [nn_Namespace req; nn_Name req] ∧ ∃ b, live s b
    | EMetricDelete name labels => name = trafficManagerBackendStatusLastTimestampSeconds ∧
        labels = [("namespace", nn_Namespace req); ("name", nn_Name req)] ∧
        ∃ b, q_backend s = Some b ∧ isDeleting b = true
    | _ => False
    end;
  (* a write of the status leaves the spec as it is stored; Azure has profiles
     with properties, and endpoints whose names differ in more than their case *)
  answer X c s := λ x, serverAnswer c x ∧
    (match c in eff X return X → Prop with
     | EUpdate Hub KTrafficManagerBackend o => λ x,
         match x with
         | inr o' => tmb_Profile o' = tmb_Profile o ∧ tmb_Backend o' = tmb_Backend o ∧
             tmb_Weight o' = tmb_Weight o ∧ isDeleting o' = isDeleting o ∧
             om_UID (tmb_ObjectMeta o') = om_UID (tmb_ObjectMeta o)
         | inl _ => True
         end
     | EStatusUpdate Hub KTrafficManagerBackend o => λ x,
         match x with
         | inr o' => (∀ b, q_backend s = Some b → tmb_Profile o' = tmb_Profile b ∧
               tmb_Backend o' = tmb_Backend b ∧ tmb_Weight o' = tmb_Weight b) ∧
             isDeleting o' = isDeleting o ∧ om_UID (tmb_ObjectMeta o') = om_UID (tmb_ObjectMeta o) ∧
             om_Generation (tmb_ObjectMeta o') = om_Generation (tmb_ObjectMeta o)
         | inl _ => True
         end
     | EProfileGet rg name => λ x,
         match x with
         | inr atm => ∃ q, ap_Properties atm = Some q ∧
             NoDup (omap (λ e, ToLower <$> ae_Name e) (app_Endpoints q))
         | inl _ => True
         end
     | _ => λ _, True
     end) x;
  next X c :=
    match c in eff X return X → knowledge → knowledge with
    | EGet Hub KTrafficManagerBackend key => λ x s,
        match x with inr b => learnBackend b s | inl _ => s end
    | EGet Hub KTrafficManagerProfile key => λ x s,
        match x with
        | inr p => learnProfile (Some p) s
        | inl err => if IsNotFound err then learnProfile None s else s
        end
    | EGet Hub KServiceImport key => λ x s,
        match x with
        | inr i => learnImport (Some i) s
        | inl err => if IsNotFound err then learnImport None s else s
        end
    | EList Hub KInternalServiceExport opts => λ x s,
        match x with inr l => learnExports l s | inl _ => s end
    | EUpdate Hub KTrafficManagerBackend o => λ x s,
        match x with inr b => learnBackend b s | inl _ => s end
    | EStatusUpdate Hub KTrafficManagerBackend o => λ x s,
        match x with inr b => learnBackend b s | inl _ => s end
    | EProfileGet rg name => λ x s,
        match x with
        | inr atm => learnAtm (Some atm) s
        | inl err => if azureerrors.IsNotFound (Some err) then learnAtm None s else s
        end
    | EEndpointDelete rg profileName name => λ x s,
        match x with
        | None => learnDeleted name s
        | Some err => if azureerrors.IsNotFound (Some err) then learnDeleted name s else s
        end
    | EEndpointCreateOrUpdate rg profileName name e => λ x s, learnWritten name x s
    | EMetricDelete name labels => λ _ s, learnMetricsGone s
    | _ => λ _ s, s
    end |}.

(** What a finished round leaves behind. *)
Definition settled (s : knowledge) : Prop :=
  ∀ b, q_backend s = Some b →
  if isDeleting b then ¬ hasCleanup b ∧ ¬ hasMetrics b else hasMetrics b ∧ reports s b.
Definition roundEnds (x : Result * option error) (s : knowledge) : Prop :=
  x.2 = None → settled s.
End protocol.


(** ** Collecting the endpoints *)

Lemma exportsByCluster_spec items cluster export :
  exportsByCluster items !! cluster = Some export → export ∈ items ∧ clusterOf export = cluster.
Proof.
  unfold exportsByCluster.
  assert (∀ l (m : gmap string InternalServiceExport), (∀ c e, m !! c = Some e → e ∈ items ∧ clusterOf e = c) → (∀ e, e ∈ l → e ∈ items) →
    ∀ c e, foldl (λ m e, <[clusterOf e := e]> m) m l !! c = Some e → e ∈ items ∧ clusterOf e = c) as Hgen.
  { induction l as [|x l IH]; intros m Hm Hl c e; simpl; [apply Hm|]. apply IH.
    - intros c' e'. destruct (decide (clusterOf x = c')) as [<-|Hne].
      + rewrite lookup_insert_eq. intros [= <-]. split; [apply Hl; by left|done].
      + rewrite lookup_insert_ne by done. apply Hm.
    - intros e' He'. apply Hl. by right. }
  apply Hgen; [|done]. intros c e. by rewrite lookup_empty.
Qed.

Lemma endpointName_inj b c c' : endpointName b c = endpointName b c' → c = c'.
Proof.
  unfold endpointName. intros H. apply str_app_inj in H. apply str_app_inj in H.
  by apply (str_app_inj "#") in H.
Qed.

(** The endpoint of a cluster before the weights are assigned. *)
Definition planned (b : TrafficManagerBackend) (exports : gmap string InternalServiceExport)
    (clusters : list ClusterStatus) (n : string) (d : desiredEndpoint) : Prop :=
  ∃ c export, {| cs_Cluster := c |} ∈ clusters ∧ exports !! c = Some export ∧
    isValidTrafficManagerEndpoint export = None ∧ n = endpointName b c ∧
    d = {| de_Endpoint := generateAzureTrafficManagerEndpoint b export;
           de_FromCluster := {| fc_Cluster := c; fc_Weight := Some (weightOf export) |} |}.

Record collects (b : TrafficManagerBackend) (exports : gmap string InternalServiceExport)
    (clusters : list ClusterStatus) (acc col : collected) : Prop := {
  collects_total : col_total col = totalWeight exports clusters (col_total acc);
  collects_found c : c ∈ clusters → is_Some (exports !! cs_Cluster c);
  collects_desired n d : col_desired col !! n = Some d →
    col_desired acc !! n = Some d ∨ planned b exports clusters n d;
  collects_planned n d : planned b exports clusters n d → is_Some (col_desired col !! n);
  collects_old n : is_Some (col_desired acc !! n) → is_Some (col_desired col !! n);
  collects_invalid c err : col_invalid col !! c = Some err → col_invalid acc !! c = Some err ∨
    ∃ export, {| cs_Cluster := c |} ∈ clusters ∧ exports !! c = Some export ∧
      isValidTrafficManagerEndpoint export = Some err;
  collects_refused c export err : {| cs_Cluster := c |} ∈ clusters → exports !! c = Some export →
    isValidTrafficManagerEndpoint export = Some err → is_Some (col_invalid col !! c);
  collects_old_invalid c : is_Some (col_invalid acc !! c) → is_Some (col_invalid col !! c);
}.

Lemma planned_cons b exports c clusters n d :
  planned b exports ({| cs_Cluster := c |} :: clusters) n d →
  (∀ export, exports !! c = Some export →
     isValidTrafficManagerEndpoint export = None ∧ n = endpointName b c) ∨
  planned b exports clusters n d.
Proof.
  intros (c' & e' & Hin & He' & Hv & Hn & Hd). apply elem_of_cons in Hin as [[= ->]|Hin].
  - left. intros export Hc. assert (e' = export) as -> by congruence. done.
  - right. by exists c', e'.
Qed.
Lemma planned_tail b exports c clusters n d :
  planned b exports clusters n d → planned b exports (c :: clusters) n d.
Proof. intros (c' & e' & Hin & Hrest). exists c', e'. split; [by right|done]. Qed.
Lemma collectEndpoints_spec b exports clusters acc col :
  (∀ c e, exports !! c = Some e → clusterOf e = c) →
  collectEndpoints b exports clusters acc = inr col → collects b exports clusters acc col.
Proof.
  intros Hkey. revert acc. induction clusters as [|[c] clusters IH]; intros acc; simpl.
  { intros [= <-]. split; try done; try (by intros ? ?%not_elem_of_nil); try by left.
    - intros n d (? & ? & ?%not_elem_of_nil & _). done.
    - by intros ? ? ? ?%not_elem_of_nil. }
  destruct (exports !! c) as [export|] eqn:Hc; [|done].
  pose proof (λ n d, planned_tail b exports {| cs_Cluster := c |} clusters n d) as Hpl'.
  destruct (isValidTrafficManagerEndpoint export) as [err|] eqn:Hv; intros Hcol%IH;
    destruct Hcol as [Ht Hf Hd Hp Ho Hi Hr Hoi]; simpl in *; split; simpl.
  - rewrite Ht. by rewrite Hc, bool_decide_false by congruence.
  - intros c' [->|Hin]%elem_of_cons; [by simpl; rewrite Hc|by apply Hf].
  - intros n d [?|?]%Hd; auto.
  - intros n d [Hn|?]%planned_cons; [|by eauto]. destruct (Hn _ Hc). congruence.
  - exact Ho.
  - intros c' err' [Hins|(e' & Hin & Hrest)]%Hi.
    + destruct (decide (c = c')) as [<-|Hne].
      * rewrite lookup_insert_eq in Hins. injection Hins as <-. right. exists export. by split; [left|].
      * rewrite lookup_insert_ne in Hins by done. by left.
    + right. exists e'. by split; [right|].
  - intros c' e' err' [[= ->]|Hin]%elem_of_cons He' Hv'; [|by eapply Hr].
    apply Hoi. by rewrite lookup_insert_eq.
  - intros c' Hs. apply Hoi. destruct (decide (c = c')) as [<-|Hne]; [by rewrite lookup_insert_eq|].
    by rewrite lookup_insert_ne.
  - rewrite Ht. by rewrite Hc, bool_decide_true by done.
  - intros c' [->|Hin]%elem_of_cons; [by simpl; rewrite Hc|by apply Hf].
  - intros n d [Hins|?]%Hd; [|by auto]. rewrite (Hkey c export Hc) in Hins.
    destruct (decide (endpointName b c = n)) as [<-|Hne].
    + rewrite lookup_insert_eq in Hins. injection Hins as <-. right. exists c, export. by split; [left|].
    + rewrite lookup_insert_ne in Hins by done. by left.
  - intros n d [Hn|?]%planned_cons; [|by eauto]. destruct (Hn _ Hc) as [_ ->]. apply Ho. by rewrite (Hkey c export Hc), lookup_insert_eq.
  - intros n Hs. apply Ho. rewrite (Hkey c export Hc).
    destruct (decide (endpointName b c = n)) as [<-|Hne]; [by rewrite lookup_insert_eq|].
    by rewrite lookup_insert_ne.
  - intros c' err' [?|(e' & Hin & Hrest)]%Hi; [by left|]. right. exists e'. by split; [right|].
  - intros c' e' err' [[= ->]|Hin]%elem_of_cons He' Hv'; [congruence|by eapply Hr].
  - exact Hoi.
Qed.


(** ** Safety *)

(** Two versions of a backend that differ in finalizers and status at most. *)
Record sameBackend (b b' : TrafficManagerBackend) : Prop := {
  same_key : objectKey b' = objectKey b;
  same_uid : om_UID (tmb_ObjectMeta b') = om_UID (tmb_ObjectMeta b);
  same_profile : tmb_Profile b' = tmb_Profile b;
  same_backend : tmb_Backend b' = tmb_Backend b;
  same_weight : wantedWeight b' = wantedWeight b;
}.
Lemma ownedEndpoint_same b b' name :
  om_UID (tmb_ObjectMeta b') = om_UID (tmb_ObjectMeta b) →
  isEndpointOwnedByBackend b' name = isEndpointOwnedByBackend b name.
Proof. intros Hu. unfold isEndpointOwnedByBackend, endpointNamePrefix. by rewrite Hu. Qed.
Lemma endpointName_same b b' c : sameBackend b b' → endpointName b' c = endpointName b c.
Proof.
  intros Hs. unfold endpointName, endpointNamePrefix.
  by rewrite (same_uid _ _ Hs), (same_backend _ _ Hs).
Qed.
Lemma cleaned_same s b b' :
  om_UID (tmb_ObjectMeta b') = om_UID (tmb_ObjectMeta b) → cleaned s b → cleaned s b'.
Proof.
  intros Hu [?|[?|(atm & Ha & Hc)]]; [by left|by right; left|]. right; right. exists atm.
  split; [done|]. intros q e name Hq He Hn Ho. unfold owns in Ho. rewrite Hu in Ho. by eapply Hc.
Qed.

Section safety.
Context {util : ControllerUtil} {laws : ControllerUtilLaws}.
Context {fleetUtil : FleetUtil} {fleetLaws : FleetUtilLaws}.
Context {fleetCond : FleetCondition} {fleetCondLaws : FleetConditionLaws}.
Context {conv : FloatConversion} (req : NamespacedName).
Local Abbreviation P := (backendProtocol req).

Lemma justified_same s b b' es st : sameBackend b b' → justified s b es st → justified s b' es st.
Proof.
  intros Hs [Ha Hv]. split.
  - intros e (cl & ex & ip & tot & ae & n & p & Hx & Haz & Hrest)%Ha. exists cl, ex, ip, tot, ae, n, p.
    split; [done|]. split; [|done]. unfold azureHas, inShape in *.
    by rewrite (endpointName_same _ _ _ Hs), (same_weight _ _ Hs).
  - destruct Hv as [?|[(? & [[Hn ?]|[?|?]])|(? & si & ? & Hsi)]]; [by left| | | |].
    + right; left. split; [done|]. left. split; [|done].
      destruct Hn as [?|[?|[?|[? ?]]]]; [by left|by right; left|by right; right; left|].
      do 3 right. split; [done|]. by eapply cleaned_same; [apply Hs|].
    + by right; left; split; [|right; left].
    + by right; left; split; [|right; right].
    + do 2 right. split; [done|]. exists si. split; [done|].
      destruct Hsi as [(? & ? & ?)|?]; [left|by right]. rewrite (same_weight _ _ Hs).
      split; [done|]. split; [done|]. by eapply cleaned_same; [apply Hs|].
Qed.

(** The backend in memory is the stored one with its defaults and a new
    status. *)
Record holds (m : TrafficManagerBackend) (s : knowledge) : Prop := {
  holds_key : objectKey m = req;
  holds_weight : tmb_Weight m = Some (wantedWeight m);
  holds_stored : ∃ b, live s b ∧ tmb_ObjectMeta m = tmb_ObjectMeta b ∧
    tmb_Profile m = tmb_Profile b ∧ tmb_Backend m = tmb_Backend b ∧ wantedWeight m = wantedWeight b;
}.
(** The status was written, or could not be. *)
Definition storeEnds (r : option error * TrafficManagerBackend) (s : knowledge) : Prop :=
  (∃ b, live s b) ∧ objectKey r.2 = req ∧ (r.1 = None → settled s).
Definition updateEnds (x : Result * option error * TrafficManagerBackend) (s : knowledge) : Prop :=
  storeEnds (x.1.2, x.2) s.

Lemma setStatus_wp m es st reason message s :
  holds m s → justified s m es st →
  wp P (setStatus m es (acceptedCondition m st reason message)) s
    (λ o s', s' = s ∧ holds o s ∧ reports s o).
Proof.
  intros Hh Hj. apply wp_bind, wp_SetStatusCondition; [done|]. intros now _. apply wp_ret.
  split; [done|]. split; [by destruct Hh; split|].
  destruct (setCondition_same now (tmb_Conditions m) (acceptedCondition m st reason message))
    as (c & Hf & _ & Hst & _ & _ & Hge).
  exists c. split; [done|]. split; [done|]. rewrite Hst. by apply (justified_same s m).
Qed.

Lemma storeStatus_wp o s :
  holds o s → reports s o → wp P (updateTrafficManagerBackendStatus o) s storeEnds.
Proof.
  intros [Hk Hwt (b & Hl & Hm & Hp & Hb & Hw)] Hr. apply wp_bind, wp_StatusUpdate; [by exists b|].
  intros [err|o'] [[Hsm Hz] Ha]; apply wp_ret; simpl.
  - split; [by exists b|]. split; [done|]. simpl.
    by destruct (NewUpdateIgnoreConflictError_some err) as [? ->].
  - simpl in o', Ha. destruct Ha as (Hspec & Hdel & Hu & Hgen), Hl as (Hq & Hdb & Hmet).
    destruct (Hspec b Hq) as (Hp' & Hb' & Hw').
    assert (objectKey o' = objectKey o) as Hk' by exact (sameMeta_key _ _ Hsm).
    assert (hasMetrics o') as Hmo'.
    { unfold hasMetrics. assert (finalizersOf o' = finalizersOf o) as ->
        by exact (sameMeta_finalizers _ _ Hsm).
      unfold finalizersOf. simpl. rewrite Hm. exact Hmet. }
    assert (isDeleting o' = false) as Hdo'.
    { rewrite Hdel, <-Hdb. unfold isDeleting. simpl. by rewrite Hm. }
    split; [by exists o'|]. split; [by rewrite <-Hk|]. intros _ ? [= <-]. rewrite Hdo'.
    split; [done|]. pose proof (Hz o) as Hzo. simpl in Hzo. injection Hzo as Hze Hzc.
    destruct Hr as (c & Hf & Hg & Hj). exists c. rewrite Hzc, Hgen, Hze. split; [done|]. split; [done|].
    apply (justified_same s o); [|exact Hj]. split; [done|done|congruence|congruence|].
    unfold wantedWeight. rewrite Hw'. exact (eq_sym Hw).
Qed.

Lemma unknown_justified s b : justified s b [] ConditionUnknown.
Proof. split; [by intros ? ?%not_elem_of_nil|]. by left. Qed.
Lemma false_justified s b : nothingToExpose s b → justified s b [] ConditionFalse.
Proof.
  intros Hn. split; [by intros ? ?%not_elem_of_nil|]. right; left. split; [done|]. by left.
Qed.

Lemma reportUnknown_wp m message err s :
  holds m s → wp P (reportUnknown m message err) s (λ r s', storeEnds r s' ∧ is_Some r.1).
Proof.
  intros Hh. apply wp_bind. eapply wp_mono; [by apply setStatus_wp, unknown_justified|].
  intros o ? (-> & Ho & Hr). apply wp_bind. eapply wp_mono; [by apply storeStatus_wp|].
  intros [[err'|] b'] s' (Hl & Hk & Hs); simpl; apply wp_ret; (split; [|by eexists]);
    by split; [|split].
Qed.


(** *** Deleting endpoints *)

Definition withDeleted (d : gset string) (s : knowledge) : knowledge :=
  {| q_backend := q_backend s; q_profile := q_profile s; q_atm := q_atm s; q_import := q_import s;
     q_exports := q_exports s; q_deleted := d; q_written := q_written s;
     q_refused := q_refused s; q_metricsGone := q_metricsGone s |}.
(** Only more endpoints are deleted. *)
Definition grows (s s' : knowledge) : Prop :=
  ∃ d, q_deleted s ⊆ d ∧ s' = withDeleted d s.
#[local] Instance grows_preorder : PreOrder grows.
Proof.
  split.
  - intros s. exists (q_deleted s). split; [done|]. by destruct s.
  - intros s1 s2 s3 (d & Hd & ->) (d' & Hd' & ->). exists d'. split; [by etrans|done].
Qed.

Definition cleanupReason (s : knowledge) (b : TrafficManagerBackend) : Prop :=
  isDeleting b = true ∧ hasCleanup b ∨
  isDeleting b = false ∧ (q_import s = Some None ∨ wantedWeight b = 0%Z).

Lemma deleteEndpoint_rg b p atm q e name profileName s :
  q_backend s = Some b → q_profile s = Some (Some p) → q_atm s = Some (Some atm) →
  ap_Name atm = Some profileName → ap_Properties atm = Some q → e ∈ app_Endpoints q →
  ae_Name e = Some name → isEndpointOwnedByBackend b name = true → cleanupReason s b →
  rg P grows (deleteEndpoint (tmp_ResourceGroup p) profileName name) s
    (λ err s', err = None → name ∈ q_deleted s').
Proof.
  intros Hb Hp Ha Hpn Hq He Hn Ho Hr. apply rg_bind, rg_call. intros s1 (d & Hd & ->). split.
  { exists b, p, atm, q, e. repeat (split; [done|]). split; [left; by apply isEndpointOwnedByBackend_spec|].
    destruct Hr as [?|[? [?|?]]]; [by left|right; split; [done|]; by left|].
    right. split; [done|]. by right; left. }
  intros x _. simpl.
  assert (grows (withDeleted d s) (learnDeleted name (withDeleted d s))) as Hg.
  { exists ({[name]} ∪ d). split; [simpl; set_solver|done]. }
  destruct x as [err|]; [destruct (azureerrors.IsNotFound (Some err))|];
    (split; [done|apply rg_ret; simpl]); [set_solver|done|set_solver].
Qed.

Lemma cleanupEndpoints_wp b p atm m s :
  q_backend s = Some b → q_profile s = Some (Some p) → q_atm s = Some (Some atm) →
  is_Some (ap_Name atm) → om_UID (tmb_ObjectMeta m) = om_UID (tmb_ObjectMeta b) → cleanupReason s b →
  wp P (cleanupEndpoints (tmp_ResourceGroup p) m atm) s
    (λ r s', grows s s' ∧ (r = None → cleaned s' b)).
Proof.
  intros Hb Hp Ha [profileName Hpn] Hu Hr. unfold cleanupEndpoints.
  destruct (ap_Properties atm) as [q|] eqn:Hq.
  2: { apply wp_ret. split; [done|]. intros _. right; right. exists atm. split; [done|].
       intros ? ? ?. by rewrite Hq. }
  rewrite Hpn. apply wp_bind, wp_ret.
  assert (∀ name, name ∈ ownedEndpoints m (app_Endpoints q) ↔ ∃ e, e ∈ app_Endpoints q ∧
    ae_Name e = Some name ∧ isEndpointOwnedByBackend b name = true) as Hown.
  { intros name. unfold ownedEndpoints. rewrite list_elem_of_omap. split.
    - intros (e & He & Hx). destruct (ae_Name e) as [n|] eqn:Hn; [|done].
      rewrite (ownedEndpoint_same b m n Hu) in Hx. exists e.
      destruct (isEndpointOwnedByBackend b n) eqn:Ho; [|done]. by injection Hx as <-.
    - intros (e & He & Hn & Ho). exists e. split; [done|]. rewrite Hn.
      by rewrite (ownedEndpoint_same b m name Hu), Ho. }
  eapply wp_mono.
  { apply (errgroup_wp P grows) with (Q := λ name err s', err = None → name ∈ q_deleted s').
    - done.
    - done.
    - done.
    - intros name err s1 s2 Hc (d & Hd & ->) Hnone. by apply Hd, Hc.
    - intros name (e & He & Hn & Ho)%Hown. by eapply (deleteEndpoint_rg b p atm q e). }
  intros err s' [Hg Hres]. split; [done|]. intros ->. right; right. exists atm.
  split; [by destruct Hg as (d & _ & ->)|]. intros q' e name Hq' He Hn Ho.
  assert (q' = q) as -> by congruence. apply Hres; [|done].
  apply Hown. apply isEndpointOwnedByBackend_spec in Ho. eauto.
Qed.


(** *** Validation *)

Lemma holds_known m s s' : q_backend s' = q_backend s → holds m s → holds m s'.
Proof.
  intros Hq [Hk Hw (b & (Hb & Hl) & Hrest)]. split; [done|done|]. exists b. split; [|done].
  split; [by rewrite Hq|done].
Qed.

(** A condition is set and stored, and the function returns. *)
Lemma stopWith_wp {A} (a : A) m es st reason message s :
  holds m s → justified s m es st →
  wp P (backend ← setStatus m es (acceptedCondition m st reason message);
        '(err, backend) ← updateTrafficManagerBackendStatus backend;
        mret (a, err, backend)) s (λ r s', r.1.1 = a ∧ storeEnds (r.1.2, r.2) s').
Proof.
  intros Hh Hj. apply wp_bind. eapply wp_mono; [by apply setStatus_wp|].
  intros o ? (-> & Ho & Hr). apply wp_bind. eapply wp_mono; [by apply storeStatus_wp|].
  intros [err b'] s' Hs. by apply wp_ret.
Qed.
Lemma stopUnknown_wp {A} (a : A) m message err s :
  holds m s →
  wp P ('(err, backend) ← reportUnknown m message err; mret (a, err, backend)) s
    (λ r s', r.1.1 = a ∧ storeEnds (r.1.2, r.2) s').
Proof.
  intros Hh. apply wp_bind. eapply wp_mono; [by apply reportUnknown_wp|].
  intros [err' b'] s' [Hs _]. by apply wp_ret.
Qed.

(** The outcome of a validation. *)
Definition validates {A} (m : TrafficManagerBackend) (learn : A → knowledge → knowledge) (s : knowledge)
    (r : option A * option error * TrafficManagerBackend) (s' : knowledge) : Prop :=
  match r.1.1 with
  | Some a => r.1.2 = None ∧ r.2 = m ∧ s' = learn a s
  | None => storeEnds (r.1.2, r.2) s'
  end.
Lemma stop_wp {A} (p : IO (option A * option error * TrafficManagerBackend)) s0
    (Q : option A * option error * TrafficManagerBackend → knowledge → Prop) :
  wp P p s0 (λ r s', r.1.1 = None ∧ storeEnds (r.1.2, r.2) s') →
  (∀ err b s', storeEnds (err, b) s' → Q (None, err, b) s') → wp P p s0 Q.
Proof.
  intros Hp HQ. eapply wp_mono; [exact Hp|]. intros [[? err] b'] s' [Hn Hs]. simpl in Hn. subst.
  by apply HQ.
Qed.
Lemma validates_stop {A} m learn s (p : IO (option A * option error * TrafficManagerBackend)) s0 :
  wp P p s0 (λ r s', r.1.1 = None ∧ storeEnds (r.1.2, r.2) s') → wp P p s0 (validates m learn s).
Proof. intros Hp. by apply stop_wp. Qed.

Lemma validateTrafficManagerProfile_wp m s :
  holds m s → wp P (validateTrafficManagerProfile m) s (validates m (learnProfile ∘ Some) s).
Proof.
  intros Hh. pose proof Hh as [_ _ (b & (Hb & _) & Hm & Hp & _)]. apply wp_bind, wp_Get.
  { exists b. split; [done|]. unfold profileKey. by rewrite Hm, Hp. }
  intros [err|profile] _; cbn [next backendProtocol].
  - destruct (IsNotFound err) eqn:Hnf; apply validates_stop.
    + apply stopWith_wp; [by apply (holds_known _ s)|]. apply false_justified. by left.
    + apply stopUnknown_wp. done.
  - simpl in profile. set (s1 := learnProfile (Some profile) s).
    assert (holds m s1) as Hh1 by (by apply (holds_known _ s)).
    destruct (IsConditionStatusTrue _ _); [by apply wp_ret|]. apply validates_stop.
    destruct (IsConditionStatusFalse _ _) eqn:Hf.
    + apply stopWith_wp; [done|]. apply false_justified. right; left. by exists profile.
    + apply stopWith_wp; [done|]. apply unknown_justified.
Qed.

Lemma validateAzureTrafficManagerProfile_wp m p s :
  holds m s → q_profile s = Some (Some p) →
  wp P (validateAzureTrafficManagerProfile m p) s (λ r s', validates m (learnAtm ∘ Some) s r s' ∧
    ∀ atm, r.1.1 = Some atm → is_Some (ap_Name atm) ∧ ∃ q, ap_Properties atm = Some q ∧
      NoDup (omap (λ e, ToLower <$> ae_Name e) (app_Endpoints q))).
Proof.
  intros Hh Hp. apply wp_bind, wp_call; [by exists p|]. intros [err|atm] [Hn Hx]; cbn [next backendProtocol].
  - apply wp_bind, wp_Event; [done|]. intros ? _. cbn [next backendProtocol].
    destruct (azureerrors.IsNotFound (Some err)); (apply stop_wp; [|by intros; split]).
    + apply stopWith_wp; [by apply (holds_known _ s)|]. apply false_justified. by right; right; left.
    + by apply stopUnknown_wp.
  - apply wp_ret. split; [done|]. intros ? [= <-]. by split.
Qed.

Lemma validateServiceImport_wp m p atm s :
  holds m s → q_profile s = Some (Some p) → q_atm s = Some (Some atm) → is_Some (ap_Name atm) →
  wp P (validateServiceImportAndCleanupEndpointsIfInvalid (tmp_ResourceGroup p) m atm) s
    (validates m (learnImport ∘ Some) s).
Proof.
  intros Hh Hp Ha Hn. pose proof Hh as [Hk _ (b & Hl & Hm & Hpr & Hbk & Hw)]. pose proof Hl as (Hq & Hd & _).
  apply wp_bind, wp_Get.
  { exists b. split; [done|]. unfold importKey. by rewrite Hm, Hbk. }
  intros [err|si] _; cbn [next backendProtocol]; [|by apply wp_ret].
  destruct (IsNotFound err) eqn:Hnf; [|by apply validates_stop, stopUnknown_wp].
  apply wp_bind. eapply wp_mono.
  { apply (cleanupEndpoints_wp b p atm); try done; [by rewrite Hm|]. right. split; [done|]. by left. }
  intros [err'|] s' [(d & _ & ->) Hc]; simpl in *.
  - apply wp_bind, wp_Event; [done|]. intros ? _. apply wp_ret. split; [by exists b|done].
  - apply validates_stop, stopWith_wp; [by apply (holds_known _ s)|]. apply false_justified. do 3 right.
    split; [done|]. apply (cleaned_same _ b); [by rewrite Hm|]. by apply Hc.
Qed.


(** *** The desired endpoints *)

(** The plan has the endpoint of every exposed cluster and nothing else; the
    other clusters of the import are invalid. *)
Record plans (s : knowledge) (m : TrafficManagerBackend) (si : ServiceImport)
    (desired : gmap string desiredEndpoint) (invalid : gmap string error) : Prop := {
  plans_known : q_import s = Some (Some si) ∧ is_Some (q_exports s);
  plans_exposed n d : desired !! n = Some d → ∃ cluster export ip total,
    exposed s cluster export ip total ∧ n = endpointName m cluster ∧
    d = {| de_Endpoint := endpointFor m cluster ip (weightOf export) total;
           de_FromCluster := {| fc_Cluster := cluster; fc_Weight := Some (weightOf export) |} |};
  plans_all cluster export ip total :
    exposed s cluster export ip total → is_Some (desired !! endpointName m cluster);
  plans_clusters c : c ∈ sis_Clusters (si_Status si) →
    is_Some (desired !! endpointName m (cs_Cluster c)) ∨ invalid ≠ ∅;
  plans_invalid : invalid ≠ ∅ → invalidExport s;
}.

Lemma assignWeights_planned m exports clusters total n d items si s :
  tmb_Weight m = Some (wantedWeight m) → q_import s = Some (Some si) → q_exports s = Some items →
  exports = exportsByCluster items → clusters = sis_Clusters (si_Status si) →
  total = totalWeight exports clusters 0 → planned m exports clusters n d →
  ∃ cluster export ip, exposed s cluster export ip total ∧ n = endpointName m cluster ∧
    {| de_Endpoint := setEndpointWeight (desiredWeight (wantedWeight m)
         (endpointWeight (de_Endpoint d)) total) (de_Endpoint d);
       de_FromCluster := de_FromCluster d |} =
    {| de_Endpoint := endpointFor m cluster ip (weightOf export) total;
       de_FromCluster := {| fc_Cluster := cluster; fc_Weight := Some (weightOf export) |} |}.
Proof.
  intros Hw Hi Hx -> -> -> (c & export & Hin & He & [ip Hip]%isValid_exposable & -> & ->).
  exists c, export, ip. split; [by exists si, items|]. split; [done|].
  pose proof Hip as (_ & _ & _ & Hpip). destruct (exportsByCluster_spec _ _ _ He) as [_ Hc].
  unfold endpointFor, generateAzureTrafficManagerEndpoint, setEndpointWeight, endpointWeight. simpl.
  by rewrite Hc, Hpip.
Qed.

Lemma collected_plans m si items s col :
  tmb_Weight m = Some (wantedWeight m) → q_import s = Some (Some si) → q_exports s = Some items →
  collectEndpoints m (exportsByCluster items) (sis_Clusters (si_Status si)) nothingCollected = inr col →
  plans s m si (assignWeights (wantedWeight m) (col_total col) (col_desired col)) (col_invalid col).
Proof.
  intros Hw Hi Hx Hcol%collectEndpoints_spec.
  2: { intros c e He. by apply (exportsByCluster_spec items). }
  destruct Hcol as [Ht Hf Hd Hp _ Hin Hr _].
  assert (∀ n, is_Some (col_desired col !! n) → is_Some (assignWeights (wantedWeight m) (col_total col)
    (col_desired col) !! n)) as Has.
  { intros n Hn. unfold assignWeights. rewrite lookup_fmap. by apply fmap_is_Some. }
  split; [by eauto|..].
  - intros n d Hl. unfold assignWeights in Hl. rewrite lookup_fmap in Hl.
    destruct (col_desired col !! n) as [d0|] eqn:Hd0; [|done]. injection Hl as <-.
    destruct (Hd n d0 Hd0) as [Habs|Hpl]; [simpl in Habs; by rewrite lookup_empty in Habs|].
    destruct (assignWeights_planned m _ _ (col_total col) n d0 items si s Hw Hi Hx eq_refl eq_refl Ht Hpl)
      as (c & e & ip & Hexp & Hn & Heq). by exists c, e, ip, (col_total col).
  - intros c e ip total (si' & items' & Hi' & Hx' & Hc & He & Hip & _). apply Has.
    assert (si' = si) as -> by congruence. assert (items' = items) as -> by congruence.
    eapply Hp. exists c, e. split; [done|]. split; [done|].
    split; [apply isValid_exposable; by exists ip|]. done.
  - intros [c] Hc. destruct (Hf _ Hc) as [e He]. simpl in *.
    destruct (isValidTrafficManagerEndpoint e) as [err|] eqn:Hv.
    + right. destruct (Hr c e err Hc He Hv) as [x Hl]. intros Hemp. by rewrite Hemp, lookup_empty in Hl.
    + left. apply Has. eapply Hp. by exists c, e.
  - intros Hne. apply map_choose in Hne as (c & err & Hl).
    destruct (Hin c err Hl) as [Habs|(e & Hc & He & Hv)]; [simpl in Habs; by rewrite lookup_empty in Habs|].
    destruct (exportsByCluster_spec _ _ _ He) as [Hel Hce]. exists si, items, e.
    split; [done|]. split; [done|]. split; [by rewrite Hce|]. split; [done|]. intros ip Hip.
    assert (isValidTrafficManagerEndpoint e = None) by (apply isValid_exposable; by exists ip). congruence.
Qed.

Lemma validateAndProcess_wp m si s :
  holds m s → q_import s = Some (Some si) →
  wp P (validateAndProcessServiceImportForBackend m si) s (λ r s',
    match r.1.1 with
    | Some (desired, invalid) => r.1.2 = None ∧ r.2 = m ∧
        (∃ items, s' = learnExports items s) ∧ plans s' m si desired invalid
    | None => storeEnds (r.1.2, r.2) s'
    end).
Proof.
  intros Hh Hi.
  unfold validateAndProcessServiceImportForBackend. case_decide as Hcl.
  { apply stop_wp; [|done]. apply stopWith_wp; [done|]. apply unknown_justified. }
  apply wp_bind, wp_List; [by exists si|]. intros [err|items] _; cbn [next backendProtocol].
  { apply stop_wp; [|done]. by apply stopUnknown_wp. }
  simpl in items. assert (holds m (learnExports items s)) as Hh' by (by apply (holds_known _ s)).
  destruct (collectEndpoints _ _ _ _) as [cluster|col] eqn:Hcol.
  { apply stop_wp; [|done]. apply stopWith_wp; [done|]. apply unknown_justified. }
  pose proof (collected_plans m si items (learnExports items s) col (holds_weight _ _ Hh) Hi eq_refl Hcol)
    as Hplan.
  case_decide as Hemp.
  - apply wp_ret. split; [done|]. split; [done|]. split; [by eexists|].
    unfold assignWeights in Hplan. by rewrite Hemp, fmap_empty in Hplan.
  - rewrite (holds_weight _ _ Hh). apply wp_bind, wp_ret, wp_ret. split; [done|]. split; [done|]. by split; [eexists|].
Qed.


(** *** Exposing the services *)

(** What holds while the endpoints of a plan are brought to Azure. *)
Record exposing (m : TrafficManagerBackend) (p : TrafficManagerProfile) (atm : AtmProfile)
    (profileName : string) (q : AtmProfileProperties) (si : ServiceImport)
    (desired : gmap string desiredEndpoint) (invalid : gmap string error) (s : knowledge) : Prop := {
  ex_holds : holds m s;
  ex_cleanup : ∃ b, q_backend s = Some b ∧ hasCleanup b;
  ex_weight : wantedWeight m ≠ 0%Z;
  ex_profile : q_profile s = Some (Some p);
  ex_atm : q_atm s = Some (Some atm);
  ex_name : ap_Name atm = Some profileName;
  ex_properties : ap_Properties atm = Some q;
  ex_plans : plans s m si desired invalid;
}.

(** Nothing of it depends on the endpoints that were deleted or written. *)
Lemma exposing_deleted m p atm pn q si desired invalid s name :
  exposing m p atm pn q si desired invalid s →
  exposing m p atm pn q si desired invalid (learnDeleted name s).
Proof. intros [Hh Hc Hw Hp Ha Hn Hq Hpl]. split; try done; [by apply (holds_known _ s)|by destruct Hpl]. Qed.
Lemma exposing_written m p atm pn q si desired invalid s name x :
  exposing m p atm pn q si desired invalid s →
  exposing m p atm pn q si desired invalid (learnWritten name x s).
Proof. intros [Hh Hc Hw Hp Ha Hn Hq Hpl]. split; try done; [by apply (holds_known _ s)|by destruct Hpl]. Qed.
Lemma accepts_written s m es name x : accepts s m es → accepts (learnWritten name x s) m es.
Proof.
  intros (c & ex & ip & tot & e & n & p & Hx & Haz & Hrest). exists c, ex, ip, tot, e, n, p.
  split; [done|]. split; [|done]. destruct Haz as [Haz|Hw]; [by left|right]. simpl.
  destruct x; [done|by right].
Qed.

Lemma equalEndpoint_wp e m cluster ip weight total s :
  wp P (equalAzureTrafficManagerEndpoint e (endpointFor m cluster ip weight total)) s (λ b s', s' = s ∧
    (b = true → ∀ name, ae_Name e = Some name → ToLower name = endpointName m cluster →
       inShape m cluster ip weight total e)).
Proof.
  apply wp_bind. destruct (ae_Type e) as [type|] eqn:Ht; [apply wp_bind, wp_ret|]; apply wp_ret;
    [|by apply wp_ret]. destruct (EqualFold type azureEndpointType) eqn:Hty; simpl; [|by apply wp_ret].
  destruct (ae_Properties e) as [p|] eqn:Hp; [|by apply wp_ret].
  destruct (aep_TargetResourceID p) as [id|] eqn:Hid; [|by apply wp_ret].
  destruct (aep_Weight p) as [w|] eqn:Hw; [|by apply wp_ret].
  destruct (aep_EndpointStatus p) as [st|] eqn:Hst; [|by apply wp_ret].
  apply wp_bind, wp_ret, wp_bind, wp_ret.
  destruct (EqualFold id ip) eqn:Hfold; simpl; [|by apply wp_ret]. apply wp_bind, wp_ret.
  destruct (Z.eqb_spec w (desiredWeight (wantedWeight m) weight total)); simpl; [|by apply wp_ret].
  apply wp_bind, wp_ret, wp_ret. split; [done|]. intros ->%bool_decide_eq_true name Hn Hlow.
  exists name, type, p, id. by subst.
Qed.

Lemma buildAccepted_wp e d name p s Q :
  ae_Name e = Some name → ae_Properties e = Some p →
  Q {| tes_Name := ToLower name; tes_ResourceID := default "" (ae_ID e); tes_Weight := aep_Weight p;
       tes_Target := aep_Target p; tes_From := Some (de_FromCluster d) |} s →
  wp P (buildAcceptedEndpointStatus e d) s Q.
Proof.
  intros Hn Hp HQ. unfold buildAcceptedEndpointStatus. rewrite Hn, Hp.
  by apply wp_bind, wp_ret, wp_bind, wp_ret, wp_ret.
Qed.

Section exposing.
Context (m : TrafficManagerBackend) (p : TrafficManagerProfile) (atm : AtmProfile)
  (pn : string) (q : AtmProfileProperties) (si : ServiceImport)
  (desired0 : gmap string desiredEndpoint) (invalid : gmap string error).
Local Abbreviation ctx := (exposing m p atm pn q si desired0 invalid).
Local Abbreviation lowerNames := (omap (λ e, ToLower <$> ae_Name e)).

(** A planned endpoint is accounted for by an entry of the status. *)
Definition accounted (acc : list TrafficManagerEndpointStatus) (d : desiredEndpoint) : Prop :=
  ∃ es, es ∈ acc ∧ tes_From es = Some (de_FromCluster d).

(** The invariant of the first loop: what left the plan is accounted for, and
    none of the remaining endpoints has its name. *)
Record reviewing (rest : list AtmEndpoint)
    (st : gmap string desiredEndpoint * list TrafficManagerEndpointStatus) (s : knowledge) : Prop := {
  rv_ctx : ctx s;
  rv_rest e : e ∈ rest → e ∈ app_Endpoints q;
  rv_nodup : NoDup (lowerNames rest);
  rv_plan : st.1 ⊆ desired0;
  rv_done n d : desired0 !! n = Some d → st.1 !! n = None →
    accounted st.2 d ∧ n ∉ lowerNames rest;
  rv_accepts es : es ∈ st.2 → accepts s m es;
}.

Lemma reviewing_skip e rest st s : reviewing (e :: rest) st s → reviewing rest st s.
Proof.
  intros [Hc Hr Hnd Hp Hd Ha]. simpl in Hnd, Hd. split; [done| | |done| |done].
  - intros e' He'. apply Hr. by right.
  - destruct (ae_Name e); simpl in Hnd; [by apply NoDup_cons in Hnd as [_ ?]|done].
  - intros n d Hn Hnone. destruct (Hd n d Hn Hnone) as [? Hnot]. split; [done|].
    destruct (ae_Name e); simpl in Hnot; [by apply not_elem_of_cons in Hnot as [_ ?]|done].
Qed.

(** An endpoint that is not planned any more is stale. *)
Lemma reviewing_stale e name rest st s b :
  reviewing (e :: rest) st s → ae_Name e = Some name → st.1 !! ToLower name = None →
  sameBackend m b → stale s b (ToLower name).
Proof.
  intros [Hc _ _ _ Hd _] Hn Hnone Hs. right; right. pose proof (ex_plans _ _ _ _ _ _ _ _ _ Hc) as Hpl.
  split; [apply Hpl|]. intros c ex ip tot Hx Heq. rewrite (endpointName_same _ _ _ Hs) in Heq.
  destruct (plans_all _ _ _ _ _ Hpl _ _ _ _ Hx) as [d Hd0]. rewrite Heq in Hd0.
  destruct (Hd _ _ Hd0 Hnone) as [_ []]. simpl. rewrite Hn. by left.
Qed.


Lemma holds_same s : holds m s → ∃ b, live s b ∧ sameBackend m b.
Proof.
  intros [Hk _ (b & Hl & Hm & Hp & Hb & Hw)]. exists b. split; [done|].
  split; [|by rewrite Hm|done..]. unfold objectKey. simpl. by rewrite Hm.
Qed.

(** Deleting an endpoint that is not planned. *)
Lemma deleteStale_wp e name rest st s :
  reviewing (e :: rest) st s → ae_Name e = Some name →
  isEndpointOwnedByBackend m (ToLower name) = true → st.1 !! ToLower name = None →
  wp P (call (EEndpointDelete (tmp_ResourceGroup p) pn name)) s
    (λ err s', reviewing rest st s').
Proof.
  intros Hrv Hn Ho Hnone. pose proof Hrv as [[Hh _ _ Hp Ha Hpn Hq _] Hr _ _ _ _].
  destruct (holds_same s Hh) as (b & (Hqb & Hdb & _) & Hs).
  assert (e ∈ app_Endpoints q) as He by (apply Hr; by left).
  apply wp_call.
  { exists b, p, atm, q, e. do 8 (split; [done|]).
    split; [right; by apply isEndpointOwnedByBackend_spec;
      rewrite (ownedEndpoint_same m b _ (same_uid _ _ Hs))|].
    right. split; [done|]. by eapply reviewing_stale. }
  intros x _. cbn [next backendProtocol].
  assert (reviewing rest st (learnDeleted name s)) as Hdel.
  { apply reviewing_skip in Hrv as [Hc ?????]. split; try done. by apply exposing_deleted. }
  apply reviewing_skip in Hrv. by destruct x as [err|]; [destruct (azureerrors.IsNotFound (Some err))|].
Qed.

Lemma reviewEndpoint_wp e rest st s :
  reviewing (e :: rest) st s →
  wp P (reviewEndpoint (tmp_ResourceGroup p) m atm e st) s (λ r s',
    match r with inl failed => storeEnds failed s' | inr st' => reviewing rest st' s' end).
Proof.
  intros Hrv. destruct st as [des acc]. pose proof Hrv as [Hc Hr Hnd Hsub Hdone Hacc].
  pose proof Hc as [Hh _ _ _ Ha Hpn Hq Hpl]. unfold reviewEndpoint.
  destruct (ae_Name e) as [name|] eqn:Hn; [|by apply wp_ret, (reviewing_skip e)].
  destruct (isEndpointOwnedByBackend m (ToLower name)) eqn:Ho; simpl;
    [|by apply wp_ret, (reviewing_skip e)].
  destruct (des !! ToLower name) as [d|] eqn:Hd.
  - assert (desired0 !! ToLower name = Some d) as Hd0 by (by eapply lookup_weaken).
    destruct (plans_exposed _ _ _ _ _ Hpl _ _ Hd0) as (c & ex & ip & tot & Hx & Hlow & ->).
    apply wp_bind. eapply wp_mono; [apply equalEndpoint_wp|]. intros equal ? [-> Heq].
    destruct equal; [|by apply wp_ret, (reviewing_skip e)].
    pose proof (Heq eq_refl name Hn Hlow) as Hshape.
    pose proof Hshape as (_ & _ & ep & _ & _ & _ & _ & _ & Hep & _).
    apply wp_bind. eapply buildAccepted_wp; [done..|]. apply wp_ret.
    apply reviewing_skip in Hrv as Hskip. destruct Hskip as [_ Hr' Hnd' _ Hdone' _].
    split; [done|done|done| | |]; simpl.
    + etrans; [apply delete_subseteq|done].
    + intros n d' Hn' Hnone. destruct (decide (n = ToLower name)) as [->|Hne].
      * assert (d' = _) as -> by (rewrite Hd0 in Hn'; by injection Hn').
        split; [eexists; split; [apply elem_of_app; right; by apply list_elem_of_singleton|done]|].
        simpl in Hnd. rewrite Hn in Hnd. simpl in Hnd. by apply NoDup_cons in Hnd as [? _].
      * rewrite lookup_delete_ne in Hnone by done. destruct (Hdone' n d' Hn' Hnone) as [(es & Hes & Hfr) ?].
        split; [|done]. exists es. split; [apply elem_of_app; by left|done].
    + intros es [Hes| ->%list_elem_of_singleton]%elem_of_app; [by apply Hacc|].
      exists c, ex, ip, tot, e, name, ep. split; [done|]. split; [|done].
      left. exists atm, q. split; [done|]. split; [done|]. split; [apply Hr; by left|done].
  - rewrite Hpn. apply wp_bind, wp_ret, wp_bind. eapply wp_mono; [by eapply deleteStale_wp|].
    intros [err|] s' Hrv'; [|by apply wp_ret].
    destruct (azureerrors.IsNotFound (Some err)); [by apply wp_ret|].
    apply wp_bind, wp_Event; [done|]. intros ? _. apply wp_bind.
    eapply wp_mono; [apply reportUnknown_wp, Hrv'|]. intros failed s2 [Hs _]. by apply wp_ret.
Qed.


(** The invariant of the second loop: every planned endpoint is accounted for,
    still to be written, or one of the endpoints was refused. *)
Record programming (rest : list (string * desiredEndpoint))
    (st : list TrafficManagerEndpointStatus * list error) (s : knowledge) : Prop := {
  pg_ctx : ctx s;
  pg_rest n d : (n, d) ∈ rest → desired0 !! n = Some d;
  pg_plan n d : desired0 !! n = Some d → accounted st.1 d ∨ (n, d) ∈ rest ∨ st.2 ≠ [];
  pg_accepts es : es ∈ st.1 → accepts s m es;
  pg_refused : st.2 ≠ [] → q_refused s = true;
}.

Lemma writeEndpoint_allowed n d s :
  ctx s → desired0 !! n = Some d →
  mayWriteEndpoint s (tmp_ResourceGroup p) pn n (de_Endpoint d) ∧ ae_Name (de_Endpoint d) = Some n.
Proof.
  intros [Hh (b & Hb & Hcl) Hw Hp Ha Hpn Hq Hpl] Hn.
  destruct (plans_exposed _ _ _ _ _ Hpl _ _ Hn) as (c & ex & ip & tot & Hx & -> & ->).
  split; [|done]. destruct (holds_same s Hh) as (b' & Hl & Hs).
  assert (b' = b) as -> by (destruct Hl; congruence).
  exists b, p, atm, c, ex, ip, tot. split; [done|]. split; [done|].
  split; [by rewrite (same_weight _ _ Hs)|]. do 5 (split; [done|]).
  split; [by rewrite (endpointName_same _ _ _ Hs)|]. simpl.
  unfold endpointFor. by rewrite (endpointName_same _ _ _ Hs), (same_weight _ _ Hs).
Qed.

Lemma programEndpoint_wp n d rest st s :
  programming ((n, d) :: rest) st s →
  wp P (programEndpoint (tmp_ResourceGroup p) m atm (n, d) st) s (λ r s',
    match r with inl failed => storeEnds failed s' | inr st' => programming rest st' s' end).
Proof.
  intros [Hc Hr Hp Ha Hrf]. destruct st as [acc bad]. unfold programEndpoint. simpl.
  assert (desired0 !! n = Some d) as Hn by (apply Hr; by left).
  destruct (writeEndpoint_allowed n d s Hc Hn) as [Hal Hname]. rewrite Hname.
  apply wp_bind, wp_ret. rewrite (ex_name _ _ _ _ _ _ _ _ _ Hc). apply wp_bind, wp_ret.
  apply wp_bind, wp_call; [done|]. intros [err|e] Hans; cbn [next backendProtocol];
    set (s1 := learnWritten n _ s); assert (ctx s1) as Hc1 by (by apply exposing_written);
    assert (holds m s1) as Hh1 by apply Hc1;
    assert (∀ es, es ∈ acc → accepts s1 m es) as Ha1 by (intros; by apply accepts_written, Ha);
    apply wp_bind, wp_Event; try done; intros ? _; cbn [next backendProtocol].
  - destruct (asResponseError err).
    2: { apply wp_ret. destruct (holds_same s1 Hh1) as (b & Hl & _).
         split; [by exists b|]. split; [apply Hh1|done]. }
    destruct (_ && _).
    + apply wp_ret. split; [done| | |done|done]; simpl.
      * intros n' d' Hin. apply Hr. by right.
      * intros n' d' _. right; right. by destruct bad.
    + apply wp_bind. eapply wp_mono; [by apply reportUnknown_wp|]. intros failed s2 [Hs _]. by apply wp_ret.
  - destruct Hans as [[[en Hen] [ep Hep]] _].
    apply wp_bind. eapply buildAccepted_wp; [done..|]. apply wp_ret.
    destruct (plans_exposed _ _ _ _ _ (ex_plans _ _ _ _ _ _ _ _ _ Hc) _ _ Hn)
      as (c & ex & ip & tot & Hx & Hnc & Hd). split; [done| | | |done]; simpl.
    + intros n' d' Hin. apply Hr. by right.
    + intros n' d' Hn'. destruct (Hp n' d' Hn') as [(es & Hes & Hfr)|[[[= -> ->]|Hin]%elem_of_cons|?]].
      * left. exists es. split; [apply elem_of_app; by left|done].
      * left. eexists. split; [apply elem_of_app; right; by apply list_elem_of_singleton|done].
      * by right; left.
      * by right; right.
    + intros es [Hes| ->%list_elem_of_singleton]%elem_of_app; [by apply Ha1|].
      exists c, ex, ip, tot, e, en, ep. split; [done|]. split; [|by subst d].
      right. simpl. rewrite <-Hnc. by left.
Qed.

Lemma updateEndpoints_wp s :
  ctx s → NoDup (lowerNames (app_Endpoints q)) →
  wp P (updateTrafficManagerEndpointsAndUpdateStatusIfUnknown (tmp_ResourceGroup p) m atm desired0) s
    (λ r s', match r with inl failed => storeEnds failed s' | inr st => programming [] st s' end).
Proof.
  intros Hc Hnd. unfold updateTrafficManagerEndpointsAndUpdateStatusIfUnknown.
  rewrite (ex_properties _ _ _ _ _ _ _ _ _ Hc). apply wp_bind, wp_ret, wp_bind.
  apply (wp_for_range _ _ reviewing (app_Endpoints q) (desired0, [])).
  - intros e rest st s1 Hrv. eapply wp_mono; [by apply reviewEndpoint_wp|].
    intros [failed|st'] s2 Hx; [by apply wp_ret|done].
  - intros [des acc] s1 [Hc1 _ _ Hsub Hdone Ha]. simpl in *.
    apply wp_bind, wp_bind, wp_call; [done|]. intros order _. apply wp_ret.
    apply (wp_for_range _ _ programming).
    + intros [n d] rest st s2. apply programEndpoint_wp.
    + done.
    + split; [done| | |done|done]; simpl.
      * intros n d Hin%elem_of_permute%elem_of_map_to_list. by eapply lookup_weaken.
      * intros n d Hn. destruct (des !! n) as [d'|] eqn:Hd'.
        -- right; left. apply elem_of_permute, elem_of_map_to_list.
           assert (desired0 !! n = Some d') by (by eapply lookup_weaken). congruence.
        -- left. by apply (Hdone n).
  - split; [done|done|done|done| |]; simpl.
    + intros n d Hn Hnone. congruence.
    + by intros ? ?%not_elem_of_nil.
Qed.
End exposing.


Lemma plans_same s b m m' si desired invalid :
  sameBackend m m' → plans s m si desired invalid → plans (learnBackend b s) m' si desired invalid.
Proof.
  intros Hs [Hk Hx Ha Hc Hi]. split; [done| | | |done].
  - intros n d Hn. destruct (Hx n d Hn) as (c & ex & ip & tot & He & -> & ->). exists c, ex, ip, tot.
    split; [done|]. split; [by rewrite (endpointName_same _ _ _ Hs)|].
    unfold endpointFor. by rewrite (endpointName_same _ _ _ Hs), (same_weight _ _ Hs).
  - intros c ex ip tot He. rewrite (endpointName_same _ _ _ Hs). by eapply Ha.
  - intros c Hcl. rewrite (endpointName_same _ _ _ Hs). by apply Hc.
Qed.

(** Adding a finalizer to the backend in memory and storing it. *)
Lemma registerFinalizer_wp m f s :
  holds m s →
  wp P (Update Hub KTrafficManagerBackend (addFinalizer m f)) s (λ r s',
    match r.1 with
    | Some _ => s' = s ∧ objectKey r.2 = req
    | None => s' = learnBackend r.2 s ∧ holds r.2 s' ∧ sameBackend m r.2 ∧ f ∈ finalizersOf r.2
    end).
Proof.
  intros [Hk Hwt (b & (Hq & Hdb & Hmet) & Hm & Hp & Hb & Hw)].
  assert (∀ f', f' ∈ finalizersOf b → f' ∈ finalizersOf (addFinalizer m f)) as Hkeep.
  { intros f' Hf'. apply (addFinalizer_spec (T := TrafficManagerBackend)). left.
    unfold finalizersOf in *. simpl in *. by rewrite Hm. }
  apply wp_Update.
  { exists b. split; [done|].
    split; [rewrite <-Hk; apply (addFinalizer_key (T := TrafficManagerBackend))|].
    do 3 (split; [done|]). split; intros Hx; left; by apply Hkeep. }
  intros [err|o'] [Hsm Ha]; simpl.
  { split; [done|]. rewrite <-Hk. apply (addFinalizer_key (T := TrafficManagerBackend)). }
  simpl in o', Ha. destruct Ha as (Hp' & Hb' & Hw' & Hd' & Hu').
  destruct (addFinalizer_stored m o' f Hsm) as [Hhas Hk'].
  assert (wantedWeight o' = wantedWeight m) as Hww by (unfold wantedWeight; by rewrite Hw').
  split; [done|]. split; [|split; [by split|done]].
  split; [by rewrite <-Hk|by rewrite Hw', Hww|]. exists o'. split; [|done]. split; [done|]. split.
  - rewrite Hd', (addFinalizer_deleting (T := TrafficManagerBackend)), <-Hdb.
    unfold isDeleting. simpl. by rewrite Hm.
  - unfold hasMetrics. assert (finalizersOf o' = finalizersOf (addFinalizer m f)) as ->
      by exact (sameMeta_finalizers _ _ Hsm). by apply Hkeep.
Qed.

(** The status after the endpoints were brought to Azure. *)
Lemma programming_justified m p atm pn q si desired invalid acc bad s :
  programming m p atm pn q si desired invalid [] (acc, bad) s →
  justified s m acc (if bool_decide (size invalid = 0 ∧ bad = []) then ConditionTrue else ConditionFalse).
Proof.
  intros [Hc _ Hp Ha Hrf]. pose proof (ex_plans _ _ _ _ _ _ _ _ _ Hc) as Hpl. simpl in *. split; [done|].
  case_bool_decide as Hok.
  - destruct Hok as [Hz ->]. apply map_size_empty_iff in Hz. do 2 right. split; [done|].
    exists si. split; [apply Hpl|]. right. intros c Hcl.
    destruct (plans_clusters _ _ _ _ _ Hpl c Hcl) as [[d Hd]|]; [|done].
    destruct (Hp _ _ Hd) as [(es & Hes & Hfr)|[Hin|]]; [|by apply not_elem_of_nil in Hin|done].
    destruct (plans_exposed _ _ _ _ _ Hpl _ _ Hd) as (c' & ex & ip & tot & _ & Hn & ->).
    apply endpointName_inj in Hn as <-. by exists es, (weightOf ex).
  - right; left. split; [done|]. right. destruct (decide (bad = [])) as [->|Hbad].
    + left. apply (plans_invalid _ _ _ _ _ Hpl). intros ->. by apply Hok.
    + right. by apply Hrf.
Qed.

Lemma invalidMessage_wp bad invalid s Q :
  (∀ message, Q message s) → wp P (invalidMessage bad invalid) s Q.
Proof.
  intros HQ. apply wp_bind, wp_bind, wp_call; [done|]. intros order _. apply wp_ret.
  destruct (permute _ _) as [|[c err] l]; by apply wp_ret.
Qed.

Lemma exposeServices_wp m p atm pn q si desired invalid s :
  holds m s → wantedWeight m ≠ 0%Z → q_profile s = Some (Some p) → q_atm s = Some (Some atm) →
  ap_Name atm = Some pn → ap_Properties atm = Some q →
  NoDup (omap (λ e, ToLower <$> ae_Name e) (app_Endpoints q)) → plans s m si desired invalid →
  wp P (exposeServices m (tmp_ResourceGroup p) atm desired invalid) s updateEnds.
Proof.
  intros Hh Hw Hp Ha Hpn Hq Hnd Hpl. apply wp_bind.
  apply (wp_mono _ _ _ (λ r s', objectKey r.2 = req ∧ (∃ b, live s' b) ∧
    (r.1 = None → exposing r.2 p atm pn q si desired invalid s'))).
  { destruct (holds_same m s Hh) as (b & Hl & Hs). destruct (hasFinalizer m _) eqn:Hf.
    - apply hasFinalizer_spec in Hf. apply wp_ret. split; [apply Hh|]. split; [by exists b|]. intros _.
      pose proof Hh as [_ _ (b' & [Hb' _] & Hm & _)]. split; try done. exists b'. split; [done|].
      unfold hasCleanup, finalizersOf in *. simpl in *. by rewrite <-Hm.
    - eapply wp_mono; [by apply registerFinalizer_wp|]. intros [[err|] m'] s'; simpl.
      + intros [-> Hk]. split; [done|]. by split; [exists b|].
      + intros (-> & Hh' & Hs' & Hhas). split; [apply Hh'|].
        destruct (holds_same m' _ Hh') as (b' & Hl' & _). split; [by exists b'|]. intros _.
        split; try done; [by exists m'|by rewrite (same_weight _ _ Hs')|by eapply plans_same]. }
  intros [[err|] m'] s' (Hk & Hl & Hok); simpl in *.
  { apply wp_ret. split; [done|]. split; [done|]. simpl.
    by destruct (NewUpdateIgnoreConflictError_some err) as [? ->]. }
  apply wp_bind. eapply wp_mono; [apply (updateEndpoints_wp m' p atm pn q si desired invalid); [by apply Hok|done]|].
  intros [[err m2]|[acc bad]] s2 Hx; [by apply wp_ret|].
  pose proof (programming_justified _ _ _ _ _ _ _ _ _ _ _ Hx) as Hj.
  assert (holds m' s2) as Hh2 by apply Hx. apply wp_bind.
  apply (wp_mono _ _ _ (λ o s3, s3 = s2 ∧ holds o s2 ∧ reports s2 o)).
  { case_bool_decide; [by apply setStatus_wp|]. apply wp_bind, invalidMessage_wp. intros message.
    by apply setStatus_wp. }
  intros o ? (-> & Ho & Hr). apply wp_bind. eapply wp_mono; [by apply storeStatus_wp|].
  intros [[err|] b'] s3 (Hl3 & Hk3 & Hend); apply wp_ret; (split; [done|]); (split; [done|]); [done|].
  intros _. by apply Hend.
Qed.


Lemma removeEndpoints_wp m p atm si s :
  holds m s → wantedWeight m = 0%Z → q_profile s = Some (Some p) → q_atm s = Some (Some atm) →
  is_Some (ap_Name atm) → q_import s = Some (Some si) →
  wp P (removeEndpoints m (tmp_ResourceGroup p) atm) s updateEnds.
Proof.
  intros Hh Hw Hp Ha Hpn Hi. destruct (holds_same m s Hh) as (b & Hl & Hs).
  pose proof Hl as (Hq & Hd & _). apply wp_bind. eapply wp_mono.
  { apply (cleanupEndpoints_wp b p atm); try done; [by rewrite (same_uid _ _ Hs)|].
    right. split; [done|]. right. by rewrite (same_weight _ _ Hs). }
  intros [err|] s' [(d & _ & ->) Hc]; simpl in *.
  { apply wp_bind, wp_Event; [done|]. intros ? _. apply wp_ret. split; [by exists b|].
    split; [apply Hh|done]. }
  apply wp_bind, wp_Event; [done|]. intros ? _. cbn [next backendProtocol].
  apply wp_bind. eapply wp_mono; [apply setStatus_wp; [by apply (holds_known _ s)|]|].
  { split; [by intros ? ?%not_elem_of_nil|]. do 2 right. split; [done|]. exists si. split; [done|].
    left. split; [done|]. split; [done|]. apply (cleaned_same _ b); [by rewrite (same_uid _ _ Hs)|].
    by apply Hc. }
  intros o ? (-> & Ho & Hr). apply wp_bind. eapply wp_mono; [by apply storeStatus_wp|].
  intros [err b'] s' Hend. by apply wp_ret.
Qed.

Lemma exposeBackend_wp m s : holds m s → wp P (handleUpdate m) s updateEnds.
Proof.
  intros Hh. apply wp_bind. eapply wp_mono; [by apply validateTrafficManagerProfile_wp|].
  intros [[[p|] err] m1] s1 Hv; unfold validates in Hv; simpl in Hv; [|by destruct err; apply wp_ret].
  destruct Hv as (-> & -> & ->). assert (holds m (learnProfile (Some p) s)) as Hh1
    by (by apply (holds_known _ s)).
  apply wp_bind. eapply wp_mono; [by apply (validateAzureTrafficManagerProfile_wp m p)|].
  intros [[[atm|] err] m2] s2 [Hv Hatm]; unfold validates in Hv; simpl in Hv; [|by destruct err; apply wp_ret].
  destruct Hv as (-> & -> & ->). destruct (Hatm atm eq_refl) as (Hpn & q & Hq & Hnd).
  assert (holds m (learnAtm (Some atm) (learnProfile (Some p) s))) as Hh2 by (by apply (holds_known _ s)).
  apply wp_bind. eapply wp_mono; [by apply (validateServiceImport_wp m p atm)|].
  intros [[[si|] err] m3] s3 Hv; unfold validates in Hv; simpl in Hv; [|by destruct err; apply wp_ret].
  destruct Hv as (-> & -> & ->). set (s3 := learnImport _ _).
  assert (holds m s3) as Hh3 by (by apply (holds_known _ s)).
  rewrite (holds_weight _ _ Hh). apply wp_bind, wp_ret. destruct (Z.eqb_spec (wantedWeight m) 0) as [Hw|Hw].
  { by apply (removeEndpoints_wp m p atm si). }
  apply wp_bind. eapply wp_mono; [by apply (validateAndProcess_wp m si)|].
  intros [[[[desired invalid]|] err] m4] s4 Hv; simpl in Hv; [|by destruct err; apply wp_ret].
  destruct Hv as (-> & -> & (items & ->) & Hpl). destruct Hpn as [pn Hpn].
  by eapply exposeServices_wp; [apply (holds_known _ s)|..].
Qed.

(** *** Deletion *)

Lemma removeBackendFinalizers_wp b o (needUpdate : bool) s :
  q_backend s = Some b → isDeleting b = true → isDeleting o = true → objectKey o = req →
  sameBackend b o → ¬ hasCleanup o → ¬ hasMetrics o → (hasCleanup b → cleaned s b) →
  (hasMetrics b → q_metricsGone s = true) → (needUpdate = false → o = b) →
  wp P (removeBackendFinalizers o needUpdate) s roundEnds.
Proof.
  intros Hq Hd Hdo Hko Hs Hc Hm Hg Hmg Hb. destruct needUpdate; simpl.
  - apply wp_bind, wp_Update.
    { exists b. split; [done|]. split; [done|]. do 3 (split; [apply Hs|]). split; right; auto. }
    intros [err|o'] [Hsm Ha]; simpl; apply wp_ret.
    + intros Hn. by destruct (NewUpdateIgnoreConflictError_some err) as [? Hx]; rewrite Hx in Hn.
    + intros _ ? [= <-]. simpl in o', Ha. destruct Ha as (_ & _ & _ & Hd' & _). rewrite Hd', Hdo.
      assert (finalizersOf o' = finalizersOf o) as Hff by exact (sameMeta_finalizers _ _ Hsm).
      unfold hasCleanup, hasMetrics. by rewrite Hff.
  - apply wp_ret. intros _ ? [= <-]%(eq_trans (eq_sym Hq)). rewrite Hd. by rewrite <-(Hb eq_refl).
Qed.

Lemma deleteEndpoints_wp b o s :
  q_backend s = Some b → isDeleting b = true → hasCleanup b → sameBackend b o →
  wp P (deleteAzureTrafficManagerEndpoints o) s (λ err s', q_backend s' = Some b ∧
    q_metricsGone s' = q_metricsGone s ∧ (err = None → cleaned s' b)).
Proof.
  intros Hq Hd Hc Hs. apply wp_bind, wp_Get.
  { exists b. split; [done|]. unfold profileKey. rewrite (same_profile _ _ Hs).
    by injection (same_key _ _ Hs) as -> _. }
  intros [err|p] _; cbn [next backendProtocol].
  - destruct (IsNotFound err) eqn:Hnf; simpl; apply wp_ret.
    + split; [done|]. split; [done|]. intros _. by left.
    + split; [done|]. split; [done|]. intros Hn.
      by destruct (NewAPIServerError_some true err) as [? Hx]; rewrite Hx in Hn.
  - simpl in p. apply wp_bind, wp_call; [by exists p|]. intros [err|atm] [Hn Ha]; cbn [next backendProtocol].
    + destruct (azureerrors.IsNotFound (Some err)); apply wp_ret; [|done].
      split; [done|]. split; [done|]. intros _. by right; left.
    + eapply wp_mono; [apply (cleanupEndpoints_wp b p atm); try done; [by rewrite (same_uid _ _ Hs)|by left]|].
      intros err s' [(d & _ & ->) Hcl]. done.
Qed.

Lemma unexposeBackend_wp b s :
  q_backend s = Some b → isDeleting b = true → objectKey b = req →
  wp P (handleDelete b) s roundEnds.
Proof.
  intros Hq Hd Hk. apply wp_bind.
  apply (wp_mono _ _ _ (λ r s', q_backend s' = Some b ∧ isDeleting r.1 = true ∧ sameBackend b r.1 ∧
    ¬ hasMetrics r.1 ∧ (hasCleanup r.1 ↔ hasCleanup b) ∧ (hasMetrics b → q_metricsGone s' = true) ∧
    (r.2 = false → r.1 = b))).
  { destruct (hasFinalizer b MetricsFinalizer) eqn:Hf.
    - apply wp_bind, wp_call.
      { split; [done|]. split; [|by exists b]. by rewrite <-Hk. }
      intros ? _. apply wp_ret. simpl. split; [done|].
      split; [by rewrite (removeFinalizer_deleting (T := TrafficManagerBackend))|].
      split; [split; try done; apply (removeFinalizer_key (T := TrafficManagerBackend))|]. split.
      { unfold hasMetrics. rewrite (removeFinalizer_spec (T := TrafficManagerBackend)). tauto. }
      split; [|done]. unfold hasCleanup.
      rewrite (removeFinalizer_spec (T := TrafficManagerBackend)). naive_solver.
    - apply hasFinalizer_false in Hf. apply wp_ret. simpl. split; [done|]. split; [done|].
      split; [by split|]. naive_solver. }
  intros [o nu] s' (Hq' & Hdo & Hs & Hm & Hcl & Hmg & Hb). simpl in *.
  destruct (hasFinalizer o _) eqn:Hf.
  2: { apply hasFinalizer_false in Hf. apply (removeBackendFinalizers_wp b); try done.
       - by rewrite (same_key _ _ Hs).
       - by intros ?%Hcl. }
  apply hasFinalizer_spec in Hf. apply wp_bind.
  eapply wp_mono; [apply (deleteEndpoints_wp b); try done; by apply Hcl|].
  intros [err|] s2 (Hq2 & Hmg2 & Hclean); simpl.
  { apply wp_bind, wp_Event; [done|]. intros ? _. by apply wp_ret. }
  apply wp_bind, wp_Event; [done|]. intros ? _. cbn [next backendProtocol].
  apply (removeBackendFinalizers_wp b); try done.
  - etrans; [apply (removeFinalizer_key (T := TrafficManagerBackend))|]. by rewrite (same_key _ _ Hs).
  - by destruct Hs; split.
  - unfold hasCleanup. rewrite (removeFinalizer_spec (T := TrafficManagerBackend)). tauto.
  - unfold hasMetrics. rewrite (removeFinalizer_spec (T := TrafficManagerBackend)). tauto.
  - intros _. by apply Hclean.
  - intros Hx. rewrite Hmg2. by apply Hmg.
Qed.


Lemma emitBackendMetric_wp m s Q :
  objectKey m = req → (∃ b, live s b) → Q tt s →
  wp P (emitTrafficManagerBackendStatusMetric m) s Q.
Proof.
  intros Hk Hl HQ. unfold emitTrafficManagerBackendStatusMetric.
  destruct (FindStatusCondition _ _) as [c|]; [|by apply wp_ret].
  destruct (_ =? _)%Z; [|by apply wp_ret]. apply wp_bind, wp_Now; [done|]. intros now _.
  apply wp_call; [|by intros [] _]. split; [done|]. split; [|done]. by rewrite <-Hk.
Qed.

(** C8: a round of the TrafficManagerBackend controller deletes only endpoints
    of the Azure profile that carry the prefix of its backend, and only when the
    backend is being deleted, its import is gone, its weight is zero or nothing
    exposed is behind the endpoint, in any interleaving of the deletions; it
    writes an endpoint only with the cleanup finalizer stored, for a cluster the
    ServiceImport lists and whose export has a public load balancer with a DNS
    label, with that address and the share of the weight the export is due; the
    finalizer goes only when no endpoint of the backend is left. Every endpoint
    the status lists is one Azure has, [Accepted] is reported only when every
    cluster of the import has one (or the weight is zero and none is left), and
    it is denied only for a reason. When the round ends without an error, no
    finalizer is left on a deleted backend, and a live one has such a status. *)
Theorem Reconcile_follows_backend_protocol : wp P (Reconcile req) nothingKnown roundEnds.
Proof.
  apply wp_bind, wp_Get; [done|]. intros [err|b] [Hk _]; simpl.
  { by destruct (IsNotFound err); apply wp_ret. }
  simpl in b, Hk. destruct (isDeleting b) eqn:Hdel; [by apply unexposeBackend_wp|]. apply wp_bind.
  apply (wp_mono _ _ _ (λ r s', r.1 = None → live s' r.2 ∧ objectKey r.2 = req)).
  { destruct (hasFinalizer b _) eqn:Hf.
    - apply hasFinalizer_spec in Hf. by apply wp_ret.
    - apply wp_Update.
      { exists b. split; [done|].
        split; [rewrite <-Hk; apply (addFinalizer_key (T := TrafficManagerBackend))|].
        do 3 (split; [done|]).
        split; intros Hx; left; apply (addFinalizer_spec (T := TrafficManagerBackend)); by left. }
      intros [err|o'] [Hsm Ha]; simpl; [done|]. intros _. simpl in o', Ha.
      destruct Ha as (_ & _ & _ & Hd' & _), (addFinalizer_stored b o' MetricsFinalizer Hsm) as [Hhas Hk'].
      split; [|by rewrite <-Hk]. split; [done|]. split; [|done].
      by rewrite Hd', (addFinalizer_deleting (T := TrafficManagerBackend)). }
  intros [[err|] m] s Hok; simpl; [by apply wp_ret|]. destruct (Hok eq_refl) as [Hl Hkm].
  apply wp_bind. eapply wp_mono; [apply exposeBackend_wp|].
  { split; [exact Hkm|done|]. by exists m. }
  intros [[res err] m'] s' (Hl' & Hk' & Hend). simpl in *.
  apply wp_bind, emitBackendMetric_wp; [done..|]. by apply wp_ret.
Qed.
End safety.

(** ** The weights *)

Section weights.
Context {conv : FloatConversion}.
Local Open Scope Z_scope.

(** The floating point share is the exact one, rounded up. *)
Lemma desiredWeight_exact bw w total :
  0 ≤ bw ≤ 1000 → 0 ≤ w ≤ 1000 → 0 < total < 2 ^ 53 →
  desiredWeight bw w total = ceilDiv (bw * w) total.
Proof.
  intros Hbw Hw Ht. assert (0 ≤ bw * w ≤ 1000 * 1000) by nia. unfold desiredWeight.
  rewrite wrap64_id by lia. apply Ceil_div_exact; lia.
Qed.

Definition sumZ (l : list Z) : Z := foldr Z.add 0 l.

Lemma sumZ_cons x l : sumZ (x :: l) = x + sumZ l.
Proof. done. Qed.

Lemma shares_bounds bw total ws :
  0 < total → sumZ ((λ w, bw * w) <$> ws) ≤ sumZ ((λ w, ceilDiv (bw * w) total) <$> ws) * total ∧
  (ws ≠ [] → sumZ ((λ w, ceilDiv (bw * w) total) <$> ws) * total <
    sumZ ((λ w, bw * w) <$> ws) + Z.of_nat (length ws) * total).
Proof.
  intros Ht. induction ws as [|w ws [IH1 IH2]]; [done|]. pose proof (ceilDiv_spec (bw * w) total Ht).
  rewrite !fmap_cons, !sumZ_cons. cbn [length].
  set (a := sumZ _) in *. set (c := sumZ _) in *. rewrite Nat2Z.inj_succ.
  split; [nia|]. intros _. destruct ws as [|w' ws'].
  - assert (a = 0) by done. assert (c = 0) by done. simpl. nia.
  - specialize (IH2 ltac:(done)). nia.
Qed.
Lemma sumZ_scale bw ws : sumZ ((λ w, bw * w) <$> ws) = bw * sumZ ws.
Proof. induction ws as [|w ws IH]; [simpl; lia|]. rewrite fmap_cons, !sumZ_cons, IH. lia. Qed.

Lemma sumZ_elem ws w : (∀ w, w ∈ ws → 0 ≤ w) → w ∈ ws → w ≤ sumZ ws.
Proof.
  induction ws as [|w' ws IH]; [by intros _ ?%not_elem_of_nil|]. intros Hpos Hin.
  assert (0 ≤ sumZ ws).
  { clear -Hpos. induction ws as [|x ws IHws]; [done|]. rewrite sumZ_cons.
    assert (0 ≤ x) by (apply Hpos; set_solver). assert (0 ≤ sumZ ws); [|lia].
    apply IHws. intros y Hy. apply Hpos. set_solver. }
  rewrite sumZ_cons. assert (0 ≤ w') by (apply Hpos; by left).
  apply elem_of_cons in Hin as [->|Hin]; [lia|]. assert (w ≤ sumZ ws); [|lia].
  apply IH; [|done]. intros y Hy. apply Hpos. by right.
Qed.

(** The weights of the exports that become endpoints, cluster by cluster. *)
Definition exposedWeight (exports : gmap string InternalServiceExport) (c : ClusterStatus) : option Z :=
  match exports !! cs_Cluster c with
  | Some e => if bool_decide (isValidTrafficManagerEndpoint e = None) then Some (weightOf e) else None
  | None => None
  end.
Lemma totalWeight_sum exports clusters start :
  (∀ w, w ∈ omap (exposedWeight exports) clusters → 0 ≤ w ≤ 1000) → 0 ≤ start →
  start + 1000 * Z.of_nat (length clusters) < 2 ^ 63 →
  totalWeight exports clusters start = start + sumZ (omap (exposedWeight exports) clusters).
Proof.
  revert start. induction clusters as [|c clusters IH]; intros start Hw H0 Hb; [simpl; lia|].
  unfold totalWeight. cbn [foldl omap list_omap]. cbn [length] in Hb. rewrite Nat2Z.inj_succ in Hb.
  cbn [omap list_omap] in Hw. unfold exposedWeight at 1. unfold exposedWeight at 1 in Hw.
  destruct (exports !! cs_Cluster c) as [e|]; [|apply IH; [done|lia..]].
  case_bool_decide; [|apply IH; [done|lia..]].
  assert (0 ≤ weightOf e ≤ 1000) by (apply Hw; by left).
  rewrite sumZ_cons, wrap64_id by lia. rewrite Z.add_assoc. apply IH; [|lia..].
  intros w Hin. apply Hw. by right.
Qed.

Lemma sumZ_bound ws : (∀ w, w ∈ ws → w ≤ 1000) → sumZ ws ≤ 1000 * Z.of_nat (length ws).
Proof.
  induction ws as [|w ws IH]; intros Hw; [done|]. rewrite sumZ_cons. cbn [length].
  rewrite Nat2Z.inj_succ. assert (w ≤ 1000) by (apply Hw; by left).
  assert (sumZ ws ≤ 1000 * Z.of_nat (length ws)); [|lia]. apply IH. intros y Hy. apply Hw. by right.
Qed.

Lemma shares_of_total bw total ws :
  0 < bw ≤ 1000 → (∀ w, w ∈ ws → 0 ≤ w ≤ 1000) → total = sumZ ws → 0 < total < 2 ^ 53 →
  (∀ w, w ∈ ws → desiredWeight bw w total = ceilDiv (bw * w) total ∧
     0 ≤ desiredWeight bw w total ≤ bw ∧ (0 < w → 1 ≤ desiredWeight bw w total)) ∧
  bw ≤ sumZ ((λ w, desiredWeight bw w total) <$> ws) < bw + Z.of_nat (length ws).
Proof.
  intros Hbw Hws -> Ht.
  assert (∀ w, w ∈ ws → desiredWeight bw w (sumZ ws) = ceilDiv (bw * w) (sumZ ws)) as Hex.
  { intros w Hw%Hws. apply desiredWeight_exact; lia. }
  split.
  - intros w Hw. rewrite (Hex w Hw). split; [done|]. pose proof (Hws w Hw).
    pose proof (ceilDiv_spec (bw * w) (sumZ ws) ltac:(lia)).
    assert (w ≤ sumZ ws) by (apply sumZ_elem; [intros ? ?%Hws; lia|done]). split; [nia|]. nia.
  - assert ((λ w, desiredWeight bw w (sumZ ws)) <$> ws = (λ w, ceilDiv (bw * w) (sumZ ws)) <$> ws) as ->.
    { apply list_fmap_ext. intros i w Hi. apply Hex. by eapply list_elem_of_lookup_2. }
    destruct (shares_bounds bw (sumZ ws) ws ltac:(lia)) as [H1 H2]. rewrite sumZ_scale in H1, H2.
    assert (ws ≠ []) as Hne by (intros ->; simpl in Ht; lia). specialize (H2 Hne). nia.
Qed.

(** C9: the weights that the endpoints behind a backend get in 64-bit and
    floating point arithmetic are the exact shares of the weight of the backend,
    rounded up: the total is the sum of the weights of the exposed exports, each
    share lies between zero and the weight of the backend, it is at least one
    when the export has a weight, and together the shares exceed the weight of
    the backend by less than the number of endpoints. *)
Theorem weights_share_the_backend b bw exports clusters col :
  let ws := omap (exposedWeight exports) clusters in
  (∀ c e, exports !! c = Some e → clusterOf e = c) →
  collectEndpoints b exports clusters nothingCollected = inr col →
  0 < bw ≤ 1000 → (∀ w, w ∈ ws → 0 ≤ w ≤ 1000) → 0 < sumZ ws → Z.of_nat (length clusters) < 2 ^ 40 →
  let share w := desiredWeight bw w (col_total col) in
  col_total col = sumZ ws ∧
  (∀ w, w ∈ ws → share w = ceilDiv (bw * w) (sumZ ws) ∧ 0 ≤ share w ≤ bw ∧ (0 < w → 1 ≤ share w)) ∧
  bw ≤ sumZ (share <$> ws) < bw + Z.of_nat (length ws).
Proof.
  intros ws Hkey Hcol%(collectEndpoints_spec _ _ _ _ _ Hkey) Hbw Hws Hpos Hlen share.
  assert (col_total col = sumZ ws) as Ht.
  { rewrite (collects_total _ _ _ _ _ Hcol), totalWeight_sum; [done|done|simpl; lia..]. }
  assert (sumZ ws < 2 ^ 53).
  { pose proof (sumZ_bound ws (λ w H, proj2 (Hws w H))).
    assert (length ws ≤ length clusters)%nat by apply length_omap_le. lia. }
  split; [done|]. unfold share. rewrite <-Ht. by apply shares_of_total; [..|lia].
Qed.
End weights.

(** ** Corners of the code *)

Section corners.
Context {util : ControllerUtil} {fleetUtil : FleetUtil} {conv : FloatConversion}.

(** A profile without properties is an empty one when endpoints are removed, and
    a nil dereference when they are updated. *)
Lemma missing_properties_panic rg backend profile desired :
  ap_Properties profile = None →
  cleanupEndpoints rg backend profile = mret None ∧
  updateTrafficManagerEndpointsAndUpdateStatusIfUnknown rg backend profile desired = Panic "nil pointer dereference".
Proof.
  intros Hp. unfold cleanupEndpoints, updateTrafficManagerEndpointsAndUpdateStatusIfUnknown.
  by rewrite Hp.
Qed.

(** The names of endpoints are compared as they are when endpoints are removed,
    and in lower case when they are updated. *)
Lemma cleanup_is_case_sensitive : ∃ backend endpoint name,
  ae_Name endpoint = Some name ∧ isEndpointOwnedByBackend backend (ToLower name) = true ∧
  ownedEndpoints backend [endpoint] = [].
Proof.
  exists {| tmb_TypeMeta := {| tm_Kind := ""; tm_APIVersion := "" |};
    tmb_ObjectMeta := newObjectMeta "work" "app"; tmb_Profile := "p"; tmb_Backend := "app";
    tmb_Weight := None; tmb_Endpoints := []; tmb_Conditions := [] |}.
  exists {| ae_ID := None; ae_Name := Some "Fleet-#app#bravelion"; ae_Type := None;
            ae_Properties := None |}, "Fleet-#app#bravelion".
  by vm_compute.
Qed.

(** When all the exports have weight zero the share is 0/0, and what becomes of
    it is up to the Go implementation. *)
Lemma zero_weights_are_not_numbers bw : desiredWeight bw 0 0 = outOfRange NaN.
Proof. unfold desiredWeight. by rewrite Z.mul_0_r. Qed.
End corners.

(** ** A concrete fleet *)

Module Demo.
Definition name : NamespacedName := {| nn_Namespace := "work"; nn_Name := "app-backend" |}.
Definition backend : TrafficManagerBackend := {|
  tmb_TypeMeta := {| tm_Kind := "TrafficManagerBackend"; tm_APIVersion := "v1beta1" |};
  tmb_ObjectMeta := newObjectMeta "work" "app-backend"; tmb_Profile := "app-profile";
  tmb_Backend := "app"; tmb_Weight := Some 100%Z; tmb_Endpoints := []; tmb_Conditions := [] |}.
Definition profile : TrafficManagerProfile := {|
  tmp_TypeMeta := {| tm_Kind := "TrafficManagerProfile"; tm_APIVersion := "v1beta1" |};
  tmp_ObjectMeta := newObjectMeta "work" "app-profile"; tmp_ResourceGroup := "rg";
  tmp_MonitorConfig := None; tmp_DNSName := None; tmp_ResourceID := "/id";
  tmp_Conditions := [{| c_Type := TrafficManagerProfileConditionProgrammed; c_Status := ConditionTrue;
    c_ObservedGeneration := 0%Z; c_LastTransitionTime := None;
    c_Reason := TrafficManagerProfileReasonProgrammed; c_Message := "" |}] |}.
Definition import : ServiceImport := {|
  si_TypeMeta := {| tm_Kind := "ServiceImport"; tm_APIVersion := "v1alpha1" |};
  si_ObjectMeta := newObjectMeta "work" "app";
  si_Status := {| sis_IPs := []; sis_Type := ""; sis_SessionAffinity := "";
    sis_SessionAffinityConfig := None; sis_Ports := [];
    sis_Clusters := [{| cs_Cluster := "bravelion" |}; {| cs_Cluster := "smartfish" |}] |} |}.
Definition exportKey (cluster : string) : NamespacedName :=
  {| nn_Namespace := "fleet-member-" +:+ cluster; nn_Name := "work-app" |}.
Definition export (type cluster : string) (weight : Z) : InternalServiceExport := {|
  ise_TypeMeta := {| tm_Kind := "InternalServiceExport"; tm_APIVersion := "v1alpha1" |};
  ise_ObjectMeta := newObjectMeta ("fleet-member-" +:+ cluster) "work-app";
  ise_Spec := {| ise_Ports := [];
    ise_ServiceReference := {| ref_ClusterID := cluster; ref_APIVersion := "v1";
      ref_Kind := "Service"; ref_Namespace := "work"; ref_Name := "app";
      ref_ResourceVersion := "1"; ref_Generation := 1; ref_UID := "uid";
      ref_NamespacedName := "work/app"; ref_ExportedSince := None |};
    ise_Type := type; ise_IsDNSLabelConfigured := true;
    ise_IsInternalLoadBalancer := false; ise_PublicIPResourceID := Some ("/ip/" +:+ cluster);
    ise_Weight := Some weight |};
  ise_Conditions := [] |}.
Definition exports (type : string) : list InternalServiceExport :=
  [export ServiceTypeLoadBalancer "bravelion" 1; export type "smartfish" 2].
Definition world0 (type : string) : world := {|
  w_member := emptyStore;
  w_hub := storeAlter KTrafficManagerBackend <[name := backend]>
    (storeAlter KTrafficManagerProfile <[profileKey backend := profile]>
    (storeAlter KServiceImport <[importKey backend := import]>
    (storeAlter KInternalServiceExport (λ m, foldr (λ e, <[exportKey (clusterOf e) := e]>) m (exports type))
       emptyStore)));
  w_version := 1; w_clock := 0%Z |}.
Definition index (k : kind) (f : string) : obj k → list string :=
  match k return obj k → list string with
  | KInternalServiceExport => λ e, [ref_NamespacedName (ise_ServiceReference (ise_Spec e))]
  | _ => λ _, []
  end.
(** Azure has the profile, with an endpoint of a cluster that has left. *)
Definition atmProfile : AtmProfile := {|
  ap_ID := Some "/id"; ap_Name := Some "fleet-"; ap_Location := None; ap_Tags := None;
  ap_Properties := Some {| app_DNSConfig := None;
    app_Endpoints := [{| ae_ID := None; ae_Name := Some (endpointName backend "oldcluster");
                         ae_Type := None; ae_Properties := None |}];
    app_MonitorConfig := None; app_ProfileStatus := None; app_TrafficRoutingMethod := None |} |}.
Definition serveAzure X (e : eff X) : world → X * world :=
  match e in eff X return world → X * world with
  | EProfileGet _ _ => λ w, (inr atmProfile, w)
  | e => serve index _ e
  end.
#[local] Instance amd64 : FloatConversion := {| outOfRange _ := (- 2 ^ 63)%Z |}.
(** The finalizers, the endpoints and the verdict after a round. *)
Definition after (type : string) : option (list string * list (string * option Z) * option string) :=
  let w := (run serveAzure (Reconcile (util := Reference.util) (fleetUtil := Reference.fleetUtil)
    (fleetCond := Reference.fleetCondition) name) (world0 type)).2 in
  (λ b, (finalizersOf b, (λ e, (tes_Name e, tes_Weight e)) <$> tmb_Endpoints b,
         c_Reason <$> Reference.findCondition (tmb_Conditions b) TrafficManagerBackendConditionAccepted)) <$>
    w_hub w KTrafficManagerBackend !! name.
End Demo.

Lemma Reconcile_follows_backend_protocol_witness :
  wp (backendProtocol (util := Reference.util) (fleetCond := Reference.fleetCondition) (conv := Demo.amd64)
        Demo.name)
    (Reconcile (util := Reference.util) (fleetUtil := Reference.fleetUtil)
       (fleetCond := Reference.fleetCondition) (conv := Demo.amd64) Demo.name)
    nothingKnown (roundEnds (util := Reference.util) (fleetCond := Reference.fleetCondition)
      (conv := Demo.amd64)) ∧
  Demo.after ServiceTypeLoadBalancer = Some ([MetricsFinalizer; TrafficManagerBackendFinalizer],
    [("fleet-#app#smartfish", Some 67%Z); ("fleet-#app#bravelion", Some 34%Z)],
    Some TrafficManagerBackendReasonAccepted) ∧
  Demo.after "ClusterIP" = Some ([MetricsFinalizer; TrafficManagerBackendFinalizer],
    [("fleet-#app#bravelion", Some 100%Z)], Some TrafficManagerBackendReasonInvalid).
Proof.
  split; [apply (Reconcile_follows_backend_protocol (laws := Reference.laws)
                   (fleetLaws := Reference.fleetUtil_laws)
                   (fleetCondLaws := Reference.fleetCondition_laws))|].
  vm_compute. split; reflexivity.
Defined.

Lemma weights_share_the_backend_witness :
  let exports := exportsByCluster (Demo.exports ServiceTypeLoadBalancer) in
  ∃ col, collectEndpoints Demo.backend exports (sis_Clusters (si_Status Demo.import)) nothingCollected
      = inr col ∧
    col_total col = 3%Z ∧
    (100 ≤ sumZ ((λ w, desiredWeight (H := Demo.amd64) 100 w (col_total col)) <$> [1; 2]) < 102)%Z.
Proof.
  intros exports. set (clusters := sis_Clusters (si_Status Demo.import)).
  destruct (collectEndpoints Demo.backend exports clusters nothingCollected) as [c|col] eqn:Hcol;
    [by vm_compute in Hcol|].
  exists col. split; [done|].
  destruct (weights_share_the_backend (conv := Demo.amd64) Demo.backend 100 exports clusters col)
    as (Htotal & _ & Hsum); [|done|lia| | |done|].
  - intros c e He. subst exports. unfold exportsByCluster in He. simpl in He.
    by repeat (apply lookup_insert_Some in He as [[<- <-]|[_ He]]; [done|]).
  - intros w Hw. vm_compute in Hw. set_solver by lia.
  - by vm_compute.
  - split; [by rewrite Htotal; vm_compute|]. exact Hsum.
Defined.

Lemma missing_properties_panic_witness :
  let bare := {| ap_ID := None; ap_Name := Some "fleet-"; ap_Location := None; ap_Tags := None;
                 ap_Properties := None |} in
  cleanupEndpoints "rg" Demo.backend bare = mret None ∧
  updateTrafficManagerEndpointsAndUpdateStatusIfUnknown (util := Reference.util)
    (fleetUtil := Reference.fleetUtil) "rg" Demo.backend bare ∅ = Panic "nil pointer dereference".
Proof. intros bare. by apply missing_properties_panic. Defined.

End trafficmanagerbackend.
