(* ===== verification/TrafficManagerBackendWatches.v ===== *)
(** * [pkg/controllers/hub/trafficmanagerbackend]: what starts a round

    The watches that [SetupWithManager] registers: the indexes, and the handlers
    that turn an event on a profile, an import or an export into requests for
    the backends that depend on it. *)

From S2P Require Import Prelude Prog Go Api Fleet Azure Effects Deps.
From S2P Require Import Protocols ApiServer Conditions ObjectMeta TrafficManagerBackendController.

Module trafficmanagerbackendwatches.
Import trafficmanagerbackend.

(** ** Indexes and handlers *)

Definition profileIndexerFunc (b : TrafficManagerBackend) : list string := [tmb_Profile b].
Definition backendIndexerFunc (b : TrafficManagerBackend) : list string := [tmb_Backend b].
Definition internalServiceExportIndexerFunc (e : InternalServiceExport) : list string :=
  [ref_NamespacedName (ise_ServiceReference (ise_Spec e))].

(** The events of a watch; [None] is an object that is missing or of another
    type. *)
Inductive event (A : Type) :=
| CreateEvent (o : A)
| UpdateEvent (old new : option A)
| DeleteEvent (o : A)
| GenericEvent (o : A).
Arguments CreateEvent {A}. Arguments UpdateEvent {A}.
Arguments DeleteEvent {A}. Arguments GenericEvent {A}.

Section watches.
Context {util : ControllerUtil} {fleetCond : FleetCondition}.

Definition onTrafficManagerProfile (e : event TrafficManagerProfile) : IO (list NamespacedName) :=
  match e with
  | CreateEvent _ => mret []
  | UpdateEvent (Some old) (Some new) =>
      if negb (shouldHandleTrafficManagerProfileUpdateEvent old new) then mret []
      else handleTrafficManagerProfileEvent new
  | UpdateEvent _ _ => mret []
  | DeleteEvent o | GenericEvent o => handleTrafficManagerProfileEvent o
  end.
Definition onServiceImport (e : event ServiceImport) : IO (list NamespacedName) :=
  match e with
  | CreateEvent _ => mret []
  | UpdateEvent (Some old) (Some new) =>
      if negb (shouldHandleServiceImportUpateEvent old new) then mret []
      else handleServiceImportEvent new
  | UpdateEvent _ _ => mret []
  | DeleteEvent o | GenericEvent o => handleServiceImportEvent o
  end.
Definition onInternalServiceExport (e : event InternalServiceExport) : IO (list NamespacedName) :=
  match e with
  | CreateEvent _ | DeleteEvent _ => mret []
  | UpdateEvent (Some old) (Some new) =>
      if negb (shouldHandleInternalServiceExportUpdateEvent old new) then mret []
      else handleInternalServiceExportEvent new
  | UpdateEvent _ _ => mret []
  | GenericEvent o => handleInternalServiceExportEvent o
  end.
End watches.

(** The index that answers the field selectors. *)
Definition watchIndex (k : kind) (field : string) : obj k → list string :=
  match k return obj k → list string with
  | KTrafficManagerBackend => λ b,
      if decide (field = trafficManagerBackendProfileFieldKey) then profileIndexerFunc b
      else if decide (field = trafficManagerBackendBackendFieldKey) then backendIndexerFunc b
      else []
  | KInternalServiceExport => internalServiceExportIndexerFunc
  | _ => λ _, []
  end.

(** ** The requests of an event *)

Definition serviceOf (e : InternalServiceExport) : NamespacedName :=
  {| nn_Namespace := ref_Namespace (ise_ServiceReference (ise_Spec e));
     nn_Name := ref_Name (ise_ServiceReference (ise_Spec e)) |}.
Definition backends (w : world) (P : TrafficManagerBackend → Prop) (keys : list NamespacedName) : Prop :=
  ∀ key, key ∈ keys ↔ ∃ b : TrafficManagerBackend, w_hub w KTrafficManagerBackend !! key = Some b ∧ P b.

Lemma backends_ext w (P Q : TrafficManagerBackend → Prop) keys :
  (∀ b, P b ↔ Q b) → backends w P keys → backends w Q keys.
Proof. intros HPQ Hb key. rewrite (Hb key). naive_solver. Qed.

Lemma list_backends w ns field value f :
  keyed w → (∀ b, watchIndex KTrafficManagerBackend field b = [f b]) →
  run (serve watchIndex) (got ← List Hub KTrafficManagerBackend (backendsIn ns field value);
                          mret (requestsOf got)) w =
    (Done (objectKey <$> serveList watchIndex Hub KTrafficManagerBackend (backendsIn ns field value) w), w) ∧
  backends w (λ b, om_Namespace (tmb_ObjectMeta b) = ns ∧ f b = value)
    (objectKey <$> serveList watchIndex Hub KTrafficManagerBackend (backendsIn ns field value) w).
Proof.
  intros Hk Hf. split; [done|]. intros key. rewrite list_elem_of_fmap. unfold serveList.
  assert (∀ b, selects watchIndex KTrafficManagerBackend (backendsIn ns field value) b = true ↔
    om_Namespace (tmb_ObjectMeta b) = ns ∧ f b = value) as Hsel.
  { intros b. unfold selects, backendsIn. cbn [lo_Namespace lo_Labels lo_Fields forallb].
    rewrite Hf, !andb_true_iff, !bool_decide_eq_true, list_elem_of_singleton.
    change (objectMeta b) with (tmb_ObjectMeta b). naive_solver. }
  split.
  - intros (b & -> & [Hb Hin]%list_elem_of_filter).
    apply list_elem_of_fmap in Hin as ([key b'] & -> & Hin%elem_of_map_to_list). simpl in *.
    exists b'. split; [|by apply Hsel]. etrans; [|exact Hin]. f_equal.
    exact (Hk Hub KTrafficManagerBackend _ _ Hin).
  - intros (b & Hin & Hb%Hsel). exists b. split; [symmetry; exact (Hk Hub KTrafficManagerBackend _ _ Hin)|].
    apply list_elem_of_filter. split; [done|]. apply list_elem_of_fmap. exists (key, b).
    split; [done|]. by apply elem_of_map_to_list.
Qed.

Section requests.
Context {util : ControllerUtil} {fleetCond : FleetCondition}.

Lemma run_bind_Get {B} c k key w (K : error + obj k → IO B) r :
  serveGet c k key w = r →
  run (serve watchIndex) (got ← Get c k key; K got) w = run (serve watchIndex) (K r) w.
Proof. by intros <-. Qed.
Lemma run_for_range {A S R} (body : A → S → IO (R + S)) (step : A → S → S) l st w :
  (∀ a st, run (serve watchIndex) (body a st) w = (Done (inr (step a st)), w)) →
  run (serve watchIndex) (for_range body l st) w = (Done (inr (foldl (flip step) st l)), w).
Proof.
  intros Hb. revert st. induction l as [|a l IH]; intros st; simpl; [done|].
  rewrite run_bind, Hb. simpl. apply IH.
Qed.

Lemma key_parts (b : TrafficManagerBackend) f (o : NamespacedName) :
  om_Namespace (tmb_ObjectMeta b) = nn_Namespace o ∧ f = nn_Name o ↔
  {| nn_Namespace := om_Namespace (tmb_ObjectMeta b); nn_Name := f |} = o.
Proof. destruct o as [ns n]. simpl. split; [by intros [-> ->]|by intros [= -> ->]]. Qed.

Lemma profile_event w (profile : TrafficManagerProfile) :
  keyed w → ∃ keys, run (serve watchIndex) (handleTrafficManagerProfileEvent profile) w = (Done keys, w) ∧
    backends w (λ b, profileKey b = objectKey profile) keys.
Proof.
  intros Hk. eexists. destruct (list_backends w (om_Namespace (tmp_ObjectMeta profile))
    trafficManagerBackendProfileFieldKey (om_Name (tmp_ObjectMeta profile)) tmb_Profile Hk) as [Hr Hb];
    [done|]. split; [exact Hr|]. eapply backends_ext; [|exact Hb].
  intros b. exact (key_parts b (tmb_Profile b) (objectKey profile)).
Qed.
Lemma import_event w (import : ServiceImport) :
  keyed w → ∃ keys, run (serve watchIndex) (handleServiceImportEvent import) w = (Done keys, w) ∧
    backends w (λ b, importKey b = objectKey import) keys.
Proof.
  intros Hk. eexists. destruct (list_backends w (om_Namespace (si_ObjectMeta import))
    trafficManagerBackendBackendFieldKey (om_Name (si_ObjectMeta import)) tmb_Backend Hk) as [Hr Hb];
    [done|]. split; [exact Hr|]. eapply backends_ext; [|exact Hb].
  intros b. exact (key_parts b (tmb_Backend b) (objectKey import)).
Qed.

(** The loop over the clusters of the import adds the backends of the import for
    every entry of the cluster. *)
Lemma elem_of_repeated {A} cluster (keys : list A) clusters acc x :
  x ∈ foldl (flip (λ cs acc, if bool_decide (cs_Cluster cs = cluster) then acc ++ keys else acc))
        acc clusters ↔
  x ∈ acc ∨ x ∈ keys ∧ {| cs_Cluster := cluster |} ∈ clusters.
Proof.
  revert acc. induction clusters as [|[c] clusters IH]; intros acc; simpl; [set_solver|].
  rewrite IH, elem_of_cons. case_bool_decide as Hc; [subst; set_solver|].
  split; [naive_solver|]. intros [?|[? [[= <-]|?]]]; [tauto|done|tauto].
Qed.

Lemma export_event w (export : InternalServiceExport) :
  keyed w → let key := serviceOf export in
  ∃ keys, run (serve watchIndex) (handleInternalServiceExportEvent export) w = (Done keys, w) ∧
    backends w (λ b, ∃ import : ServiceImport, w_hub w KServiceImport !! importKey b = Some import ∧
      importKey b = key ∧ {| cs_Cluster := clusterOf export |} ∈ sis_Clusters (si_Status import)) keys.
Proof.
  intros Hk key. unfold handleInternalServiceExportEvent. cbv zeta. fold (serviceOf export). fold key.
  assert (serveGet Hub KServiceImport key w = match w_hub w KServiceImport !! key with
            Some o => inr o | None => inl errNotFound end) as Hget by done.
  destruct (w_hub w KServiceImport !! key) as [import|] eqn:Hi.
  2: { exists []. split; [exact (run_bind_Get _ _ _ _ _ _ Hget)|]. intros k. split; [by intros ?%not_elem_of_nil|].
       intros (b & _ & import & Hb & Hbk & _). rewrite Hbk in Hb. by pose proof (eq_trans (eq_sym Hb) Hi). }
  simpl in import. destruct (import_event w import Hk) as (found & Hrun & Hfound).
  assert (objectKey import = key) as Hkey by exact (Hk Hub KServiceImport _ _ Hi). rewrite Hkey in Hfound.
  eexists. split.
  { etrans; [exact (run_bind_Get _ _ _ _ _ _ Hget)|]. cbv beta iota.
    rewrite run_bind, (run_for_range _ (λ cs acc,
      if bool_decide (cs_Cluster cs = clusterOf export) then acc ++ found else acc)).
    2: { intros cs acc. fold (clusterOf export). case_bool_decide; [|done].
         by rewrite run_bind, Hrun. }
    reflexivity. }
  intros k. rewrite elem_of_repeated, elem_of_nil. split.
  - intros [[]|[(b & Hb & Hbk)%Hfound Hc]]. exists b. split; [done|]. exists import.
    by rewrite Hbk.
  - intros (b & Hb & import' & Hi' & Hbk & Hc). rewrite Hbk in Hi'.
    pose proof (eq_trans (eq_sym Hi') Hi) as [= ->].
    right. split; [apply Hfound; by exists b|done].
Qed.

(** C23: Where every object is stored under its key, the watches start rounds of
    exactly the backends that an event concerns: the deletion of a profile those
    of its namespace that name it; a change of the clusters of an import those
    that name the import; an update of an export, if it is handled, those of the
    import of its Service if the import lists the cluster of the export.  An
    update of an export of the same cluster that starts no round changes neither
    the validity of the export, nor its weight, nor the Azure endpoint made of
    it. *)
Theorem events_reach_their_backends w :
  keyed w →
  (∀ profile : TrafficManagerProfile, ∃ keys,
     run (serve watchIndex) (onTrafficManagerProfile (DeleteEvent profile)) w = (Done keys, w) ∧
     backends w (λ b, profileKey b = objectKey profile) keys) ∧
  (∀ old new : ServiceImport, sis_Clusters (si_Status old) ≠ sis_Clusters (si_Status new) → ∃ keys,
     run (serve watchIndex) (onServiceImport (UpdateEvent (Some old) (Some new))) w = (Done keys, w) ∧
     backends w (λ b, importKey b = objectKey new) keys) ∧
  (∀ old new : InternalServiceExport, clusterOf new = clusterOf old → ∃ keys,
     run (serve watchIndex) (onInternalServiceExport (UpdateEvent (Some old) (Some new))) w =
       (Done keys, w) ∧
     (backends w (λ b, ∃ import : ServiceImport,
        w_hub w KServiceImport !! importKey b = Some import ∧
        importKey b = serviceOf new ∧
        {| cs_Cluster := clusterOf new |} ∈ sis_Clusters (si_Status import)) keys ∨
      keys = [] ∧ isValidTrafficManagerEndpoint new = isValidTrafficManagerEndpoint old ∧
      weightOf new = weightOf old ∧
      ∀ backend, generateAzureTrafficManagerEndpoint backend new =
        generateAzureTrafficManagerEndpoint backend old)).
Proof.
  intros Hk. split; [|split].
  - intros profile. by apply profile_event.
  - intros old new Hne. unfold onServiceImport, shouldHandleServiceImportUpateEvent.
    rewrite bool_decide_false by done. by apply import_event.
  - intros old new Hc. unfold onInternalServiceExport.
    destruct (shouldHandleInternalServiceExportUpdateEvent old new) eqn:Hs; simpl.
    + destruct (export_event w new Hk) as (keys & Hrun & Hb). exists keys. split; [done|]. by left.
    + exists []. split; [done|]. right. split; [done|]. by apply skipped_export_update.
Qed.
End requests.

Module Demo.
Definition world0 : world := trafficmanagerbackend.Demo.world0 ServiceTypeLoadBalancer.
Definition export : InternalServiceExport :=
  trafficmanagerbackend.Demo.export ServiceTypeLoadBalancer "smartfish" 2.
Definition heavier : InternalServiceExport :=
  trafficmanagerbackend.Demo.export ServiceTypeLoadBalancer "smartfish" 3.
Definition elsewhere : InternalServiceExport :=
  trafficmanagerbackend.Demo.export ServiceTypeLoadBalancer "otherfish" 3.
Definition requests (old new : InternalServiceExport) : outcome (list NamespacedName) :=
  (run (serve watchIndex) (onInternalServiceExport (UpdateEvent (Some old) (Some new))) world0).1.
Lemma world0_keyed : keyed world0.
Proof.
  intros c k. change (map_Forall (λ key (o : obj k), objectKey o = key) (storeOf c world0 k)).
  apply (bool_decide_unpack _). by destruct c, k; vm_compute.
Qed.
End Demo.

Lemma events_reach_their_backends_witness :
  (∃ keys, run (serve watchIndex) (onInternalServiceExport
      (UpdateEvent (Some Demo.export) (Some Demo.heavier))) Demo.world0 = (Done keys, Demo.world0)) ∧
  Demo.requests Demo.export Demo.heavier = Done [trafficmanagerbackend.Demo.name] ∧
  Demo.requests Demo.export Demo.export = Done [] ∧
  Demo.requests Demo.export Demo.elsewhere = Done [].
Proof.
  split; [|vm_compute; done].
  destruct (events_reach_their_backends (util := Reference.util) (fleetCond := Reference.fleetCondition)
    _ Demo.world0_keyed) as (_ & _ & He).
  destruct (He Demo.export Demo.heavier) as (keys & Hrun & _); [reflexivity|]. by exists keys.
Defined.
End trafficmanagerbackendwatches.
