(* ===== verification/CrdInstaller.v ===== *)
(** * [cmd/net-crd-installer]: the installer of the resource definitions

    [utils] ([InstallCRD], [CollectCRDs], [getCRDFromPath]) and [installCRDs] of
    the command: the manifests under a directory are decoded, those that the
    cluster needs are created or updated.  The directory is a tree; the walk is
    that of [filepath.WalkDir]. *)

From S2P Require Import Prelude Prog Go Api Fleet Azure Effects Deps.
From S2P Require Import Protocols ApiServer.

(** ** The file system *)

(** What a walk finds: a file with the outcome of reading it, or a directory
    with the entries that were listed, by name, and the error that stopped the
    listing, if any. *)
Inductive node :=
| File (contents : error + string)
| Dir (listing : option error) (entries : list (string * node)).

Definition IsDir (d : node) : bool := match d with Dir _ _ => true | File _ => false end.
Definition ReadFile (d : node) : error + string :=
  match d with File contents => contents | Dir _ _ => inl (ErrorString "is a directory") end.

(** [filepath.WalkDir] for a function that returns neither [SkipDir] nor
    [SkipAll]; it is called again for a directory that cannot be listed. *)
Fixpoint walkDir {S} (fn : string → option node → option error → S → IO (option error * S))
    (path : string) (d : node) (s : S) : IO (option error * S) :=
  '(err, s) ← fn path (Some d) None s;
  match err, d with
  | Some err, _ => mret (Some err, s)
  | None, File _ => mret (None, s)
  | None, Dir listing entries =>
      '(err, s) ← (match listing with
                   | Some err => fn path (Some d) (Some err) s
                   | None => mret (None, s)
                   end);
      match err with
      | Some err => mret (Some err, s)
      | None =>
          (fix each (entries : list (string * node)) (s : S) : IO (option error * S) :=
             match entries with
             | [] => mret (None, s)
             | (name, d) :: entries =>
                 '(err, s) ← walkDir fn (path +:+ "/" +:+ name) d s;
                 match err with Some err => mret (Some err, s) | None => each entries s end
             end) entries s
      end
  end.
Definition WalkDir {S} (root : string) (d : error + node)
    (fn : string → option node → option error → S → IO (option error * S)) (s : S)
    : IO (option error * S) :=
  match d with
  | inl err => fn root None (Some err) s
  | inr d => walkDir fn root d s
  end.

(** ** Operations *)

Module crdinstaller.

Definition crdInstallerLabelKey := "crd-installer.networking.azure.fleet.com/managed".
Definition azureManagedLabelKey := "kubernetes.azure.com/managedby".
Definition fleetLabelValue := "fleet".
Definition memberIncludedCRDs : gmap string bool := list_to_map [
  ("serviceexports.networking.fleet.azure.com", true);
  ("serviceimports.networking.fleet.azure.com", true);
  ("multiclusterservices.networking.fleet.azure.com", true)].

Definition crdName (crd : CustomResourceDefinition) : string := om_Name (crd_ObjectMeta crd).

Section installer.
Context {util : ControllerUtil} {fleetUtil : FleetUtil} {serializer : Serializer}.
(** The API server that the client of the command talks to. *)
Context (c : cluster).

Definition mutateCRD (crd : CustomResourceDefinition) (isE2ETest : bool)
    (existingCRD : CustomResourceDefinition) : IO (option error * CustomResourceDefinition) :=
  let labels := map_init (om_Labels (crd_ObjectMeta existingCRD)) in
  labels ← map_set labels crdInstallerLabelKey "true";
  labels ← (if negb isE2ETest then map_set labels azureManagedLabelKey fleetLabelValue
            else mret labels);
  mret (None, {| crd_ObjectMeta := setLabels labels (crd_ObjectMeta existingCRD);
                 crd_Group := crd_Group crd; crd_Spec := crd_Spec crd;
                 crd_Status := crd_Status existingCRD |}).
Definition InstallCRD (crd : CustomResourceDefinition) (isE2ETest : bool) : IO (option error) :=
  let existingCRD := {| crd_ObjectMeta := newObjectMeta "" (crdName crd); crd_Group := "";
                        crd_Spec := ""; crd_Status := "" |} in
  '(err, _) ← CreateOrUpdate c KCustomResourceDefinition existingCRD (mutateCRD crd isE2ETest);
  mret err.

Definition getCRDFromPath (crdPath : string) (d : node)
    : option CustomResourceDefinition * option error :=
  match ReadFile d with
  | inl err => (None, Some (WrapError ("failed to read CRD file " +:+ crdPath) err))
  | inr crdBytes =>
      match Decode crdBytes with
      | inl err => (None, Some (WrapError ("failed to decode CRD from " +:+ crdPath) err))
      | inr (CRDObject crd, _) => (Some crd, None)
      | inr (OtherObject, gvk) =>
          (None, NewUnexpectedBehaviorError (ErrorString ("unexpected type from " +:+ crdPath
             +:+ ", expected " +:+ gvk
             +:+ " but got apiextensions.k8s.io/v1, Kind=CustomResourceDefinition")))
      end
  end.

Definition keepCRD (mode : string) (crd : CustomResourceDefinition)
    (crdsToInstall : list CustomResourceDefinition) : list CustomResourceDefinition :=
  if bool_decide (crd_Group crd = "networking.fleet.azure.com") then
    let crdsToInstall := if bool_decide (mode = "hub") then crdsToInstall ++ [crd]
                         else crdsToInstall in
    if bool_decide (mode = "member") then
      if negb (default false (memberIncludedCRDs !! crdName crd)) then crdsToInstall
      else crdsToInstall ++ [crd]
    else crdsToInstall
  else crdsToInstall.
Definition collect (mode : string) (crdpath : string) (d : option node) (err : option error)
    (crdsToInstall : list CustomResourceDefinition)
    : IO (option error * list CustomResourceDefinition) :=
  match err with
  | Some err => mret (Some err, crdsToInstall)
  | None =>
      d ← derefPtr d;
      if IsDir d then mret (None, crdsToInstall) else
      let '(crd, err) := getCRDFromPath crdpath d in
      match err with
      | Some err => mret (Some err, crdsToInstall)
      | None =>
          crd ← derefPtr crd;
          mret (None, keepCRD mode crd crdsToInstall)
      end
  end.
Definition CollectCRDs (crdDirectoryPath : string) (root : error + node) (mode : string)
    : IO (error + list CustomResourceDefinition) :=
  '(err, crdsToInstall) ← WalkDir crdDirectoryPath root (collect mode) [];
  mret (match err with
        | Some err => inl (WrapError "failed to walk CRD directory" err)
        | None => inr crdsToInstall
        end).

Definition installCRDs (crdPath : string) (root : error + node) (mode : string) (isE2ETest : bool)
    : IO (option error) :=
  got ← CollectCRDs crdPath root mode;
  match got with
  | inl err => mret (Some err)
  | inr crdsToInstall =>
      if bool_decide (length crdsToInstall = 0)
      then mret (Some (ErrorString ("no CRDs found for mode " +:+ mode +:+ " in directory " +:+ crdPath)))
      else
        done ← for_range (λ crd _,
            err ← InstallCRD crd isE2ETest;
            mret (match err with Some err => inl err | None => inr tt end))
          crdsToInstall tt;
        mret (match done with inl err => Some err | inr _ => None end)
  end.

Definition crdPath := "/workspace/config/crd/bases".
(** [klog.Fatal]. *)
Definition fatal : Z := 255.
(** [main]: the exit code of the process, by whether there is a configuration
    and what the scheme and the client answer. *)
Definition main (configured : bool) (addToScheme newClient : option error) (root : error + node)
    (mode : string) (isE2ETest : bool) : IO Z :=
  if bool_decide (mode ≠ "hub" ∧ mode ≠ "member") then mret fatal else
  if negb configured then mret 1%Z else
  match addToScheme, newClient with
  | Some _, _ | None, Some _ => mret fatal
  | None, None =>
      err ← installCRDs crdPath root mode isE2ETest;
      mret (match err with Some _ => fatal | None => 0%Z end)
  end.
End installer.

(** ** What a walk collects *)

(** The reads of a walk, in order: the files, and the directories that cannot be
    listed. *)
Fixpoint reads (d : node) : list (error + string) :=
  match d with
  | File contents => [contents]
  | Dir listing entries =>
      (match listing with Some err => [inl err] | None => [] end) ++
      (fix each (entries : list (string * node)) : list (error + string) :=
         match entries with [] => [] | (_, d) :: entries => reads d ++ each entries end) entries
  end.
Definition readsAll (entries : list (string * node)) : list (error + string) :=
  entries ≫= λ '(_, d), reads d.
Lemma reads_Dir listing entries :
  reads (Dir listing entries) =
  (match listing with Some err => [inl err] | None => [] end) ++ readsAll entries.
Proof.
  simpl. f_equal. induction entries as [|[n d] entries IH]; [done|]. simpl. by rewrite IH.
Qed.

Lemma node_nested_ind (Q : node → Prop) :
  (∀ contents, Q (File contents)) →
  (∀ listing entries, Forall (λ '(_, d), Q d) entries → Q (Dir listing entries)) →
  ∀ d, Q d.
Proof.
  intros HF HD. fix go 1. intros [contents|listing entries]; [apply HF|]. apply HD.
  induction entries as [|[n d] entries IH]; constructor; [apply go|exact IH].
Qed.

(** The definitions that a cluster of the mode needs. *)
Definition wanted (mode : string) (crd : CustomResourceDefinition) : Prop :=
  crd_Group crd = "networking.fleet.azure.com" ∧
  (mode = "hub" ∨ mode = "member" ∧ crdName crd ∈
     ["serviceexports.networking.fleet.azure.com"; "serviceimports.networking.fleet.azure.com";
      "multiclusterservices.networking.fleet.azure.com"]).
#[export] Instance wanted_dec mode crd : Decision (wanted mode crd).
Proof. unfold wanted. apply _. Defined.

Lemma memberIncluded_spec name :
  default false (memberIncludedCRDs !! name) = true ↔ name ∈
    ["serviceexports.networking.fleet.azure.com"; "serviceimports.networking.fleet.azure.com";
     "multiclusterservices.networking.fleet.azure.com"].
Proof.
  unfold memberIncludedCRDs. cbn [list_to_map foldr fst snd]. rewrite !lookup_insert, lookup_empty.
  rewrite !elem_of_cons, elem_of_nil. repeat case_decide; naive_solver.
Qed.

Lemma keepCRD_spec mode crd acc : keepCRD mode crd acc = acc ++ filter (wanted mode) [crd].
Proof.
  unfold keepCRD. rewrite filter_cons, filter_nil.
  pose proof (memberIncluded_spec (crdName crd)) as Hm.
  destruct (decide (wanted mode crd)) as [Hw|Hw]; unfold wanted in Hw; rewrite <-Hm in Hw; clear Hm.
  - destruct Hw as [Hg [->|[-> Hi]]]; rewrite bool_decide_true by done; [done|]. simpl. by rewrite Hi.
  - rewrite app_nil_r. case_bool_decide; [|done].
    rewrite (bool_decide_false (mode = "hub")) by tauto. case_bool_decide; [|done].
    destruct (default false _); [tauto|done].
Qed.

Section walk.
Context {fleetUtil : FleetUtil} {fleetLaws : FleetUtilLaws} {serializer : Serializer}.

Definition decoded (r : error + string) : option CustomResourceDefinition :=
  match r with
  | inr bytes => match Decode bytes with inr (CRDObject crd, _) => Some crd | _ => None end
  | inl _ => None
  end.
(** The definitions of a directory, if every file of it holds one. *)
Definition manifests (root : error + node) : option (list CustomResourceDefinition) :=
  match root with inr d => mapM decoded (reads d) | inl _ => None end.

(** What the walk makes of the reads: the wanted definitions, appended in order,
    or an error if one of them does not decode. *)
Definition gathers (mode : string) (rs : list (error + string))
    (acc : list CustomResourceDefinition) (r : option error * list CustomResourceDefinition) : Prop :=
  match r with
  | (None, acc') => ∃ crds, mapM decoded rs = Some crds ∧ acc' = acc ++ filter (wanted mode) crds
  | (Some _, _) => mapM decoded rs = None
  end.

Lemma gathers_app mode rs rs' acc acc' r :
  gathers mode rs acc (None, acc') → gathers mode rs' acc' r → gathers mode (rs ++ rs') acc r.
Proof.
  intros (crds & Hc%mapM_Some & ->). destruct r as [[err|] l]; simpl.
  - rewrite !mapM_None. intros Hn. apply Exists_app. by right.
  - intros (crds' & Hc'%mapM_Some & ->). exists (crds ++ crds').
    split; [by apply mapM_Some, Forall2_app|]. by rewrite filter_app, app_assoc.
Qed.
Lemma gathers_fail mode rs rs' acc acc' err :
  gathers mode rs acc (Some err, acc') → gathers mode (rs ++ rs') acc (Some err, acc').
Proof. simpl. rewrite !mapM_None, Exists_app. by left. Qed.

Lemma collect_File mode path contents acc :
  ∃ r, collect mode path (Some (File contents)) None acc = mret r ∧ gathers mode [contents] acc r.
Proof.
  unfold collect. cbn [derefPtr]. rewrite ret_bind. unfold getCRDFromPath. cbn [IsDir ReadFile].
  destruct contents as [err|bytes]; [by eexists|].
  destruct (Decode bytes) as [err|[[crd|] gvk]] eqn:Hd.
  - eexists. split; [done|]. simpl. by rewrite Hd.
  - cbn [derefPtr]. rewrite ret_bind, keepCRD_spec. eexists. split; [done|]. exists [crd].
    split; [|done]. simpl. by rewrite Hd.
  - destruct (NewUnexpectedBehaviorError_some (ErrorString ("unexpected type from " +:+ path
      +:+ ", expected " +:+ gvk
      +:+ " but got apiextensions.k8s.io/v1, Kind=CustomResourceDefinition"))) as [e He].
    rewrite He. eexists. split; [done|]. simpl. by rewrite Hd.
Qed.

Lemma walk_gathers mode d : ∀ path acc,
  ∃ r, walkDir (collect mode) path d acc = mret r ∧ gathers mode (reads d) acc r.
Proof.
  induction d as [contents|listing entries IH] using node_nested_ind; intros path acc.
  { destruct (collect_File mode path contents acc) as ([[err|] l] & Hr & Hg);
      cbn [walkDir]; rewrite Hr, ret_bind; by eexists. }
  rewrite reads_Dir. destruct listing as [err|].
  { eexists. split; [done|]. by apply (gathers_fail _ [inl err]). }
  cbn [app]. change (walkDir (collect mode) path (Dir None entries) acc) with
    ((fix each (entries : list (string * node)) (s : list CustomResourceDefinition)
        : IO (option error * list CustomResourceDefinition) :=
        match entries with
        | [] => mret (None, s)
        | (name, d) :: entries =>
            '(err, s) ← walkDir (collect mode) (path +:+ "/" +:+ name) d s;
            match err with Some err => mret (Some err, s) | None => each entries s end
        end) entries acc).
  revert acc. induction IH as [|[name d] entries Hd _ IH]; intros acc.
  { exists (None, acc). split; [done|]. exists []. by rewrite app_nil_r. }
  destruct (Hd (path +:+ "/" +:+ name) acc) as ([[err|] acc'] & Hr & Hg);
    cbn [walkDir readsAll mbind list_bind]; rewrite Hr, ret_bind.
  - exists (Some err, acc'). split; [done|]. by eapply gathers_fail.
  - destruct (IH acc') as (r & Hr' & Hg'). exists r. split; [exact Hr'|]. by eapply gathers_app.
Qed.

(** [CollectCRDs] returns the definitions of the fleet networking group that the
    mode needs, in the order of the walk, if every file under the directory can
    be read and decodes to a CustomResourceDefinition, and an error if the
    directory is missing or one of its files or directories is unreadable or
    holds something else; it never panics. *)
Lemma collects path root mode :
  ∃ r, CollectCRDs path root mode = mret r ∧
  match manifests root with
  | Some crds => r = inr (filter (wanted mode) crds)
  | None => ∃ err, r = inl err
  end.
Proof.
  unfold CollectCRDs, WalkDir, manifests. destruct root as [err|d]; [by repeat eexists|].
  destruct (walk_gathers mode d path []) as ([[err|] l] & Hr & Hg); rewrite Hr, ret_bind.
  - eexists. split; [done|]. simpl in Hg. rewrite Hg. by eexists.
  - destruct Hg as (crds & -> & ->). by eexists.
Qed.
End walk.


(** ** What an installation does to the cluster *)

(** The object that an installation leaves of the one it found: the specification
    of the manifest, the labels of the installer added, all else kept. *)
Definition managedLabels (isE2ETest : bool) (labels : gomap) : gmap string string :=
  let labels := <[crdInstallerLabelKey := "true"]> (default ∅ labels) in
  if isE2ETest then labels else <[azureManagedLabelKey := fleetLabelValue]> labels.
Definition installedAs (isE2ETest : bool) (crd old : CustomResourceDefinition)
    : CustomResourceDefinition := {|
  crd_ObjectMeta := setLabels (Some (managedLabels isE2ETest (om_Labels (crd_ObjectMeta old))))
                      (crd_ObjectMeta old);
  crd_Group := crd_Group crd; crd_Spec := crd_Spec crd; crd_Status := crd_Status old |}.
Definition blank (name : string) : CustomResourceDefinition := {|
  crd_ObjectMeta := newObjectMeta "" name; crd_Group := ""; crd_Spec := ""; crd_Status := "" |}.
Definition clusterKey (name : string) : NamespacedName := {| nn_Namespace := ""; nn_Name := name |}.

Lemma mutateCRD_spec crd isE2ETest old :
  mutateCRD crd isE2ETest old = mret (None, installedAs isE2ETest crd old).
Proof. by destruct isE2ETest. Qed.
Lemma installedAs_key isE2ETest crd old : objectKey (installedAs isE2ETest crd old) = objectKey old.
Proof. done. Qed.

(** The object found last, and what the cluster is known to hold. *)
Record knowledge := {
  q_found : option (option CustomResourceDefinition);
  q_stored : gmap string CustomResourceDefinition;
}.
Definition nothingKnown : knowledge := {| q_found := None; q_stored := ∅ |}.

Section protocol.
Context {util : ControllerUtil} {fleetUtil : FleetUtil} {serializer : Serializer}.
Context (c : cluster) (isE2ETest : bool) (l : list CustomResourceDefinition).

Definition installProtocol : protocol eff knowledge := {|
  allowed X e s :=
    match e with
    | EGet c' KCustomResourceDefinition key => c' = c ∧ ∃ crd, crd ∈ l ∧ key = clusterKey (crdName crd)
    | ECreate c' KCustomResourceDefinition o => c' = c ∧ q_found s = Some None ∧
        ∃ crd, crd ∈ l ∧ o = installedAs isE2ETest crd (blank (crdName crd))
    | EUpdate c' KCustomResourceDefinition o => c' = c ∧
        ∃ crd old, crd ∈ l ∧ q_found s = Some (Some old) ∧ crdName old = crdName crd ∧
          o = installedAs isE2ETest crd old
    | _ => False
    end;
  answer X e s := serverAnswer e;
  next X e := match e in eff X return X → knowledge → knowledge with
    | EGet _ KCustomResourceDefinition key => λ x s,
        match x with
        | inr o => {| q_found := Some (Some o); q_stored := <[nn_Name key := o]> (q_stored s) |}
        | inl _ => {| q_found := Some None; q_stored := delete (nn_Name key) (q_stored s) |}
        end
    | ECreate _ KCustomResourceDefinition o | EUpdate _ KCustomResourceDefinition o => λ x s,
        match x with
        | inr _ => {| q_found := q_found s; q_stored := <[crdName o := o]> (q_stored s) |}
        | inl _ => s
        end
    | _ => λ _ s, s
    end |}.

(** The cluster holds the definition of a manifest with that name. *)
Definition holds (name : string) (s : knowledge) : Prop :=
  ∃ crd old, crd ∈ l ∧ crdName crd = name ∧
    q_stored s !! name = Some (installedAs isE2ETest crd old).
Definition keepsOthers (name : string) (s s' : knowledge) : Prop :=
  ∀ name', name' ≠ name → q_stored s' !! name' = q_stored s !! name'.
End protocol.

Section safety.
Context {util : ControllerUtil} {laws : ControllerUtilLaws}.
Context {fleetUtil : FleetUtil} {fleetLaws : FleetUtilLaws} {serializer : Serializer}.
Context (c : cluster) (isE2ETest : bool) (l : list CustomResourceDefinition).
Local Abbreviation P := (installProtocol c isE2ETest l).

Lemma InstallCRD_wp crd s :
  crd ∈ l →
  wp P (InstallCRD c crd isE2ETest) s (λ err s',
    keepsOthers (crdName crd) s s' ∧ (err = None → holds isE2ETest l (crdName crd) s')).
Proof.
  intros Hin. unfold InstallCRD. cbv zeta. fold (blank (crdName crd)). apply wp_bind.
  assert (objectKey (blank (crdName crd)) = clusterKey (crdName crd)) as Hkey by done.
  apply CreateOrUpdate_wp; [by split; [|exists crd]|]. intros [err|old] Ha.
  - destruct (IsNotFound err) eqn:Hnf; [|by split; [intros n Hn; apply lookup_delete_ne|]].
    rewrite mutateCRD_spec. apply wp_ret. split; [done|]. split; [by repeat split; exists crd|].
    intros [err'|o'] _; apply wp_ret; [by split; [intros n Hn; apply lookup_delete_ne|]|]. split.
    + intros n Hn. etrans; [by apply lookup_insert_ne|by apply lookup_delete_ne].
    + intros _. exists crd, (blank (crdName crd)). split; [done|]. split; [done|]. apply lookup_insert_eq.
  - assert (crdName old = crdName crd) as Hname by exact (f_equal nn_Name Ha).
    rewrite mutateCRD_spec. apply wp_ret. split; [done|]. split.
    + intros Hsame. apply wp_ret. split; [intros n Hn; by apply lookup_insert_ne|].
      intros _. exists crd, old. split; [done|]. split; [done|]. simpl. rewrite Hsame.
      apply lookup_insert_eq.
    + intros _. split; [by split; [|exists crd, old]|]. 
      intros [err'|o'] _; apply wp_ret; [by split; [intros n Hn; apply lookup_insert_ne|]|].
      assert (crdName (installedAs isE2ETest crd old) = crdName crd) as Hi by done. split.
      * intros n Hn. etrans; [apply lookup_insert_ne; by rewrite Hi|by apply lookup_insert_ne].
      * intros _. exists crd, old. split; [done|]. split; [done|].
        simpl. rewrite Hi. apply lookup_insert_eq.
Qed.
End safety.


Section installation.
Context {util : ControllerUtil} {laws : ControllerUtilLaws}.
Context {fleetUtil : FleetUtil} {fleetLaws : FleetUtilLaws} {serializer : Serializer}.

(** What the directory asks to install; nothing if it cannot be read. *)
Definition toInstall (mode : string) (root : error + node) : list CustomResourceDefinition :=
  match manifests root with Some crds => filter (wanted mode) crds | None => [] end.

Lemma installLoop_wp c isE2ETest l done s :
  (∀ crd, crd ∈ l → crd ∈ done ++ l) →
  (∀ crd, crd ∈ done → holds isE2ETest (done ++ l) (crdName crd) s) →
  wp (installProtocol c isE2ETest (done ++ l)) (for_range (λ crd (_ : unit),
        err ← InstallCRD c crd isE2ETest;
        mret (match err with Some err => inl err | None => inr tt end)) l tt) s
    (λ r s', match r with
             | inl _ => True
             | inr _ => ∀ crd, crd ∈ done ++ l → holds isE2ETest (done ++ l) (crdName crd) s'
             end).
Proof.
  revert done s. induction l as [|crd l IH]; intros done s Hin Hdone; simpl.
  { rewrite app_nil_r in *. by apply wp_ret. }
  apply wp_bind, wp_bind. eapply wp_mono; [apply InstallCRD_wp, Hin; by left|].
  intros err s' [Hkeep Hh]. destruct err as [err|]; [by apply wp_ret|]. apply wp_ret.
  replace (done ++ crd :: l) with ((done ++ [crd]) ++ l) in * by by rewrite <-app_assoc.
  apply (IH (done ++ [crd])); [set_solver|]. intros crd' Hin'.
  destruct (decide (crdName crd' = crdName crd)) as [->|Hne]; [by apply Hh|].
  destruct (Hdone crd') as (crd'' & old & ? & ? & Hs); [set_solver|].
  exists crd'', old. by rewrite Hkeep.
Qed.

Lemma installCRDs_wp c path root mode isE2ETest :
  wp (installProtocol c isE2ETest (toInstall mode root)) (installCRDs c path root mode isE2ETest)
    nothingKnown
    (λ err s, err = None → toInstall mode root ≠ [] ∧
       ∀ crd, crd ∈ toInstall mode root → holds isE2ETest (toInstall mode root) (crdName crd) s).
Proof.
  unfold installCRDs, toInstall. destruct (collects path root mode) as (r & -> & Hr). rewrite ret_bind.
  destruct (manifests root) as [crds|]; [subst r|by destruct Hr as [err ->]].
  case_bool_decide as Hlen; [by apply wp_ret|]. apply wp_bind.
  eapply wp_mono; [apply (installLoop_wp c isE2ETest _ []); set_solver|].
  intros [err|[]] s; [by intros; apply wp_ret|]. intros Hall. apply wp_ret. intros _.
  split; [by intros Hn; rewrite Hn in Hlen|exact Hall].
Qed.

(** C24: An installation only touches definitions that the directory asks for in
    its mode: it creates those that are missing, and updates those it found
    to the specification of the manifest, adding the labels of the installer
    and keeping all else, other labels included.  The program ends with success
    only in one of its two modes, when there was something to install and every
    definition asked for is in the cluster as a manifest of its name says; it
    does not panic, and in another mode it touches nothing. *)
Theorem installer_follows_install_protocol c configured addToScheme newClient root mode isE2ETest :
  let program := main c configured addToScheme newClient root mode isE2ETest in
  wp (installProtocol c isE2ETest (toInstall mode root)) program nothingKnown
    (λ code s, code = 0%Z → mode ∈ ["hub"; "member"] ∧ toInstall mode root ≠ [] ∧
       ∀ crd, crd ∈ toInstall mode root → holds isE2ETest (toInstall mode root) (crdName crd) s) ∧
  (mode ∉ ["hub"; "member"] → program = mret fatal).
Proof.
  intros program. subst program. unfold main. case_bool_decide as Hmode; split; [by apply wp_ret|done| |set_solver].
  destruct configured; [simpl|by apply wp_ret]. destruct addToScheme, newClient; try by apply wp_ret.
  apply wp_bind. eapply wp_mono; [apply installCRDs_wp|]. intros [err|] s Hend; apply wp_ret; [done|].
  intros _. split; [|by apply Hend]. destruct (decide (mode = "hub")), (decide (mode = "member")); set_solver.
Qed.
End installation.

Module Demo.
Definition crd (name group spec : string) : CustomResourceDefinition := {|
  crd_ObjectMeta := newObjectMeta "" name; crd_Group := group; crd_Spec := spec; crd_Status := "" |}.
Definition exports := "serviceexports.networking.fleet.azure.com".
Definition profiles := "trafficmanagerprofiles.networking.fleet.azure.com".
(** A decoder of manifests that are the name of their definition. *)
#[local] Instance serializer : Serializer := {|
  Decode bytes := if bool_decide (bytes = "service") then inr (OtherObject, "v1, Kind=Service")
                  else inr (CRDObject (crd bytes "networking.fleet.azure.com" "new"),
                            "apiextensions.k8s.io/v1, Kind=CustomResourceDefinition") |}.
Definition directory (files : list string) : node :=
  Dir None [("bases", Dir None ((λ f, (f +:+ ".yaml", File (inr f))) <$> files))].
Definition world0 : world := {|
  w_member := storeAlter KCustomResourceDefinition
    <[clusterKey exports := {| crd_ObjectMeta := setLabels (Some {["team" := "net"]})
        (newObjectMeta "" exports); crd_Group := "networking.fleet.azure.com"; crd_Spec := "old";
        crd_Status := "established" |}]> emptyStore;
  w_hub := emptyStore; w_version := 1; w_clock := 0%Z |}.
(** The specification and two labels of the definitions afterwards. *)
Definition after (mode : string) (files : list string)
    : outcome Z * list (option (string * option string * option string)) :=
  let '(o, w) := run (serve (λ _ _ _, []))
    (main (util := Reference.util) (fleetUtil := Reference.fleetUtil) Member true None None
       (inr (directory files)) mode false) world0 in
  (o,
   (λ name, (λ crd : CustomResourceDefinition,
      (crd_Spec crd, map_get (om_Labels (crd_ObjectMeta crd)) "team",
       map_get (om_Labels (crd_ObjectMeta crd)) crdInstallerLabelKey)) <$>
     w_member w KCustomResourceDefinition !! clusterKey name) <$> [exports; profiles]).
End Demo.


Lemma installer_follows_install_protocol_witness :
  wp (installProtocol Member false (toInstall (serializer := Demo.serializer) "member"
        (inr (Demo.directory [Demo.exports; Demo.profiles]))))
     (main (util := Reference.util) (fleetUtil := Reference.fleetUtil)
        (serializer := Demo.serializer) Member true None None
        (inr (Demo.directory [Demo.exports; Demo.profiles])) "member" false) nothingKnown
     (λ code s, code = 0%Z → crdName <$> toInstall (serializer := Demo.serializer) "member"
        (inr (Demo.directory [Demo.exports; Demo.profiles])) = [Demo.exports]) ∧
  Demo.after "member" [Demo.exports; Demo.profiles] =
    (Done 0%Z, [Some ("new", Some "net", Some "true"); None]) ∧
  Demo.after "hub" [Demo.exports; Demo.profiles] =
    (Done 0%Z, [Some ("new", Some "net", Some "true"); Some ("new", None, Some "true")]) ∧
  Demo.after "hub" [Demo.exports; "service"] = (Done 255%Z, [Some ("old", Some "net", None); None]) ∧
  Demo.after "all" [Demo.exports] = (Done 255%Z, [Some ("old", Some "net", None); None]).
Proof.
  split.
  { eapply wp_mono; [apply (installer_follows_install_protocol (laws := Reference.laws)
      (fleetLaws := Reference.fleetUtil_laws) Member true None None _ "member" false)|].
    intros code s _ _. vm_compute. reflexivity. }
  vm_compute. repeat split; reflexivity.
Defined.

End crdinstaller.
