(* ===== verification/HttpClient.v ===== *)
(** * [pkg/common/httpclient] and [pkg/common/env]

    The round tripper that adds the headers of [HUB_KUBE_HEADER] to the requests
    to the hub, with what it uses of [net/http] and [net/textproto], and the
    lookup of environment variables. *)

From S2P Require Import Prelude Prog Go Effects.

(** ** [net/textproto] *)

(** The bytes of a header field name. *)
Definition validHeaderFieldByte (c : ascii) : bool :=
  isDigit c || bool_decide (97 ≤ Ascii.nat_of_ascii (lowerAscii c) ≤ 122) ||
  bool_decide (c ∈ String.list_ascii_of_string "!#$%&'*+-.^_`|~").
Definition upperAscii (c : ascii) : ascii :=
  let n := Ascii.nat_of_ascii c in
  if bool_decide (97 ≤ n ≤ 122) then Ascii.ascii_of_nat (n - 32) else c.

(** Upper case for the first letter and after a dash, lower case elsewhere; a
    name with other bytes is left alone. *)
Fixpoint canonicalCase (upper : bool) (s : string) : string :=
  match s with
  | EmptyString => EmptyString
  | String c s =>
      String (if upper then upperAscii c else lowerAscii c)
        (canonicalCase (bool_decide (c = "-"%char)) s)
  end.
Definition CanonicalMIMEHeaderKey (s : string) : string :=
  if forallb validHeaderFieldByte (String.list_ascii_of_string s) then canonicalCase true s else s.

(** [http.Header], where it is not nil. *)
Abbreviation Header := (gmap string (list string)).
Definition headerGet (h : Header) (key : string) : string :=
  default "" (head (default [] (h !! CanonicalMIMEHeaderKey key))).
Definition headerAdd (key value : string) (h : Header) : Header :=
  let key := CanonicalMIMEHeaderKey key in <[key := default [] (h !! key) ++ [value]]> h.

(** ** Operations *)

Module env.
Definition memberClusterNameEnvKey := "MEMBER_CLUSTER_NAME".
Section env.
(** [os.LookupEnv]. *)
Context (environ : gmap string string).
Definition Lookup (envKey : string) : error + string :=
  match environ !! envKey with
  | None => inl (ErrorString ("failed to retrieve the environment variable value from " +:+ envKey))
  | Some value => inr value
  end.
Definition LookupMemberClusterName : error + string := Lookup memberClusterNameEnvKey.
End env.
End env.

Module httpclient.
(** The calls of a round trip: the order in which the runtime ranges over a map,
    and the round tripper that is delegated to. *)
Inductive httpEff (Response : Type) : Type → Type :=
| HOrder : httpEff Response (list nat)
| HRoundTrip (header : option Header) : httpEff Response (error + Response).
Arguments HOrder {Response}. Arguments HRoundTrip {Response}.

Section roundtrip.
Context {Response : Type}.

(** The headers of a request can be nil: reading a nil map is reading an empty
    one, and adding to it panics. *)
Fixpoint addValues (key : string) (values : list string) (req : option Header)
    : prog (httpEff Response) (option Header) :=
  match values, req with
  | [], _ => mret req
  | v :: values, Some h => addValues key values (Some (headerAdd key v h))
  | _ :: _, None => Panic "assignment to entry in nil map"
  end.
(** The body of the loop over the custom headers. *)
Definition addHeader '((key, values) : string * list string) (req : option Header)
    : prog (httpEff Response) ((error * option Header) + option Header) :=
  if negb (bool_decide (headerGet (default ∅ req) key = ""))
  then mret (inl (ErrorString ("custom header " +:+ Quote key +:+ " can't override other header"), req))
  else req ← addValues key values req; mret (inr req).
(** The request is shared with the caller: the headers that the request has
    afterwards are returned as well. *)
Definition RoundTrip (header : Header) (req : option Header)
    : prog (httpEff Response) ((error + Response) * option Header) :=
  order ← call HOrder;
  added ← for_range addHeader (permute order (map_to_list header)) req;
  match added with
  | inl (err, req) => mret (inl err, req)
  | inr req => r ← call (HRoundTrip req); mret (r, req)
  end.
End roundtrip.

(** ** The requests that are sent *)

(** The headers of a request with the custom ones. *)
Definition extended (values : list string) (old : option (list string)) : option (list string) :=
  match values with [] => old | _ => Some (default [] old ++ values) end.
Definition withCustom (header req : Header) : Header :=
  merge (λ values old, match values with Some values => extended values old | None => old end)
    header req.
Definition canonical (header : Header) : Prop :=
  map_Forall (λ key _, CanonicalMIMEHeaderKey key = key) header.
(** A custom header whose first value in the request is not empty. *)
Definition overrides (header req : Header) : Prop :=
  ∃ key values, header !! key = Some values ∧ headerGet req key ≠ "".

Lemma lookup_withCustom header req key :
  withCustom header req !! key =
  match header !! key with Some values => extended values (req !! key) | None => req !! key end.
Proof. etrans; [apply lookup_merge|]. by destruct (header !! key), (req !! key). Qed.

Lemma lookup_added key values req key' :
  CanonicalMIMEHeaderKey key = key →
  foldl (λ req v, headerAdd key v req) req values !! key' =
  if decide (key' = key) then extended values (req !! key) else req !! key'.
Proof.
  intros Hc. revert req. induction values as [|v values IH]; intros req; simpl.
  { by case_decide; subst. }
  rewrite IH. unfold headerAdd. rewrite Hc, lookup_insert_eq. case_decide as Hk.
  - subst. destruct values; [done|]. simpl. by rewrite <-app_assoc.
  - by rewrite lookup_insert_ne.
Qed.

Lemma addValues_some {Response} key values h :
  addValues (Response := Response) key values (Some h) =
  mret (Some (foldl (λ req v, headerAdd key v req) h values)).
Proof. revert h. by induction values; simpl. Qed.
(** A round trip of a request without headers. *)
Lemma addHeaders_nil {Response} (l : list (string * list string)) key value values :
  (key, value :: values) ∈ l →
  for_range (addHeader (Response := Response)) l None = Panic "assignment to entry in nil map".
Proof.
  assert (∀ k, headerGet ∅ k = "") as Hg by (intros k; unfold headerGet; by rewrite lookup_empty).
  induction l as [|[key' values'] l IH]; intros Hin; [by apply elem_of_nil in Hin|].
  simpl. rewrite Hg, bool_decide_true by done. simpl. destruct values' as [|v' values']; [|done].
  apply elem_of_cons in Hin as [|Hin]; [done|]. exact (IH Hin).
Qed.
Lemma RoundTrip_nil {Response} (header : Header) key value values :
  header !! key = Some (value :: values) →
  ∀ t o, exec (RoundTrip (Response := Response) header None) t o →
    (∃ order, t = [Ev HOrder order]) ∧ o = Panicked "assignment to entry in nil map".
Proof.
  intros Hk t o (order & t' & -> & Hex).
  assert ((key, value :: values) ∈ permute order (map_to_list header)) as Hin
    by by apply elem_of_permute, elem_of_map_to_list.
  change (exec (added ← for_range addHeader (permute order (map_to_list header)) None;
    match added with
    | inl (err, req) => mret (inl err, req)
    | inr req => r ← call (HRoundTrip req); mret (r, req)
    end) t' o) in Hex.
  rewrite (addHeaders_nil _ _ _ _ Hin) in Hex.
  destruct Hex as [-> ->]. by eauto.
Qed.

Section safety.
Context {Response : Type} (header req : Header).

(** The answer of the round tripper that was delegated to; only the request with
    all custom headers is ever sent, once, and only if none was there before. *)
Definition sendProtocol : protocol (httpEff Response) (option (error + Response)) := {|
  allowed X e s :=
    match e with
    | HOrder => True
    | HRoundTrip h => s = None ∧ h = Some (withCustom header req) ∧ ¬ overrides header req
    end;
  answer X e s x := True;
  next X e := match e in httpEff _ X return X → _ → _ with
              | HOrder => λ _ s, s
              | HRoundTrip _ => λ x _, Some x
              end |}.

(** What is left to add, and what the request looks like meanwhile. *)
Definition adding (left : list (string * list string)) (t : Header) (s : option (error + Response))
    : Prop :=
  s = None ∧ NoDup left.*1 ∧
  (∀ key values, (key, values) ∈ left → header !! key = Some values ∧ t !! key = req !! key) ∧
  (∀ key, key ∉ left.*1 → t !! key = withCustom header req !! key ∧
     ∀ values, header !! key = Some values → headerGet req key = "").

Lemma adding_start order : adding (permute order (map_to_list header)) req None.
Proof.
  assert ((permute order (map_to_list header)).*1 ≡ₚ (map_to_list header).*1) as Hp
    by by rewrite permute_Permutation.
  split; [done|]. split; [rewrite Hp; apply NoDup_fst_map_to_list|]. split.
  - intros key values Hin%elem_of_permute%elem_of_map_to_list. done.
  - intros key. rewrite Hp. intros Hn. rewrite lookup_withCustom.
    destruct (header !! key) as [values|] eqn:Hk; [|done].
    destruct Hn. apply list_elem_of_fmap. exists (key, values). split; [done|]. by apply elem_of_map_to_list.
Qed.

Lemma adding_step key values left t s :
  canonical header → adding ((key, values) :: left) t s → headerGet req key = "" →
  adding left (foldl (λ req v, headerAdd key v req) t values) s.
Proof.
  intros Hc (-> & Hnd & Hleft & Hrest) Hget. apply NoDup_cons in Hnd as [Hni Hnd].
  destruct (Hleft key values) as [Hk Ht]; [by left|]. pose proof (Hc _ _ Hk) as Hck. simpl in Hck.
  split; [done|]. split; [done|]. split.
  - intros key' values' Hin. destruct (Hleft key' values') as [Hk' Ht']; [by right|]. split; [done|].
    rewrite lookup_added, decide_False; [done| |done]. intros ->. apply Hni.
    apply list_elem_of_fmap. by exists (key, values').
  - intros key' Hni'. rewrite lookup_added by done. case_decide as Heq.
    + subst key'. rewrite lookup_withCustom, Hk, Ht. by split.
    + apply Hrest. simpl. set_solver.
Qed.

Lemma RoundTrip_wp :
  canonical header →
  wp sendProtocol (RoundTrip header (Some req)) None (λ '(r, req') s,
    (overrides header req ∧ s = None ∧ ∃ err, r = inl err) ∨
    (¬ overrides header req ∧ s = Some r ∧ req' = Some (withCustom header req))).
Proof.
  intros Hc. unfold RoundTrip. apply wp_bind, wp_call; [done|]. intros order _. apply wp_bind.
  eapply (wp_for_range _ _ (λ left t s, ∃ h, t = Some h ∧ adding left h s));
    [| |by exists req; split; [|apply adding_start]].
  - intros [key values] left ? s (t & -> & Hadd). pose proof Hadd as (-> & _ & Hleft & _).
    destruct (Hleft key values) as [Hk Ht]; [by left|].
    assert (headerGet t key = headerGet req key) as Hget.
    { unfold headerGet. by rewrite (Hc _ _ Hk : CanonicalMIMEHeaderKey key = key), Ht. }
    simpl. rewrite Hget, addValues_some. case_bool_decide as He; simpl.
    + apply wp_bind, wp_ret, wp_ret. eexists. split; [done|]. by apply adding_step.
    + left. split; [by exists key, values|]. split; [done|]. by eexists.
  - intros ? s (t & -> & -> & _ & _ & Hrest).
    assert (t = withCustom header req) as -> by (apply map_eq; intros key; apply Hrest, not_elem_of_nil).
    assert (¬ overrides header req) as Hno.
    { intros (key & values & Hk & Hg). destruct (Hrest key) as [_ Hn]; [apply not_elem_of_nil|].
      by apply Hg, (Hn values). }
    apply wp_bind, wp_call; [done|]. intros r _. apply wp_ret. by right.
Qed.

(** What a second round trip of the same request finds. *)
Lemma overrides_again :
  canonical header → ¬ overrides header req →
  overrides header (withCustom header req) ↔
  ∃ key value values, header !! key = Some (value :: values) ∧ value ≠ "" ∧ default [] (req !! key) = [].
Proof.
  intros Hc Hno.
  assert (∀ key values, header !! key = Some values →
    headerGet (withCustom header req) key = default "" (head (default [] (req !! key) ++ values)) ∧
    headerGet req key = default "" (head (default [] (req !! key)))) as Hget.
  { intros key values Hk. unfold headerGet.
    rewrite (Hc _ _ Hk : CanonicalMIMEHeaderKey key = key), lookup_withCustom, Hk. split; [|done].
    unfold extended. destruct values; [by rewrite app_nil_r|done]. }
  split.
  - intros (key & values & Hk & Hg). destruct (Hget _ _ Hk) as [Hg1 Hg2]. rewrite Hg1 in Hg.
    destruct (default [] (req !! key)) as [|v vs] eqn:Hr.
    + destruct values as [|value values]; [done|]. by exists key, value, values.
    + destruct Hno. exists key, values. split; [done|]. by rewrite Hg2.
  - intros (key & value & values & Hk & Hv & Hr). exists key, (value :: values). split; [done|].
    destruct (Hget _ _ Hk) as [-> _]. by rewrite Hr.
Qed.
End safety.

(** C30: let the keys of the custom headers be in canonical form, and call a
    header present when its first value in the request is not empty.  A request
    is passed on, once, exactly if no custom header is present, and then with
    every custom value appended to it and nothing else changed, whatever the
    order in which the headers are visited; otherwise the round trip fails and
    nothing is sent.  The request keeps the headers it was sent with: a second
    round trip fails exactly if the first value of some custom header is not
    empty and the request had no value for it.  A request whose header map is
    nil makes the round trip panic before anything is sent, as soon as there is
    a custom value to add. *)
Theorem RoundTrip_adds_headers {Response} header req :
  canonical header →
  wp (sendProtocol (Response := Response) header req) (RoundTrip header (Some req)) None
    (λ '(r, req') s,
      (overrides header req ∧ s = None ∧ ∃ err, r = inl err) ∨
      (¬ overrides header req ∧ s = Some r ∧ req' = Some (withCustom header req))) ∧
  (¬ overrides header req → overrides header (withCustom header req) ↔
     ∃ key value values, header !! key = Some (value :: values) ∧ value ≠ "" ∧
       default [] (req !! key) = []) ∧
  (∀ key value values, header !! key = Some (value :: values) →
   ∀ t o, exec (RoundTrip (Response := Response) header None) t o →
     (∃ order, t = [Ev HOrder order]) ∧ o = Panicked "assignment to entry in nil map").
Proof.
  intros Hc. split; [by apply RoundTrip_wp|]. split; [by apply overrides_again|]. apply RoundTrip_nil.
Qed.

Module Demo.
Definition header : Header := {["X-Fleet" := ["hub"]]}.
Definition req : Header := {["Accept" := ["*/*"]]}.
Definition serve (X : Type) (e : httpEff string X) (sent : list (option Header)) : X * list (option Header) :=
  match e in httpEff _ X return X * list (option Header) with
  | HOrder => ([], sent)
  | HRoundTrip h => (inr "200 OK", h :: sent)
  end.
Definition trip (req : option Header) : outcome ((error + string) * option Header) * list (option Header) :=
  run serve (RoundTrip header req) [].
Lemma canonical_header : canonical header.
Proof. by apply map_Forall_singleton. Qed.
Lemma not_overrides : ¬ overrides header req.
Proof.
  intros (key & values & Hk & Hg). unfold header in Hk. apply lookup_singleton_Some in Hk as [<- <-].
  by vm_compute in Hg.
Qed.
End Demo.

Lemma RoundTrip_adds_headers_witness :
  overrides Demo.header (withCustom Demo.header Demo.req) ∧
  Demo.trip (Some Demo.req) = (Done (inr "200 OK", Some (withCustom Demo.header Demo.req)),
                               [Some (withCustom Demo.header Demo.req)]) ∧
  (Demo.trip (Some (withCustom Demo.header Demo.req))).2 = [] ∧
  Demo.trip None = (Panicked "assignment to entry in nil map", []).
Proof.
  split; [|vm_compute; repeat split; reflexivity].
  destruct (RoundTrip_adds_headers (Response := string) Demo.header Demo.req Demo.canonical_header)
    as (_ & Hagain & _). apply (Hagain Demo.not_overrides). exists "X-Fleet", "hub", [].
  split; [reflexivity|]. split; [discriminate|reflexivity].
Defined.

End httpclient.
