(* ===== verification/HubConfig.v ===== *)
(** * [pkg/common/hubconfig]

    The configuration of the client of the hub, read from environment variables
    and a token file, with what it uses of [encoding/base64] and of
    [net/textproto]. *)

From S2P Require Import Prelude Prog Go Effects HttpClient.

Module hubconfig.

(** ** [encoding/base64] *)

Definition LF : ascii := "010".
Definition CR : ascii := "013".
Definition isNewline (c : ascii) : bool := bool_decide (c = LF ∨ c = CR).

Definition encodeStd : list ascii := String.list_ascii_of_string
  "ABCDEFGHIJKLMNOPQRSTUVWXYZabcdefghijklmnopqrstuvwxyz0123456789+/".
Definition digit (c : ascii) : option Z :=
  (λ p, Z.of_nat p.1) <$> list_find (λ c', c' = c) encodeStd.

(** The bytes of a quantum of two to four digits. *)
Definition byte (z : Z) : ascii := Ascii.ascii_of_nat (Z.to_nat (z mod 256)).
Definition assemble (q : list Z) : list ascii :=
  let d i := default 0%Z (q !! i) in
  let val := (d 0%nat * 2 ^ 18 + d 1%nat * 2 ^ 12 + d 2%nat * 2 ^ 6 + d 3%nat)%Z in
  take (length q - 1) [byte (val / 2 ^ 16); byte (val / 2 ^ 8); byte val].

Fixpoint skipNewlines (src : list ascii) (si : nat) : list ascii * nat :=
  match src with
  | c :: rest => if isNewline c then skipNewlines rest (S si) else (src, si)
  | [] => (src, si)
  end.
(** What follows the first padding character of a quantum of [j] digits: the
    second one, where it is needed, and line breaks. *)
Definition padding (src : list ascii) (si j : nat) : nat + unit :=
  let last '(src, si) := match skipNewlines src si with ([], _) => inr tt | (_, si) => inl si end in
  match j with
  | 0 | 1 => inl (si - 1)
  | 2 => match skipNewlines src si with
         | ([], si) => inl si
         | (c :: src, si) => if bool_decide (c = "="%char) then last (src, S si) else inl (si - 1)
         end
  | _ => last (src, si)
  end.
(** [q] are the digits of the quantum that is being read and [out] the bytes
    of those before; an error is the offset of the corrupt input. *)
Fixpoint decode (src : list ascii) (si : nat) (q : list Z) (out : list ascii) : nat + list ascii :=
  match src with
  | [] => match q with [] => inr out | _ => inl (si - length q) end
  | c :: src =>
      match digit c with
      | Some d =>
          if bool_decide (length q = 3) then decode src (S si) [] (out ++ assemble (q ++ [d]))
          else decode src (S si) (q ++ [d]) out
      | None =>
          if isNewline c then decode src (S si) q out
          else if negb (bool_decide (c = "="%char)) then inl si
          else match padding src (S si) (length q) with
               | inl offset => inl offset
               | inr _ => inr (out ++ assemble q)
               end
      end
  end.
Definition DecodeString (s : string) : error + list ascii :=
  match decode (String.list_ascii_of_string s) 0 [] [] with
  | inl offset => inl (ErrorString ("illegal base64 data at input byte " +:+ pretty offset))
  | inr data => inr data
  end.

(** ** [textproto.Reader.ReadMIMEHeader] *)

(** The lines of a text, without their ends; a last line needs no end. *)
Fixpoint readLines (s : string) : list string :=
  match s with
  | EmptyString => []
  | String c rest =>
      let more := match readLines rest with
                  | [] => [String c EmptyString]
                  | line :: lines => String c line :: lines
                  end in
      if bool_decide (c = LF) then EmptyString :: readLines rest
      else match rest with
           | String c' rest' =>
               if bool_decide (c = CR ∧ c' = LF) then EmptyString :: readLines rest' else more
           | EmptyString => more
           end
  end.

Definition isBlank (c : ascii) : bool := bool_decide (c = " "%char ∨ c = "009"%char).
Fixpoint TrimLeft (s : string) : string :=
  match s with String c rest => if isBlank c then TrimLeft rest else s | EmptyString => s end.
Fixpoint TrimRight (s : string) : string :=
  match s with
  | EmptyString => EmptyString
  | String c rest =>
      match TrimRight rest with
      | EmptyString => if isBlank c then EmptyString else String c EmptyString
      | rest => String c rest
      end
  end.
Definition trim (s : string) : string := TrimRight (TrimLeft s).
Definition startsBlank (s : string) : bool :=
  match s with String c _ => isBlank c | EmptyString => false end.

(** [bytes.Cut] at the first colon. *)
Fixpoint cutColon (s : string) : option (string * string) :=
  match s with
  | EmptyString => None
  | String c rest =>
      if bool_decide (c = ":"%char) then Some (EmptyString, rest)
      else '(k, v) ← cutColon rest; Some (String c k, v)
  end.

(** The key of a field.  A space is accepted, but such a key is left as it is. *)
Definition canonicalMIMEHeaderKey (k : string) : option string :=
  if bool_decide (k = "") then None
  else if forallb (λ c, validHeaderFieldByte c || bool_decide (c = " "%char))
            (String.list_ascii_of_string k)
  then Some (CanonicalMIMEHeaderKey k) else None.
(** Visible characters, blanks and everything from 0x80 on. *)
Definition validHeaderValueByte (c : ascii) : bool :=
  let n := Ascii.nat_of_ascii c in
  bool_decide (n = 9 ∨ 32 ≤ n ≤ 126 ∨ 128 ≤ n).

Inductive mimeError :=
| EOF
| MalformedInitialLine (line : string)
| MissingColon (line : string)
| MalformedLine (kv : string).
Definition mimeErrorOf (err : mimeError) : error :=
  match err with
  | EOF => ErrorString "EOF"
  | MalformedInitialLine line => ErrorString ("malformed MIME header initial line: " +:+ line)
  | MissingColon line => ErrorString ("malformed MIME header: missing colon: " +:+ Quote line)
  | MalformedLine kv => ErrorString ("malformed MIME header line: " +:+ kv)
  end.

(** A field with its continuation lines joined. *)
Definition addField (kv : string) (m : Header) : mimeError + Header :=
  match cutColon kv with
  | None => inl (MalformedLine kv)
  | Some (k, v) =>
      match canonicalMIMEHeaderKey k with
      | None => inl (MalformedLine kv)
      | Some key =>
          if forallb validHeaderValueByte (String.list_ascii_of_string v)
          then inr (<[key := default [] (m !! key) ++ [TrimLeft v]]> m)
          else inl (MalformedLine kv)
      end
  end.
(** The field that is being read, if there is one, is complete. *)
Definition endField (current : option string) (m : Header) : mimeError + Header :=
  match current with Some kv => addField kv m | None => inr m end.
Fixpoint readFields (lines : list string) (current : option string) (m : Header)
    : Header * option mimeError :=
  match lines with
  | [] => match endField current m with inl err => (m, Some err) | inr m => (m, Some EOF) end
  | line :: lines =>
      match current, startsBlank line with
      | Some kv, true => readFields lines (Some (kv +:+ " " +:+ trim line)) m
      | _, _ =>
          match endField current m with
          | inl err => (m, Some err)
          | inr m =>
              if bool_decide (line = "") then (m, None)
              else match cutColon line with
                   | None => (m, Some (MissingColon line))
                   | Some _ => readFields lines (Some (trim line)) m
                   end
          end
      end
  end.
Definition ReadMIMEHeader (s : string) : Header * option mimeError :=
  match readLines s with
  | line :: lines =>
      if startsBlank line then (∅, Some (MalformedInitialLine line))
      else readFields (line :: lines) None ∅
  | [] => readFields [] None ∅
  end.


(** ** Operations *)

Definition hubServerURLEnvKey := "HUB_SERVER_URL".
Definition tokenConfigPathEnvKey := "CONFIG_PATH".
Definition hubCAEnvKey := "HUB_CERTIFICATE_AUTHORITY".
Definition hubKubeHeaderEnvKey := "HUB_KUBE_HEADER".
Definition HubNamespaceNameFormat (name : string) : string := "fleet-member-" +:+ name.

Definition FetchMemberClusterNamespace (environ : gmap string string) : error + string :=
  match env.LookupMemberClusterName environ with
  | inl err => inl err
  | inr mcName => inr (HubNamespaceNameFormat mcName)
  end.

(** [rest.Config], with the headers of the round tripper that [WrapTransport]
    makes. *)
Record Config := {
  BearerTokenFile : string;
  Host : string;
  Insecure : bool;
  CAData : list ascii;
  WrapTransport : option Header;
}.

(** [os.Stat]; only its error is used. *)
Inductive statEff : Type → Type :=
| EStat (path : string) : statEff (option error).

(** [retry.OnError] with [retry.DefaultRetry]: one attempt or more, another one
    only after a retriable error; the outcome is that of the last attempt. *)
Class Retry := {
  RetryOnError (retriable : error → bool) (fn : prog statEff (option error))
    : prog statEff (option error);
}.
Class RetryLaws `{Retry} : Prop := {
  RetryOnError_wp S (P : protocol statEff S) retriable fn s (I : S → Prop)
      (Q : option error → S → Prop) :
    (∀ s, I s → wp P fn s (λ r s', Q r s' ∧
       match r with Some err => retriable err = true → I s' | None => True end)) →
    I s → wp P (RetryOnError retriable fn) s Q;
}.

(** The certificate authority, where the connection is to be verified. *)
Definition lookupCA (environ : gmap string string) (tlsClientInsecure : bool) : error + list ascii :=
  if tlsClientInsecure then inr []
  else match env.Lookup environ hubCAEnvKey with
       | inl _ => inr []
       | inr hubCA => DecodeString hubCA
       end.
Definition lookupHeader (environ : gmap string string) : error + option Header :=
  match env.Lookup environ hubKubeHeaderEnvKey with
  | inl _ => inr None
  | inr header =>
      match ReadMIMEHeader header with
      | (h, None) | (h, Some EOF) => inr (Some h)
      | (_, Some err) => inl (mimeErrorOf err)
      end
  end.

Definition PrepareHubConfig `{Retry} (environ : gmap string string) (tlsClientInsecure : bool)
    : prog statEff (error + Config) :=
  match env.Lookup environ hubServerURLEnvKey with
  | inl err => mret (inl err)
  | inr hubURL =>
      match env.Lookup environ tokenConfigPathEnvKey with
      | inl err => mret (inl err)
      | inr tokenFilePath =>
          err ← RetryOnError (λ _, true) (call (EStat tokenFilePath));
          match err with
          | Some err => mret (inl err)
          | None =>
              match lookupCA environ tlsClientInsecure with
              | inl err => mret (inl err)
              | inr caData =>
                  match lookupHeader environ with
                  | inl err => mret (inl err)
                  | inr wrap => mret (inr {|
                      BearerTokenFile := tokenFilePath; Host := hubURL;
                      Insecure := tlsClientInsecure; CAData := caData; WrapTransport := wrap |})
                  end
              end
          end
      end
  end.

(** ** Decoding *)

(** The encoding of bytes. *)
Definition symbol (d : Z) : ascii := default "="%char (encodeStd !! Z.to_nat d).
Definition ord (c : ascii) : Z := Z.of_nat (Ascii.nat_of_ascii c).
Fixpoint encoded (data : list ascii) : list ascii :=
  match data with
  | [] => []
  | [a] => [symbol (ord a / 4); symbol (ord a mod 4 * 16); "="; "="]%char
  | [a; b] => [symbol (ord a / 4); symbol (ord a mod 4 * 16 + ord b / 16);
               symbol (ord b mod 16 * 4); "="]%char
  | a :: b :: c :: data =>
      [symbol (ord a / 4); symbol (ord a mod 4 * 16 + ord b / 16);
       symbol (ord b mod 16 * 4 + ord c / 64); symbol (ord c mod 64)] ++ encoded data
  end.
(** The text without its line breaks. *)
Definition unwrapped (text : list ascii) : list ascii := filter (λ c, isNewline c = false) text.

Lemma digit_symbol d : (0 ≤ d < 64)%Z → digit (symbol d) = Some d.
Proof.
  intros Hd. assert (Forall (λ n, digit (symbol (Z.of_nat n)) = Some (Z.of_nat n)) (seq 0 64)) as Hall
    by (apply (bool_decide_unpack _); vm_compute; exact I).
  rewrite <-(Z2Nat.id d) by lia. apply (proj1 (Forall_forall _ _) Hall), elem_of_seq. lia.
Qed.
Lemma ord_range c : (0 ≤ ord c < 256)%Z.
Proof. unfold ord. pose proof (Ascii.nat_ascii_bounded c). lia. Qed.
Lemma byte_ord z c : (z mod 256 = ord c)%Z → byte z = c.
Proof. unfold byte. intros ->. unfold ord. rewrite Nat2Z.id. apply Ascii.ascii_nat_embedding. Qed.

Lemma decode_symbols (l : list Z) rest si q out :
  Forall (λ d, 0 ≤ d < 64)%Z l → length q + length l ≤ 3 →
  decode (map symbol l ++ rest) si q out = decode rest (si + length l) (q ++ l) out.
Proof.
  revert si q. induction l as [|d l IH]; intros si q Hl Hn; simpl.
  { by rewrite app_nil_r, Nat.add_0_r. }
  apply Forall_cons in Hl as [Hd Hl]. simpl in Hn. rewrite digit_symbol by done.
  rewrite bool_decide_eq_false_2 by lia. rewrite IH; [|done|rewrite length_app; simpl; lia].
  rewrite <-app_assoc. simpl. f_equal. lia.
Qed.


(** The digits of two or three bytes give the bytes back. *)
Ltac byte := apply byte_ord; repeat match goal with
    |- context [ord ?c] => pose proof (ord_range c); generalize dependent (ord c); intros end;
  Z.to_euclidean_division_equations; lia.
Lemma assemble_1 a : assemble [ord a / 4; ord a mod 4 * 16]%Z = [a].
Proof. unfold assemble. simpl. repeat f_equal; byte. Qed.
Lemma assemble_2 a b :
  assemble [ord a / 4; ord a mod 4 * 16 + ord b / 16; ord b mod 16 * 4]%Z = [a; b].
Proof. unfold assemble. simpl. repeat f_equal; byte. Qed.
Lemma assemble_3 a b c :
  assemble [ord a / 4; ord a mod 4 * 16 + ord b / 16; ord b mod 16 * 4 + ord c / 64; ord c mod 64]%Z
  = [a; b; c].
Proof. unfold assemble. simpl. repeat f_equal; byte. Qed.


Lemma decode_quantum l c out rest si :
  length l = 3 → Forall (λ d, 0 ≤ d < 64)%Z l → (0 ≤ c < 64)%Z →
  decode (map symbol l ++ symbol c :: rest) si [] out =
  decode rest (S (si + 3)) [] (out ++ assemble (l ++ [c])).
Proof.
  intros Hn Hl Hc. rewrite decode_symbols by (simpl; lia || done). simpl.
  rewrite digit_symbol by done. by rewrite Hn, bool_decide_eq_true_2.
Qed.
Ltac sextet := repeat apply Forall_cons_2; try apply Forall_nil_2;
  repeat match goal with
    |- context [ord ?c] => pose proof (ord_range c); generalize dependent (ord c); intros end;
  Z.to_euclidean_division_equations; lia.
Lemma decode_encoded data si out : decode (encoded data) si [] out = inr (out ++ data).
Proof.
  revert data si out. fix IH 1. intros [|a [|b [|c data]]] si out.
  - simpl. by rewrite app_nil_r.
  - rewrite (decode_symbols [ord a / 4; ord a mod 4 * 16]%Z ["="; "="]%char) by (simpl; lia || sextet).
    simpl app. change (decode ["="; "="]%char ?i ?q ?o) with (inr (A := nat) (o ++ assemble q)).
    by rewrite assemble_1.
  - rewrite (decode_symbols [ord a / 4; ord a mod 4 * 16 + ord b / 16; ord b mod 16 * 4]%Z ["="]%char)
      by (simpl; lia || sextet).
    simpl app. change (decode ["="]%char ?i ?q ?o) with (inr (A := nat) (o ++ assemble q)).
    by rewrite assemble_2.
  - etrans; [apply (decode_quantum [ord a / 4; ord a mod 4 * 16 + ord b / 16;
      ord b mod 16 * 4 + ord c / 64]%Z (ord c mod 64)%Z out (encoded data)); [done|sextet|sextet]|].
    rewrite IH. simpl app. by rewrite assemble_3, <-app_assoc.
Qed.

(** Line breaks make no difference. *)
Lemma unwrapped_cons c src :
  unwrapped (c :: src) = if isNewline c then unwrapped src else c :: unwrapped src.
Proof.
  unfold unwrapped. destruct (isNewline c) eqn:Hc; [|by rewrite filter_cons_True].
  by rewrite filter_cons_False by (by rewrite Hc).
Qed.
Lemma skipNewlines_spec src si si' :
  (skipNewlines (unwrapped src) si').1 = [] ∧ (skipNewlines src si).1 = [] ∨
  ∃ c rest, (skipNewlines (unwrapped src) si').1 = c :: unwrapped rest ∧
            (skipNewlines src si).1 = c :: rest.
Proof.
  revert si. induction src as [|c src IH]; intros si; [by left|]. rewrite unwrapped_cons. simpl.
  destruct (isNewline c) eqn:Hc; [apply IH|]. right. exists c, src. simpl. by rewrite Hc.
Qed.
Lemma padding_unwrapped src si si' j :
  padding (unwrapped src) si' j = inr tt → padding src si j = inr tt.
Proof.
  assert (∀ src si si', match skipNewlines (unwrapped src) si' with ([], _) => inr tt | (_, si) => inl si end
      = inr (A := nat) tt →
    match skipNewlines src si with ([], _) => inr tt | (_, si) => inl si end = inr (A := nat) tt) as Hlast.
  { clear. intros src si si'. destruct (skipNewlines_spec src si si') as [[H1 H2]|(c & rest & H1 & H2)];
      destruct (skipNewlines (unwrapped src) si'), (skipNewlines src si); simpl in *; by subst. }
  destruct j as [|[|[|j]]]; [done|done| |apply Hlast]. simpl.
  destruct (skipNewlines_spec src si si') as [[H1 H2]|(c & rest & H1 & H2)];
    destruct (skipNewlines (unwrapped src) si') as [? sk'], (skipNewlines src si) as [? sk];
    simpl in *; subst; [done|]. case_bool_decide; [|done]. apply Hlast.
Qed.
Lemma decode_unwrapped src si si' q out data :
  decode (unwrapped src) si' q out = inr data → decode src si q out = inr data.
Proof.
  revert si si' q out. induction src as [|c src IH]; intros si si' q out; [by destruct q|].
  rewrite unwrapped_cons. destruct (isNewline c) eqn:Hc; simpl.
  { destruct (digit c) eqn:Hd; [|rewrite Hc; apply IH].
    unfold isNewline in Hc. apply bool_decide_eq_true in Hc as [->| ->]; by vm_compute in Hd. }
  destruct (digit c); [case_bool_decide; apply IH|]. rewrite Hc.
  destruct (negb _); [done|]. destruct (padding (unwrapped src) (S si') (length q)) as [|[]] eqn:Hp; [done|].
  by rewrite (padding_unwrapped _ _ _ _ Hp).
Qed.
Lemma DecodeString_encoded text data :
  unwrapped (String.list_ascii_of_string text) = encoded data → DecodeString text = inr data.
Proof.
  intros Ht. unfold DecodeString. by rewrite (decode_unwrapped _ 0 0 [] [] data) by (by rewrite Ht, decode_encoded).
Qed.

(** ** Fields *)

(** A field as it is written, and as [http.Header] holds it. *)
Definition CRLF : string := String CR (String LF EmptyString).
Definition fieldLine '((k, v) : string * string) : string := k +:+ ":" +:+ " " +:+ v.
Arguments fieldLine : simpl never.
Definition rendered (fields : list (string * string)) : string :=
  foldr (λ field text, fieldLine field +:+ CRLF +:+ text) "" fields.
Definition gathered (fields : list (string * string)) : Header :=
  foldl (λ h '(k, v), headerAdd k v h) ∅ fields.
(** The values of the fields that are written with some spelling of the key. *)
Definition valuesOf (key : string) (fields : list (string * string)) : list string :=
  (filter (λ field, CanonicalMIMEHeaderKey field.1 = key) fields).*2.
Definition validField '((k, v) : string * string) : Prop :=
  k ≠ "" ∧ forallb validHeaderFieldByte (String.list_ascii_of_string k) = true ∧
  forallb validHeaderValueByte (String.list_ascii_of_string v) = true ∧
  TrimLeft v = v ∧ TrimRight v = v.

Lemma forallb_Forall {A} (f : A → bool) l : forallb f l = true ↔ Forall (λ x, f x = true) l.
Proof.
  induction l as [|x l IH]; simpl; [by split|]. by rewrite andb_true_iff, Forall_cons, IH.
Qed.
Definition noBreak (s : string) : Prop :=
  Forall (λ c, c ≠ LF ∧ c ≠ CR) (String.list_ascii_of_string s).
Lemma readLines_cons c rest : c ≠ LF → c ≠ CR →
  readLines (String c rest) = match readLines rest with
                              | [] => [String c EmptyString]
                              | line :: lines => String c line :: lines
                              end.
Proof.
  intros Hl Hr. simpl. rewrite bool_decide_eq_false_2 by done. destruct rest; [done|].
  by rewrite bool_decide_eq_false_2 by naive_solver.
Qed.
Lemma readLines_line line rest : noBreak line → readLines (line +:+ CRLF +:+ rest) = line :: readLines rest.
Proof.
  unfold noBreak. induction line as [|c line IH]; [done|]. intros [[Hl Hr] Hn]%Forall_cons.
  etrans; [by apply (readLines_cons c (line +:+ CRLF +:+ rest))|]. by rewrite IH.
Qed.
Lemma string_app_list s t : String.list_ascii_of_string (s +:+ t) =
  String.list_ascii_of_string s ++ String.list_ascii_of_string t.
Proof. induction s as [|c s IH]; [done|]. simpl. by rewrite IH. Qed.
(** Something decidable holds of all characters if it does of each. *)
Lemma ascii_all (P : ascii → Prop) `{!∀ c, Decision (P c)} :
  bool_decide (Forall P (map Ascii.ascii_of_nat (seq 0 256))) = true → ∀ c, P c.
Proof.
  intros Hall%bool_decide_eq_true c. apply (proj1 (Forall_forall _ _) Hall), list_elem_of_fmap.
  exists (Ascii.nat_of_ascii c). rewrite Ascii.ascii_nat_embedding. split; [done|].
  apply elem_of_seq. pose proof (Ascii.nat_ascii_bounded c). lia.
Qed.
Ltac all_bytes :=
  match goal with |- ∀ c, @?P c => refine (ascii_all P _); vm_compute; reflexivity end.
Lemma validHeaderFieldByte_visible c : validHeaderFieldByte c = true →
  c ≠ LF ∧ c ≠ CR ∧ c ≠ ":"%char ∧ c ≠ " "%char ∧ isBlank c = false.
Proof. revert c. all_bytes. Qed.
Lemma validHeaderValueByte_visible c : validHeaderValueByte c = true → c ≠ LF ∧ c ≠ CR.
Proof. revert c. all_bytes. Qed.

Lemma fieldLine_noBreak field : validField field → noBreak (fieldLine field).
Proof.
  destruct field as [k v]. intros (_ & Hk%forallb_Forall & Hv%forallb_Forall & _). unfold noBreak, fieldLine.
  rewrite !string_app_list. repeat apply Forall_app_2.
  - eapply Forall_impl; [exact Hk|]. intros c Hc%validHeaderFieldByte_visible. tauto.
  - by repeat constructor.
  - by repeat constructor.
  - eapply Forall_impl; [exact Hv|]. intros c Hc%validHeaderValueByte_visible. tauto.
Qed.
Lemma fieldLine_start field : validField field → startsBlank (fieldLine field) = false.
Proof.
  destruct field as [[|c k] v]; intros (Hne & Hk & _); [done|]. simpl in *.
  apply andb_true_iff in Hk as [Hc%validHeaderFieldByte_visible _]. tauto.
Qed.
Lemma cutColon_key k v :
  forallb validHeaderFieldByte (String.list_ascii_of_string k) = true →
  cutColon (k +:+ ":" +:+ v) = Some (k, v).
Proof.
  induction k as [|c k IH]; [done|]. simpl. intros [Hc%validHeaderFieldByte_visible Hk]%andb_true_iff.
  rewrite bool_decide_eq_false_2 by tauto.
  by rewrite IH.
Qed.
Lemma TrimRight_key k v : TrimRight (k +:+ ":" +:+ v) = k +:+ ":" +:+ TrimRight v.
Proof.
  induction k as [|c k IH]; simpl.
  { change ("" +:+ v) with v. by destruct (TrimRight v). }
  change (String c k +:+ ":" +:+ v) with (String c (k +:+ ":" +:+ v)). simpl. rewrite IH. by destruct k.
Qed.

Lemma addField_line k v m :
  validField (k, v) → addField (trim (fieldLine (k, v))) m = inr (headerAdd k v m).
Proof.
  intros Hvalid. pose proof (fieldLine_start _ Hvalid) as Hs. destruct Hvalid as (Hne & Hk & Hv & Hl & Hr).
  assert (TrimLeft (fieldLine (k, v)) = fieldLine (k, v)) as Ht.
  { destruct (fieldLine (k, v)); [done|]. simpl in *. by rewrite Hs. }
  unfold trim. rewrite Ht. unfold fieldLine. rewrite TrimRight_key. unfold addField.
  rewrite cutColon_key by done.
  assert (canonicalMIMEHeaderKey k = Some (CanonicalMIMEHeaderKey k)) as ->.
  { unfold canonicalMIMEHeaderKey. rewrite bool_decide_eq_false_2 by done.
    rewrite (proj2 (forallb_Forall _ _)); [done|]. apply forallb_Forall in Hk.
    eapply Forall_impl; [exact Hk|]. simpl. intros c ->. done. }
  change (" " +:+ v) with (String " " v). simpl. rewrite Hr. destruct v as [|c v]; [done|]. simpl in *.
  by rewrite Hv, Hl.
Qed.
Lemma readFields_lines fields current m m' :
  Forall validField fields → endField current m = inr m' →
  readFields (map fieldLine fields) current m =
  (foldl (λ h '(k, v), headerAdd k v h) m' fields, Some EOF).
Proof.
  revert current m m'. induction fields as [|[k v] fields IH]; intros current m m' Hf He; simpl.
  { by rewrite He. }
  apply Forall_cons in Hf as [Hkv Hf]. rewrite He.
  rewrite (fieldLine_start _ Hkv). pose proof (addField_line k v m' Hkv) as Hadd.
  destruct Hkv as (Hne & Hk & _).
  assert (cutColon (fieldLine (k, v)) = Some (k, " " +:+ v)) as -> by by apply cutColon_key.
  assert (fieldLine (k, v) ≠ "") by by destruct k. rewrite bool_decide_eq_false_2 by done.
  destruct current; by apply IH.
Qed.
Lemma readLines_rendered fields :
  Forall validField fields → readLines (rendered fields) = map fieldLine fields.
Proof.
  induction fields as [|field fields IH]; [done|]. intros [Hf Hfs]%Forall_cons. simpl.
  rewrite readLines_line by (by apply fieldLine_noBreak). by rewrite IH.
Qed.
Lemma ReadMIMEHeader_rendered fields :
  Forall validField fields → ReadMIMEHeader (rendered fields) = (gathered fields, Some EOF).
Proof.
  intros Hf. unfold ReadMIMEHeader. rewrite readLines_rendered by done. destruct fields as [|field fields]; [done|].
  simpl. rewrite fieldLine_start by (by apply Forall_cons in Hf as [? _]).
  by apply (readFields_lines (field :: fields) None ∅ ∅).
Qed.

Lemma gathered_lookup fields key :
  gathered fields !! key = match valuesOf key fields with [] => None | values => Some values end.
Proof.
  unfold gathered, valuesOf. induction fields as [|[k v] fields IH] using rev_ind; [done|].
  rewrite foldl_app, filter_app, fmap_app. simpl. unfold headerAdd at 1. rewrite filter_cons. simpl.
  case_decide as Hk; simpl.
  - subst key. rewrite lookup_insert_eq, IH. by destruct (filter _ fields).*2.
  - by rewrite lookup_insert_ne, app_nil_r.
Qed.

(** *** The keys are canonical *)

Definition canonicalByte (upper : bool) (c : ascii) : ascii :=
  if upper then upperAscii c else lowerAscii c.
Lemma canonicalByte_spec upper c : validHeaderFieldByte c = true →
  validHeaderFieldByte (canonicalByte upper c) = true ∧
  canonicalByte upper (canonicalByte upper c) = canonicalByte upper c ∧
  bool_decide (canonicalByte upper c = "-"%char) = bool_decide (c = "-"%char).
Proof. revert c. destruct upper; all_bytes. Qed.
Lemma canonicalCase_valid upper s :
  forallb validHeaderFieldByte (String.list_ascii_of_string s) = true →
  forallb validHeaderFieldByte (String.list_ascii_of_string (canonicalCase upper s)) = true ∧
  canonicalCase upper (canonicalCase upper s) = canonicalCase upper s.
Proof.
  revert upper. induction s as [|c s IH]; intros upper; [done|]. simpl. intros [Hc Hs]%andb_true_iff.
  fold (canonicalByte upper c). destruct (canonicalByte_spec upper c Hc) as (Hv & Hi & Hd).
  fold (canonicalByte upper (canonicalByte upper c)).
  destruct (IH (bool_decide (c = "-"%char)) Hs) as [IHv IHc]. by rewrite Hv, Hi, Hd, IHv, IHc.
Qed.
Lemma CanonicalMIMEHeaderKey_idempotent k :
  CanonicalMIMEHeaderKey (CanonicalMIMEHeaderKey k) = CanonicalMIMEHeaderKey k.
Proof.
  unfold CanonicalMIMEHeaderKey.
  destruct (forallb validHeaderFieldByte (String.list_ascii_of_string k)) eqn:Hk; [|by rewrite Hk].
  destruct (canonicalCase_valid true k Hk) as [Hv Hc]. by rewrite Hv.
Qed.
Lemma endField_canonical current m m' :
  httpclient.canonical m → endField current m = inr m' → httpclient.canonical m'.
Proof.
  intros Hm. destruct current as [kv|]; simpl; [|by intros [= <-]]. unfold addField, canonicalMIMEHeaderKey.
  intros He. repeat (case_match; simplify_eq).
  apply map_Forall_insert_2; [apply CanonicalMIMEHeaderKey_idempotent|done].
Qed.
Lemma readFields_canonical lines current m :
  httpclient.canonical m → httpclient.canonical (readFields lines current m).1.
Proof.
  revert current m. induction lines as [|line lines IH]; intros current m Hm; simpl.
  - destruct (endField current m) eqn:He; [done|]. by eapply endField_canonical.
  - destruct (endField current m) as [|m'] eqn:He.
    { by destruct current as [kv|]; [destruct (startsBlank line); [by apply IH|]|]. }
    pose proof (endField_canonical _ _ _ Hm He) as Hm'.
    destruct current as [kv|]; [destruct (startsBlank line); [by apply IH|]|];
      (case_bool_decide; [done|]; destruct (cutColon line); [by apply IH|done]).
Qed.
Lemma ReadMIMEHeader_canonical s : httpclient.canonical (ReadMIMEHeader s).1.
Proof.
  assert (httpclient.canonical ∅) by apply map_Forall_empty.
  unfold ReadMIMEHeader. destruct (readLines s) as [|line lines]; [done|].
  destruct (startsBlank line); [done|]. by apply readFields_canonical.
Qed.

(** ** The configuration *)

Section protocol.
Context (environ : gmap string string) (insecure : bool).

(** The outcome of the last look at the token file: only the file of the
    environment is looked at, only if the address of the hub is known as well,
    and not again once it was found. *)
Definition tokenProtocol : protocol statEff (option (option error)) := {|
  allowed X e s :=
    match e with
    | EStat path => environ !! "CONFIG_PATH" = Some path ∧
        is_Some (environ !! "HUB_SERVER_URL") ∧ s ≠ Some None
    end;
  answer X e s x := True;
  next X e := match e in statEff X return X → _ → _ with EStat _ => λ x _, Some x end |}.

Definition authorityOf (c : Config) : Prop :=
  match environ !! "HUB_CERTIFICATE_AUTHORITY" with
  | Some text => if insecure then CAData c = [] else DecodeString text = inr (CAData c)
  | None => CAData c = []
  end.
(** A text of fields that ends, with an empty line or without. *)
Definition parsed (text : string) (h : Header) : Prop :=
  ∃ err, ReadMIMEHeader text = (h, err) ∧ (err = None ∨ err = Some EOF).
Definition headersOf (c : Config) : Prop :=
  match environ !! "HUB_KUBE_HEADER" with
  | Some text => ∃ h, WrapTransport c = Some h ∧ parsed text h ∧ httpclient.canonical h
  | None => WrapTransport c = None
  end.
Definition unusable : Prop :=
  (insecure = false ∧ ∃ text err,
     environ !! "HUB_CERTIFICATE_AUTHORITY" = Some text ∧ DecodeString text = inl err) ∨
  ∃ text, environ !! "HUB_KUBE_HEADER" = Some text ∧ ∀ h, ¬ parsed text h.
Definition configured (r : error + Config) (s : option (option error)) : Prop :=
  match r with
  | inr c => s = Some None ∧ environ !! "HUB_SERVER_URL" = Some (Host c) ∧
      environ !! "CONFIG_PATH" = Some (BearerTokenFile c) ∧ Insecure c = insecure ∧
      authorityOf c ∧ headersOf c
  | inl err =>
      s = None ∧ (environ !! "HUB_SERVER_URL" = None ∨ environ !! "CONFIG_PATH" = None) ∨
      s = Some (Some err) ∨ s = Some None ∧ unusable
  end.

Lemma lookupCA_spec :
  match lookupCA environ insecure with
  | inl _ => unusable
  | inr data => ∀ c, CAData c = data → authorityOf c
  end.
Proof.
  unfold lookupCA, unusable, authorityOf, env.Lookup, hubCAEnvKey.
  destruct insecure; [intros c ?; by case_match|].
  destruct (environ !! "HUB_CERTIFICATE_AUTHORITY") as [text|] eqn:Ht; [|done].
  destruct (DecodeString text) eqn:Hd; [by left; eauto 6|]. by intros c ->.
Qed.
Lemma lookupHeader_spec :
  match lookupHeader environ with
  | inl _ => unusable
  | inr wrap => ∀ c, WrapTransport c = wrap → headersOf c
  end.
Proof.
  unfold lookupHeader, unusable, headersOf, env.Lookup, hubKubeHeaderEnvKey.
  destruct (environ !! "HUB_KUBE_HEADER") as [text|] eqn:Ht; [|done].
  pose proof (ReadMIMEHeader_canonical text) as Hc. destruct (ReadMIMEHeader text) as [h err] eqn:Hr.
  assert (err = None ∨ err = Some EOF → ∀ c, WrapTransport c = Some h →
    ∃ h, WrapTransport c = Some h ∧ parsed text h ∧ httpclient.canonical h) as Hok.
  { intros He c Hw. exists h. split; [done|]. split; [by exists err|done]. }
  assert (err ≠ None → err ≠ Some EOF → ∀ h, ¬ parsed text h) as Hbad.
  { intros Hn Hf h' (err' & Hr' & [->| ->]); congruence. }
  destruct err as [[]|]; try (by apply Hok; auto); (right; exists text; split; [done|by apply Hbad]).
Qed.

Lemma PrepareHubConfig_wp `{!Retry, !RetryLaws} :
  wp tokenProtocol (PrepareHubConfig environ insecure) None configured.
Proof.
  unfold PrepareHubConfig, env.Lookup, hubServerURLEnvKey, tokenConfigPathEnvKey.
  destruct (environ !! "HUB_SERVER_URL") as [url|] eqn:Hu; [|apply wp_ret; left; auto].
  destruct (environ !! "CONFIG_PATH") as [path|] eqn:Hp; [|apply wp_ret; left; auto].
  apply wp_bind. apply RetryOnError_wp with (I := λ s, s ≠ Some None); [|done].
  intros s Hs. apply wp_call; [by split; [|split; [eexists|]]|]. intros x _. simpl.
  split; [|by destruct x]. destruct x as [err|]; [by apply wp_ret; right; left|].
  pose proof lookupCA_spec as Hca. destruct (lookupCA environ insecure) as [err|data];
    [by apply wp_ret; right; right|].
  pose proof lookupHeader_spec as Hh. destruct (lookupHeader environ) as [err|wrap];
    [by apply wp_ret; right; right|].
  apply wp_ret. do 4 (split; [done|]). split; [by apply Hca|by apply Hh].
Qed.
End protocol.

(** C28: The client of the hub is configured as the environment says.  The token
    file of the environment is looked at until it is found or the attempts are
    used up, and nothing else is touched.  A configuration has the address, the
    token file, the decoded certificate authority (unless the connection is not
    to be verified) and the headers of the environment, with canonical keys, so
    that the round tripper can add them; there is an error exactly if a
    variable is missing, the file was not found, the authority is not base64 or
    the headers are malformed. *)
Theorem PrepareHubConfig_follows_environment `{!Retry, !RetryLaws} environ insecure :
  wp (tokenProtocol environ) (PrepareHubConfig environ insecure) None (configured environ insecure) ∧
  ∀ c, configured environ insecure (inr c) (Some None) → ¬ unusable environ insecure.
Proof.
  split; [exact (PrepareHubConfig_wp environ insecure)|].
  intros c (_ & _ & _ & _ & Ha & Hh).
  unfold authorityOf, headersOf in *. intros [(-> & text & err & Ht & Hd)|(text & Ht & Hno)].
  - rewrite Ht in Ha. congruence.
  - rewrite Ht in Hh. destruct Hh as (h & _ & Hp & _). by apply (Hno h).
Qed.

(** C29: what is put into the environment reaches the client.  Let the
    environment hold an address, a token file, the base64 encoding of a
    certificate authority, broken into lines anywhere, and header fields with
    valid names and trimmed values, written out one per line.  Then
    PrepareHubConfig fails only because the token file was not found, and the
    configuration it makes has this address and token file, exactly the bytes
    of the authority (none when the connection is not to be verified), and a
    round tripper whose headers have, under every canonical key, the values of
    the fields with that name in their order, and no other key. *)
Theorem environment_values_survive `{!Retry, !RetryLaws} environ insecure url path text data fields :
  environ !! "HUB_SERVER_URL" = Some url → environ !! "CONFIG_PATH" = Some path →
  environ !! "HUB_CERTIFICATE_AUTHORITY" = Some text →
  unwrapped (String.list_ascii_of_string text) = encoded data →
  environ !! "HUB_KUBE_HEADER" = Some (rendered fields) → Forall validField fields →
  wp (tokenProtocol environ) (PrepareHubConfig environ insecure) None (λ r s, match r with
    | inr c => Host c = url ∧ BearerTokenFile c = path ∧ Insecure c = insecure ∧
        CAData c = (if insecure then [] else data) ∧
        ∃ h, WrapTransport c = Some h ∧ ∀ key,
          h !! key = match valuesOf key fields with [] => None | values => Some values end
    | inl err => s = Some (Some err)
    end).
Proof.
  intros Hurl Hpath Hca Htext Hh Hf. pose proof (DecodeString_encoded _ _ Htext) as Hd.
  pose proof (ReadMIMEHeader_rendered fields Hf) as Hr.
  eapply wp_mono; [apply (PrepareHubConfig_wp environ insecure)|]. intros [err|c] s; simpl.
  - intros [[_ [?|?]]|[?|[_ Hbad]]]; [congruence|congruence|done|].
    destruct Hbad as [(_ & text' & err' & ? & ?)|(text' & ? & Hno)]; [congruence|].
    destruct (Hno (gathered fields)). assert (text' = rendered fields) as -> by congruence.
    exists (Some EOF). by auto.
  - unfold authorityOf, headersOf. rewrite Hca, Hh.
    intros (_ & Hhost & Htok & -> & Ha & h & Hw & (err & Hp & _) & _).
    do 2 (split; [congruence|]). split; [done|]. split; [destruct insecure; congruence|].
    exists h. split; [done|]. intros key. rewrite Hr in Hp. injection Hp as <- _. apply gathered_lookup.
Qed.

(** *** An environment *)

Module Demo.
#[local] Instance retry : Retry := {|
  RetryOnError retriable fn := err ← fn;
    match err with Some err => if retriable err then fn else mret (Some err) | None => mret None end |}.
#[local] Instance retryLaws : RetryLaws.
Proof.
  constructor. intros S P retriable fn s I Q Hfn HI. simpl. apply wp_bind.
  eapply wp_mono; [by apply Hfn|]. intros [err|] s' [HQ HI']; [|by apply wp_ret].
  simpl in HI'. destruct (retriable err); [|by apply wp_ret]. eapply wp_mono; [by apply Hfn, HI'|]. by intros r s'' [].
Qed.
Definition fields : list (string * string) := [("x-fleet", "hub"); ("X-Fleet", "member")].
(** The authority with a line break in it. *)
Definition authority : string := "Zmxl" +:+ String LF "ZXQ=".
Definition environ : gmap string string := list_to_map
  [("HUB_SERVER_URL", "https://hub"); ("CONFIG_PATH", "/token"); ("HUB_CERTIFICATE_AUTHORITY", authority);
   ("HUB_KUBE_HEADER", rendered fields)].
(** The token file shows up at the second attempt. *)
Definition serve (X : Type) (e : statEff X) (n : nat) : X * nat :=
  match e in statEff X return X * nat with
  | EStat _ => (match n with O => Some (ErrorString "no such file") | _ => None end, S n)
  end.
End Demo.

#[local] Existing Instances Demo.retry Demo.retryLaws.
Lemma PrepareHubConfig_follows_environment_witness :
  run Demo.serve (PrepareHubConfig Demo.environ false) 0 =
    (Done (inr {| BearerTokenFile := "/token"; Host := "https://hub"; Insecure := false;
                  CAData := String.list_ascii_of_string "fleet";
                  WrapTransport := Some {["X-Fleet" := ["hub"; "member"]]} |}), 2) ∧
  wp (tokenProtocol Demo.environ) (PrepareHubConfig Demo.environ false) None
    (configured Demo.environ false).
Proof.
  split; [vm_compute; reflexivity|].
  exact (proj1 (PrepareHubConfig_follows_environment Demo.environ false)).
Defined.

Lemma environment_values_survive_witness :
  wp (tokenProtocol Demo.environ) (PrepareHubConfig Demo.environ false) None (λ r s, match r with
    | inr c => Host c = "https://hub" ∧ BearerTokenFile c = "/token" ∧ Insecure c = false ∧
        CAData c = String.list_ascii_of_string "fleet" ∧
        ∃ h, WrapTransport c = Some h ∧ ∀ key,
          h !! key = match valuesOf key Demo.fields with [] => None | values => Some values end
    | inl err => s = Some (Some err)
    end) ∧
  valuesOf "X-Fleet" Demo.fields = ["hub"; "member"].
Proof.
  split; [|vm_compute; reflexivity].
  apply (environment_values_survive Demo.environ false "https://hub" "/token" Demo.authority
    (String.list_ascii_of_string "fleet") Demo.fields); [vm_compute; reflexivity..|].
  repeat constructor; try discriminate; vm_compute; reflexivity.
Defined.

End hubconfig.
