(* ===== verification/MemberInternalMemberCluster.v ===== *)
(** * [pkg/controllers/member/internalmembercluster]: what both versions share

    The member controllers that report the heartbeat of an agent to the hub and
    clean up when the cluster leaves the fleet. The controllers of the v1alpha1
    and of the v1beta1 API differ in how they write the status of the agent;
    here are the reaction to a leaving cluster, the interval of the heartbeats
    and the protocol of both. *)

From S2P Require Import Prelude Prog Go Api Fleet Azure Effects Deps.
From S2P Require Import Protocols ApiServer ObjectMeta ApiRetry.

Module internalmembercluster.

Definition conditionReasonJoined := "AgentJoined".
Definition conditionReasonLeft := "AgentLeft".
(** In percent; half of it to either side. *)
Definition jitterPercent : Z := 10.

Record Reconciler := { AgentType : string }.

(** ** Operations *)

Definition setAgentStatuses (l : list AgentStatus) (imc : InternalMemberCluster)
    : InternalMemberCluster := {|
  imc_ObjectMeta := imc_ObjectMeta imc; imc_State := imc_State imc;
  imc_HeartbeatPeriodSeconds := imc_HeartbeatPeriodSeconds imc; imc_AgentStatus := l |}.

(** [rand.Int63nRange(0, n)]. *)
Definition Int63n (n : Z) : IO Z :=
  if (n <=? 0)%Z then Panic "invalid argument to Int63n" else call (EIntn n).

(** The time to the next heartbeat; the period is an [int32]. *)
Definition heartbeatAfter (imc : InternalMemberCluster) : IO Duration :=
  let hbInterval := wrap32 (1000 * imc_HeartbeatPeriodSeconds imc) in
  let jitterRange := Z.quot (wrap32 (hbInterval * jitterPercent)) 100 in
  x ← Int63n jitterRange;
  mret (wrap64 (Millisecond * wrap64 (hbInterval + wrap64 (x - Z.quot jitterRange 2)))).

Section controller.
Context {util : ControllerUtil} {fleet : FleetCluster} {waiting : Wait}.

(** The loops of the cleanup functions: delete what is not being deleted, then
    wait for the end of all that was listed. *)
Definition deleteResources (k : kind) (items : list (obj k)) : IO (error + unit) :=
  for_range (λ o _,
    if isDeleting o then mret (inr tt) else
    err ← DoPure (Delete Member k o);
    mret (match IgnoreNotFound err with Some err => inl err | None => inr tt end)) items tt.
Definition awaitDeletion (k : kind) (items : list (obj k)) : IO (error + unit) :=
  for_range (λ o _,
    err ← WaitUntilObjectDeleted (
      got ← Get Member k (objectKey o);
      mret (match got with inl err => Some err | inr _ => None end));
    mret (match err with Some err => inl err | None => inr tt end)) items tt.

Definition everywhere : ListOptions := {| lo_Namespace := None; lo_Fields := []; lo_Labels := [] |}.
Definition cleanupResources (k : kind) : IO (option error) :=
  got ← List Member k everywhere;
  match got with
  | inl err => mret (Some err)
  | inr items =>
      deleted ← deleteResources k items;
      match deleted with
      | inl err => mret (Some err)
      | inr _ =>
          gone ← awaitDeletion k items;
          mret (match gone with inl err => Some err | inr _ => None end)
      end
  end.
Definition cleanupMCSRelatedResources : IO (option error) := cleanupResources KMultiClusterService.
Definition cleanupServiceExportRelatedResources : IO (option error) := cleanupResources KServiceExport.

(** What a leaving cluster has to clean up, by the agent that runs. *)
Definition cleanup (r : Reconciler) : IO (option error) :=
  err ← (if bool_decide (AgentType r = MultiClusterServiceAgent) then cleanupMCSRelatedResources
         else mret None);
  match err with
  | Some err => mret (Some err)
  | None =>
      if bool_decide (AgentType r = ServiceExportImportAgent)
      then cleanupServiceExportRelatedResources else mret None
  end.

Definition joinedCondition (imc : InternalMemberCluster) : Condition := {|
  c_Type := AgentJoined; c_Status := ConditionTrue;
  c_ObservedGeneration := om_Generation (imc_ObjectMeta imc); c_LastTransitionTime := None;
  c_Reason := conditionReasonJoined; c_Message := "" |}.
Definition leftCondition (imc : InternalMemberCluster) : Condition := {|
  c_Type := AgentJoined; c_Status := ConditionFalse;
  c_ObservedGeneration := om_Generation (imc_ObjectMeta imc); c_LastTransitionTime := None;
  c_Reason := conditionReasonLeft; c_Message := "" |}.
End controller.

(** ** What a round knows *)

Record knowledge := {
  q_imc : option InternalMemberCluster;
  q_listed : option (list (NamespacedName * bool));   (* with "is being deleted" *)
  q_gone : gset NamespacedName;                       (* not found any more *)
  q_clock : list Time;                                (* the readings *)
  q_reported : bool;                                  (* the status was stored *)
  q_conflict : bool;                                  (* a status update met a conflict *)
}.
Definition nothingKnown : knowledge := {|
  q_imc := None; q_listed := None; q_gone := ∅; q_clock := []; q_reported := false;
  q_conflict := false |}.
Definition learnImc (imc : InternalMemberCluster) (s : knowledge) : knowledge := {|
  q_imc := Some imc; q_listed := q_listed s; q_gone := q_gone s; q_clock := q_clock s;
  q_reported := q_reported s; q_conflict := q_conflict s |}.
Definition learnListed (l : list (NamespacedName * bool)) (s : knowledge) : knowledge := {|
  q_imc := q_imc s; q_listed := Some l; q_gone := ∅; q_clock := q_clock s;
  q_reported := q_reported s; q_conflict := q_conflict s |}.
Definition learnGone (key : NamespacedName) (s : knowledge) : knowledge := {|
  q_imc := q_imc s; q_listed := q_listed s; q_gone := {[key]} ∪ q_gone s; q_clock := q_clock s;
  q_reported := q_reported s; q_conflict := q_conflict s |}.
Definition learnClock (t : Time) (s : knowledge) : knowledge := {|
  q_imc := q_imc s; q_listed := q_listed s; q_gone := q_gone s; q_clock := t :: q_clock s;
  q_reported := q_reported s; q_conflict := q_conflict s |}.
Definition learnReport (x : error + InternalMemberCluster) (s : knowledge) : knowledge := {|
  q_imc := q_imc s; q_listed := q_listed s; q_gone := q_gone s; q_clock := q_clock s;
  q_reported := q_reported s || match x with inr _ => true | inl _ => false end;
  q_conflict := q_conflict s || match x with inl err => IsConflict err | inr _ => false end |}.

(** ** The protocol *)

(** The status of an agent, and those of the others. *)
Definition agentOf (t : string) (l : list AgentStatus) : option AgentStatus :=
  head (filter (λ a, as_Type a = t) l).
Definition others (t : string) (l : list AgentStatus) : list AgentStatus :=
  filter (λ a, as_Type a ≠ t) l.

(** What the API server admits as the period of the heartbeats, in seconds. *)
Definition admittedPeriod (imc : InternalMemberCluster) : Prop :=
  (1 ≤ imc_HeartbeatPeriodSeconds imc ≤ 600)%Z.
Definition admits {X} (c : eff X) : X → Prop :=
  match c in eff X return X → Prop with
  | EGet Hub KInternalMemberCluster key => λ x,
      match x with inr imc => admittedPeriod imc | inl _ => True end
  | _ => λ _, True
  end.

Section protocol.
Context {util : ControllerUtil} {fleet : FleetCluster} (r : Reconciler) (req : NamespacedName).

Definition cleans (k : kind) : Prop :=
  k = KMultiClusterService ∧ AgentType r = MultiClusterServiceAgent ∨
  k = KServiceExport ∧ AgentType r = ServiceExportImportAgent.
Definition leaving (s : knowledge) : Prop :=
  ∃ imc, q_imc s = Some imc ∧ imc_State imc = ClusterStateLeave.
(** Everything that has to go was listed and has been seen to be gone since. *)
Definition allGone (s : knowledge) : Prop :=
  ∀ k, cleans k → ∃ l, q_listed s = Some l ∧ ∀ key d, (key, d) ∈ l → key ∈ q_gone s.

Definition reports (s : knowledge) (o : InternalMemberCluster) : Prop :=
  ∃ imc a c, q_imc s = Some imc ∧ o = setAgentStatuses (imc_AgentStatus o) imc ∧
    others (AgentType r) (imc_AgentStatus o) = others (AgentType r) (imc_AgentStatus imc) ∧
    agentOf (AgentType r) (imc_AgentStatus o) = Some a ∧
    FindStatusCondition (as_Conditions a) AgentJoined = Some c ∧
    (imc_State imc = ClusterStateJoin ∧ sameCondition (joinedCondition imc) c ∧
       (∃ t, as_LastReceivedHeartbeat a = Some t ∧ t ∈ q_clock s) ∨
     imc_State imc = ClusterStateLeave ∧ sameCondition (leftCondition imc) c ∧ allGone s).

Definition membershipProtocol : protocol eff knowledge := {|
  allowed X c s :=
    match c with
    | ENow | EIntn _ => True
    | EGet Hub KInternalMemberCluster key => key = req
    | EList Member k opts => leaving s ∧ cleans k ∧ opts = everywhere
    | EGet Member k key => leaving s ∧ cleans k
    | EDelete Member k key => leaving s ∧ cleans k ∧ ∃ l, q_listed s = Some l ∧ (key, false) ∈ l
    | EStatusUpdate Hub KInternalMemberCluster o => reports s o
    | _ => False
    end;
  answer X c s := λ x, serverAnswer c x ∧ admits c x;
  next X c :=
    match c in eff X return X → knowledge → knowledge with
    | ENow => learnClock
    | EGet Hub KInternalMemberCluster key => λ x s,
        match x with inr imc => learnImc imc s | inl _ => s end
    | EGet Member k key => λ x s,
        match x with inl err => if IsNotFound err then learnGone key s else s | inr _ => s end
    | EList Member k opts => λ x s,
        match x with inr l => learnListed ((λ o, (objectKey o, isDeleting o)) <$> l) s | inl _ => s end
    | EStatusUpdate Hub KInternalMemberCluster o => learnReport
    | _ => λ _ s, s
    end |}.

(** A round that ends without an error has reported; the one version takes a
    conflict for a report, since the object has changed and will be seen again.
    While the cluster is a member, the next heartbeat is due after the period,
    give or take five percent. *)
Definition roundEnds (lenient : bool) (x : Result * option error) (s : knowledge) : Prop :=
  x.2 = None → ∀ imc, q_imc s = Some imc →
  imc_State imc = ClusterStateJoin ∨ imc_State imc = ClusterStateLeave →
  (q_reported s = true ∨ lenient = true ∧ q_conflict s = true) ∧
  (imc_State imc = ClusterStateJoin →
   let p := imc_HeartbeatPeriodSeconds imc in
   (950 * p * Millisecond ≤ RequeueAfter x.1 < 1050 * p * Millisecond)%Z).
End protocol.

(** ** Shared lemmas *)

Section safety.
Context {util : ControllerUtil} {laws : ControllerUtilLaws}.
Context {fleet : FleetCluster} {fleetLaws : FleetClusterLaws}.
Context {waiting : Wait} {waitLaws : WaitLaws} (r : Reconciler) (req : NamespacedName).
Local Abbreviation P := (membershipProtocol r req).

Lemma heartbeatAfter_wp imc s :
  admittedPeriod imc →
  wp P (heartbeatAfter imc) s (λ d s', s' = s ∧
    let p := imc_HeartbeatPeriodSeconds imc in (950 * p * Millisecond ≤ d < 1050 * p * Millisecond)%Z).
Proof.
  unfold admittedPeriod, heartbeatAfter. set (p := imc_HeartbeatPeriodSeconds imc). intros Hp.
  rewrite (wrap32_id (1000 * p)), (wrap32_id (1000 * p * _)) by (unfold jitterPercent; lia).
  assert (Z.quot (1000 * p * jitterPercent) 100 = 100 * p)%Z as ->.
  { unfold jitterPercent. replace (1000 * p * 10)%Z with (100 * p * 100)%Z by lia.
    by apply Z.quot_mul. }
  assert (Z.quot (100 * p) 2 = 50 * p)%Z as ->.
  { replace (100 * p)%Z with (50 * p * 2)%Z by lia. by apply Z.quot_mul. }
  apply wp_bind. unfold Int63n. destruct (Z.leb_spec (100 * p) 0); [lia|].
  apply wp_call; [done|]. intros x [Hx _]. simpl in Hx. apply wp_ret. split; [done|].
  change Millisecond with 1000000%Z. rewrite (wrap64_id (x - _)), (wrap64_id (1000 * p + _)) by lia.
  rewrite wrap64_id by lia. lia.
Qed.

(** What a cleanup leaves alone, and what it adds to. *)
Definition grows (s s' : knowledge) : Prop :=
  q_imc s' = q_imc s ∧ q_reported s' = q_reported s ∧ q_conflict s' = q_conflict s.
Lemma leaving_grows s s' : grows s s' → leaving s → leaving s'.
Proof. intros (Hi & _). unfold leaving. by rewrite Hi. Qed.

Lemma deleteResources_wp k items s :
  leaving s → cleans r k → q_listed s = Some ((λ o, (objectKey o, isDeleting o)) <$> items) →
  wp P (deleteResources k items) s (λ _ s', s' = s).
Proof.
  intros Hl Hk Hlisted. apply (wp_for_range _ _ (λ rest _ s', s' = s ∧ rest ⊆ items)); [|by intros _ s' [-> _]|done].
  intros o rest [] s' [-> Hin]. destruct (isDeleting o) eqn:Hdel.
  { apply wp_ret. split; [done|set_solver]. }
  apply wp_bind. apply (DoPure_wp _ _ _ (λ s', s' = s)); [|done].
  intros s' ->. apply wp_Delete.
  { split; [done|]. split; [done|]. eexists. split; [exact Hlisted|].
    apply list_elem_of_fmap. exists o. rewrite Hdel. split; [done|]. apply Hin. by left. }
  intros err _. simpl. split; [|by destruct err]. apply wp_ret. destruct (IgnoreNotFound err); [done|].
  split; [done|set_solver].
Qed.

Lemma awaitDeletion_wp k items s :
  leaving s → cleans r k →
  wp P (awaitDeletion k items) s (λ r s', grows s s' ∧ q_listed s' = q_listed s ∧
    (∀ x, r = inr x → ∀ o, o ∈ items → objectKey o ∈ q_gone s')).
Proof.
  intros Hl Hk. set (kept s' := grows s s' ∧ q_listed s' = q_listed s ∧ q_gone s ⊆ q_gone s').
  apply (wp_for_range _ _ (λ rest _ s', kept s' ∧ rest ⊆ items ∧
    ∀ o, o ∈ items → o ∈ rest ∨ objectKey o ∈ q_gone s')).
  - intros o rest [] s' (Hkept & Hrest & Hdone). apply wp_bind.
    apply (WaitUntilObjectDeleted_wp _ _ _ (λ s2, kept s2 ∧ q_gone s' ⊆ q_gone s2)); [| |done].
    + intros s2 [(Hg & Hli & Hgo) Hsub]. apply wp_bind, wp_Get.
      { split; [by eapply leaving_grows|done]. }
      intros [err|o'] _; simpl; apply wp_ret.
      * destruct (IsNotFound err); [|done]. split; [split; [split; [done|]; split; [done|]|]; set_solver|].
        intros _. apply wp_ret. split; [split; [done|]; split; [done|set_solver]|].
        split; [set_solver|]. intros o2 [Ho2|Ho2]%Hdone; [|set_solver].
        apply elem_of_cons in Ho2 as [->|]; [right; set_solver|by left].
      * done.
    + intros err s2 [(Hg & Hli & _) _]. by apply wp_ret.
  - intros [] s' ((Hg & Hli & _) & _ & Hdone). split; [done|]. split; [done|].
    intros _ _ o [Ho|Ho]%Hdone; [by apply not_elem_of_nil in Ho|done].
  - split; [|split; [done|by left]]. by repeat split.
Qed.

Lemma cleanupResources_wp k s :
  leaving s → cleans r k →
  wp P (cleanupResources k) s (λ err s', grows s s' ∧
    (err = None → ∃ l, q_listed s' = Some l ∧ ∀ key d, (key, d) ∈ l → key ∈ q_gone s')).
Proof.
  intros Hl Hk. apply wp_bind, wp_List; [done|]. intros [err|items] _; simpl; [by apply wp_ret|].
  apply wp_bind. eapply wp_mono; [by apply deleteResources_wp|]. intros [err|[]] s' ->.
  { by apply wp_ret. }
  apply wp_bind. eapply wp_mono; [by apply awaitDeletion_wp|]. intros [err|[]] s' (Hg & Hli & Hgone);
    apply wp_ret; (split; [done|]); [done|]. intros _. eexists. split; [exact Hli|].
  intros key d (o & [= -> ->] & Ho)%list_elem_of_fmap. by eapply Hgone.
Qed.

(** A cleanup that succeeds leaves nothing behind. *)
Lemma cleanup_wp s :
  leaving s → wp P (cleanup r) s (λ err s', grows s s' ∧ (err = None → allGone r s')).
Proof.
  intros Hl. apply wp_bind. case_bool_decide as Hm.
  - eapply wp_mono; [apply cleanupResources_wp; [done|by left]|].
    intros [err|] s' [Hg Hgone]; [by apply wp_ret|]. rewrite bool_decide_false.
    2: { rewrite Hm. apply agents_differ. }
    apply wp_ret. split; [done|]. intros _ k [[-> _]|[_ Hs]]; [by apply Hgone|].
    destruct agents_differ. congruence.
  - apply wp_ret. case_bool_decide as Hs.
    + eapply wp_mono; [apply cleanupResources_wp; [done|by right]|].
      intros err s' [Hg Hgone]. split; [done|]. intros Hn k [[_ ?]|[-> _]]; [done|by apply Hgone].
    + apply wp_ret. split; [done|]. by intros _ k [[_ ?]|[_ ?]].
Qed.

(** The status of the agent at its place in the list, or at the end of a list
    without one. *)
Lemma reports_agent s imc before a after c :
  q_imc s = Some imc → as_Type a = AgentType r →
  (∀ b, b ∈ before → as_Type b ≠ AgentType r) →
  (∃ old, as_Type old = AgentType r ∧ imc_AgentStatus imc = before ++ old :: after) ∨
    imc_AgentStatus imc = before ∧ after = [] →
  FindStatusCondition (as_Conditions a) AgentJoined = Some c →
  (imc_State imc = ClusterStateJoin ∧ sameCondition (joinedCondition imc) c ∧
     (∃ t, as_LastReceivedHeartbeat a = Some t ∧ t ∈ q_clock s) ∨
   imc_State imc = ClusterStateLeave ∧ sameCondition (leftCondition imc) c ∧ allGone r s) →
  reports r s (setAgentStatuses (before ++ a :: after) imc).
Proof.
  intros Hq Ha Hb Hl Hc Hv. exists imc, a, c. split; [done|]. split; [done|].
  split; [|split; [|by split]]; simpl; unfold others, agentOf.
  - rewrite filter_app, filter_cons_False by (intros ?; done).
    destruct Hl as [(old & Hold & ->)|[-> ->]].
    + by rewrite filter_app, filter_cons_False by (intros ?; done).
    + by rewrite app_nil_r.
  - by rewrite filter_app, filter_none, filter_cons_True.
Qed.
End safety.
End internalmembercluster.
