(* ===== verification/MemberInternalMemberClusterV1Beta1.v ===== *)
(** * [pkg/controllers/member/internalmembercluster/v1beta1]

    The heartbeat and leave controller for the v1beta1 API of the fleet. *)

From S2P Require Import Prelude Prog Go Api Fleet Azure Effects Deps.
From S2P Require Import Protocols ApiServer ObjectMeta ApiRetry MemberInternalMemberCluster.

Module internalmemberclusterv1beta1.
Import internalmembercluster.

(** ** Operations *)

Section controller.
Context {util : ControllerUtil} {fleet : FleetCluster} {waiting : Wait}.

(** The condition and, while the cluster is a member, the heartbeat. *)
Definition reportAgent (imc : InternalMemberCluster) (agentStatus : AgentStatus) : IO AgentStatus :=
  if bool_decide (imc_State imc = ClusterStateJoin)
  then
    cs ← SetStatusCondition (as_Conditions agentStatus) (joinedCondition imc);
    now ← Now;
    mret {| as_Type := as_Type agentStatus; as_Conditions := cs; as_LastReceivedHeartbeat := Some now |}
  else
    cs ← SetStatusCondition (as_Conditions agentStatus) (leftCondition imc);
    mret {| as_Type := as_Type agentStatus; as_Conditions := cs;
            as_LastReceivedHeartbeat := as_LastReceivedHeartbeat agentStatus |}.

Definition updateAgentStatus (r : Reconciler) (imc : InternalMemberCluster) : IO (option error) :=
  let '(statuses, i) := GetAgentStatus (imc_AgentStatus imc) (AgentType r) in
  agentStatus ← derefPtr (statuses !! i);
  agentStatus ← reportAgent imc agentStatus;
  '(err, _) ← StatusUpdate Hub KInternalMemberCluster
     (setAgentStatuses (<[i := agentStatus]> statuses) imc);
  match err with
  | Some err => if IsConflict err then mret None else mret (Some err)
  | None => mret None
  end.

Definition Reconcile (r : Reconciler) (req : NamespacedName) : IO (Result * option error) :=
  got ← Get Hub KInternalMemberCluster req;
  match got with
  | inl err => mret (emptyResult, IgnoreNotFound (Some err))
  | inr imc =>
      if bool_decide (imc_State imc = ClusterStateLeave)
      then
        err ← cleanup r;
        match err with
        | Some err => mret (emptyResult, Some err)
        | None => err ← updateAgentStatus r imc; mret (emptyResult, err)
        end
      else if bool_decide (imc_State imc = ClusterStateJoin)
      then
        err ← updateAgentStatus r imc;
        match err with
        | Some err => mret (emptyResult, Some err)
        | None =>
            requeueAfter ← heartbeatAfter imc;
            mret ({| Requeue := false; RequeueAfter := requeueAfter |}, None)
        end
      else mret (emptyResult, None)
  end.
End controller.

(** ** Safety *)

Section safety.
Context {util : ControllerUtil} {laws : ControllerUtilLaws}.
Context {fleet : FleetCluster} {fleetLaws : FleetClusterLaws}.
Context {waiting : Wait} {waitLaws : WaitLaws} (r : Reconciler) (req : NamespacedName).
Local Abbreviation P := (membershipProtocol r req).

Lemma reportAgent_wp imc agent s :
  wp P (reportAgent imc agent) s (λ a s', as_Type a = as_Type agent ∧
    (∃ c, FindStatusCondition (as_Conditions a) AgentJoined = Some c ∧
       (imc_State imc = ClusterStateJoin → sameCondition (joinedCondition imc) c ∧
          ∃ t, as_LastReceivedHeartbeat a = Some t ∧ t ∈ q_clock s') ∧
       (imc_State imc ≠ ClusterStateJoin → sameCondition (leftCondition imc) c)) ∧
    grows s s' ∧ q_listed s' = q_listed s ∧ q_gone s' = q_gone s).
Proof.
  unfold reportAgent. case_bool_decide as Hst; apply wp_bind, wp_SetStatusCondition; [done| |done|];
    intros now _.
  - apply wp_bind, wp_Now; [done|]. intros t _. apply wp_ret. split; [done|]. split; [|done].
    destruct (setCondition_same now (as_Conditions agent) (joinedCondition imc)) as (c & Hc & Hs).
    exists c. split; [done|]. split; [|done]. intros _. split; [done|]. exists t.
    split; [done|by left].
  - apply wp_ret. split; [done|]. split; [|done].
    destruct (setCondition_same now (as_Conditions agent) (leftCondition imc)) as (c & Hc & Hs).
    exists c. by split.
Qed.

Lemma updateAgentStatus_wp imc s :
  q_imc s = Some imc →
  imc_State imc = ClusterStateJoin ∨ imc_State imc = ClusterStateLeave ∧ allGone r s →
  wp P (updateAgentStatus r imc) s (λ err s', q_imc s' = q_imc s ∧
    (err = None → q_reported s' = true ∨ q_conflict s' = true)).
Proof.
  intros Hq Hst. unfold updateAgentStatus.
  pose proof (GetAgentStatus_spec (imc_AgentStatus imc) (AgentType r)) as Hget.
  destruct (GetAgentStatus _ _) as [statuses i].
  destruct Hget as (before & a & after & -> & -> & Ha & Hb & Hl).
  rewrite list_lookup_middle by done. apply wp_bind, wp_ret, wp_bind.
  eapply wp_mono; [apply reportAgent_wp|].
  intros a' s' (Ht & (c & Hc & Hjoin & Hleft) & (Hq' & _) & Hli & Hgo).
  apply wp_bind, wp_StatusUpdate.
  { rewrite <-(Nat.add_0_r (length before)), insert_app_r. simpl. apply reports_agent with c; try done; [congruence|congruence| |].
    - destruct Hl as [Hl|[Hl ->]]; [left; by exists a|by right].
    - destruct Hst as [Hst|[Hst Hg]]; [left; by destruct (Hjoin Hst)|right].
      split; [done|]. split; [apply Hleft; rewrite Hst; intros E; by apply states_differ|].
      intros k Hk. rewrite Hli, Hgo. exact (Hg k Hk). }
  intros [err|o'] _; simpl.
  - destruct (IsConflict err) eqn:Hcf; apply wp_ret; (split; [done|]); [|done].
    intros _. right. simpl. by rewrite Hcf, orb_true_r.
  - apply wp_ret. split; [done|]. intros _. left. simpl. by rewrite orb_true_r.
Qed.

(** C21: A round of the heartbeat controller of the v1beta1 API writes only the entry
    of its own agent in the status of the InternalMemberCluster. It reports
    [Joined] with a heartbeat just read from the clock while the cluster is a
    member. When the cluster leaves it deletes the MultiClusterServices or the
    ServiceExports of the member cluster, by the agent it runs for and nothing
    else, and reports that the agent has left only after all it listed has been
    seen to be gone. A round without an error has reported, or met a conflict,
    and the next heartbeat is due within five percent of the period. *)
Theorem Reconcile_follows_membership_protocol_v1beta1 :
  wp P (Reconcile r req) nothingKnown (roundEnds true).
Proof.
  apply wp_bind, wp_Get; [done|]. intros [err|imc] [_ Hp]; simpl in Hp |- *.
  { by destruct (IsNotFound err); apply wp_ret. }
  case_bool_decide as Hleave; [|case_bool_decide as Hjoin]; simpl in imc.
  - apply wp_bind. eapply wp_mono; [apply cleanup_wp; by exists imc|].
    intros [err|] s [(Hq & _) Hg]; [by apply wp_ret|].
    apply wp_bind. eapply wp_mono; [apply updateAgentStatus_wp; [exact Hq|right; by split; [|apply Hg]]|].
    intros err s' [Hq' Hr]. apply wp_ret. intros Hn imc' Hi _. simpl in Hn. split; [tauto|].
    intros Hj. exfalso. apply states_differ. rewrite Hq', Hq in Hi. injection Hi as <-. congruence.
  - apply wp_bind. eapply wp_mono; [apply updateAgentStatus_wp; [done|by left]|].
    intros [err|] s' [Hq' Hr]; [by apply wp_ret|]. apply wp_bind.
    eapply wp_mono; [by apply heartbeatAfter_wp|]. intros d s'' [-> Hd]. apply wp_ret.
    intros _ imc' Hi _. rewrite Hq' in Hi. injection Hi as <-. split; [tauto|done].
  - apply wp_ret. intros _ imc' [= <-] [?|?]; done.
Qed.
End safety.

(** ** Runs *)

Module Demo.
Definition r : Reconciler := {| AgentType := "ServiceExportImportAgent" |}.
Definition name : NamespacedName := {| nn_Namespace := "fleet-member-bravelion"; nn_Name := "bravelion" |}.
Definition other : AgentStatus := {|
  as_Type := "MemberAgent"; as_Conditions := []; as_LastReceivedHeartbeat := Some 7%Z |}.
Definition imc (state : string) (period : Z) : InternalMemberCluster := {|
  imc_ObjectMeta := newObjectMeta "fleet-member-bravelion" "bravelion"; imc_State := state;
  imc_HeartbeatPeriodSeconds := period; imc_AgentStatus := [other] |}.
Definition exportKey : NamespacedName := {| nn_Namespace := "work"; nn_Name := "app" |}.
(** A ServiceExport, which a finalizer may hold. *)
Definition export (finalizers : list string) : ServiceExport := {|
  se_TypeMeta := {| tm_Kind := "ServiceExport"; tm_APIVersion := "v1beta1" |};
  se_ObjectMeta := setFinalizers finalizers (newObjectMeta "work" "app"); se_Conditions := [] |}.
Definition world0 (state : string) (period : Z) (finalizers : list string) : world := {|
  w_member := storeAlter KServiceExport <[exportKey := export finalizers]> emptyStore;
  w_hub := storeAlter KInternalMemberCluster <[name := imc state period]> emptyStore;
  w_version := 1; w_clock := 100%Z |}.
Definition round (state : string) (period : Z) (finalizers : list string)
    : outcome (Result * option error) * world :=
  run (serve (λ _ _ _, [])) (Reconcile (util := Reference.util) (fleet := Reference.fleetCluster)
    (waiting := Reference.wait) r name) (world0 state period finalizers).
(** Whether the export is still there, and the agents and their verdicts. *)
Definition after (state : string) (finalizers : list string)
    : bool * option (list (string * list string * option Time)) :=
  let w := (round state 60 finalizers).2 in
  (bool_decide (is_Some (w_member w KServiceExport !! exportKey)),
   (λ i : InternalMemberCluster,
      (λ a, (as_Type a, c_Reason <$> as_Conditions a, as_LastReceivedHeartbeat a)) <$> imc_AgentStatus i)
     <$> w_hub w KInternalMemberCluster !! name).
End Demo.

Lemma Reconcile_follows_membership_protocol_v1beta1_witness :
  wp (membershipProtocol (util := Reference.util) (fleet := Reference.fleetCluster) Demo.r Demo.name)
    (Reconcile (util := Reference.util) (fleet := Reference.fleetCluster) (waiting := Reference.wait)
       Demo.r Demo.name) nothingKnown (roundEnds (fleet := Reference.fleetCluster) true) ∧
  Demo.after "Join" [] = (true, Some [("MemberAgent", [], Some 7%Z);
    ("ServiceExportImportAgent", [conditionReasonJoined], Some 100%Z)]) ∧
  Demo.after "Leave" [] = (false, Some [("MemberAgent", [], Some 7%Z);
    ("ServiceExportImportAgent", [conditionReasonLeft], None)]) ∧
  Demo.after "Leave" ["held"] = (true, Some [("MemberAgent", [], Some 7%Z)]).
Proof.
  split; [apply (Reconcile_follows_membership_protocol_v1beta1 (laws := Reference.laws)
    (fleetLaws := Reference.fleetCluster_laws) (waitLaws := Reference.wait_laws))|].
  vm_compute. repeat split; reflexivity.
Defined.

(** Nothing in the controller excludes the periods that the API server does not
    admit: with a period of zero seconds, and with one of more than 214748
    seconds, for which the 32-bit product overflows, the round panics after it
    has reported the heartbeat. *)
Theorem heartbeat_needs_a_period :
  (Demo.round "Join" 0 []).1 = Panicked "invalid argument to Int63n" ∧
  (Demo.round "Join" 214749 []).1 = Panicked "invalid argument to Int63n".
Proof. split; vm_compute; reflexivity. Qed.

End internalmemberclusterv1beta1.
