(* ===== verification/MemberInternalMemberClusterV1Alpha1.v ===== *)
(** * [pkg/controllers/member/internalmembercluster/v1alpha1]

    The heartbeat and leave controller for the v1alpha1 API of the fleet. *)

From S2P Require Import Prelude Prog Go Api Fleet Azure Effects Deps.
From S2P Require Import Protocols ApiServer ObjectMeta ApiRetry MemberInternalMemberCluster.

Module internalmemberclusterv1alpha1.
Import internalmembercluster.

(** ** Operations *)

(** The pointer into the list is an index. *)
Fixpoint findAgentStatus (status : list AgentStatus) (agentType : string) : option nat :=
  match status with
  | [] => None
  | a :: status => if decide (as_Type a = agentType) then Some 0
                   else S <$> findAgentStatus status agentType
  end.

Section controller.
Context {util : ControllerUtil} {fleet : FleetCluster} {waiting : Wait}.

(** The transition times that are not set. *)
Fixpoint stampConditions (cs : list Condition) : IO (list Condition) :=
  match cs with
  | [] => mret []
  | c :: cs =>
      c ← match c_LastTransitionTime c with
          | Some _ => mret c
          | None =>
              now ← Now;
              mret {| c_Type := c_Type c; c_Status := c_Status c;
                      c_ObservedGeneration := c_ObservedGeneration c;
                      c_LastTransitionTime := Some now; c_Reason := c_Reason c;
                      c_Message := c_Message c |}
          end;
      cs ← stampConditions cs;
      mret (c :: cs)
  end.
Fixpoint setConditions (existing cs : list Condition) : IO (list Condition) :=
  match cs with
  | [] => mret existing
  | c :: cs => existing ← SetStatusCondition existing c; setConditions existing cs
  end.

Definition setAgentStatus (status : list AgentStatus) (newStatus : AgentStatus)
    : IO (list AgentStatus) :=
  match findAgentStatus status (as_Type newStatus) with
  | None =>
      cs ← stampConditions (as_Conditions newStatus);
      mret (status ++ [{| as_Type := as_Type newStatus; as_Conditions := cs;
                          as_LastReceivedHeartbeat := as_LastReceivedHeartbeat newStatus |}])
  | Some i =>
      existingStatus ← derefPtr (status !! i);
      cs ← setConditions (as_Conditions existingStatus) (as_Conditions newStatus);
      mret (<[i := {| as_Type := as_Type existingStatus; as_Conditions := cs;
                      as_LastReceivedHeartbeat := as_LastReceivedHeartbeat newStatus |}]> status)
  end.

Definition updateAgentStatus (imc : InternalMemberCluster) (desiredAgentStatus : AgentStatus)
    : IO (option error) :=
  statuses ← setAgentStatus (imc_AgentStatus imc) desiredAgentStatus;
  '(err, _) ← StatusUpdate Hub KInternalMemberCluster (setAgentStatuses statuses imc);
  mret err.

(** The same functions, for the v1alpha1 version of the resources. *)
Definition cleanupMCSRelatedResources : IO (option error) := cleanupResources KMultiClusterService.
Definition cleanupServiceExportRelatedResources : IO (option error) := cleanupResources KServiceExport.
(** What a leaving cluster has to clean up, by the agent that runs. *)
Definition cleanup (r : Reconciler) : IO (option error) :=
  err ← (if bool_decide (AgentType r = MultiClusterServiceAgent) then cleanupMCSRelatedResources
         else mret None);
  match err with
  | Some err => mret (Some err)
  | None =>
      if bool_decide (AgentType r = ServiceExportImportAgent)
      then cleanupServiceExportRelatedResources else mret None
  end.

Definition Reconcile (r : Reconciler) (req : NamespacedName) : IO (Result * option error) :=
  got ← Get Hub KInternalMemberCluster req;
  match got with
  | inl err => mret (emptyResult, IgnoreNotFound (Some err))
  | inr imc =>
      if bool_decide (imc_State imc = ClusterStateJoin)
      then
        now ← Now;
        err ← updateAgentStatus imc {| as_Type := AgentType r;
          as_Conditions := [joinedCondition imc]; as_LastReceivedHeartbeat := Some now |};
        match err with
        | Some err => mret (emptyResult, Some err)
        | None =>
            requeueAfter ← heartbeatAfter imc;
            mret ({| Requeue := false; RequeueAfter := requeueAfter |}, None)
        end
      else if bool_decide (imc_State imc = ClusterStateLeave)
      then
        err ← cleanup r;
        match err with
        | Some err => mret (emptyResult, Some err)
        | None =>
            err ← updateAgentStatus imc {| as_Type := AgentType r;
              as_Conditions := [leftCondition imc]; as_LastReceivedHeartbeat := None |};
            mret (emptyResult, err)
        end
      else mret (emptyResult, None)
  end.
End controller.

(** ** Safety *)

Lemma findAgentStatus_spec l t :
  match findAgentStatus l t with
  | None => ∀ a, a ∈ l → as_Type a ≠ t
  | Some i => ∃ before a after, l = before ++ a :: after ∧ i = length before ∧ as_Type a = t ∧
      ∀ b, b ∈ before → as_Type b ≠ t
  end.
Proof.
  induction l as [|a l IH]; simpl; [set_solver|]. destruct (decide (as_Type a = t)) as [Ha|Ha].
  - exists [], a, l. do 3 (split; [done|]). set_solver.
  - destruct (findAgentStatus l t) as [i|]; simpl; [|set_solver].
    destruct IH as (before & b & after & -> & -> & Hb & Hne). exists (a :: before), b, after.
    do 3 (split; [done|]). set_solver.
Qed.

Section safety.
Context {util : ControllerUtil} {laws : ControllerUtilLaws}.
Context {fleet : FleetCluster} {fleetLaws : FleetClusterLaws}.
Context {waiting : Wait} {waitLaws : WaitLaws} (r : Reconciler) (req : NamespacedName).
Local Abbreviation P := (membershipProtocol r req).

(** Reading the clock. *)
Definition ticks (s s' : knowledge) : Prop :=
  grows s s' ∧ q_listed s' = q_listed s ∧ q_gone s' = q_gone s ∧ q_clock s ⊆ q_clock s'.

Lemma FindStatusCondition_singleton c : FindStatusCondition [c] (c_Type c) = Some c.
Proof.
  destruct (FindStatusCondition _ _) as [c'|] eqn:Hc.
  - apply FindStatusCondition_some in Hc as [->%list_elem_of_singleton _]. done.
  - rewrite FindStatusCondition_none in Hc. destruct (Hc c); [by left|done].
Qed.

Lemma setAgentStatus_wp l c heartbeat s :
  c_LastTransitionTime c = None →
  wp P (setAgentStatus l {| as_Type := AgentType r; as_Conditions := [c];
                            as_LastReceivedHeartbeat := heartbeat |}) s
    (λ l' s', ticks s s' ∧ ∃ before a after c', l' = before ++ a :: after ∧
       as_Type a = AgentType r ∧ as_LastReceivedHeartbeat a = heartbeat ∧
       (∀ b, b ∈ before → as_Type b ≠ AgentType r) ∧
       ((∃ old, as_Type old = AgentType r ∧ l = before ++ old :: after) ∨ l = before ∧ after = []) ∧
       FindStatusCondition (as_Conditions a) (c_Type c) = Some c' ∧ sameCondition c c').
Proof.
  intros Htime. unfold setAgentStatus. cbn [as_Type as_Conditions as_LastReceivedHeartbeat].
  pose proof (findAgentStatus_spec l (AgentType r)) as Hfind.
  destruct (findAgentStatus l (AgentType r)) as [i|].
  - destruct Hfind as (before & old & after & -> & -> & Hold & Hb).
    rewrite list_lookup_middle by done. apply wp_bind, wp_ret, wp_bind, wp_bind.
    apply wp_SetStatusCondition; [done|]. intros now _. apply wp_ret, wp_ret.
    split; [by repeat split; set_solver|].
    destruct (setCondition_same now (as_Conditions old) c) as (c' & Hc & Hs).
    rewrite <-(Nat.add_0_r (length before)), insert_app_r.
    eexists before, _, after, c'. split; [done|]. simpl. do 3 (split; [done|]).
    split; [left; by exists old|done].
  - simpl. rewrite Htime. apply wp_bind, wp_bind, wp_bind, wp_Now; [done|]. intros now _.
    apply wp_ret, wp_bind, wp_ret, wp_ret, wp_ret. split; [by repeat split; set_solver|].
    eexists l, _, [], _. split; [done|]. simpl. do 3 (split; [done|]). split; [by right|].
    split; [apply (FindStatusCondition_singleton {| c_Type := c_Type c |})|done].
Qed.

Lemma writeAgentStatus_wp imc c heartbeat s :
  q_imc s = Some imc → c_LastTransitionTime c = None → c_Type c = AgentJoined →
  (imc_State imc = ClusterStateJoin ∧ c = joinedCondition imc ∧
     (∃ t, heartbeat = Some t ∧ t ∈ q_clock s) ∨
   imc_State imc = ClusterStateLeave ∧ c = leftCondition imc ∧ allGone r s) →
  wp P (updateAgentStatus imc {| as_Type := AgentType r; as_Conditions := [c];
                                 as_LastReceivedHeartbeat := heartbeat |}) s
    (λ err s', q_imc s' = q_imc s ∧ (err = None → q_reported s' = true)).
Proof.
  intros Hq Htime Hct Hst. apply wp_bind. eapply wp_mono; [by apply setAgentStatus_wp|].
  intros l' s' [((Hq' & _) & Hli & Hgo & Hcl) (before & a & after & c' & -> & Ha & Hh & Hb & Hl & Hc & Hs)].
  rewrite Hct in Hc. apply wp_bind, wp_StatusUpdate.
  { apply reports_agent with c'; try done; [congruence|].
    destruct Hst as [(Hst & -> & t & -> & Ht)|(Hst & -> & Hg)].
    - left. split; [done|]. split; [done|]. exists t. split; [done|]. by apply Hcl.
    - right. split; [done|]. split; [done|]. intros k Hk. rewrite Hli, Hgo. exact (Hg k Hk). }
  intros [err|o'] _; apply wp_ret; (split; [done|]); [done|]. intros _. simpl. by rewrite orb_true_r.
Qed.

(** C22: A round of the heartbeat controller of the v1alpha1 API follows the same
    protocol; a conflict on the status update is an error here, so that a round
    that ends without one has reported. *)
Theorem Reconcile_follows_membership_protocol_v1alpha1 :
  wp P (Reconcile r req) nothingKnown (roundEnds false).
Proof.
  apply wp_bind, wp_Get; [done|]. intros [err|imc] [_ Hp]; simpl in Hp |- *.
  { by destruct (IsNotFound err); apply wp_ret. }
  simpl in imc. case_bool_decide as Hjoin; [|case_bool_decide as Hleave].
  - apply wp_bind, wp_Now; [done|]. intros now _. apply wp_bind.
    eapply wp_mono; [apply writeAgentStatus_wp; [done..|left]|].
    { split; [done|]. split; [done|]. exists now. split; [done|]. by left. }
    intros [err|] s' [Hq' Hr]; [by apply wp_ret|]. apply wp_bind.
    eapply wp_mono; [by apply heartbeatAfter_wp|]. intros d s'' [-> Hd]. apply wp_ret.
    intros _ imc' Hi _. rewrite Hq' in Hi. injection Hi as <-. split; [left; by apply Hr|done].
  - apply wp_bind. eapply wp_mono; [apply cleanup_wp; by exists imc|].
    intros [err|] s [(Hq & _) Hg]; [by apply wp_ret|]. apply wp_bind.
    eapply wp_mono; [apply writeAgentStatus_wp; [exact Hq|done|done|right; by split_and!; [..|apply Hg]]|].
    intros err s' [Hq' Hr]. apply wp_ret. intros Hn imc' Hi _. simpl in Hn. split; [left; by apply Hr|].
    intros Hj. exfalso. apply states_differ. rewrite Hq', Hq in Hi. injection Hi as <-. congruence.
  - apply wp_ret. intros _ imc' [= <-] [?|?]; done.
Qed.
End safety.

(** ** Runs *)

Module Demo.
Definition r : Reconciler := {| AgentType := "MultiClusterServiceAgent" |}.
Definition name : NamespacedName := {| nn_Namespace := "fleet-member-bravelion"; nn_Name := "bravelion" |}.
Definition agent (t : string) : AgentStatus := {|
  as_Type := t; as_Conditions := []; as_LastReceivedHeartbeat := Some 7%Z |}.
Definition imc (state : string) : InternalMemberCluster := {|
  imc_ObjectMeta := newObjectMeta "fleet-member-bravelion" "bravelion"; imc_State := state;
  imc_HeartbeatPeriodSeconds := 60;
  imc_AgentStatus := [agent "MultiClusterServiceAgent"; agent "MemberAgent"] |}.
Definition mcsKey : NamespacedName := {| nn_Namespace := "work"; nn_Name := "app" |}.
Definition mcs : MultiClusterService := {|
  mcs_TypeMeta := {| tm_Kind := "MultiClusterService"; tm_APIVersion := "v1alpha1" |};
  mcs_ObjectMeta := newObjectMeta "work" "app"; mcs_ServiceImport := "app"; mcs_LoadBalancer := [];
  mcs_Conditions := [] |}.
Definition world0 (state : string) : world := {|
  w_member := storeAlter KMultiClusterService <[mcsKey := mcs]> emptyStore;
  w_hub := storeAlter KInternalMemberCluster <[name := imc state]> emptyStore;
  w_version := 1; w_clock := 100%Z |}.
Definition after (state : string) : bool * option (list (string * list string * option Time)) :=
  let w := (run (serve (λ _ _ _, [])) (Reconcile (util := Reference.util)
    (fleet := Reference.fleetCluster) (waiting := Reference.wait) r name) (world0 state)).2 in
  (bool_decide (is_Some (w_member w KMultiClusterService !! mcsKey)),
   (λ i : InternalMemberCluster,
      (λ a, (as_Type a, c_Reason <$> as_Conditions a, as_LastReceivedHeartbeat a)) <$> imc_AgentStatus i)
     <$> w_hub w KInternalMemberCluster !! name).
End Demo.

Lemma Reconcile_follows_membership_protocol_v1alpha1_witness :
  wp (membershipProtocol (util := Reference.util) (fleet := Reference.fleetCluster) Demo.r Demo.name)
    (Reconcile (util := Reference.util) (fleet := Reference.fleetCluster) (waiting := Reference.wait)
       Demo.r Demo.name) nothingKnown (roundEnds (fleet := Reference.fleetCluster) false) ∧
  Demo.after "Join" = (true, Some [("MultiClusterServiceAgent", [conditionReasonJoined], Some 100%Z);
    ("MemberAgent", [], Some 7%Z)]) ∧
  Demo.after "Leave" = (false, Some [("MultiClusterServiceAgent", [conditionReasonLeft], None);
    ("MemberAgent", [], Some 7%Z)]).
Proof.
  split; [apply (Reconcile_follows_membership_protocol_v1alpha1 (laws := Reference.laws)
    (fleetLaws := Reference.fleetCluster_laws) (waitLaws := Reference.wait_laws))|].
  vm_compute. repeat split; reflexivity.
Defined.

End internalmemberclusterv1alpha1.
