(* ===== verification/Schemes.v ===== *)
(** * The types that the programs register: [api/*/groupversion_info.go] and the
    [init] functions

    A client, a cache and a controller can only handle the types of the scheme
    of their manager.  The [init] functions of the API packages register the
    types with the builders of their groups; those of the programs add the groups
    to the scheme, before [main] runs.  [runtime.Scheme], the builder of
    [controller-runtime] and the groups of other modules are parameters. *)

From S2P Require Import Prelude Prog Go.

Record GroupVersion := { gv_Group : string; gv_Version : string }.
Record GroupVersionKind := { gvk_GroupVersion : GroupVersion; gvk_Kind : string }.
Definition WithKind (gv : GroupVersion) (kind : string) : GroupVersionKind :=
  {| gvk_GroupVersion := gv; gvk_Kind := kind |}.
#[global] Instance GroupVersion_eq_dec : EqDecision GroupVersion.
Proof. solve_decision. Defined.
#[global] Instance GroupVersionKind_eq_dec : EqDecision GroupVersionKind.
Proof. solve_decision. Defined.

(** ** The libraries *)

Class SchemeLibrary := {
  Scheme : Type;
  NewScheme : Scheme;
  Recognizes : Scheme → GroupVersionKind → bool;
  Builder : Type;
  NewBuilder : GroupVersion → Builder;
  Register : list string → Builder → Builder;
  Builder_AddToScheme : Builder → Scheme → error + Scheme;
  (* k8s.io/api, go.goms.io/fleet *)
  corev1 : GroupVersion; discoveryv1 : GroupVersion;
  fleetv1alpha1 : GroupVersion; clusterv1beta1 : GroupVersion;
  clientgoscheme_AddToScheme : Scheme → error + Scheme;
  fleetv1alpha1_AddToScheme : Scheme → error + Scheme;
  clusterv1beta1_AddToScheme : Scheme → error + Scheme;
}.

(** Adding to a scheme keeps what it recognizes. *)
Definition adds `{SchemeLibrary} (add : Scheme → error + Scheme) (types : list GroupVersionKind) : Prop :=
  ∀ s s', add s = inr s' → ∀ g, Recognizes s g = true ∨ g ∈ types → Recognizes s' g = true.
(** A builder adds what was registered with it, under the names of the Go types;
    the other modules add the types of their documentation. *)
Class SchemeLaws `{SchemeLibrary} : Prop := {
  Builder_adds gv objects : adds
    (Builder_AddToScheme (foldl (λ b os, Register os b) (NewBuilder gv) objects))
    (WithKind gv <$> concat objects);
  clientgoscheme_adds : adds clientgoscheme_AddToScheme
    [WithKind corev1 "Service"; WithKind discoveryv1 "EndpointSlice"];
  fleetv1alpha1_adds : adds fleetv1alpha1_AddToScheme [WithKind fleetv1alpha1 "InternalMemberCluster"];
  clusterv1beta1_adds : adds clusterv1beta1_AddToScheme
    [WithKind clusterv1beta1 "MemberCluster"; WithKind clusterv1beta1 "InternalMemberCluster"];
}.

Section schemes.
Context `{SchemeLibrary}.

(** ** [api/v1alpha1] *)

Definition v1alpha1_GroupVersion : GroupVersion :=
  {| gv_Group := "networking.fleet.azure.com"; gv_Version := "v1alpha1" |}.
Definition endpointSliceExport_v1alpha1 := Register ["EndpointSliceExport"; "EndpointSliceExportList"].
Definition endpointSliceImport_v1alpha1 := Register ["EndpointSliceImport"; "EndpointSliceImportList"].
Definition internalServiceExport_v1alpha1 := Register ["InternalServiceExport"; "InternalServiceExportList"].
Definition internalServiceImport_v1alpha1 := Register ["InternalServiceImport"; "InternalServiceImportList"].
Definition multiClusterService_v1alpha1 := Register ["MultiClusterService"; "MultiClusterServiceList"].
Definition serviceExport_v1alpha1 := Register ["ServiceExport"; "ServiceExportList"].
Definition serviceImport_v1alpha1 := Register ["ServiceImport"; "ServiceImportList"].
Definition trafficManagerBackend_v1alpha1 := Register ["TrafficManagerBackend"; "TrafficManagerBackendList"].
Definition trafficManagerProfile_v1alpha1 := Register ["TrafficManagerProfile"; "TrafficManagerProfileList"].
(** The [init] functions of a package run in the order of its files. *)
Definition v1alpha1_SchemeBuilder : Builder :=
  trafficManagerProfile_v1alpha1 (trafficManagerBackend_v1alpha1 (serviceImport_v1alpha1
    (serviceExport_v1alpha1 (multiClusterService_v1alpha1 (internalServiceImport_v1alpha1
    (internalServiceExport_v1alpha1 (endpointSliceImport_v1alpha1 (endpointSliceExport_v1alpha1
    (NewBuilder v1alpha1_GroupVersion))))))))).
Definition v1alpha1_AddToScheme := Builder_AddToScheme v1alpha1_SchemeBuilder.

(** ** [api/v1beta1] *)

Definition v1beta1_GroupVersion : GroupVersion :=
  {| gv_Group := "networking.fleet.azure.com"; gv_Version := "v1beta1" |}.
Definition serviceExport_v1beta1 := Register ["ServiceExport"; "ServiceExportList"].
Definition trafficManagerBackend_v1beta1 := Register ["TrafficManagerBackend"; "TrafficManagerBackendList"].
Definition trafficManagerProfile_v1beta1 := Register ["TrafficManagerProfile"; "TrafficManagerProfileList"].
Definition v1beta1_SchemeBuilder : Builder :=
  trafficManagerProfile_v1beta1 (trafficManagerBackend_v1beta1 (serviceExport_v1beta1
    (NewBuilder v1beta1_GroupVersion))).
Definition v1beta1_AddToScheme := Builder_AddToScheme v1beta1_SchemeBuilder.

(** ** The programs *)

(** [utilruntime.Must(add(scheme))]; an error panics. *)
Definition Must (add : Scheme → error + Scheme) (s : outcome Scheme) : outcome Scheme :=
  match s with
  | Done s => match add s with inr s => Done s | inl err => Panicked (errorString err) end
  | Panicked m => Panicked m
  end.
Definition hubInit : outcome Scheme :=
  Must clusterv1beta1_AddToScheme (Must v1beta1_AddToScheme (Must v1alpha1_AddToScheme
    (Must clientgoscheme_AddToScheme (Done NewScheme)))).
Definition memberInit : outcome Scheme :=
  Must clusterv1beta1_AddToScheme (Must fleetv1alpha1_AddToScheme (Must v1beta1_AddToScheme
    (Must v1alpha1_AddToScheme (Must clientgoscheme_AddToScheme (Done NewScheme))))).
Definition mcsInit : outcome Scheme :=
  Must clusterv1beta1_AddToScheme (Must fleetv1alpha1_AddToScheme (Must v1beta1_AddToScheme
    (Must v1alpha1_AddToScheme (Must clientgoscheme_AddToScheme (Done NewScheme))))).

(** ** What the schemes know *)

Definition v1alpha1_types : list GroupVersionKind := WithKind v1alpha1_GroupVersion <$>
  ["EndpointSliceExport"; "EndpointSliceImport"; "InternalServiceExport"; "InternalServiceImport";
   "MultiClusterService"; "ServiceExport"; "ServiceImport"; "TrafficManagerBackend"; "TrafficManagerProfile"].
Definition v1beta1_types : list GroupVersionKind := WithKind v1beta1_GroupVersion <$>
  ["ServiceExport"; "TrafficManagerBackend"; "TrafficManagerProfile"].
Definition hubTypes : list GroupVersionKind :=
  v1alpha1_types ++ v1beta1_types ++
  [WithKind corev1 "Service"; WithKind discoveryv1 "EndpointSlice";
   WithKind clusterv1beta1 "MemberCluster"; WithKind clusterv1beta1 "InternalMemberCluster"].
Definition agentTypes : list GroupVersionKind := WithKind fleetv1alpha1 "InternalMemberCluster" :: hubTypes.

Definition knows (types : list GroupVersionKind) (s : Scheme) : Prop :=
  ∀ g, g ∈ types → Recognizes s g = true.

Lemma adds_incl add types types' : types' ⊆ types → adds add types → adds add types'.
Proof. intros Hin Hadd s s' Hs g [Hg|Hg]; eapply Hadd; eauto. Qed.
Lemma Must_knows add types known s s' :
  adds add types → Must add s = Done s' → (∀ s0, s = Done s0 → knows known s0) → knows (types ++ known) s'.
Proof.
  intros Hadd Hm Hk. destruct s as [s0|]; [|done]. simpl in Hm. destruct (add s0) as [|s1] eqn:Ha; [done|].
  injection Hm as <-. intros g [Hg|Hg]%elem_of_app; apply (Hadd _ _ Ha); [by right|left; by apply (Hk s0)].
Qed.
Lemma knows_incl types types' s : types' ⊆ types → knows types s → knows types' s.
Proof. intros Hin Hk g Hg. by apply Hk, Hin. Qed.

Context {laws : SchemeLaws}.
Lemma v1alpha1_adds : adds v1alpha1_AddToScheme v1alpha1_types.
Proof.
  eapply adds_incl; [|apply (Builder_adds v1alpha1_GroupVersion [["EndpointSliceExport"; "EndpointSliceExportList"];
    ["EndpointSliceImport"; "EndpointSliceImportList"]; ["InternalServiceExport"; "InternalServiceExportList"];
    ["InternalServiceImport"; "InternalServiceImportList"]; ["MultiClusterService"; "MultiClusterServiceList"];
    ["ServiceExport"; "ServiceExportList"]; ["ServiceImport"; "ServiceImportList"];
    ["TrafficManagerBackend"; "TrafficManagerBackendList"];
    ["TrafficManagerProfile"; "TrafficManagerProfileList"]])].
  apply (bool_decide_unpack _). vm_compute. exact I.
Qed.
Lemma v1beta1_adds : adds v1beta1_AddToScheme v1beta1_types.
Proof.
  eapply adds_incl; [|apply (Builder_adds v1beta1_GroupVersion [["ServiceExport"; "ServiceExportList"];
    ["TrafficManagerBackend"; "TrafficManagerBackendList"];
    ["TrafficManagerProfile"; "TrafficManagerProfileList"]])].
  apply (bool_decide_unpack _). vm_compute. exact I.
Qed.
#[local] Hint Resolve v1alpha1_adds v1beta1_adds clientgoscheme_adds fleetv1alpha1_adds clusterv1beta1_adds : core.

(** Every step of an [init] that returned. *)
Ltac registrations :=
  lazymatch goal with
  | |- Done _ = Done _ → knows _ _ => intros [= <-]; by intros g ?%not_elem_of_nil
  | |- _ => intros Hi; eapply Must_knows; [|exact Hi|]; [solve [auto]|]; clear Hi; intros ?; registrations
  end.
Lemma hubInit_knows s : hubInit = Done s → knows hubTypes s.
Proof.
  unfold hubInit. intros Hi. eapply knows_incl; [|revert Hi; registrations].
  unfold hubTypes. set_solver.
Qed.
Lemma memberInit_knows s : memberInit = Done s → knows agentTypes s.
Proof.
  unfold memberInit. intros Hi. eapply knows_incl; [|revert Hi; registrations].
  unfold agentTypes, hubTypes. set_solver.
Qed.
Lemma mcsInit_knows s : mcsInit = Done s → knows agentTypes s.
Proof. exact (memberInit_knows s). Qed.
End schemes.

(** *** A library of schemes *)

Module Demo.
#[local] Instance library : SchemeLibrary := {|
  Scheme := list GroupVersionKind; NewScheme := []; Recognizes s g := bool_decide (g ∈ s);
  Builder := GroupVersion * list string;
  NewBuilder gv := (gv, []);
  Register objects b := (b.1, b.2 ++ objects);
  Builder_AddToScheme b s := inr ((WithKind b.1 <$> b.2) ++ s);
  corev1 := {| gv_Group := ""; gv_Version := "v1" |};
  discoveryv1 := {| gv_Group := "discovery.k8s.io"; gv_Version := "v1" |};
  fleetv1alpha1 := {| gv_Group := "fleet.azure.com"; gv_Version := "v1alpha1" |};
  clusterv1beta1 := {| gv_Group := "cluster.kubernetes-fleet.io"; gv_Version := "v1beta1" |};
  clientgoscheme_AddToScheme s := inr (WithKind {| gv_Group := ""; gv_Version := "v1" |} "Service" ::
    WithKind {| gv_Group := "discovery.k8s.io"; gv_Version := "v1" |} "EndpointSlice" :: s);
  fleetv1alpha1_AddToScheme s := inr
    (WithKind {| gv_Group := "fleet.azure.com"; gv_Version := "v1alpha1" |} "InternalMemberCluster" :: s);
  clusterv1beta1_AddToScheme s := inr
    ((WithKind {| gv_Group := "cluster.kubernetes-fleet.io"; gv_Version := "v1beta1" |} <$>
       ["MemberCluster"; "InternalMemberCluster"]) ++ s);
|}.
Lemma registered_all gv objects objs : foldl (λ (b : Builder) os, Register os b) (gv, objs) objects =
  (gv, objs ++ concat objects).
Proof.
  revert objs. induction objects as [|os objects IH]; intros objs; simpl; [by rewrite app_nil_r|].
  by rewrite IH, <-app_assoc.
Qed.
Lemma adds_app types : adds (λ s : Scheme, inr (types ++ s)) types.
Proof. intros s s' [= <-] g Hg. apply bool_decide_eq_true_2, elem_of_app. destruct Hg as [?%bool_decide_eq_true_1|?]; auto. Qed.
#[local] Instance laws : SchemeLaws.
Proof.
  split; [|apply (adds_app [_; _])|apply (adds_app [_])|apply (adds_app [_; _])].
  intros gv objects. simpl. rewrite registered_all. apply adds_app.
Qed.
Definition schemeOf (o : outcome Scheme) : Scheme := match o with Done s => s | Panicked _ => NewScheme end.
End Demo.
