(* ===== verification/Managers.v ===== *)
(** * The controller managers: [cmd/hub-net-controller-manager],
    [cmd/member-net-controller-manager] and [cmd/mcs-controller-manager]

    The three programs up to the point where their managers run: the
    configuration of the managers, the [SetupWithManager] methods of the
    controllers and the order in which they are called.  A manager is only
    started with the controllers that the flags ask for, and with an index for
    every field that one of them selects by. *)

From S2P Require Import Prelude Prog Go Api Fleet Azure Effects Deps Protocols HttpClient HubConfig Schemes.
From S2P Require Import HubInternalServiceExport HubServiceImport HubInternalServiceImport.
From S2P Require Import HubEndpointSliceExport HubMemberCluster MemberEndpointSlice.
From S2P Require Import MemberEndpointSliceImport MemberInternalServiceExport MemberServiceExport.
From S2P Require Import MemberServiceImport MemberInternalMemberCluster.
From S2P Require Import MultiClusterServiceController TrafficManagerBackendController.

Module managers.

(** ** Controllers and managers *)

(** The controllers, each with the configuration it is made with. *)
Inductive controller :=
| HubEndpointSliceExports
| HubInternalServiceExports (r : HubInternalServiceExport.internalserviceexport.Reconciler)
| HubInternalServiceImports
| HubServiceImports
| HubMemberClusters (r : membercluster.Reconciler)
| HubTrafficManagerProfiles
| HubTrafficManagerBackends
| EndpointSlices (r : endpointslice.Reconciler)
| EndpointSliceExports
| EndpointSliceImports (r : endpointsliceimport.Reconciler)
| InternalServiceExports (r : MemberInternalServiceExport.internalserviceexport.Reconciler)
| InternalServiceImports
| ServiceExports (r : serviceexport.Reconciler)
| ServiceImports (r : MemberServiceImport.serviceimport.Reconciler)
| InternalMemberClustersV1Alpha1 (r : internalmembercluster.Reconciler)
| InternalMemberClustersV1Beta1 (r : internalmembercluster.Reconciler)
| MultiClusterServices (r : multiclusterservice.Reconciler).

(** [ctrl.Options]; [LeaderElectionConfig] names the cluster of the lease where
    it is not that of the manager. *)
Record Options := {
  MetricsBindAddress : string;
  WebhookPort : Z;
  HealthProbeBindAddress : string;
  LeaderElection : bool;
  LeaderElectionID : string;
  LeaderElectionNamespace : string;
  LeaderElectionConfig : option cluster;
  DefaultNamespaces : list string;
}.
(** The [rest.Config] of a manager: the one that [ctrl.GetConfigOrDie] finds for
    the process, or the one made for the hub. *)
Inductive restConfig := OwnConfig | HubConfigOf (c : hubconfig.Config).
(** What is used of [azure.CloudConfig]. *)
Record CloudConfig := { ResourceGroup : string; SubscriptionID : string; UserAgent : string }.
Definition SetUserAgent (agent : string) (c : CloudConfig) : CloudConfig :=
  {| ResourceGroup := ResourceGroup c; SubscriptionID := SubscriptionID c; UserAgent := agent |}.

(** The calls of the set-up: the configuration of a cluster and the discovery
    client (without one the process ends), the token file, and what
    controller-runtime, the discovery client and the Azure libraries are asked
    for. *)
Inductive setupEff : Type → Type :=
| XGetConfigOrDie : setupEff bool
| XDiscoveryClientOrDie : setupEff bool
| XToken {X} (e : hubconfig.statEff X) : setupEff X
| XNewManager (c : cluster) (config : restConfig) (opts : Options) : setupEff (option error)
| XAddCheck (c : cluster) (name : string) : setupEff (option error)
| XIndexField (c : cluster) (k : kind) (field : string) : setupEff (option error)
| XComplete (c : cluster) (k : kind) (watched : list kind) (ctl : controller) : setupEff (option error)
| XCheckCRDInstalled (k : kind) : setupEff (option error)
| XCloudConfig (file : string) : setupEff (error + CloudConfig)
| XAuthProvider (cc : CloudConfig) : setupEff (option error)
| XResourceClientOption (cc : CloudConfig) : setupEff (option error)
| XNewClient (client : string) (cc : CloudConfig) : setupEff (option error)
| XStart (c : cluster) : setupEff (option error).

(** [if err := p; err != nil { return fail }]. *)
Definition must {R} (p : prog setupEff (option error)) (fail : error → R) (k : prog setupEff R)
    : prog setupEff R :=
  err ← p; match err with Some err => mret (fail err) | None => k end.

(** ** [SetupWithManager] *)

Definition setupHubEndpointSliceExports : prog setupEff (option error) :=
  must (call (XIndexField Hub KEndpointSliceImport endpointsliceexport.endpointSliceImportNameFieldKey)) Some
  (must (call (XIndexField Hub KEndpointSliceExport
           endpointsliceexport.endpointSliceExportOwnerSvcNamespacedNameFieldKey)) Some
  (call (XComplete Hub KEndpointSliceExport [KServiceImport] HubEndpointSliceExports))).
Definition setupHubInternalServiceExports r : prog setupEff (option error) :=
  call (XComplete Hub KInternalServiceExport [] (HubInternalServiceExports r)).
Definition setupHubInternalServiceImports : prog setupEff (option error) :=
  must (call (XIndexField Hub KInternalServiceImport
          HubInternalServiceImport.internalserviceimport.internalSvcImportSvcRefNamespacedNameFieldKey)) Some
  (call (XComplete Hub KInternalServiceImport [KServiceImport] HubInternalServiceImports)).
Definition setupHubServiceImports : prog setupEff (option error) :=
  must (call (XIndexField Hub KInternalServiceExport
          HubServiceImport.serviceimport.exportedServiceFieldNamespacedName)) Some
  (call (XComplete Hub KServiceImport [] HubServiceImports)).
Definition setupHubMemberClusters r : prog setupEff (option error) :=
  call (XComplete Hub KMemberCluster [] (HubMemberClusters r)).
Definition setupHubTrafficManagerProfiles : prog setupEff (option error) :=
  call (XComplete Hub KTrafficManagerProfile [] HubTrafficManagerProfiles).
Definition setupHubTrafficManagerBackends (disableInternalServiceExportIndexer : bool)
    : prog setupEff (option error) :=
  must (call (XIndexField Hub KTrafficManagerBackend
          trafficmanagerbackend.trafficManagerBackendProfileFieldKey)) Some
  (must (call (XIndexField Hub KTrafficManagerBackend
          trafficmanagerbackend.trafficManagerBackendBackendFieldKey)) Some
  (must (if negb disableInternalServiceExportIndexer
         then call (XIndexField Hub KInternalServiceExport
                trafficmanagerbackend.exportedServiceFieldNamespacedName)
         else mret None) Some
  (call (XComplete Hub KTrafficManagerBackend
     [KTrafficManagerProfile; KServiceImport; KInternalServiceExport] HubTrafficManagerBackends)))).

Definition setupEndpointSlices r : prog setupEff (option error) :=
  call (XComplete Member KEndpointSlice [KServiceExport] (EndpointSlices r)).
Definition setupEndpointSliceExports : prog setupEff (option error) :=
  call (XComplete Hub KEndpointSliceExport [] EndpointSliceExports).
(** The index is for the manager of the member cluster, the controller belongs to
    that of the hub. *)
Definition setupEndpointSliceImports r : prog setupEff (option error) :=
  must (call (XIndexField Member KMultiClusterService
          endpointsliceimport.mcsServiceImportRefFieldKey)) Some
  (call (XComplete Hub KEndpointSliceImport [] (EndpointSliceImports r))).
Definition setupInternalServiceExports r : prog setupEff (option error) :=
  call (XComplete Hub KInternalServiceExport [] (InternalServiceExports r)).
Definition setupInternalServiceImports : prog setupEff (option error) :=
  call (XComplete Hub KInternalServiceImport [] InternalServiceImports).
Definition setupServiceExports r : prog setupEff (option error) :=
  call (XComplete Member KServiceExport [KService] (ServiceExports r)).
Definition setupServiceImports r : prog setupEff (option error) :=
  call (XComplete Member KServiceImport [] (ServiceImports r)).
Definition setupInternalMemberClustersV1Alpha1 r : prog setupEff (option error) :=
  call (XComplete Hub KInternalMemberCluster [] (InternalMemberClustersV1Alpha1 r)).
Definition setupInternalMemberClustersV1Beta1 r : prog setupEff (option error) :=
  call (XComplete Hub KInternalMemberCluster [] (InternalMemberClustersV1Beta1 r)).
Definition setupMultiClusterServices r : prog setupEff (option error) :=
  call (XComplete Member KMultiClusterService [KServiceImport; KService] (MultiClusterServices r)).


(** ** [cmd/hub-net-controller-manager] *)

(** How a process ends, or that its managers are left running. *)
Inductive exit := ExitOK | ExitError | Running.
Definition exitWithError (err : error) : exit := ExitError.

Module hubmanager.
Record flags := {
  metricsAddr : string; probeAddr : string;
  enableLeaderElection : bool; leaderElectionNamespace : string;
  internalServiceExportRetryInterval : Duration; forceDeleteWaitTime : Duration;
  enableV1Beta1APIs : bool; enableTrafficManagerFeature : bool; cloudConfigFile : string;
}.
Definition trafficManagerFeatureRequiredGVKs : list kind :=
  [KTrafficManagerProfile; KTrafficManagerBackend].

Definition options (f : flags) : Options := {|
  MetricsBindAddress := metricsAddr f; WebhookPort := 9443;
  HealthProbeBindAddress := probeAddr f; LeaderElection := enableLeaderElection f;
  LeaderElectionID := "2bf2b407.hub.networking.fleet.azure.com";
  LeaderElectionNamespace := leaderElectionNamespace f;
  LeaderElectionConfig := None; DefaultNamespaces := [] |}.

Definition initAzureTrafficManagerClients (cc : CloudConfig) : prog setupEff (option error) :=
  must (call (XAuthProvider cc)) (λ err, Some (WrapError "failed to create Azure auth provider" err))
  (must (call (XResourceClientOption cc))
     (λ err, Some (WrapError "failed to get default resource client option" err))
  (must (call (XNewClient "profiles" cc))
     (λ err, Some (WrapError "failed to create Azure trafficManager profiles client" err))
  (must (call (XNewClient "endpoints" cc))
     (λ err, Some (WrapError "failed to create Azure trafficManager endpoints client" err))
  (mret None)))).

(** The loop over the required definitions. *)
Definition checkRequiredCRDs (gvks : list kind) : prog setupEff (error + unit) :=
  for_range (λ gvk _, err ← call (XCheckCRDInstalled gvk);
    mret match err with Some err => inl err | None => inr tt end) gvks tt.

Definition setupTrafficManager (f : flags) (k : prog setupEff exit) : prog setupEff exit :=
  crds ← checkRequiredCRDs trafficManagerFeatureRequiredGVKs;
  match crds with
  | inl err => mret (exitWithError err)
  | inr _ =>
      got ← call (XCloudConfig (cloudConfigFile f));
      match got with
      | inl err => mret (exitWithError err)
      | inr cc =>
          must (initAzureTrafficManagerClients (SetUserAgent "fleet-hub-net-controller-manager" cc))
            exitWithError
          (must setupHubTrafficManagerProfiles exitWithError
          (must (setupHubTrafficManagerBackends true) exitWithError k))
      end
  end.

Definition setupMemberCluster (f : flags) (k : prog setupEff exit) : prog setupEff exit :=
  if enableV1Beta1APIs f
  then err ← call (XCheckCRDInstalled KMemberCluster);
       match err with
       | None => must (setupHubMemberClusters
                   {| membercluster.ForceDeleteWaitTime := forceDeleteWaitTime f |}) exitWithError k
       | Some _ => k
       end
  else k.

Definition main (f : flags) : prog setupEff exit :=
  found ← call XGetConfigOrDie;
  if negb found then mret ExitError else
  must (call (XNewManager Hub OwnConfig (options f))) exitWithError
  (must (call (XAddCheck Hub "healthz")) exitWithError
  (must (call (XAddCheck Hub "readyz")) exitWithError
  (must setupHubEndpointSliceExports exitWithError
  (must (setupHubInternalServiceExports
     {| HubInternalServiceExport.internalserviceexport.RetryInternal :=
          internalServiceExportRetryInterval f |}) exitWithError
  (must setupHubInternalServiceImports exitWithError
  (must setupHubServiceImports exitWithError
  (found ← call XDiscoveryClientOrDie;
   if negb found then mret ExitError else
   let start := must (call (XStart Hub)) exitWithError (mret ExitOK) in
   setupMemberCluster f
     (if enableTrafficManagerFeature f then setupTrafficManager f start else start)))))))).
End hubmanager.

(** ** The agents of a member cluster

    Both agents have a manager for the hub and one for the member cluster. *)

Record agentFlags := {
  hubMetricsAddr : string; hubProbeAddr : string; metricsAddr : string; probeAddr : string;
  enableLeaderElection : bool; leaderElectionNamespace : string;
  tlsClientInsecure : bool; fleetSystemNamespace : string;
  isV1Alpha1APIEnabled : bool; isV1Beta1APIEnabled : bool;
}.

Section agents.
Context {retry : hubconfig.Retry} {fleet : FleetCluster} (environ : gmap string string).

Definition prepareMemberParameters (id : string) (f : agentFlags) : Options := {|
  MetricsBindAddress := metricsAddr f; WebhookPort := 8443;
  HealthProbeBindAddress := probeAddr f; LeaderElection := enableLeaderElection f;
  LeaderElectionID := id; LeaderElectionNamespace := leaderElectionNamespace f;
  LeaderElectionConfig := None; DefaultNamespaces := [] |}.
Definition hubOptions (id : string) (f : agentFlags) (mcHubNamespace : string) : Options := {|
  MetricsBindAddress := hubMetricsAddr f; WebhookPort := 9443;
  HealthProbeBindAddress := hubProbeAddr f; LeaderElection := enableLeaderElection f;
  LeaderElectionID := id; LeaderElectionNamespace := leaderElectionNamespace f;
  LeaderElectionConfig := Some Member; DefaultNamespaces := [mcHubNamespace] |}.
Definition prepareHubParameters (id : string) (f : agentFlags)
    : prog setupEff (error + (hubconfig.Config * Options)) :=
  got ← translate (@XToken) (hubconfig.PrepareHubConfig environ (tlsClientInsecure f));
  match got with
  | inl err => mret (inl err)
  | inr hubConfig =>
      match hubconfig.FetchMemberClusterNamespace environ with
      | inl err => mret (inl err)
      | inr mcHubNamespace => mret (inr (hubConfig, hubOptions id f mcHubNamespace))
      end
  end.

(** [main] of both agents, up to the goroutines that start the managers. *)
Definition agentMain (hubParameters : prog setupEff (error + (hubconfig.Config * Options)))
    (memberOptions : Options) (setupControllersWithManager : prog setupEff (option error))
    : prog setupEff exit :=
  found ← call XGetConfigOrDie;
  if negb found then mret ExitError else
  got ← hubParameters;
  match got with
  | inl err => mret (exitWithError err)
  | inr (hubConfig, options) =>
      must (call (XNewManager Hub (HubConfigOf hubConfig) options)) exitWithError
      (must (call (XAddCheck Hub "healthz")) exitWithError
      (must (call (XAddCheck Hub "readyz")) exitWithError
      (must (call (XNewManager Member OwnConfig memberOptions)) exitWithError
      (must (call (XAddCheck Member "healthz")) exitWithError
      (must (call (XAddCheck Member "readyz")) exitWithError
      (must setupControllersWithManager exitWithError (mret Running)))))))
  end.

(** The heartbeat controllers of both API versions. *)
Definition setupMembership (f : agentFlags) (agent : string) : prog setupEff (option error) :=
  let r := {| internalmembercluster.AgentType := agent |} in
  must (if isV1Alpha1APIEnabled f then setupInternalMemberClustersV1Alpha1 r else mret None) Some
  (must (if isV1Beta1APIEnabled f then setupInternalMemberClustersV1Beta1 r else mret None) Some
  (mret None)).


(** ** [cmd/member-net-controller-manager] *)

Record memberFlags := {
  agent : agentFlags; enableTrafficManagerFeature : bool; cloudConfigFile : string;
}.

Definition initAzureNetworkClients (cc : CloudConfig) : prog setupEff (option error) :=
  must (call (XAuthProvider cc)) (λ err, Some (WrapError "failed to create Azure auth provider" err))
  (must (call (XResourceClientOption cc))
     (λ err, Some (WrapError "failed to get default resource client option" err))
  (must (call (XNewClient "publicipaddress" cc))
     (λ err, Some (WrapError "failed to create Azure PublicIPAddress client" err))
  (mret None))).

(** The resource group, empty without the feature. *)
Definition setupAzure (f : memberFlags) : prog setupEff (error + string) :=
  if enableTrafficManagerFeature f
  then got ← call (XCloudConfig (cloudConfigFile f));
       match got with
       | inl err => mret (inl err)
       | inr cc =>
           must (initAzureNetworkClients (SetUserAgent "fleet-member-net-controller-manager" cc)) inl
             (mret (inr (ResourceGroup cc)))
       end
  else mret (inr "").

Definition setupControllersWithManager (f : memberFlags) : prog setupEff (option error) :=
  match env.LookupMemberClusterName environ with
  | inl err => mret (Some err)
  | inr mcName =>
      match hubconfig.FetchMemberClusterNamespace environ with
      | inl err => mret (Some err)
      | inr mcHubNamespace =>
          must (setupEndpointSlices {| endpointslice.MemberClusterID := mcName;
                                       endpointslice.HubNamespace := mcHubNamespace |}) Some
          (must setupEndpointSliceExports Some
          (must (setupEndpointSliceImports {| endpointsliceimport.MemberClusterID := mcName;
             endpointsliceimport.FleetSystemNamespace := fleetSystemNamespace (agent f) |}) Some
          (must (setupInternalServiceExports
             {| MemberInternalServiceExport.internalserviceexport.MemberClusterID := mcName |}) Some
          (must setupInternalServiceImports Some
          (azure ← setupAzure f;
           match azure with
           | inl err => mret (Some err)
           | inr resourceGroupName =>
               must (setupServiceExports {| serviceexport.MemberClusterID := mcName;
                 serviceexport.HubNamespace := mcHubNamespace;
                 serviceexport.ResourceGroupName := resourceGroupName;
                 serviceexport.EnableTrafficManagerFeature := enableTrafficManagerFeature f |}) Some
               (must (setupServiceImports {|
                 MemberServiceImport.serviceimport.MemberClusterID := mcName;
                 MemberServiceImport.serviceimport.HubNamespace := mcHubNamespace |}) Some
               (setupMembership (agent f) ServiceExportImportAgent))
           end)))))
      end
  end.
Definition memberMain (f : memberFlags) : prog setupEff exit :=
  agentMain (prepareHubParameters "2bf2b407.hub.networking.fleet.azure.com" (agent f))
    (prepareMemberParameters "2bf2b407.member.networking.fleet.azure.com" (agent f))
    (setupControllersWithManager f).

(** ** [cmd/mcs-controller-manager] *)

Definition setupMcsControllersWithManager (f : agentFlags) : prog setupEff (option error) :=
  must (setupMultiClusterServices
     {| multiclusterservice.FleetSystemNamespace := fleetSystemNamespace f |}) Some
  (setupMembership f MultiClusterServiceAgent).
Definition prepareMcsHubParameters (f : agentFlags) : prog setupEff (error + (hubconfig.Config * Options)) :=
  prepareHubParameters "2bf2b407.mcs.hub.networking.fleet.azure.com" f.
Definition prepareMcsMemberParameters (f : agentFlags) : Options :=
  prepareMemberParameters "2bf2b407.mcs.member.networking.fleet.azure.com" f.
Definition mcsMain (f : agentFlags) : prog setupEff exit :=
  agentMain (prepareMcsHubParameters f) (prepareMcsMemberParameters f) (setupMcsControllersWithManager f).
End agents.


(** ** What a manager needs *)

(** [controller-runtime] names a controller by its kind, in lower case; no two
    controllers of a process have the same name. *)
Definition kindName (k : kind) : string :=
  match k with
  | KService => "Service" | KEndpointSlice => "EndpointSlice" | KServiceExport => "ServiceExport"
  | KInternalServiceExport => "InternalServiceExport" | KServiceImport => "ServiceImport"
  | KInternalServiceImport => "InternalServiceImport" | KEndpointSliceExport => "EndpointSliceExport"
  | KEndpointSliceImport => "EndpointSliceImport" | KMultiClusterService => "MultiClusterService"
  | KTrafficManagerProfile => "TrafficManagerProfile"
  | KTrafficManagerBackend => "TrafficManagerBackend" | KMemberCluster => "MemberCluster"
  | KInternalMemberCluster => "InternalMemberCluster"
  | KCustomResourceDefinition => "CustomResourceDefinition"
  end.
Definition controllerName (k : kind) : string := ToLower (kindName k).

Section lists.
Context {util : ControllerUtil} {fleetCond : FleetCondition} {conv : FloatConversion}.

(** A program can make a call. *)
Definition makes {A X} (p : IO A) (e : eff X) : Prop := ∃ t o x, exec p t o ∧ Ev e x ∈ t.

(** The lists by field that a controller asks for: those its protocol allows,
    and those of its event handlers. *)
Definition lists (ctl : controller) (c : cluster) (k : kind)
    (opts : ListOptions) : Prop :=
  match ctl with
  | HubEndpointSliceExports =>
      (∃ req s, allowed (endpointsliceexport.distributionProtocol req) (EList c k opts) s) ∨
      ∃ si, makes (endpointsliceexport.enqueueFor si) (EList c k opts)
  | HubInternalServiceImports =>
      (∃ req s, allowed (HubInternalServiceImport.internalserviceimport.claimProtocol req)
                  (EList c k opts) s) ∨
      ∃ si, makes (HubInternalServiceImport.internalserviceimport.enqueueFor si) (EList c k opts)
  | HubServiceImports =>
      ∃ req s, allowed (HubServiceImport.serviceimport.resolveProtocol req) (EList c k opts) s
  | HubTrafficManagerBackends =>
      (∃ req s, allowed (trafficmanagerbackend.backendProtocol req) (EList c k opts) s) ∨
      (∃ p, makes (trafficmanagerbackend.handleTrafficManagerProfileEvent p) (EList c k opts)) ∨
      (∃ si, makes (trafficmanagerbackend.handleServiceImportEvent si) (EList c k opts)) ∨
      ∃ e, makes (trafficmanagerbackend.handleInternalServiceExportEvent e) (EList c k opts)
  | EndpointSliceImports r =>
      ∃ req s, allowed (endpointsliceimport.importSliceProtocol r req) (EList c k opts) s
  | _ => False
  end.
(** The indexes these need. *)
Definition fieldsOf (ctl : controller) : list (cluster * kind * string) :=
  match ctl with
  | HubEndpointSliceExports =>
      [(Hub, KEndpointSliceImport, ".metadata.name");
       (Hub, KEndpointSliceExport, ".spec.ownerServiceReference.namespacedName")]
  | HubInternalServiceImports =>
      [(Hub, KInternalServiceImport, ".spec.serviceImportReference.namespacedName")]
  | HubServiceImports => [(Hub, KInternalServiceExport, ".spec.serviceReference.namespacedName")]
  | HubTrafficManagerBackends =>
      [(Hub, KTrafficManagerBackend, ".spec.profile.name");
       (Hub, KTrafficManagerBackend, ".spec.backend.name");
       (Hub, KInternalServiceExport, ".spec.serviceReference.namespacedName")]
  | EndpointSliceImports _ => [(Member, KMultiClusterService, ".spec.serviceImport.name")]
  | _ => []
  end.


Definition selects (ctl : controller) (c : cluster) (k : kind) (opts : ListOptions) : Prop :=
  Forall (λ '(field, _), (c, k, field) ∈ fieldsOf ctl) (lo_Fields opts).
(** Selecting by the fields of a controller only. *)
Definition selectProtocol (ctl : controller) : protocol eff unit := {|
  allowed X e s := match e with EList c k opts => selects ctl c k opts | _ => True end;
  answer X e s x := True;
  next X e x s := s |}.

Lemma makes_allowed {A X} ctl (p : IO A) (e : eff X) Q :
  wp (selectProtocol ctl) p tt Q → makes p e → allowed (selectProtocol ctl) e tt.
Proof.
  intros Hwp (t & o & x & Hex & Hin).
  assert (∀ s, honest (selectProtocol ctl) s t) as Hh by (clear; induction t as [|[]]; by simpl).
  destruct (wp_adequate _ _ _ _ _ _ Hwp Hex (Hh tt)) as [Hall _].
  apply list_elem_of_split in Hin as (t1 & t2 & ->). exact (Hall t1 _ t2 eq_refl).
Qed.
Lemma selects_one ctl c k field value :
  (c, k, field) ∈ fieldsOf ctl → selects ctl c k (MatchingFields [(field, value)]).
Proof. intros Hin. by apply Forall_singleton. Qed.
Lemma backend_events ctl : ctl = HubTrafficManagerBackends →
  (∀ p, wp (selectProtocol ctl) (trafficmanagerbackend.handleTrafficManagerProfileEvent p) tt (λ _ _, True)) ∧
  (∀ si, wp (selectProtocol ctl) (trafficmanagerbackend.handleServiceImportEvent si) tt (λ _ _, True)) ∧
  ∀ e, wp (selectProtocol ctl) (trafficmanagerbackend.handleInternalServiceExportEvent e) tt (λ _ _, True).
Proof.
  intros ->.
  assert (∀ si, wp (selectProtocol HubTrafficManagerBackends)
    (trafficmanagerbackend.handleServiceImportEvent si) tt (λ _ _, True)) as Hsi.
  { intros si. apply wp_bind, wp_call; [|done]. by apply Forall_singleton; right; left. }
  split; [|split; [done|]].
  - intros p. apply wp_bind, wp_call; [|done]. by apply Forall_singleton; left.
  - intros e. apply wp_bind, wp_call; [done|]. intros [err|si] _; [done|]. apply wp_bind.
    eapply (wp_for_range _ _ (λ _ _ _, True)); [|done|done]. intros cs l t [] _. case_bool_decide; [|done].
    apply wp_bind. eapply wp_mono; [apply Hsi|done].
Qed.

Lemma lists_selects ctl c k opts : lists ctl c k opts → selects ctl c k opts.
Proof.
  destruct ctl; simpl; try done.
  - intros [(req & s & Hal)|[si Hm]].
    + destruct c, k; try done. destruct Hal as (e & _ & ->). apply selects_one. by left.
    + refine (makes_allowed HubEndpointSliceExports _ (EList c k opts) (λ _ _, True) _ Hm). apply wp_bind, wp_call.
      * apply selects_one. right; left.
      * by intros [].
  - intros [(req & s & Hal)|[si Hm]].
    + by destruct c, k.
    + refine (makes_allowed HubInternalServiceImports _ (EList c k opts) (λ _ _, True) _ Hm). apply wp_bind, wp_call.
      * apply selects_one. left.
      * by intros [].
  - intros (req & s & Hal). destruct c, k; try done. rewrite Hal. apply selects_one. left.
  - destruct (backend_events HubTrafficManagerBackends eq_refl) as (Hp & Hsi & He).
    intros [(req & s & Hal)|[[p Hm]|[[si Hm]|[e Hm]]]].
    + destruct c, k; try done. destruct Hal as (si & _ & ->). apply selects_one. by do 2 right; left.
    + exact (makes_allowed _ _ _ _ (Hp p) Hm).
    + exact (makes_allowed _ _ _ _ (Hsi si) Hm).
    + exact (makes_allowed _ _ _ _ (He e) Hm).
  - intros (req & s & Hal). destruct c, k; try done. destruct Hal as (i & _ & _ & ->).
    apply Forall_singleton. left.
Qed.
End lists.


(** ** The course of a set-up

    The state is the outcome of the last look at the token file, and what else
    happened so far, the latest first. *)

Abbreviation log := (list (event setupEff)).
Abbreviation course := (option (option error) * list (event setupEff))%type.

Definition ofManager (ev : event setupEff) : option (cluster * (restConfig * Options)) :=
  match ev with
  | Ev e x => match e in setupEff X return X → _ with
              | XNewManager c config opts => λ x,
                  match x with None => Some (c, (config, opts)) | _ => None end
              | _ => λ _, None
              end x
  end.
Definition ofIndex (ev : event setupEff) : option (cluster * kind * string) :=
  match ev with
  | Ev e x => match e in setupEff X return X → _ with
              | XIndexField c k field => λ x, match x with None => Some (c, k, field) | _ => None end
              | _ => λ _, None
              end x
  end.
Definition ofController (ev : event setupEff) : option (cluster * kind * controller) :=
  match ev with
  | Ev e x => match e in setupEff X return X → _ with
              | XComplete c k _ ctl => λ x, match x with None => Some (c, k, ctl) | _ => None end
              | _ => λ _, None
              end x
  end.
Definition ofCheck (ev : event setupEff) : option (cluster * string) :=
  match ev with
  | Ev e x => match e in setupEff X return X → _ with
              | XAddCheck c name => λ x, match x with None => Some (c, name) | _ => None end
              | _ => λ _, None
              end x
  end.
Definition ofDefinition (ev : event setupEff) : option kind :=
  match ev with
  | Ev e x => match e in setupEff X return X → _ with
              | XCheckCRDInstalled k => λ x, match x with None => Some k | _ => None end
              | _ => λ _, None
              end x
  end.
Definition ofClient (ev : event setupEff) : option string :=
  match ev with
  | Ev e x => match e in setupEff X return X → _ with
              | XNewClient client _ => λ x, match x with None => Some client | _ => None end
              | _ => λ _, None
              end x
  end.
Definition ofCloud (ev : event setupEff) : option CloudConfig :=
  match ev with
  | Ev e x => match e in setupEff X return X → _ with
              | XCloudConfig _ => λ x, match x with inr cc => Some cc | inl _ => None end
              | _ => λ _, None
              end x
  end.
Definition ofStart (ev : event setupEff) : option cluster :=
  match ev with
  | Ev e x => match e in setupEff X return X → _ with
              | XStart c => λ x, match x with None => Some c | _ => None end
              | _ => λ _, None
              end x
  end.
(** A call that did not go well.  A MemberCluster definition may be missing, and
    the token file may not be there yet. *)
Definition failing (ev : event setupEff) : bool :=
  match ev with
  | Ev e x => match e in setupEff X return X → bool with
              | XGetConfigOrDie | XDiscoveryClientOrDie => negb
              | XToken _ | XCheckCRDInstalled KMemberCluster => λ _, false
              | XCloudConfig _ => λ x, match x with inl _ => true | inr _ => false end
              | XNewManager _ _ _ | XAddCheck _ _ | XIndexField _ _ _ | XComplete _ _ _ _
              | XCheckCRDInstalled _ | XAuthProvider _ | XResourceClientOption _ | XNewClient _ _
              | XStart _ => λ x, match x with Some _ => true | None => false end
              end x
  end.

Definition failed (l : log) : bool := existsb failing l.
Definition registered (l : log) : list (cluster * kind * controller) := reverse (omap ofController l).
Definition names (l : log) : list string := (λ '(_, k, _), controllerName k) <$> registered l.

(** The Azure clients and the definitions that a controller cannot do without. *)
Definition clientsOf (ctl : controller) : list string :=
  match ctl with
  | HubTrafficManagerProfiles => ["profiles"]
  | HubTrafficManagerBackends => ["profiles"; "endpoints"]
  | ServiceExports r => if serviceexport.EnableTrafficManagerFeature r then ["publicipaddress"] else []
  | _ => []
  end.
Definition definitionsOf (ctl : controller) : list kind :=
  match ctl with
  | HubTrafficManagerProfiles | HubTrafficManagerBackends => [KTrafficManagerProfile; KTrafficManagerBackend]
  | HubMemberClusters _ => [KMemberCluster]
  | _ => []
  end.

(** The Go types of the objects: the API version that the controllers use. *)
Definition typeOf `{SchemeLibrary} (ctl : option controller) (k : kind) : GroupVersionKind :=
  WithKind match k with
           | KService => corev1 | KEndpointSlice => discoveryv1
           | KServiceExport | KTrafficManagerProfile | KTrafficManagerBackend => v1beta1_GroupVersion
           | KMemberCluster => clusterv1beta1
           | KInternalMemberCluster =>
               match ctl with Some (InternalMemberClustersV1Alpha1 _) => fleetv1alpha1 | _ => clusterv1beta1 end
           | _ => v1alpha1_GroupVersion
           end (kindName k).

Definition managerOf (c : cluster) (l : log) : Prop := c ∈ (omap ofManager l).*1.
(** The checks of a manager that is ready. *)
Definition checked (c : cluster) (l : log) : Prop :=
  (c, "healthz") ∈ omap ofCheck l ∧ (c, "readyz") ∈ omap ofCheck l.

Section setup.
(** The scheme, the environment variables, and when a manager may be started. *)
Context `{SchemeLibrary} (scheme : Scheme) (environ : gmap string string) (ready : log → Prop).

(** A program stops at the first failure.  It makes one manager for a cluster and
    one index for a field; it registers a controller after the indexes, clients
    and definitions that the controller needs.  The types of both are in the
    scheme.  [controller-runtime] refuses a
    second index and a second controller of the same name. *)
Definition setupProtocol : protocol setupEff course := {|
  allowed X e '(token, l) := failed l = false ∧
    match e with
    | XToken t => allowed (hubconfig.tokenProtocol environ) t token
    | XNewManager c _ _ => ¬ managerOf c l
    | XAddCheck c name => managerOf c l ∧ (c, name) ∉ omap ofCheck l
    | XIndexField c k field => managerOf c l ∧ (c, k, field) ∉ omap ofIndex l ∧
        Recognizes scheme (typeOf None k) = true
    | XComplete c k watched ctl => managerOf c l ∧
        Forall (λ k, Recognizes scheme (typeOf (Some ctl) k) = true) (k :: watched) ∧
        Forall (λ x, x ∈ omap ofIndex l) (fieldsOf ctl) ∧
        Forall (λ x, x ∈ omap ofClient l) (clientsOf ctl) ∧
        Forall (λ x, x ∈ omap ofDefinition l) (definitionsOf ctl)
    | XStart _ => ready l
    | _ => True
    end;
  answer X e '(token, l) := match e in setupEff X return X → Prop with
                  | XIndexField c k field => λ x, (c, k, field) ∈ omap ofIndex l → is_Some x
                  | XComplete c k _ _ => λ x, controllerName k ∈ names l → is_Some x
                  | _ => λ _, True
                  end;
  next X e := match e in setupEff X return X → course → course with
              | XToken t => λ x '(token, l), (next (hubconfig.tokenProtocol environ) t x token, l)
              | e => λ x '(token, l), (token, Ev e x :: l)
              end |}.

Lemma wp_must {R} P (p : prog setupEff (option error)) fail (k : prog setupEff R) (s : course) Q :
  wp P p s (λ err s', match err with Some err => Q (fail err) s' | None => wp P k s' Q end) →
  wp P (must p fail k) s Q.
Proof. intros Hp. apply wp_bind. eapply wp_mono; [exact Hp|]. by intros [err|] s'. Qed.
Lemma wp_call_option P (e : setupEff (option error)) (s : course) Q :
  allowed P e s →
  (∀ err, answer P e s (Some err) → Q (Some err) (next P e (Some err) s)) →
  (answer P e s None → Q None (next P e None s)) →
  wp P (call e) s Q.
Proof. intros Ha He Hn. apply wp_call; [done|]. intros [err|] Hx; auto. Qed.
Lemma wp_must_call {R} P (e : setupEff (option error)) fail (k : prog setupEff R) (s : course) Q :
  allowed P e s →
  (∀ err, answer P e s (Some err) → Q (fail err) (next P e (Some err) s)) →
  (answer P e s None → wp P k (next P e None s) Q) →
  wp P (must (call e) fail k) s Q.
Proof. intros Ha He Hn. apply wp_must, wp_call; [done|]. intros [err|] Hx; auto. Qed.
End setup.


(** ** The manager of the hub *)

Ltac members := unfold managerOf; repeat first
  [ reflexivity | split | apply Forall_nil_2 | apply Forall_cons_2
  | match goal with H : knows _ ?s |- Recognizes ?s _ = true =>
      apply H; repeat first [apply list_elem_of_here | apply list_elem_of_further] end
  | (apply (bool_decide_unpack _); vm_compute; exact I) ].
(** One call of a set-up: it is allowed, or it fails and the program ends, or it
    goes on. *)
Ltac setup_call :=
  first [apply wp_must_call | apply wp_call_option];
  [split; [reflexivity|solve [members]] | intros ? _; first [reflexivity | left; reflexivity]
  | intros _; change (next (setupProtocol ?scheme ?env ?ready) ?e ?x (?t, ?l)) with (t, Ev e x :: l)].
Ltac setup := repeat
  lazymatch goal with
  | |- wp _ (must (call (XStart _)) _ _) _ _ => fail
  | |- wp _ (setupMembership _ _) _ _ => fail
  | |- _ => first [setup_call | apply wp_must]
  end.

Ltac compute_registered :=
  match goal with |- context [registered ?l] =>
    let v := eval vm_compute in (registered l) in change (registered l) with v end.

Section hub.
Context {util : ControllerUtil} {fleetCond : FleetCondition} {conv : FloatConversion}.
Context `{SchemeLibrary} (scheme : Scheme).

(** The fields that the registered controllers select by have an index. *)
Definition indexed (l : log) : Prop := ∀ c k ctl c' k' opts,
  (c, k, ctl) ∈ registered l → lists ctl c' k' opts →
  Forall (λ '(field, _), (c', k', field) ∈ omap ofIndex l) (lo_Fields opts).

Lemma indexed_fields (l : log) :
  Forall (λ '(_, _, ctl), Forall (λ x, x ∈ omap ofIndex l) (fieldsOf ctl)) (registered l) → indexed l.
Proof.
  intros Hall c k ctl c' k' opts Hin Hl%lists_selects. eapply Forall_impl; [exact Hl|].
  intros [field v] Hf. rewrite Forall_forall in Hall. specialize (Hall _ Hin). simpl in Hall.
  rewrite Forall_forall in Hall. by apply Hall.
Qed.

Import hubmanager.
(** What the flags ask for, and the MemberCluster controller where its definition
    is installed. *)
Definition hubControllers (f : flags) (l : log) : list (cluster * kind * controller) :=
  [(Hub, KEndpointSliceExport, HubEndpointSliceExports);
   (Hub, KInternalServiceExport, HubInternalServiceExports
      {| HubInternalServiceExport.internalserviceexport.RetryInternal :=
           internalServiceExportRetryInterval f |});
   (Hub, KInternalServiceImport, HubInternalServiceImports);
   (Hub, KServiceImport, HubServiceImports)] ++
  (if enableV1Beta1APIs f && bool_decide (KMemberCluster ∈ omap ofDefinition l)
   then [(Hub, KMemberCluster, HubMemberClusters
            {| membercluster.ForceDeleteWaitTime := forceDeleteWaitTime f |})] else []) ++
  (if hubmanager.enableTrafficManagerFeature f
   then [(Hub, KTrafficManagerProfile, HubTrafficManagerProfiles);
         (Hub, KTrafficManagerBackend, HubTrafficManagerBackends)] else []).
Definition hubReady (f : flags) (l : log) : Prop :=
  omap ofManager l = [(Hub, (OwnConfig, options f))] ∧ checked Hub l ∧ registered l = hubControllers f l ∧ indexed l.
Definition hubEnds (r : exit) '((_, l) : course) : Prop :=
  match r with
  | ExitOK => failed l = false ∧ omap ofStart l = [Hub]
  | ExitError => failed l = true
  | Running => False
  end.

Lemma hub_start environ f t l :
  failed l = false → omap ofStart l = [] → hubReady f l →
  wp (setupProtocol scheme environ (hubReady f)) (must (call (XStart Hub)) exitWithError (mret ExitOK)) (t, l) hubEnds.
Proof.
  intros Hf Hs Hr. apply wp_must_call; [by split|by intros err _|]. intros _. apply wp_ret.
  split; [exact Hf|exact (f_equal (cons Hub) Hs)].
Qed.
(** The definitions that the traffic manager needs are looked for, in order. *)
Lemma checkRequiredCRDs_wp environ ready gvks t (l : log) Q :
  KMemberCluster ∉ gvks → failed l = false →
  (∀ err l', failed l' = true → Q (inl err) (t, l')) →
  Q (inr tt) (t, ((λ k, Ev (XCheckCRDInstalled k) None) <$> reverse gvks) ++ l) →
  wp (setupProtocol scheme environ ready) (checkRequiredCRDs gvks) (t, l) Q.
Proof.
  unfold checkRequiredCRDs. revert l. induction gvks as [|k gvks IH]; intros l Hn Hf He Hq; simpl.
  { by apply wp_ret. }
  apply not_elem_of_cons in Hn as [Hk Hn].
  apply wp_bind, wp_bind, wp_call; [done|]. intros [err|] _; simpl; apply wp_ret; simpl.
  { apply wp_ret, He. by destruct k. }
  apply IH; [done|by destruct k|done|]. by rewrite reverse_cons, fmap_app, <-app_assoc in Hq.
Qed.

Ltac hub_ready Hv Htm :=
  apply hub_start; [reflexivity|reflexivity|];
  split; [reflexivity|]; split; [members|];
  split; [unfold hubControllers; rewrite Hv, Htm; vm_compute; reflexivity|];
  apply indexed_fields; compute_registered; members.
Ltac hub_trafficmanager :=
  unfold setupTrafficManager, initAzureTrafficManagerClients, setupHubTrafficManagerProfiles,
    setupHubTrafficManagerBackends;
  apply wp_bind, checkRequiredCRDs_wp; [members|reflexivity|intros ? ? Hl; exact Hl|];
  apply wp_bind, wp_call; [done|]; intros [?|?] _; [exact eq_refl|]; setup.

Lemma hub_main_wp environ f :
  knows hubTypes scheme →
  wp (setupProtocol scheme environ (hubReady f)) (hubmanager.main f) (None, []) hubEnds.
Proof.
  intros Hscheme. unfold hubmanager.main. apply wp_bind, wp_call; [done|]. intros [] _; simpl; [|by apply wp_ret].
  unfold setupHubEndpointSliceExports, setupHubInternalServiceExports, setupHubInternalServiceImports,
    setupHubServiceImports. setup.
  apply wp_bind, wp_call; [done|]. intros [] _; simpl; [|by apply wp_ret].
  unfold setupMemberCluster, setupHubMemberClusters. destruct (enableV1Beta1APIs f) eqn:Hv.
  1: apply wp_bind, wp_call; [done|]; intros [err|] _; simpl; [|setup].
  all: destruct (hubmanager.enableTrafficManagerFeature f) eqn:Htm; simpl.
  all: try hub_trafficmanager.
  all: hub_ready Hv Htm.
Qed.
End hub.


(** ** The agents *)

Section agent.
Context {util : ControllerUtil} {fleetCond : FleetCondition} {conv : FloatConversion}.
Context {retry : hubconfig.Retry} {retryLaws : hubconfig.RetryLaws} {fleet : FleetCluster}.
Context `{SchemeLibrary} (scheme : Scheme) (Hscheme : knows agentTypes scheme).
Context (environ : gmap string string).

(** The cluster of the lease that a manager holds while it is the leader. *)
Definition leaseOf (c : cluster) (opts : Options) : cluster * string * string :=
  (default c (LeaderElectionConfig opts), LeaderElectionNamespace opts, LeaderElectionID opts).

(** Where the managers are left running, they are those of the flags and of the
    environment, each with both checks and with the wanted controllers; a
    process only gives up for a reason. *)
Definition agentEnds (hubID memberID : string) (f : agentFlags)
    (wanted : string → log → list (cluster * kind * controller)) (r : exit) '((token, l) : course) : Prop :=
  match r with
  | Running => failed l = false ∧
      ∃ mc c, environ !! "MEMBER_CLUSTER_NAME" = Some mc ∧
        hubconfig.configured environ (tlsClientInsecure f) (inr c) token ∧
        omap ofManager l = [(Member, (OwnConfig, prepareMemberParameters memberID f));
                            (Hub, (HubConfigOf c, hubOptions hubID f ("fleet-member-" +:+ mc)))] ∧
        checked Hub l ∧ checked Member l ∧ registered l = wanted mc l ∧ NoDup (names l) ∧ indexed l
  | ExitError => failed l = true ∨ environ !! "MEMBER_CLUSTER_NAME" = None ∨
      ∃ err, hubconfig.configured environ (tlsClientInsecure f) (inl err) token
  | ExitOK => False
  end.

Definition noStart (l : log) : Prop := False.
Definition agentPrologue (hubConfig : hubconfig.Config) (hubOpts memberOpts : Options) : log :=
  [Ev (XAddCheck Member "readyz") None; Ev (XAddCheck Member "healthz") None;
   Ev (XNewManager Member OwnConfig memberOpts) None; Ev (XAddCheck Hub "readyz") None;
   Ev (XAddCheck Hub "healthz") None; Ev (XNewManager Hub (HubConfigOf hubConfig) hubOpts) None; Ev XGetConfigOrDie true].

Lemma prepareHubParameters_wp id f l :
  failed l = false →
  wp (setupProtocol scheme environ noStart) (prepareHubParameters environ id f) (None, l)
    (λ r '(token, l'), l' = l ∧
       match r with
       | inr (c, opts) => ∃ mc, environ !! "MEMBER_CLUSTER_NAME" = Some mc ∧
           hubconfig.configured environ (tlsClientInsecure f) (inr c) token ∧
           opts = hubOptions id f ("fleet-member-" +:+ mc)
       | inl _ => environ !! "MEMBER_CLUSTER_NAME" = None ∨
           ∃ err, hubconfig.configured environ (tlsClientInsecure f) (inl err) token
       end).
Proof.
  intros Hl. apply wp_bind. eapply wp_mono.
  { eapply (wp_translate (@XToken) (hubconfig.tokenProtocol environ) _ (λ t s, s = (t, l)));
      [|reflexivity|apply (hubconfig.PrepareHubConfig_wp environ (tlsClientInsecure f))].
    intros X e t s -> Hal. split; [by split|]. by intros x _. }
  intros [err|c] s' (t & -> & Hc).
  { apply wp_ret. split; [done|]. right. by exists err. }
  unfold hubconfig.FetchMemberClusterNamespace, env.LookupMemberClusterName, env.Lookup, env.memberClusterNameEnvKey.
  destruct (environ !! "MEMBER_CLUSTER_NAME") as [mc|]; apply wp_ret; (split; [done|]); [|by left].
  by exists mc.
Qed.

Lemma agentMain_wp hubID memberID f wanted setupControllers :
  (∀ mc c t, environ !! "MEMBER_CLUSTER_NAME" = Some mc →
     hubconfig.configured environ (tlsClientInsecure f) (inr c) t →
     wp (setupProtocol scheme environ noStart) setupControllers
       (t, agentPrologue c (hubOptions hubID f ("fleet-member-" +:+ mc)) (prepareMemberParameters memberID f))
       (λ err, agentEnds hubID memberID f wanted
                 match err with Some _ => ExitError | None => Running end)) →
  wp (setupProtocol scheme environ noStart) (agentMain (prepareHubParameters environ hubID f)
    (prepareMemberParameters memberID f) setupControllers) (None, [])
    (agentEnds hubID memberID f wanted).
Proof.
  intros Hsetup. unfold agentMain. apply wp_bind, wp_call; [done|].
  intros [] _; [|apply wp_ret; by left]. simpl negb. cbv iota. apply wp_bind.
  eapply wp_mono; [by apply prepareHubParameters_wp|]. intros [err|[c opts]] [t l] [-> Hr].
  { apply wp_ret. by right. }
  destruct Hr as (mc & Hmc & Hc & ->). do 6 setup_call. apply wp_must.
  eapply wp_mono; [by apply (Hsetup mc c t)|]. by intros [err|] s.
Qed.

(** Both heartbeat controllers have the same name. *)
Definition membershipEvents (f : agentFlags) (agent : string) : log :=
  let r := {| internalmembercluster.AgentType := agent |} in
  (if isV1Beta1APIEnabled f
   then [Ev (XComplete Hub KInternalMemberCluster [] (InternalMemberClustersV1Beta1 r)) None] else []) ++
  (if isV1Alpha1APIEnabled f
   then [Ev (XComplete Hub KInternalMemberCluster [] (InternalMemberClustersV1Alpha1 r)) None] else []).
Lemma membership_allowed ready t l ctl r :
  failed l = false → managerOf Hub l →
  ctl = InternalMemberClustersV1Alpha1 r ∨ ctl = InternalMemberClustersV1Beta1 r →
  allowed (setupProtocol scheme environ ready) (XComplete Hub KInternalMemberCluster [] ctl) (t, l).
Proof. intros Hl Hm [->| ->]; (split; [done|]; split; [done|]; members). Qed.
Lemma setupMembership_wp hubID memberID f wanted agent t l :
  failed l = false → managerOf Hub l →
  (isV1Alpha1APIEnabled f && isV1Beta1APIEnabled f = false →
   agentEnds hubID memberID f wanted Running (t, membershipEvents f agent ++ l)) →
  wp (setupProtocol scheme environ noStart) (setupMembership f agent) (t, l)
    (λ err, agentEnds hubID memberID f wanted match err with Some _ => ExitError | None => Running end).
Proof.
  intros Hl Hm Hend. unfold setupMembership, membershipEvents, setupInternalMemberClustersV1Alpha1,
    setupInternalMemberClustersV1Beta1 in *.
  destruct (isV1Alpha1APIEnabled f), (isV1Beta1APIEnabled f); simpl in Hend.
  - apply wp_must_call; [eapply membership_allowed; eauto|by left|].
    intros _. apply wp_must_call; [eapply membership_allowed; eauto|by left|].
    intros Ha. exfalso. apply (is_Some_None (A := error)), Ha. unfold names, registered. simpl.
    rewrite reverse_cons, fmap_app. apply elem_of_app. right. by left.
  - apply wp_must_call; [eapply membership_allowed; eauto|by left|].
    intros _. by apply wp_must, wp_ret, wp_ret, Hend.
  - apply wp_must, wp_ret.
    apply wp_must_call; [eapply membership_allowed; eauto|by left|].
    intros _. by apply wp_ret, Hend.
  - by apply wp_must, wp_ret, wp_must, wp_ret, wp_ret, Hend.
Qed.

(** *** [cmd/member-net-controller-manager] *)

Definition membershipControllers (f : agentFlags) (agent : string) : list (cluster * kind * controller) :=
  let r := {| internalmembercluster.AgentType := agent |} in
  (if isV1Alpha1APIEnabled f then [(Hub, KInternalMemberCluster, InternalMemberClustersV1Alpha1 r)] else []) ++
  (if isV1Beta1APIEnabled f then [(Hub, KInternalMemberCluster, InternalMemberClustersV1Beta1 r)] else []).
(** All controllers are for the cluster of the environment and its namespace. *)
Definition memberControllers (f : memberFlags) (mc : string) (l : log) : list (cluster * kind * controller) :=
  let ns := "fleet-member-" +:+ mc in
  [(Member, KEndpointSlice, EndpointSlices
      {| endpointslice.MemberClusterID := mc; endpointslice.HubNamespace := ns |});
   (Hub, KEndpointSliceExport, EndpointSliceExports);
   (Hub, KEndpointSliceImport, EndpointSliceImports {| endpointsliceimport.MemberClusterID := mc;
      endpointsliceimport.FleetSystemNamespace := fleetSystemNamespace (agent f) |});
   (Hub, KInternalServiceExport, InternalServiceExports
      {| MemberInternalServiceExport.internalserviceexport.MemberClusterID := mc |});
   (Hub, KInternalServiceImport, InternalServiceImports);
   (Member, KServiceExport, ServiceExports {| serviceexport.MemberClusterID := mc;
      serviceexport.HubNamespace := ns;
      serviceexport.ResourceGroupName := default "" (ResourceGroup <$> head (omap ofCloud l));
      serviceexport.EnableTrafficManagerFeature := enableTrafficManagerFeature f |});
   (Member, KServiceImport, ServiceImports {| MemberServiceImport.serviceimport.MemberClusterID := mc;
      MemberServiceImport.serviceimport.HubNamespace := ns |})] ++
  membershipControllers (agent f) ServiceExportImportAgent.
Definition mcsControllers (f : agentFlags) (mc : string) (l : log) : list (cluster * kind * controller) :=
  (Member, KMultiClusterService, MultiClusterServices
     {| multiclusterservice.FleetSystemNamespace := fleetSystemNamespace f |}) ::
  membershipControllers f MultiClusterServiceAgent.

Ltac agent_ready Hmc Hc mc c f :=
  intros Hboth; split; [|exists mc, c; split; [exact Hmc|split; [exact Hc|]]];
  unfold membershipControllers, membershipEvents; 
  destruct (isV1Alpha1APIEnabled f), (isV1Beta1APIEnabled f); try discriminate Hboth; clear Hboth; try reflexivity;
  (split; [reflexivity|]; split; [members|]; split; [members|]; split; [reflexivity|];
   split; [members|apply indexed_fields; compute_registered; members]).

Lemma memberMain_wp f :
  wp (setupProtocol scheme environ noStart) (memberMain environ f) (None, [])
    (agentEnds "2bf2b407.hub.networking.fleet.azure.com" "2bf2b407.member.networking.fleet.azure.com"
       (agent f) (memberControllers f)).
Proof.
  apply agentMain_wp. intros mc c t Hmc Hc. destruct f as [a tm file].
  unfold setupControllersWithManager, env.LookupMemberClusterName, hubconfig.FetchMemberClusterNamespace,
    env.LookupMemberClusterName, env.Lookup, env.memberClusterNameEnvKey. rewrite Hmc.
  unfold setupEndpointSlices, setupEndpointSliceExports, setupEndpointSliceImports,
    setupInternalServiceExports, setupInternalServiceImports, setupAzure, setupServiceExports,
    setupServiceImports, initAzureNetworkClients, memberControllers. simpl agent in *.
  cbn [enableTrafficManagerFeature cloudConfigFile]. setup. apply wp_bind. destruct tm.
  - apply wp_bind, wp_call; [done|]. intros [err|cc] _; [apply wp_ret, wp_ret; left; reflexivity|].
    setup. apply setupMembership_wp; [reflexivity|members|].
    agent_ready Hmc Hc mc c a.
  - setup. apply setupMembership_wp; [reflexivity|members|].
    agent_ready Hmc Hc mc c a.
Qed.

Lemma mcsMain_wp f :
  wp (setupProtocol scheme environ noStart) (mcsMain environ f) (None, [])
    (agentEnds "2bf2b407.mcs.hub.networking.fleet.azure.com"
       "2bf2b407.mcs.member.networking.fleet.azure.com" f (mcsControllers f)).
Proof.
  apply agentMain_wp. intros mc c t Hmc Hc. unfold setupMcsControllersWithManager, setupMultiClusterServices,
    mcsControllers. setup_call. apply setupMembership_wp; [reflexivity|members|].
  agent_ready Hmc Hc mc c f.
Qed.
End agent.


(** C25: The manager of the hub is started only when it is ready: it is made with
    the options of the flags and has both health checks; exactly the controllers
    that the flags ask for are registered, the one for MemberClusters if its
    definition is installed; every field that one of them selects by has an
    index, made once, no two have the same name, and the [init] function of the
    program has registered every type that they watch or index, in the API
    version they use.  The program stops at the
    first failure, and it ends with success only if nothing failed. *)
Theorem hub_manager_starts_ready {util : ControllerUtil} {fleetCond : FleetCondition}
    {conv : FloatConversion} {library : SchemeLibrary} {laws : SchemeLaws} scheme environ f :
  hubInit = Done scheme →
  wp (setupProtocol scheme environ (hubReady f)) (hubmanager.main f) (None, []) hubEnds ∧
  ∀ l, hubReady f l → NoDup (names l).
Proof.
  intros Hi%hubInit_knows. split; [by apply hub_main_wp|]. intros l (_ & _ & Hr & _). unfold names. rewrite Hr. unfold hubControllers.
  destruct (_ && _), (hubmanager.enableTrafficManagerFeature f); members.
Qed.

(** C26: The managers of both agents of a member cluster are left running only
    when they are ready: the client of the hub is configured as the environment
    says, the cache of its manager is limited to the namespace of the cluster,
    and all controllers are for that cluster and that namespace; every field
    that one of them selects by has an index, and every type that they watch is
    registered by [init].  A process gives up only because a
    call failed, or the environment is not complete.  With both API versions of
    the heartbeat enabled the managers never run: the two controllers have the
    same name, which [controller-runtime] refuses.  The five managers of a fleet
    hold different leases. *)
Theorem agents_start_ready {util : ControllerUtil} {fleetCond : FleetCondition}
    {conv : FloatConversion} {retry : hubconfig.Retry} {retryLaws : hubconfig.RetryLaws}
    {fleet : FleetCluster} {library : SchemeLibrary} {laws : SchemeLaws} schemeM schemeC environ fm fc :
  let hubID := "2bf2b407.hub.networking.fleet.azure.com" in
  let memberID := "2bf2b407.member.networking.fleet.azure.com" in
  let mcsHubID := "2bf2b407.mcs.hub.networking.fleet.azure.com" in
  let mcsMemberID := "2bf2b407.mcs.member.networking.fleet.azure.com" in
  let memberEnds := agentEnds environ hubID memberID (agent fm) (memberControllers fm) in
  let mcsEnds := agentEnds environ mcsHubID mcsMemberID fc (mcsControllers fc) in
  memberInit = Done schemeM → mcsInit = Done schemeC →
  wp (setupProtocol schemeM environ noStart) (memberMain environ fm) (None, []) memberEnds ∧
  wp (setupProtocol schemeC environ noStart) (mcsMain environ fc) (None, []) mcsEnds ∧
  (∀ s, memberEnds Running s → isV1Alpha1APIEnabled (agent fm) && isV1Beta1APIEnabled (agent fm) = false) ∧
  (∀ s, mcsEnds Running s → isV1Alpha1APIEnabled fc && isV1Beta1APIEnabled fc = false) ∧
  ∀ fh ns, NoDup [leaseOf Hub (hubmanager.options fh);
    leaseOf Hub (hubOptions hubID (agent fm) ns); leaseOf Member (prepareMemberParameters memberID (agent fm));
    leaseOf Hub (hubOptions mcsHubID fc ns); leaseOf Member (prepareMemberParameters mcsMemberID fc)].
Proof.
  intros hubID memberID mcsHubID mcsMemberID memberEnds mcsEnds Hm%memberInit_knows Hc%mcsInit_knows.
  split; [by apply memberMain_wp|]. split; [by apply mcsMain_wp|]. split; [|split].
  - intros [t l] (_ & mc & c & _ & _ & _ & _ & _ & Hr & Hn & _). unfold names in Hn. rewrite Hr in Hn.
    unfold memberControllers, membershipControllers in Hn.
    destruct (isV1Alpha1APIEnabled (agent fm)), (isV1Beta1APIEnabled (agent fm)); try done.
    apply (bool_decide_pack _) in Hn. by vm_compute in Hn.
  - intros [t l] (_ & mc & c & _ & _ & _ & _ & _ & Hr & Hn & _). unfold names in Hn. rewrite Hr in Hn.
    unfold mcsControllers, membershipControllers in Hn.
    destruct (isV1Alpha1APIEnabled fc), (isV1Beta1APIEnabled fc); try done.
    apply (bool_decide_pack _) in Hn. by vm_compute in Hn.
  - intros fh ns. unfold leaseOf. simpl. repeat (apply NoDup_cons; split; [set_solver|]). apply NoDup_nil_2.
Qed.


(** *** Set-ups *)

Module Demo.
(** Everything goes well, except that controllers need different names; the
    state are the names and the managers that were started. *)
Definition cc : CloudConfig := {| ResourceGroup := "rg"; SubscriptionID := "sub"; UserAgent := "" |}.
Definition serve (X : Type) (e : setupEff X) (s : list string) : X * list string :=
  match e in setupEff X return X * list string with
  | XGetConfigOrDie | XDiscoveryClientOrDie => (true, s)
  | XToken t => match t in hubconfig.statEff X return X * list string with
                | hubconfig.EStat _ => (None, s)
                end
  | XComplete _ k _ _ =>
      if bool_decide (controllerName k ∈ s)
      then (Some (ErrorString "controller names must be unique"), s) else (None, s ++ [controllerName k])
  | XCloudConfig _ => (inr cc, s)
  | XStart _ => (None, s ++ ["started"])
  | XNewManager _ _ _ | XAddCheck _ _ | XIndexField _ _ _ | XCheckCRDInstalled _
  | XAuthProvider _ | XResourceClientOption _ | XNewClient _ _ => (None, s)
  end.
Definition hubFlags : hubmanager.flags := {|
  hubmanager.metricsAddr := ":8080"; hubmanager.probeAddr := ":8081";
  hubmanager.enableLeaderElection := true; hubmanager.leaderElectionNamespace := "fleet-system";
  hubmanager.internalServiceExportRetryInterval := (2 * Second)%Z;
  hubmanager.forceDeleteWaitTime := (900 * Second)%Z; hubmanager.enableV1Beta1APIs := true;
  hubmanager.enableTrafficManagerFeature := true; hubmanager.cloudConfigFile := "azure.json" |}.
Definition agentOf (alpha beta : bool) : agentFlags := {|
  hubMetricsAddr := ":8080"; hubProbeAddr := ":8081"; metricsAddr := ":8090"; probeAddr := ":8091";
  enableLeaderElection := true; leaderElectionNamespace := "fleet-system"; tlsClientInsecure := false;
  fleetSystemNamespace := "fleet-system"; isV1Alpha1APIEnabled := alpha; isV1Beta1APIEnabled := beta |}.
Definition memberOf (alpha beta : bool) : memberFlags := {|
  agent := agentOf alpha beta; enableTrafficManagerFeature := true; cloudConfigFile := "azure.json" |}.
Definition environ : gmap string string := <["MEMBER_CLUSTER_NAME" := "bravelion"]> hubconfig.Demo.environ.
#[local] Existing Instance hubconfig.Demo.retry.
#[local] Instance amd64 : FloatConversion := {| outOfRange _ := (- 2 ^ 63)%Z |}.
Definition memberRun (alpha beta : bool) : outcome exit * list string :=
  run serve (memberMain (fleet := Reference.fleetCluster) environ (memberOf alpha beta)) [].
End Demo.

#[local] Existing Instances hubconfig.Demo.retry hubconfig.Demo.retryLaws Demo.amd64
  Reference.util Reference.fleetCondition Reference.fleetCluster Schemes.Demo.library Schemes.Demo.laws.

Lemma hub_manager_starts_ready_witness :
  run Demo.serve (hubmanager.main Demo.hubFlags) [] =
    (Done ExitOK, ["endpointsliceexport"; "internalserviceexport"; "internalserviceimport";
       "serviceimport"; "membercluster"; "trafficmanagerprofile"; "trafficmanagerbackend"; "started"]) ∧
  wp (setupProtocol (Schemes.Demo.schemeOf hubInit) ∅ (hubReady Demo.hubFlags)) (hubmanager.main Demo.hubFlags) (None, []) hubEnds.
Proof.
  split; [vm_compute; reflexivity|].
  exact (proj1 (hub_manager_starts_ready (Schemes.Demo.schemeOf hubInit) ∅ Demo.hubFlags eq_refl)).
Defined.

Lemma agents_start_ready_witness :
  Demo.memberRun false true = (Done Running, ["endpointslice"; "endpointsliceexport";
    "endpointsliceimport"; "internalserviceexport"; "internalserviceimport"; "serviceexport";
    "serviceimport"; "internalmembercluster"]) ∧
  (Demo.memberRun true true).1 = Done ExitError ∧
  ∀ s, ¬ agentEnds Demo.environ "2bf2b407.hub.networking.fleet.azure.com"
         "2bf2b407.member.networking.fleet.azure.com" (Demo.agentOf true true)
         (memberControllers (Demo.memberOf true true)) Running s.
Proof.
  split; [vm_compute; reflexivity|]. split; [vm_compute; reflexivity|]. intros s Hs.
  destruct (agents_start_ready (Schemes.Demo.schemeOf memberInit) (Schemes.Demo.schemeOf mcsInit) Demo.environ
    (Demo.memberOf true true) (Demo.agentOf true true) eq_refl eq_refl) as (_ & _ & Hno & _). discriminate (Hno s Hs).
Defined.

End managers.
