(* ===== verification/Shutdown.v ===== *)
(** * The life of an agent with two managers

    [main] of [cmd/member-net-controller-manager] and of
    [cmd/mcs-controller-manager] from where the managers of the hub and of the
    member cluster are started: two goroutines, the signal handler and the main
    goroutine, interleaved at each access to what they share.  The process ends
    when both managers have ended, and either of them takes the other one down. *)

From S2P Require Import Prelude Go Effects.

Module shutdown.

(** ** Steps *)

(** A goroutine that runs a manager, with what [Start] returned.  [append] reads
    the slice and then writes it; nothing keeps the two goroutines apart. *)
Inductive goroutine :=
| Starting
| Returned (err : option error)
| Loaded (err : error) (seen : list error)
| Deferred (err : option error)
| AfterDone (err : option error)
| Finished (err : option error).

Record process := {
  cancelled : bool;              (* the context *)
  waiting : nat;                 (* the wait group *)
  startErrors : list error;
  hubMgr : goroutine;
  memberMgr : goroutine;
  exitCode : option Z;
}.
Definition started : process := {|
  cancelled := false; waiting := 2; startErrors := []; hubMgr := Starting; memberMgr := Starting;
  exitCode := None |}.

Definition mgr (c : cluster) (p : process) : goroutine :=
  match c with Hub => hubMgr p | Member => memberMgr p end.
Definition setMgr (c : cluster) (g : goroutine) (p : process) : process := {|
  cancelled := cancelled p; waiting := waiting p; startErrors := startErrors p;
  hubMgr := match c with Hub => g | Member => hubMgr p end;
  memberMgr := match c with Hub => memberMgr p | Member => g end;
  exitCode := exitCode p |}.
Definition cancel (p : process) : process := {|
  cancelled := true; waiting := waiting p; startErrors := startErrors p;
  hubMgr := hubMgr p; memberMgr := memberMgr p; exitCode := exitCode p |}.
Definition wgDone (p : process) : process := {|
  cancelled := cancelled p; waiting := waiting p - 1; startErrors := startErrors p;
  hubMgr := hubMgr p; memberMgr := memberMgr p; exitCode := exitCode p |}.
Definition store (errs : list error) (p : process) : process := {|
  cancelled := cancelled p; waiting := waiting p; startErrors := errs;
  hubMgr := hubMgr p; memberMgr := memberMgr p; exitCode := exitCode p |}.
Definition exitWith (code : Z) (p : process) : process := {|
  cancelled := cancelled p; waiting := waiting p; startErrors := startErrors p;
  hubMgr := hubMgr p; memberMgr := memberMgr p; exitCode := Some code |}.

(** A step of the goroutine of a manager after [Start] has returned. *)
Definition goroutineStep (c : cluster) (p : process) : option process :=
  match mgr c p with
  | Starting | Finished _ => None
  | Returned None => Some (setMgr c (Deferred None) p)
  | Returned (Some err) => Some (setMgr c (Loaded err (startErrors p)) p)
  | Loaded err seen => Some (setMgr c (Deferred (Some err)) (store (seen ++ [err]) p))
  | Deferred err => Some (setMgr c (AfterDone err) (wgDone p))
  | AfterDone err => Some (setMgr c (Finished err) (cancel p))
  end.
(** [wg.Wait()] and what follows. *)
Definition mainStep (p : process) : option process :=
  match waiting p with
  | O => Some (exitWith (if bool_decide (startErrors p = []) then 0 else 1) p)
  | S _ => None
  end.

(** Nothing runs after the process has ended. *)
Inductive step (p : process) : process → Prop :=
| step_signal : exitCode p = None → cancelled p = false → step p (cancel p)
| step_return c err : exitCode p = None → mgr c p = Starting → step p (setMgr c (Returned err) p)
| step_goroutine c p' : exitCode p = None → goroutineStep c p = Some p' → step p p'
| step_main p' : exitCode p = None → mainStep p = Some p' → step p p'.
(** The steps that need no signal and no manager that fails by itself: a manager
    whose context has ended returns. *)
Inductive progresses (p : process) : process → Prop :=
| progress_return c err : exitCode p = None → mgr c p = Starting → cancelled p = true →
    progresses p (setMgr c (Returned err) p)
| progress_goroutine c p' : exitCode p = None → goroutineStep c p = Some p' → progresses p p'
| progress_main p' : exitCode p = None → mainStep p = Some p' → progresses p p'.

(** ** Invariant *)

Definition result (g : goroutine) : option error :=
  match g with
  | Starting => None
  | Returned err | Deferred err | AfterDone err | Finished err => err
  | Loaded err _ => Some err
  end.
(** The goroutine counts in the wait group; its error has been added. *)
Definition counts (g : goroutine) : nat :=
  match g with AfterDone _ | Finished _ => 0 | _ => 1 end.
Definition added (g : goroutine) : Prop :=
  match g with Deferred err | AfterDone err | Finished err => is_Some err | _ => False end.
Definition over (g : goroutine) : Prop :=
  match g with AfterDone _ | Finished _ => True | _ => False end.

Record sound (p : process) : Prop := {
  sound_waiting : waiting p = counts (hubMgr p) + counts (memberMgr p);
  sound_cancelled c err : mgr c p = Finished err → cancelled p = true;
  sound_added c : added (mgr c p) → startErrors p ≠ [];
  sound_errors err : err ∈ startErrors p → ∃ c, result (mgr c p) = Some err;
  sound_seen c err seen e : mgr c p = Loaded err seen → e ∈ seen → ∃ c, result (mgr c p) = Some e;
  sound_exit code : exitCode p = Some code → waiting p = 0 ∧
    code = if bool_decide (startErrors p = []) then 0%Z else 1%Z;
}.

Lemma mgr_setMgr c c' g p : mgr c (setMgr c' g p) = if decide (c = c') then g else mgr c p.
Proof. by destruct c, c'. Qed.
(** A goroutine goes on, without a change to the errors. *)
Lemma sound_advance c g p q :
  sound p → exitCode q = None → startErrors q = startErrors p →
  (∀ c', mgr c' q = if decide (c' = c) then g else mgr c' p) →
  waiting q = counts (hubMgr q) + counts (memberMgr q) →
  cancelled q = true ∨ cancelled q = cancelled p ∧ (∀ err, g ≠ Finished err) →
  (added g → startErrors p ≠ []) →
  (∀ e, result (mgr c p) = Some e → result g = Some e) →
  (∀ err seen, g = Loaded err seen → seen = startErrors p) →
  sound q.
Proof.
  intros [Hw Hc Ha He Hs Hx] Hrun Herr Hq Hwait Hcancel Hadd Hres Hload.
  assert (∀ e, (∃ c, result (mgr c p) = Some e) → ∃ c', result (mgr c' q) = Some e) as Hkeep.
  { intros e [c' Hc']. exists c'. rewrite Hq. case_decide; [subst; auto|done]. }
  split.
  - done.
  - intros c' err. rewrite Hq. destruct Hcancel as [|[-> Hnf]]; [done|].
    case_decide; [by intros ?%Hnf|apply Hc].
  - intros c'. rewrite Hq, Herr. case_decide; [done|apply Ha].
  - intros err. rewrite Herr. intros Hin. by apply Hkeep, He.
  - intros c' err seen e. rewrite Hq. case_decide; intros Hl Hin; apply Hkeep.
    + rewrite (Hload _ _ Hl) in Hin. by apply He.
    + by eapply Hs.
  - intros code. by rewrite Hrun.
Qed.
Lemma sound_store c err seen p :
  sound p → exitCode p = None → mgr c p = Loaded err seen →
  sound (setMgr c (Deferred (Some err)) (store (seen ++ [err]) p)).
Proof.
  intros [Hw Hc Ha He Hs Hx] Hrun Hm.
  assert (∀ e, (∃ c, result (mgr c p) = Some e) → ∃ c',
    result (mgr c' (setMgr c (Deferred (Some err)) (store (seen ++ [err]) p))) = Some e) as Hkeep.
  { intros e [c' Hc']. exists c'. rewrite mgr_setMgr. case_decide; [subst|by destruct c'].
    by rewrite Hm in Hc'. }
  assert (∀ c, mgr c (store (seen ++ [err]) p) = mgr c p) as Hmgr by by intros [].
  split; simpl.
  - rewrite Hw. destruct c; simpl in *; by rewrite Hm.
  - intros c' err'. rewrite mgr_setMgr, Hmgr. case_decide; [done|apply Hc].
  - intros _ _. by destruct seen.
  - intros e [Hin|Hin]%elem_of_app; apply Hkeep; [by eapply Hs|].
    apply list_elem_of_singleton in Hin as ->. exists c. by rewrite Hm.
  - intros c' err' seen' e. rewrite mgr_setMgr, Hmgr. case_decide; [done|]. intros Hl Hin.
    by eapply Hkeep, Hs.
  - intros code. by rewrite Hrun.
Qed.

Lemma sound_goroutine c p p' :
  sound p → exitCode p = None → goroutineStep c p = Some p' → sound p'.
Proof.
  intros Hp Hrun. unfold goroutineStep. pose proof (sound_waiting _ Hp) as Hw.
  pose proof (sound_added _ Hp c) as Ha.
  destruct (mgr c p) as [|[err|]|err seen|err|err|err] eqn:Hm; try done; intros [= <-];
    [| |by apply sound_store| |].
  all: eapply sound_advance; [exact Hp|done|done|by intros c'; rewrite mgr_setMgr; destruct c'| | | | |];
    try (rewrite Hm); try done; try (by destruct c; simpl in *; rewrite Hw, Hm; simpl; lia); try by auto.
  - by intros err' seen [= _ <-].
  - by intros [].
Qed.

Lemma sound_started : sound started.
Proof.
  split; [done|by intros []|by intros []|by intros err ?%not_elem_of_nil|by intros []|done].
Qed.
Lemma sound_step p p' : sound p → step p p' → sound p'.
Proof.
  intros Hp [Hrun _|c err Hrun Hm|c q Hrun Hq|q Hrun Hq].
  - by destruct Hp as [Hw Hc Ha He Hs Hx]; split.
  - pose proof (sound_waiting _ Hp) as Hw.
    eapply (sound_advance c (Returned err)); [exact Hp|done|done|by intros c'; rewrite mgr_setMgr| | | | |];
      try (rewrite Hm); try done; [|by right].
    by destruct c; simpl in *; rewrite Hw, Hm.
  - by eapply sound_goroutine.
  - unfold mainStep in Hq. destruct (waiting p) eqn:Hw; [|done]. injection Hq as <-.
    destruct Hp as [Hwait Hc Ha He Hs Hx]. split; simpl; try done. by intros code [= <-].
Qed.
Lemma sound_reachable p : rtc step started p → sound p.
Proof.
  intros Hp. refine (rtc_ind_r (R := step) sound started sound_started _ p Hp).
  intros q q' _ Hq Hs. by eapply sound_step.
Qed.

(** ** Every run is short *)

Definition rank (g : goroutine) : nat :=
  match g with
  | Starting => 5 | Returned _ => 4 | Loaded _ _ => 3 | Deferred _ => 2 | AfterDone _ => 1
  | Finished _ => 0
  end.
Definition measure (p : process) : nat :=
  rank (hubMgr p) + rank (memberMgr p) + (if cancelled p then 0 else 1) +
  match exitCode p with None => 1 | Some _ => 0 end.
Lemma step_measure p p' : step p p' → measure p' < measure p.
Proof.
  unfold measure. intros [Hrun Hc|c err Hrun Hm|c q Hrun Hq|q Hrun Hq]; simpl.
  - rewrite Hc. lia.
  - destruct c; simpl in *; rewrite Hm; simpl; lia.
  - unfold goroutineStep in Hq. destruct c; simpl in Hq.
    + destruct (memberMgr p) as [|[]| | | |]; simpl in Hq; try discriminate Hq; injection Hq as <-; simpl;
        destruct (cancelled p); lia.
    + destruct (hubMgr p) as [|[]| | | |]; simpl in Hq; try discriminate Hq; injection Hq as <-; simpl;
        destruct (cancelled p); lia.
  - unfold mainStep in Hq. destruct (waiting p); [|done]. injection Hq as <-. simpl. rewrite Hrun. lia.
Qed.
Lemma nsteps_measure n p p' : nsteps step n p p' → n + measure p' ≤ measure p.
Proof. induction 1 as [|n p q r Hs%step_measure _ IH]; lia. Qed.

Lemma sound_over p : sound p → waiting p = 0 → over (hubMgr p) ∧ over (memberMgr p).
Proof. intros Hp Hw. rewrite (sound_waiting _ Hp) in Hw. by destruct (hubMgr p), (memberMgr p). Qed.
Lemma over_added g err : over g → result g = Some err → added g.
Proof. destruct g; simpl; try done; by intros _ ->. Qed.
Lemma goroutine_progresses c p :
  exitCode p = None → mgr c p ≠ Starting → (∀ err, mgr c p ≠ Finished err) → ∃ p', progresses p p'.
Proof.
  intros Hrun Hs Hf. destruct (goroutineStep c p) as [p'|] eqn:Hg; [exists p'; by eapply progress_goroutine|].
  exfalso. unfold goroutineStep in Hg. destruct (mgr c p) as [|[]| | | |err]; try done. by apply (Hf err).
Qed.

Lemma never_stuck p : sound p → exitCode p = None →
  (∃ p', progresses p p') ∨ cancelled p = false ∧ hubMgr p = Starting ∧ memberMgr p = Starting.
Proof.
  intros Hp Hrun.
  assert (∀ c, (∃ p', progresses p p') ∨ mgr c p = Starting ∧ cancelled p = false ∨
    ∃ err, mgr c p = Finished err) as Hcase.
  { intros c. destruct (mgr c p) eqn:Hm; try by left; eapply goroutine_progresses; rewrite ?Hm.
    - destruct (cancelled p) eqn:Hc; [|by right; left]. left. eexists.
      by apply (progress_return p c None).
    - right; right. by eexists. }
  destruct (Hcase Hub) as [?|[[Hh Hc]|[e1 Hh]]]; [by left| |].
  - destruct (Hcase Member) as [?|[[Hm _]|[e2 Hm]]]; [by left|by right|].
    pose proof (sound_cancelled _ Hp _ _ Hm). congruence.
  - pose proof (sound_cancelled _ Hp _ _ Hh) as Hc. destruct (Hcase Member) as [?|[[_ ?]|[e2 Hm]]]; [by left|congruence|].
    left. eexists. apply progress_main; [done|]. unfold mainStep. simpl in Hh, Hm.
    by rewrite (sound_waiting _ Hp), Hh, Hm.
Qed.

(** C27: An agent with two managers, in any interleaving of its goroutines.  The
    process ends only after both managers have ended, with code 1 exactly if one
    of them returned an error, although the errors are collected without
    synchronisation.  It is never stuck: unless both managers run and no signal
    came, there is a step that needs no further event, as long as a manager
    returns when its context is cancelled; so one manager that ends takes the
    process down.  Every run has at most 12 steps. *)
Theorem agent_shuts_down p :
  rtc step started p →
  (∀ code, exitCode p = Some code → over (hubMgr p) ∧ over (memberMgr p) ∧
     (code = 0%Z ∧ (∀ c, result (mgr c p) = None) ∨
      code = 1%Z ∧ ∃ c, is_Some (result (mgr c p)))) ∧
  (exitCode p = None →
     (∃ p', progresses p p') ∨
     cancelled p = false ∧ hubMgr p = Starting ∧ memberMgr p = Starting) ∧
  ∀ n p', nsteps step n started p' → n ≤ 12.
Proof.
  intros Hp%sound_reachable. split; [|split].
  - intros code [Hw Hcode]%(sound_exit _ Hp). destruct (sound_over p Hp Hw) as [Hh Hm].
    split; [done|]. split; [done|]. case_bool_decide as Herr.
    + left. split; [done|]. intros c. destruct (result (mgr c p)) as [err|] eqn:Hr; [|done].
      exfalso. apply (sound_added _ Hp c); [|done]. by destruct c; eapply over_added.
    + right. split; [done|]. destruct (startErrors p) as [|err errs] eqn:He; [done|].
      destruct (sound_errors _ Hp err) as [c Hc]; [rewrite He; by left|]. by exists c, err.
  - apply never_stuck, Hp.
  - intros n p' Hn%nsteps_measure. change (measure started) with 12 in Hn. lia.
Qed.

(** Runs that are computed. *)
Inductive label := Signal | Return (c : cluster) (err : option error) | Go (c : cluster) | Main.
Definition move (a : label) (p : process) : option process :=
  match exitCode p with
  | Some _ => None
  | None =>
      match a with
      | Signal => if cancelled p then None else Some (cancel p)
      | Return c err => match mgr c p with Starting => Some (setMgr c (Returned err) p) | _ => None end
      | Go c => goroutineStep c p
      | Main => mainStep p
      end
  end.
Lemma moves_steps l p p' : foldl (λ p a, p ≫= move a) (Some p) l = Some p' → rtc step p p'.
Proof.
  revert p. induction l as [|a l IH]; intros p; simpl; [intros [= ->]; apply rtc_refl|].
  change (Some p ≫= move a) with (move a p). destruct (move a p) as [q|] eqn:Hq.
  - intros Hl. apply rtc_l with q; [|by apply IH]. unfold move in Hq.
    destruct (exitCode p) eqn:Hrun; [done|]. destruct a as [|c err|c|].
    + destruct (cancelled p) eqn:Hc; [done|]. injection Hq as <-. by apply step_signal.
    + destruct (mgr c p) eqn:Hm; try done. injection Hq as <-. by apply step_return.
    + by eapply step_goroutine.
    + by eapply step_main.
  - intros Hl. exfalso. clear -Hl. by induction l.
Qed.

Module Demo.
Definition lost : error := ErrorString "hub manager".
Definition kept : error := ErrorString "member manager".
(** Both managers fail, and the second write to the errors undoes the first. *)
Definition afterBoth : process := {|
  cancelled := true; waiting := 0; startErrors := [kept]; hubMgr := Finished (Some lost);
  memberMgr := AfterDone (Some kept); exitCode := Some 1%Z |}.
Lemma bothFail : rtc step started afterBoth.
Proof.
  apply (moves_steps [Return Hub (Some lost); Return Member (Some kept); Go Hub; Go Member; Go Hub;
    Go Member; Go Hub; Go Hub; Go Member; Main]). vm_compute. reflexivity.
Qed.
End Demo.

Lemma agent_shuts_down_witness :
  startErrors Demo.afterBoth = [Demo.kept] ∧ over (memberMgr Demo.afterBoth) ∧
  ∃ c, is_Some (result (mgr c Demo.afterBoth)).
Proof.
  split; [reflexivity|].
  destruct (agent_shuts_down Demo.afterBoth Demo.bothFail) as [Hexit _].
  destruct (Hexit 1%Z eq_refl) as (_ & Hm & [[? _]|[_ Hc]]); [discriminate|]. split; [exact Hm|exact Hc].
Defined.

End shutdown.
