(* ===== verification/GoHeap.v ===== *)
(** * Go values in memory

    Descriptions of Go types, the memory of a process and the values in it, for
    the functions that copy objects: pointers, slices and maps share what they
    refer to, so that a copy has to replace them. *)

From S2P Require Import Prelude.

(** ** Types *)

(** A field of a struct, with the name and the option of its JSON tag; a field
    that is inlined has no name of its own. *)
Record tag := Tag { tg_name : string; tg_json : string; tg_omitempty : bool }.

(** [TNamed] is a type of another module with an encoding of its own. *)
Inductive ty :=
| TBool
| TInt (bits : Z)
| TString
| TPtr (t : ty)
| TSlice (t : ty)
| TMap
| TStruct (fields : list (tag * ty))
| TNamed (name : string) (t : ty).

Fixpoint ty_ind' (P : ty → Prop) (Hbool : P TBool) (Hint : ∀ bits, P (TInt bits))
    (Hstring : P TString) (Hptr : ∀ t, P t → P (TPtr t)) (Hslice : ∀ t, P t → P (TSlice t))
    (Hmap : P TMap) (Hstruct : ∀ fs, Forall (λ ft, P ft.2) fs → P (TStruct fs))
    (Hnamed : ∀ n t, P t → P (TNamed n t)) (t : ty) : P t :=
  let rec := ty_ind' P Hbool Hint Hstring Hptr Hslice Hmap Hstruct Hnamed in
  match t with
  | TBool => Hbool
  | TInt bits => Hint bits
  | TString => Hstring
  | TPtr t => Hptr t (rec t)
  | TSlice t => Hslice t (rec t)
  | TMap => Hmap
  | TStruct fs => Hstruct fs
      ((fix go fs : Forall (λ ft, P ft.2) fs :=
          match fs with [] => Forall_nil_2 _ | ft :: fs => Forall_cons_2 _ _ _ (rec ft.2) (go fs) end) fs)
  | TNamed n t => Hnamed n t (rec t)
  end.

(** A value of the type refers to nothing. *)
Fixpoint flat (t : ty) : bool :=
  match t with
  | TBool | TInt _ | TString => true
  | TPtr _ | TSlice _ | TMap => false
  | TStruct fs => forallb (λ '(_, t), flat t) fs
  | TNamed _ t => flat t
  end.

(** ** Memory *)

Inductive scalar := SBool (b : bool) | SInt (z : Z) | SString (s : string).

(** A place is a variable: an element of an array, or a field within one.
    A slice has an array, an offset and a length. *)
Record place := Place { pl_loc : nat; pl_index : nat; pl_path : list string }.
Inductive val :=
| VScalar (s : scalar)
| VPtr (p : option place)
| VSlice (s : option (nat * nat * nat))
| VMap (m : option nat)
| VStruct (fields : list (string * val)).
Inductive cell := Arr (vs : list val) | Table (m : gmap string string).
Notation heap := (gmap nat cell).

Fixpoint getField (f : string) (vs : list (string * val)) : option val :=
  match vs with
  | [] => None
  | (g, v) :: vs => if decide (g = f) then Some v else getField f vs
  end.
Fixpoint setField (f : string) (w : val) (vs : list (string * val)) : option (list (string * val)) :=
  match vs with
  | [] => None
  | (g, v) :: vs => if decide (g = f) then Some ((g, w) :: vs)
                    else vs ← setField f w vs; Some ((g, v) :: vs)
  end.
Fixpoint getPath (path : list string) (v : val) : option val :=
  match path with
  | [] => Some v
  | f :: path => match v with VStruct vs => v ← getField f vs; getPath path v | _ => None end
  end.
Fixpoint setPath (path : list string) (w v : val) : option val :=
  match path with
  | [] => Some w
  | f :: path =>
      match v with
      | VStruct vs => v ← getField f vs; v ← setPath path w v; vs ← setField f v vs; Some (VStruct vs)
      | _ => None
      end
  end.

Definition load (h : heap) (p : place) : option val :=
  match h !! pl_loc p with
  | Some (Arr vs) => v ← vs !! pl_index p; getPath (pl_path p) v
  | _ => None
  end.
Definition store (h : heap) (p : place) (w : val) : option heap :=
  match h !! pl_loc p with
  | Some (Arr vs) =>
      v ← vs !! pl_index p; v ← setPath (pl_path p) w v;
      Some (<[pl_loc p := Arr (<[pl_index p := v]> vs)]> h)
  | _ => None
  end.
(** The address of a field and of an element. *)
Definition field (p : place) (f : string) : place :=
  Place (pl_loc p) (pl_index p) (pl_path p ++ [f]).
Definition element (l i : nat) : place := Place l i [].

Definition elements (h : heap) (l o n : nat) : option (list val) :=
  match h !! l with
  | Some (Arr vs) => if decide (o + n ≤ length vs) then Some (take n (drop o vs)) else None
  | _ => None
  end.
Definition table (h : heap) (l : nat) : option (gmap string string) :=
  match h !! l with Some (Table m) => Some m | _ => None end.

(** [new] and [make]: a location that is not in use. *)
Definition freshLoc (h : heap) : nat := map_fold (λ l _ m, S l `max` m) 0 h.

(** The zero value of a type. *)
Fixpoint zero (t : ty) : val :=
  match t with
  | TBool => VScalar (SBool false)
  | TInt _ => VScalar (SInt 0)
  | TString => VScalar (SString "")
  | TPtr _ => VPtr None
  | TSlice _ => VSlice None
  | TMap => VMap None
  | TStruct fs => VStruct ((λ '(tg, t), (tg_name tg, zero t)) <$> fs)
  | TNamed _ t => zero t
  end.

(** ** What a value stands for *)

Inductive tree :=
| Leaf (s : scalar)
| Nil
| Ref (t : tree)
| Seq (ts : list tree)
| Tab (m : gmap string string)
| Rec (ts : list tree).

Definition inRange (bits z : Z) : Prop := (- 2 ^ (bits - 1) ≤ z < 2 ^ (bits - 1))%Z.

(** The value at its type with everything it refers to, if it has the type. *)
Fixpoint denote (h : heap) (t : ty) (v : val) {struct t} : option tree :=
  match t, v with
  | TBool, VScalar (SBool b) => Some (Leaf (SBool b))
  | TInt bits, VScalar (SInt z) => if decide (inRange bits z) then Some (Leaf (SInt z)) else None
  | TString, VScalar (SString s) => Some (Leaf (SString s))
  | TPtr _, VPtr None | TSlice _, VSlice None | TMap, VMap None => Some Nil
  | TPtr t, VPtr (Some p) => v ← load h p; x ← denote h t v; Some (Ref x)
  | TSlice t, VSlice (Some (l, o, n)) =>
      vs ← elements h l o n; xs ← mapM (denote h t) vs; Some (Seq xs)
  | TMap, VMap (Some l) => m ← table h l; Some (Tab m)
  | TStruct fs, VStruct vs =>
      xs ← (fix go (fs : list (tag * ty)) : option (list tree) :=
              match fs with
              | [] => Some []
              | (tg, t) :: fs => v ← getField (tg_name tg) vs; x ← denote h t v; xs ← go fs; Some (x :: xs)
              end) fs;
      Some (Rec xs)
  | TNamed _ t, v => denote h t v
  | _, _ => None
  end.
(** The locations it refers to. *)
Fixpoint reach (h : heap) (t : ty) (v : val) {struct t} : gset nat :=
  match t, v with
  | TPtr t, VPtr (Some p) =>
      {[pl_loc p]} ∪ match load h p with Some v => reach h t v | None => ∅ end
  | TSlice t, VSlice (Some (l, o, n)) =>
      {[l]} ∪ match elements h l o n with Some vs => ⋃ (reach h t <$> vs) | None => ∅ end
  | TMap, VMap (Some l) => {[l]}
  | TStruct fs, VStruct vs =>
      (fix go (fs : list (tag * ty)) : gset nat :=
         match fs with
         | [] => ∅
         | (tg, t) :: fs =>
             match getField (tg_name tg) vs with Some v => reach h t v | None => ∅ end ∪ go fs
         end) fs
  | TNamed _ t, v => reach h t v
  | _, _ => ∅
  end.

(** The same for the fields of a struct. *)
Fixpoint denoteFields (h : heap) (fs : list (tag * ty)) (vs : list (string * val)) : option (list tree) :=
  match fs with
  | [] => Some []
  | (tg, t) :: fs =>
      v ← getField (tg_name tg) vs; x ← denote h t v; xs ← denoteFields h fs vs; Some (x :: xs)
  end.
Fixpoint reachFields (h : heap) (fs : list (tag * ty)) (vs : list (string * val)) : gset nat :=
  match fs with
  | [] => ∅
  | (tg, t) :: fs =>
      match getField (tg_name tg) vs with Some v => reach h t v | None => ∅ end ∪ reachFields h fs vs
  end.
Lemma denote_struct h fs vs :
  denote h (TStruct fs) (VStruct vs) = (xs ← denoteFields h fs vs; Some (Rec xs)).
Proof.
  simpl. f_equal. induction fs as [|[tg t] fs IH]; [done|]. simpl.
  destruct (getField (tg_name tg) vs) as [v|]; [|done]. simpl. by rewrite IH.
Qed.
Lemma reach_struct h fs vs : reach h (TStruct fs) (VStruct vs) = reachFields h fs vs.
Proof. simpl. induction fs as [|[tg t] fs IH]; [done|]. simpl. by rewrite IH. Qed.

(** ** Loads and stores *)

Lemma getField_setField f w vs vs' g :
  setField f w vs = Some vs' → getField g vs' = if decide (f = g) then Some w else getField g vs.
Proof.
  revert vs'. induction vs as [|[k v] vs IH]; [done|]. intros vs'. simpl.
  repeat case_decide; subst; intros; simplify_option_eq; try done; naive_solver.
Qed.
Lemma setField_is_Some f w vs : is_Some (getField f vs) → is_Some (setField f w vs).
Proof.
  induction vs as [|[k v] vs IH]; simpl; [by intros []|]. case_decide; [eauto|].
  intros [vs' ->]%IH. simpl. eauto.
Qed.
Lemma setField_setField f w1 w2 vs vs1 :
  setField f w1 vs = Some vs1 → setField f w2 vs1 = setField f w2 vs.
Proof.
  revert vs1. induction vs as [|[k v] vs IH]; [done|]. intros vs1. simpl. case_decide; intros.
  - simplify_eq. simpl. by case_decide.
  - simplify_option_eq. by erewrite IH.
Qed.
Lemma getPath_app p q v : getPath (p ++ q) v = getPath p v ≫= getPath q.
Proof.
  revert v. induction p as [|f p IH]; [done|]. intros []; simpl; try done.
  destruct (getField f _); [apply IH|done].
Qed.
Lemma setPath_app p q w u u' v :
  getPath p v = Some u → setPath q w u = Some u' → setPath (p ++ q) w v = setPath p u' v.
Proof.
  revert v. induction p as [|f p IH]; simpl; [congruence|]. intros [] Hg Hs; try done.
  destruct (getField f _); [|done]. simpl in *. by rewrite (IH _ Hg Hs).
Qed.
Lemma setPath_is_Some p w v : is_Some (getPath p v) → is_Some (setPath p w v).
Proof.
  revert v. induction p as [|f p IH]; simpl; [eauto|]. intros [| | | |vs]; try by intros [].
  destruct (getField f vs) as [u|] eqn:Hg; simpl; [|by intros []]. intros [u' ->]%IH. simpl.
  destruct (setField_is_Some f u' vs) as [? ->]; eauto.
Qed.
Lemma getPath_setPath p w v v' : setPath p w v = Some v' → getPath p v' = Some w.
Proof.
  revert v v'. induction p as [|f p IH]; simpl; [congruence|]. intros [] ?; try done. intros.
  simplify_option_eq. erewrite getField_setField by done. rewrite decide_True by done. simpl. eauto.
Qed.
Lemma setPath_setPath p w1 w2 v v1 : setPath p w1 v = Some v1 → setPath p w2 v1 = setPath p w2 v.
Proof.
  revert v v1. induction p as [|f p IH]; simpl; [done|]. intros [] ?; try done. intros.
  simplify_option_eq. erewrite getField_setField by done. rewrite decide_True by done. simpl.
  erewrite IH by done. destruct (setPath p w2 _); [|done]. simpl. by erewrite setField_setField.
Qed.

Lemma load_field h p f :
  load h (field p f) = match load h p with Some (VStruct vs) => getField f vs | _ => None end.
Proof.
  unfold load. simpl. destruct (h !! pl_loc p) as [[vs|]|]; try done.
  destruct (vs !! pl_index p) as [v|]; [|done]. simpl. rewrite getPath_app.
  destruct (getPath (pl_path p) v) as [[]|]; try done. simpl. by destruct (getField f _).
Qed.
Lemma load_inv h p v :
  load h p = Some v →
  ∃ vs u, h !! pl_loc p = Some (Arr vs) ∧ vs !! pl_index p = Some u ∧ getPath (pl_path p) u = Some v.
Proof. unfold load. intros. repeat case_match; simplify_option_eq; eauto. Qed.
Lemma store_inv h p w h' :
  store h p w = Some h' →
  ∃ vs u u', h !! pl_loc p = Some (Arr vs) ∧ vs !! pl_index p = Some u ∧
    setPath (pl_path p) w u = Some u' ∧ h' = <[pl_loc p := Arr (<[pl_index p := u']> vs)]> h.
Proof. unfold store. intros. repeat case_match; simplify_option_eq. eauto 10. Qed.
Lemma store_is_Some h p w : is_Some (load h p) → is_Some (store h p w).
Proof.
  intros [v (vs & u & Hl & Hi & Hp)%load_inv]. unfold store. rewrite Hl. simpl. rewrite Hi. simpl.
  destruct (setPath_is_Some (pl_path p) w u) as [? ->]; simpl; eauto.
Qed.
Lemma load_store h p w h' : store h p w = Some h' → load h' p = Some w.
Proof.
  intros (vs & u & u' & Hl & Hi & Hp & ->)%store_inv. unfold load. rewrite lookup_insert_eq. simpl.
  rewrite list_lookup_insert_eq by (by eapply lookup_lt_Some). simpl. by eapply getPath_setPath.
Qed.
Lemma store_other h p w h' l : store h p w = Some h' → l ≠ pl_loc p → h' !! l = h !! l.
Proof. intros (? & ? & ? & _ & _ & _ & ->)%store_inv ?. by rewrite lookup_insert_ne. Qed.
Lemma store_dom h p w h' : store h p w = Some h' → dom h' = dom h.
Proof.
  intros (? & ? & ? & Hl & _ & _ & ->)%store_inv. rewrite dom_insert_L.
  apply elem_of_dom_2 in Hl. set_solver.
Qed.
Lemma store_store h p w1 w2 h1 : store h p w1 = Some h1 → store h1 p w2 = store h p w2.
Proof.
  intros (vs & u & u' & Hl & Hi & Hp & ->)%store_inv. unfold store.
  rewrite lookup_insert_eq, Hl. simpl. rewrite list_lookup_insert_eq by (by eapply lookup_lt_Some).
  rewrite Hi. simpl. erewrite setPath_setPath by done. destruct (setPath _ w2 u); [|done]. simpl.
  by rewrite insert_insert_eq, list_insert_insert_eq.
Qed.
Lemma store_mono h h' p w h1 :
  store h p w = Some h1 → h ⊆ h' → ∃ h2, store h' p w = Some h2 ∧ h1 ⊆ h2.
Proof.
  intros (vs & u & u' & Hl & Hi & Hp & ->)%store_inv Hsub. unfold store.
  rewrite (lookup_weaken _ _ _ _ Hl Hsub). rewrite Hi. simpl. rewrite Hp. simpl.
  eexists. split; [done|]. by apply insert_mono.
Qed.
Lemma store_field h p f w vs vs' :
  load h p = Some (VStruct vs) → setField f w vs = Some vs' →
  store h (field p f) w = store h p (VStruct vs').
Proof.
  intros (us & u & Hl & Hi & Hp)%load_inv Hs. unfold store. simpl. rewrite Hl, Hi. simpl.
  erewrite setPath_app; [done|done|]. simpl.
  destruct (getField f vs) eqn:Hg; simpl; [by rewrite Hs|].
  exfalso. clear -Hs Hg. revert vs' Hs. induction vs as [|[k v] vs IH]; [done|]. simpl in *.
  case_decide; [done|]. intros. simplify_option_eq. eauto.
Qed.

(** ** Reading a value depends on the locations it refers to only *)

Definition agree (X : gset nat) (h h' : heap) : Prop := ∀ l, l ∈ X → h' !! l = h !! l.

Lemma load_agree h h' p : h' !! pl_loc p = h !! pl_loc p → load h' p = load h p.
Proof. unfold load. by intros ->. Qed.
Lemma elements_agree h h' l o n : h' !! l = h !! l → elements h' l o n = elements h l o n.
Proof. unfold elements. by intros ->. Qed.
Lemma mapM_ext_in {A B} (f g : A → option B) l :
  (∀ x, x ∈ l → f x = g x) → mapM f l = mapM g l.
Proof.
  induction l as [|x l IH]; intros Hfg; [done|]. simpl. rewrite Hfg by set_solver.
  rewrite IH; [done|]. intros. apply Hfg. set_solver.
Qed.

Lemma denote_agree h h' t v :
  agree (reach h t v) h h' → denote h' t v = denote h t v ∧ reach h' t v = reach h t v.
Proof.
  revert v. induction t as [|bits| |t IH|t IH| |fs IH|n t IH] using ty_ind';
    intros v Ha; try by destruct v.
  - destruct v as [|[p|]| | |]; try done. simpl in *.
    rewrite (load_agree h h' p) by (apply Ha; set_solver).
    destruct (load h p) as [v|]; [|done]. simpl.
    destruct (IH v) as [-> ->]; [|done]. intros l ?. apply Ha. set_solver.
  - destruct v as [| |[[[l o] n]|]| |]; try done. simpl in *.
    rewrite (elements_agree h h' l) by (apply Ha; set_solver).
    destruct (elements h l o n) as [vs|]; [|done]. simpl.
    assert (∀ v, v ∈ vs → denote h' t v = denote h t v ∧ reach h' t v = reach h t v) as Hvs.
    { intros v Hv. apply IH. intros k ?. apply Ha. apply elem_of_union_r, elem_of_union_list. set_solver. }
    rewrite (mapM_ext_in (denote h' t) (denote h t)) by (intros; by apply Hvs).
    rewrite (list_fmap_ext (reach h' t) (reach h t) vs); [done|].
    intros i v Hi%list_elem_of_lookup_2. by apply Hvs.
  - destruct v as [| | |[l|]|]; try done. simpl in *. unfold table. rewrite Ha by set_solver. done.
  - destruct v as [| | | |vs]; try done. rewrite !denote_struct, !reach_struct in *.
    enough (denoteFields h' fs vs = denoteFields h fs vs ∧ reachFields h' fs vs = reachFields h fs vs)
      as [-> ->] by done.
    induction fs as [|[tg t] fs IHfs]; [done|]. inv IH. simpl in *.
    destruct IHfs as [-> ->]; [done|intros l ?; apply Ha; set_solver|].
    destruct (getField (tg_name tg) vs) as [v|]; [|done]. simpl.
    destruct (H1 v) as [-> ->]; [|done]. intros l ?. apply Ha. set_solver.
  - simpl in *. eauto.
Qed.

(** A value that has its type refers to what is allocated. *)
Lemma denote_reach h t v x : denote h t v = Some x → reach h t v ⊆ dom h.
Proof.
  revert v x. induction t as [|bits| |t IH|t IH| |fs IH|n t IH] using ty_ind';
    intros v x Hd; try by destruct v.
  - destruct v as [|[p|]| | |]; try done. simpl in *.
    destruct (load h p) as [v|] eqn:Hl; [|done]. simpl in *.
    apply load_inv in Hl as (? & ? & Hl%elem_of_dom_2 & _). simplify_option_eq. set_solver.
  - destruct v as [| |[[[l o] n]|]| |]; try done. simpl in *.
    destruct (elements h l o n) as [vs|] eqn:Hl; [|done]. simpl in *.
    destruct (mapM (denote h t) vs) as [xs|] eqn:Hxs; [|done].
    assert (l ∈ dom h) by (unfold elements in Hl; destruct (h !! l) eqn:?; [by eapply elem_of_dom_2|done]).
    apply union_subseteq. split; [set_solver|]. 
    intros k (X & (v & -> & Hv)%list_elem_of_fmap & Hk)%elem_of_union_list.
    apply mapM_Some in Hxs. destruct (list_elem_of_lookup_1 _ _ Hv) as [i Hi].
    destruct (Forall2_lookup_l _ _ _ _ _ Hxs Hi) as (x' & _ & Hx'). by eapply IH.
  - destruct v as [| | |[l|]|]; try done. simpl in *. unfold table in Hd.
    destruct (h !! l) eqn:Hl; [|done]. apply elem_of_dom_2 in Hl. set_solver.
  - destruct v as [| | | |vs]; try done. rewrite denote_struct in Hd. rewrite reach_struct.
    destruct (denoteFields h fs vs) as [xs|] eqn:Hxs; [|done]. clear Hd. revert xs Hxs.
    induction fs as [|[tg t] fs IHfs]; simpl; intros xs Hxs; [set_solver|]. inv IH. simpl in *.
    destruct (getField (tg_name tg) vs) as [v|]; [|done]. simplify_option_eq.
    apply union_subseteq. eauto.
  - simpl in *. eauto.
Qed.

Lemma flat_reach h t v : flat t → reach h t v = ∅.
Proof.
  revert v. induction t as [|bits| |t IH|t IH| |fs IH|n t IH] using ty_ind'; intros v Hf; try done.
  - destruct v as [| | | |vs]; try done. rewrite reach_struct. simpl in Hf.
    induction fs as [|[tg t] fs IHfs]; [done|]. inv IH. simpl in *.
    apply andb_True in Hf as [Hf1 Hf2]. rewrite IHfs by done.
    destruct (getField (tg_name tg) vs); [rewrite H1 by done|]; set_solver.
  - simpl in *. eauto.
Qed.

Lemma freshLoc_spec h : freshLoc h ∉ dom h.
Proof.
  unfold freshLoc.
  cut (∀ l, l ∈ dom h → l < map_fold (λ l _ m, S l `max` m) 0 h); [intros Hlt Hin%Hlt; lia|].
  apply (map_fold_weak_ind (λ m h, ∀ l, l ∈ dom h → l < m)); [set_solver|].
  intros i c h' m Hi IH l. rewrite dom_insert. intros [->%elem_of_singleton|Hl%IH]%elem_of_union; lia.
Qed.

(** ** One variable written, the rest of the memory extended *)

Definition extends (h h' : heap) (p : place) (v : val) : Prop :=
  ∃ h1, store h p v = Some h1 ∧ h1 ⊆ h'.

Lemma extends_load h h' p v : extends h h' p v → load h' p = Some v.
Proof.
  intros (h1 & Hs & Hsub). pose proof (load_store _ _ _ _ Hs) as Hl.
  rewrite <- Hl. apply load_agree. apply load_inv in Hl as (vs & u & Hl & _).
  rewrite Hl. by eapply lookup_weaken.
Qed.
Lemma extends_dom h h' p v : extends h h' p v → dom h ⊆ dom h'.
Proof. intros (h1 & <-%store_dom & Hsub). by apply subseteq_dom. Qed.
Lemma extends_loc h h' p v : extends h h' p v → pl_loc p ∈ dom h.
Proof. intros (h1 & (? & ? & ? & Hl & _)%store_inv & _). by eapply elem_of_dom_2. Qed.
Lemma extends_agree h h' p v X : extends h h' p v → X ⊆ dom h → pl_loc p ∉ X → agree X h h'.
Proof.
  intros (h1 & Hs & Hsub) HX Hp l Hl. rewrite <- (store_other _ _ _ _ l Hs) by set_solver.
  assert (l ∈ dom h1) as [c Hc]%elem_of_dom by (rewrite (store_dom _ _ _ _ Hs); set_solver).
  rewrite Hc. by eapply lookup_weaken.
Qed.
Lemma extends_trans h h1 h2 p v1 v2 : extends h h1 p v1 → extends h1 h2 p v2 → extends h h2 p v2.
Proof.
  intros (a & Ha & Hsub1) (b & Hb & Hsub2).
  unfold extends. destruct (store_is_Some a p v2) as [c Hc].
  { erewrite load_store by done. eauto. }
  exists c. rewrite <- (store_store _ _ _ v2 _ Ha). split; [done|].
  destruct (store_mono _ _ _ _ _ Hc Hsub1) as (b' & Hb' & Hsub). simplify_eq. by etrans.
Qed.
Lemma extends_field h h' p f w vs vs' :
  load h p = Some (VStruct vs) → setField f w vs = Some vs' →
  extends h h' (field p f) w → extends h h' p (VStruct vs').
Proof. intros Hl Hs (h1 & Hst & Hsub). exists h1. by erewrite <- store_field. Qed.
(** A variable may be written after an allocation. *)
Lemma extends_alloc h l c p v h' :
  l ∉ dom h → extends (<[l := c]> h) h' p v → is_Some (load h p) → extends h h' p v.
Proof.
  intros Hl (h1 & Hs & Hsub) [a Ha]%(store_is_Some h p v). exists a. split; [done|].
  destruct (store_mono _ (<[l := c]> h) _ _ _ Ha) as (b & Hb & Hab).
  { apply insert_subseteq. by apply not_elem_of_dom. }
  simplify_eq. by etrans.
Qed.
(** The same where the variable is set to the new location and only that is
    written afterwards. *)
Lemma extends_new h l c c' p v hB h' :
  l ∉ dom h → is_Some (load h p) →
  store (<[l := c]> h) p v = Some hB → <[l := c']> hB ⊆ h' → extends h h' p v.
Proof.
  intros Hl [a Ha]%(store_is_Some h p v) HB Hsub. exists a. split; [done|].
  destruct (store_mono _ (<[l := c]> h) _ _ _ Ha) as (b & Hb & Hab).
  { apply insert_subseteq. by apply not_elem_of_dom. }
  simplify_eq. etrans; [|apply Hsub]. apply map_subseteq_spec. intros k c0 Hk.
  rewrite lookup_insert_ne; [by eapply lookup_weaken|]. intros ->.
  apply elem_of_dom_2 in Hk. by rewrite (store_dom _ _ _ _ Ha) in Hk.
Qed.
Lemma setField_same f v vs : getField f vs = Some v → setField f v vs = Some vs.
Proof.
  induction vs as [|[k u] vs IH]; [done|]. simpl. case_decide; [congruence|]. by intros ->%IH.
Qed.
Lemma extends_same h p v : load h p = Some v → extends h h p v.
Proof.
  intros (vs & u & Hl & Hi & Hp)%load_inv. exists h. split; [|done]. unfold store.
  rewrite Hl, Hi. simpl. assert (setPath (pl_path p) v u = Some u) as ->.
  { clear -Hp. revert u Hp. induction (pl_path p) as [|f q IH]; simpl; [congruence|].
    intros []; try done. destruct (getField f _) as [w|] eqn:Hf; [|done]. simpl.
    intros ->%IH. simpl. by rewrite (setField_same _ _ _ Hf). }
  simpl. by rewrite list_insert_id, insert_id.
Qed.
