(* ===== verification/GoCopy.v ===== *)
(** * Copying Go values

    The statements of generated copy functions over the memory of [GoHeap], and
    what they have to achieve: the copy stands for the same value as the
    original and shares nothing with it. *)

From S2P Require Import Prelude GoHeap.

(** ** Copying *)

(** Copy the variable at the first place into the one at the second; [None] is
    a panic. *)
Notation copier := (place → place → heap → option heap).

(** [*out = *in], and the same for an element or a field. *)
Definition assign : copier := λ in_ out h, v ← load h in_; store h out v.

(** Statements about the field [f] of [in] and of [out]. *)
Definition on (f : string) (c : copier) : copier := λ in_ out, c (field in_ f) (field out f).
Fixpoint runOps (ops : list (string * copier)) : copier := λ in_ out h,
  match ops with
  | [] => Some h
  | (f, c) :: ops => h ← on f c in_ out h; runOps ops in_ out h
  end.
(** The body of a copy function of a struct: the assignment of the whole, then
    the statements for the fields. *)
Definition fields (ops : list (string * copier)) : copier := λ in_ out h,
  h ← assign in_ out h; runOps ops in_ out h.

(** The loop over the elements of a slice, from [i], for [n] elements more. *)
Fixpoint forRange (elem : copier) (l o l' i n : nat) (h : heap) : option heap :=
  match n with
  | O => Some h
  | S n => h ← elem (element l (o + i)) (element l' i) h; forRange elem l o l' (S i) n h
  end.
(** [if *in != nil { *out = make([]T, n); for i := range *in { ... } }], with
    [elem] the body; [copy] assigns the elements. *)
Definition slice (t : ty) (elem : copier) : copier := λ in_ out h,
  match load h in_ with
  | Some (VSlice None) => Some h
  | Some (VSlice (Some (l, o, n))) =>
      let l' := freshLoc h in
      h ← store (<[l' := Arr (replicate n (zero t))]> h) out (VSlice (Some (l', 0, n)));
      forRange elem l o l' 0 n h
  | _ => None
  end.
(** [if *in != nil { *out = new(T); ... }], with [elem] for the pointees. *)
Definition ptr (t : ty) (elem : copier) : copier := λ in_ out h,
  match load h in_ with
  | Some (VPtr None) => Some h
  | Some (VPtr (Some p)) =>
      let l' := freshLoc h in
      h ← store (<[l' := Arr [zero t]]> h) out (VPtr (Some (element l' 0)));
      elem p (element l' 0) h
  | _ => None
  end.

(** The order in which [range] visits a map, which the language leaves open. *)
Class RangeOrder := {
  range : gmap string string → list (string * string);
  range_perm m : range m ≡ₚ map_to_list m
}.
Definition setKey (l : nat) (k v : string) (h : heap) : option heap :=
  m ← table h l; Some (<[l := Table (<[k := v]> m)]> h).
Fixpoint setKeys (l : nat) (kvs : list (string * string)) (h : heap) : option heap :=
  match kvs with
  | [] => Some h
  | (k, v) :: kvs => h ← setKey l k v h; setKeys l kvs h
  end.
(** [if *in != nil { *out = make(map[K]V); for key, val := range *in { ... } }],
    where the loop sets the key in the new map. *)
Definition mapCopy `{RangeOrder} : copier := λ in_ out h,
  match load h in_ with
  | Some (VMap None) => Some h
  | Some (VMap (Some l)) =>
      let l' := freshLoc h in
      m ← table h l;
      h ← store (<[l' := Table ∅]> h) out (VMap (Some l'));
      setKeys l' (range m) h
  | _ => None
  end.

(** [DeepCopy] of a pointer that may be [nil]. *)
Definition DeepCopy (t : ty) (into : copier) (in_ : option place) (h : heap) : option (heap * option place) :=
  match in_ with
  | None => Some (h, None)
  | Some p =>
      let out := element (freshLoc h) 0 in
      h ← into p out (<[freshLoc h := Arr [zero t]]> h);
      Some (h, Some out)
  end.
(** [DeepCopyObject] returns an interface, which is [nil] or holds a pointer
    that is not. *)
Definition DeepCopyObject (t : ty) (into : copier) (in_ : option place) (h : heap) : option (heap * option place) :=
  '(h, c) ← DeepCopy t into in_ h;
  match c with Some c => Some (h, Some c) | None => Some (h, None) end.

(** The methods of a type; [DeepCopyObject] only if it is an object. *)
Record methods := {
  DeepCopyInto : copier;
  m_DeepCopy : option place → heap → option (heap * option place);
  m_DeepCopyObject : option (option place → heap → option (heap * option place));
}.
(** What is generated around the body of [DeepCopyInto]. *)
Definition value (t : ty) (body : copier) : methods :=
  {| DeepCopyInto := body; m_DeepCopy := DeepCopy t body; m_DeepCopyObject := None |}.
Definition object (t : ty) (body : copier) : methods :=
  {| DeepCopyInto := body; m_DeepCopy := DeepCopy t body; m_DeepCopyObject := Some (DeepCopyObject t body) |}.
Definition generated (t : ty) (m : methods) : Prop :=
  m = value t (DeepCopyInto m) ∨ m = object t (DeepCopyInto m).
Arguments DeepCopyInto : simpl never.

(** ** What a copy function promises *)

(** The variable at [p] has got a value that stands for [x] and refers only to
    what was allocated since; nothing else that existed has changed. *)
Definition copied (t : ty) (h h' : heap) (p : place) (x : tree) : Prop :=
  ∃ v, extends h h' p v ∧ denote h' t v = Some x ∧ reach h' t v ## dom h.

Definition deepCopies (t : ty) (c : copier) : Prop := ∀ h in_ out v x,
  load h in_ = Some v → denote h t v = Some x → is_Some (load h out) →
  pl_loc out ≠ pl_loc in_ → pl_loc out ∉ reach h t v →
  ∃ h', c in_ out h = Some h' ∧ copied t h h' out x.
(** The statements for a field start from the value assigned with the whole. *)
Definition completes (t : ty) (c : copier) : Prop := ∀ h in_ out v x,
  load h in_ = Some v → denote h t v = Some x → load h out = Some v →
  pl_loc out ≠ pl_loc in_ → pl_loc out ∉ reach h t v →
  ∃ h', c in_ out h = Some h' ∧ copied t h h' out x.

(** ** The statements keep the promise *)

Lemma deepCopies_completes t c : deepCopies t c → completes t c.
Proof. intros Hc h in_ out v x ?????. eapply Hc; eauto. Qed.
Lemma deepCopies_named n t c : deepCopies t c → deepCopies (TNamed n t) c.
Proof. intros Hc h in_ out v x. exact (Hc h in_ out v x). Qed.

Lemma copied_shallow t h h' p v x :
  reach h t v = ∅ → denote h t v = Some x → extends h h' p v → copied t h h' p x.
Proof.
  intros Hr Hd He. exists v. split; [done|].
  destruct (denote_agree h h' t v) as [-> ->]; [rewrite Hr; intros l; set_solver|].
  rewrite Hr. split; [done|set_solver].
Qed.
Lemma flat_kept t h h' v x (X : gset nat) :
  flat t → denote h t v = Some x → denote h' t v = Some x ∧ reach h' t v ## X.
Proof.
  intros Hf Hd. destruct (denote_agree h h' t v) as [-> ->]; rewrite (flat_reach h t v Hf); [|set_solver].
  intros l. set_solver.
Qed.
Lemma assign_ok t : flat t → deepCopies t assign.
Proof.
  intros Hf h in_ out v x Hin Hd Hout _ _. unfold assign. rewrite Hin. simpl.
  destruct (store_is_Some h out v Hout) as [h' Hs]. exists h'. split; [done|].
  apply (copied_shallow _ _ _ _ v); [by apply flat_reach|done|]. by exists h'.
Qed.

(** *** Slices *)

Lemma elements_inv h l o n vs :
  elements h l o n = Some vs →
  ∃ us, h !! l = Some (Arr us) ∧ o + n ≤ length us ∧ vs = take n (drop o us).
Proof. unfold elements. intros. repeat case_match; simplify_option_eq. eauto. Qed.

Lemma elements_Some h l o n us :
  h !! l = Some (Arr us) → o + n ≤ length us → elements h l o n = Some (take n (drop o us)).
Proof. intros Hl Hn. unfold elements. rewrite Hl. by rewrite decide_True. Qed.

Lemma insert_extend (h h1 h' : heap) l c c' :
  <[l := c]> h ⊆ h1 → <[l := c']> h1 ⊆ h' → <[l := c']> h ⊆ h'.
Proof.
  intros H1 H2. etrans; [|apply H2]. rewrite <- (insert_insert_eq h l c' c). by apply insert_mono.
Qed.
(** A value that refers to nothing in [l] keeps its meaning. *)
Lemma insert_keeps t (h h' : heap) l c v x :
  <[l := c]> h ⊆ h' → denote h t v = Some x → l ∉ reach h t v →
  denote h' t v = Some x ∧ reach h' t v = reach h t v.
Proof.
  intros Hsub Hd Hl. destruct (denote_agree h h' t v) as [-> ->]; [|done].
  intros k Hk. assert (k ∈ dom h) as [c0 Hc]%elem_of_dom by (eapply denote_reach; eauto).
  rewrite Hc. eapply lookup_weaken; [|apply Hsub]. rewrite lookup_insert_ne; [done|set_solver].
Qed.

Lemma forRange_ok t elem l o l' us :
  deepCopies t elem → l ≠ l' → ∀ n i h ws xs,
  h !! l = Some (Arr us) → h !! l' = Some (Arr ws) → i + n ≤ length ws → o + i + n ≤ length us →
  Forall2 (λ v x, denote h t v = Some x ∧ l' ∉ reach h t v) (take n (drop (o + i) us)) xs →
  ∃ h' ws', forRange elem l o l' i n h = Some h' ∧ <[l' := Arr ws']> h ⊆ h' ∧
    length ws' = length ws ∧ take i ws' = take i ws ∧
    Forall2 (λ w x, denote h' t w = Some x ∧ reach h' t w ## dom h) (take n (drop i ws')) xs.
Proof.
  intros Helem Hll. induction n as [|n IH]; intros i h ws xs Hl Hl' Hi Ho HF.
  { exists h, ws. simpl in *. inv HF. rewrite insert_id by done. done. }
  destruct (lookup_lt_is_Some_2 us (o + i)) as [v Hv]; [lia|].
  rewrite (drop_S _ _ _ Hv) in HF. simpl in HF. inv HF as [|? x ? xs' [Hd Hr] HF'].
  destruct (Helem h (element l (o + i)) (element l' i) v x) as (h1 & Hc & w & Hext & Hw & Hfr);
    [unfold load; simpl; by rewrite Hl, Hv|done|..].
  { unfold load. simpl. rewrite Hl'. destruct (lookup_lt_is_Some_2 ws i) as [? ->]; [lia|]. by eexists. }
  { simpl. congruence. }
  { done. }
  destruct Hext as (h0 & (ws0 & ? & ? & Hws & Hi0 & Hp & ->)%store_inv & Hsub).
  simpl in *. rewrite Hl' in Hws. injection Hws as <-. injection Hp as <-.
  destruct (IH (S i) h1 (<[i := w]> ws) xs') as (h' & ws' & Hf & Hsub' & Hlen & Htake & HF'').
  { eapply lookup_weaken; [|apply Hsub]. by rewrite lookup_insert_ne. }
  { eapply lookup_weaken; [|apply Hsub]. by rewrite lookup_insert_eq. }
  { rewrite length_insert. lia. }
  { lia. }
  { replace (o + S i) with (S (o + i)) by lia. eapply Forall2_impl; [done|]. intros v' x' [Hd' Hr'].
    by destruct (insert_keeps _ _ _ _ _ _ _ Hsub Hd' Hr') as [-> ->]. }
  rewrite length_insert in Hlen. exists h', ws'.
  assert (l' ∉ reach h1 t w) as Hl'w by (apply elem_of_dom_2 in Hl'; set_solver).
  destruct (insert_keeps _ _ _ _ _ _ _ Hsub' Hw Hl'w) as [Hw' Hr'].
  assert (ws' !! i = Some w) as Hwi.
  { rewrite <- (lookup_take_lt ws' (S i)) by lia. rewrite Htake, lookup_take_lt by lia.
    by rewrite list_lookup_insert_eq by lia. }
  rewrite (drop_S _ _ _ Hwi). simpl. rewrite Hc. simpl. split_and!; [done|..].
  - by eapply insert_extend.
  - done.
  - replace (take i ws') with (take i (take (S i) ws')) by (rewrite take_take; f_equal; lia).
    rewrite Htake, take_take. replace (i `min` S i) with i by lia. by rewrite take_insert_ge by lia.
  - constructor; [by rewrite Hw', Hr'|]. eapply Forall2_impl; [done|]. intros w' x' [? Hdisj].
    split; [done|]. apply subseteq_dom in Hsub. rewrite dom_insert in Hsub. set_solver.
Qed.

(** The variable is set to what [new] or [make] returned. *)
Lemma alloc_store h l c out w :
  l ∉ dom h → is_Some (load h out) →
  ∃ hB, store (<[l := c]> h) out w = Some hB ∧ hB !! l = Some c ∧ dom h ⊆ dom hB ∧
    ∀ X, X ⊆ dom h → pl_loc out ∉ X → agree X h hB.
Proof.
  intros Hl [u Hu]. assert (pl_loc out ∈ dom h) as Ho.
  { apply load_inv in Hu as (? & ? & Hu & _). by eapply elem_of_dom_2. }
  assert (l ≠ pl_loc out) as Hne by congruence.
  destruct (store_is_Some (<[l := c]> h) out w) as [hB HB].
  { exists u. rewrite <- Hu. apply load_agree. by rewrite lookup_insert_ne. }
  exists hB. split_and!; [done|..].
  - rewrite (store_other _ _ _ _ _ HB Hne). apply lookup_insert_eq.
  - rewrite (store_dom _ _ _ _ HB), dom_insert. set_solver.
  - intros X HX HoX k Hk. rewrite (store_other _ _ _ _ k HB) by set_solver.
    rewrite lookup_insert_ne; [done|]. set_solver.
Qed.

(** A new array whose elements have been copied. *)
Lemma slice_denotes t h (X : gset nat) l ws xs n :
  h !! l = Some (Arr ws) → n = length ws → l ∉ X →
  Forall2 (λ w x, denote h t w = Some x ∧ reach h t w ## X) (take n (drop 0 ws)) xs →
  denote h (TSlice t) (VSlice (Some (l, 0, n))) = Some (Seq xs) ∧
  reach h (TSlice t) (VSlice (Some (l, 0, n))) ## X.
Proof.
  intros Hl -> HlX HF. simpl. rewrite (elements_Some _ _ _ _ _ Hl) by done. simpl. split.
  - rewrite (proj2 (mapM_Some (denote h t) _ xs)); [done|].
    eapply Forall2_impl; [done|]. by intros ?? [? _].
  - apply disjoint_union_l. split; [set_solver|].
    intros k (Y & (w & -> & Hw)%list_elem_of_fmap & Hk)%elem_of_union_list HkX.
    apply list_elem_of_lookup_1 in Hw as [i Hw].
    destruct (Forall2_lookup_l _ _ _ _ _ HF Hw) as (y & _ & _ & Hdisj). set_solver.
Qed.

Lemma slice_ok t elem : deepCopies t elem → completes (TSlice t) (slice t elem).
Proof.
  intros Helem h in_ out v x Hin Hd Hout Hne Hr. unfold slice. rewrite Hin.
  destruct v as [| |[[[l o] n]|]| |]; try done.
  2: { exists h. split; [done|]. by apply (copied_shallow _ _ _ _ (VSlice None)), extends_same. }
  pose proof (denote_reach _ _ _ _ Hd) as Hdom. simpl in Hd, Hr, Hdom.
  destruct (elements h l o n) as [vs|] eqn:Hvs; [|done]. simpl in *.
  destruct (mapM (denote h t) vs) as [xs|] eqn:Hxs; [|done]. simplify_eq/=.
  apply elements_inv in Hvs as (us & Hl & Hlen & ->). pose proof (freshLoc_spec h) as Hfresh.
  destruct (alloc_store h (freshLoc h) (Arr (replicate n (zero t))) out (VSlice (Some (freshLoc h, 0, n))))
    as (hB & HB & Hl' & HdomB & Hag); [done|eauto|]. rewrite HB. simpl.
  apply mapM_Some in Hxs.
  destruct (forRange_ok t elem l o (freshLoc h) us Helem) with (n := n) (i := 0) (h := hB)
    (ws := replicate n (zero t)) (xs := xs) as (h' & ws' & Hf & Hsub & Hlen' & _ & HF).
  { set_solver. }
  { rewrite (Hag {[l]}); [done|set_solver..]. }
  { done. }
  { rewrite length_replicate. lia. }
  { lia. }
  { rewrite Nat.add_0_r. apply Forall2_lookup. intros i.
    pose proof (proj1 (Forall2_lookup _ _ _) Hxs i) as Hi.
    inversion Hi as [v y Hvy Hv Hy|]; [|by constructor]. constructor.
    assert (reach h t v ⊆ ⋃ (reach h t <$> take n (drop o us))) as Hrv.
    { intros k Hk. apply elem_of_union_list. eexists. split; [|done]. apply list_elem_of_fmap_2.
      by eapply list_elem_of_lookup_2. }
    destruct (denote_agree h hB t v) as [-> ->]; [apply Hag; set_solver|]. set_solver. }
  rewrite length_replicate in Hlen'. exists h'. split; [done|].
  exists (VSlice (Some (freshLoc h, 0, n))). split; [by eapply extends_new; eauto|].
  eapply slice_denotes; [|by symmetry|set_solver|].
  { eapply lookup_weaken; [apply lookup_insert_eq|apply Hsub]. }
  eapply Forall2_impl; [done|]. intros ?? [? ?]. split; [done|set_solver].
Qed.

(** *** Pointers *)

(** [new(T)], then the copy into it. *)
Lemma new_ok t elem h hB l p v x :
  deepCopies t elem → l ∉ dom h → hB !! l = Some (Arr [zero t]) → dom h ⊆ dom hB →
  agree ({[pl_loc p]} ∪ reach h t v) h hB → load h p = Some v → denote h t v = Some x →
  ∃ h' w, elem p (element l 0) hB = Some h' ∧ <[l := Arr [w]]> hB ⊆ h' ∧
    denote h' (TPtr t) (VPtr (Some (element l 0))) = Some (Ref x) ∧
    reach h' (TPtr t) (VPtr (Some (element l 0))) ## dom h.
Proof.
  intros Helem Hl HlB Hdom Hag Hp Hd. pose proof (denote_reach _ _ _ _ Hd) as Hr.
  assert (pl_loc p ∈ dom h) as Hpd by (apply load_inv in Hp as (? & ? & Hp & _); by eapply elem_of_dom_2).
  destruct (denote_agree h hB t v) as [HdB HrB]; [intros k ?; apply Hag; set_solver|].
  destruct (Helem hB p (element l 0) v x) as (h' & Hc & w & Hext & Hw & Hfr).
  { rewrite <- Hp. apply load_agree, Hag. set_solver. }
  { by rewrite HdB. }
  { unfold load. simpl. rewrite HlB. by eexists. }
  { simpl. set_solver. }
  { rewrite HrB. simpl. set_solver. }
  exists h', w. pose proof (extends_load _ _ _ _ Hext) as Hlw.
  destruct Hext as (h0 & (ws & ? & ? & Hws & Hi & Hpath & ->)%store_inv & Hsub). simpl in *.
  rewrite HlB in Hws. injection Hws as <-. injection Hpath as <-. rewrite Hlw. simpl. rewrite Hw. simpl.
  split_and!; [done..|]. set_solver.
Qed.
Lemma ptr_ok t elem : deepCopies t elem → completes (TPtr t) (ptr t elem).
Proof.
  intros Helem h in_ out v x Hin Hd Hout Hne Hr. unfold ptr. rewrite Hin.
  destruct v as [|[p|]| | |]; try done.
  2: { exists h. split; [done|]. by apply (copied_shallow _ _ _ _ (VPtr None)), extends_same. }
  pose proof (denote_reach _ _ _ _ Hd) as Hdom. simpl in Hd, Hr, Hdom.
  destruct (load h p) as [u|] eqn:Hu; [|done]. simpl in Hd. 
  destruct (denote h t u) as [y|] eqn:Hy; [|done]. simplify_eq/=. pose proof (freshLoc_spec h) as Hfresh.
  destruct (alloc_store h (freshLoc h) (Arr [zero t]) out (VPtr (Some (element (freshLoc h) 0))))
    as (hB & HB & Hl' & HdomB & Hag); [done|eauto|]. rewrite HB. simpl.
  destruct (new_ok t elem h hB (freshLoc h) p u y) as (h' & w & Hc & Hsub & Hden & Hfr); auto.
  exists h'. split; [done|]. eexists. split; [by eapply extends_new; eauto|]. done.
Qed.

(** *** Maps *)

Lemma setKeys_ok l kvs h m :
  h !! l = Some (Table m) →
  setKeys l kvs h = Some (<[l := Table (foldl (λ m kv, <[kv.1 := kv.2]> m) m kvs)]> h).
Proof.
  revert h m. induction kvs as [|[k v] kvs IH]; intros h m Hl; simpl; [by rewrite insert_id|].
  unfold setKey, table. rewrite Hl. simpl. rewrite (IH _ (<[k := v]> m)) by apply lookup_insert_eq.
  by rewrite insert_insert_eq.
Qed.
Lemma range_all `{RangeOrder} m : foldl (λ m kv, <[kv.1 := kv.2]> m) ∅ (range m) = m.
Proof.
  rewrite foldl_insert.
  - rewrite map_union_empty. erewrite list_to_map_proper; [apply list_to_map_to_list| |apply range_perm].
    rewrite range_perm. apply NoDup_fst_map_to_list.
  - rewrite range_perm. apply NoDup_fst_map_to_list.
Qed.
Lemma mapCopy_ok `{RangeOrder} : completes TMap mapCopy.
Proof.
  intros h in_ out v x Hin Hd Hout Hne Hr. unfold mapCopy. rewrite Hin.
  destruct v as [| | |[l|]|]; try done.
  2: { exists h. split; [done|]. by apply (copied_shallow _ _ _ _ (VMap None)), extends_same. }
  simpl in *. destruct (table h l) as [m|] eqn:Hm; [|done]. simplify_eq/=.
  pose proof (freshLoc_spec h) as Hfresh.
  destruct (alloc_store h (freshLoc h) (Table ∅) out (VMap (Some (freshLoc h))))
    as (hB & HB & Hl' & HdomB & Hag); [done|eauto|]. rewrite HB. simpl.
  rewrite (setKeys_ok _ _ _ _ Hl'), range_all. eexists. split; [done|].
  exists (VMap (Some (freshLoc h))). split_and!; [by eapply extends_new; eauto|..]; simpl.
  - unfold table. by rewrite lookup_insert_eq.
  - set_solver.
Qed.

(** *** Structs *)

Fixpoint opOf (f : string) (ops : list (string * copier)) : option copier :=
  match ops with
  | [] => None
  | (g, c) :: ops => if String.eqb g f then Some c else opOf f ops
  end.
Definition names (fs : list (tag * ty)) : list string := (λ ft, tg_name ft.1) <$> fs.
(** The statements name fields of the struct, each at most once. *)
Definition namesFields (fs : list (tag * ty)) (ops : list string) : bool :=
  bool_decide (NoDup ops) && forallb (λ f, bool_decide (f ∈ names fs)) ops.
(** Every field is copied by its statement, or has nothing to copy. *)
Definition copiesField (ops : list (string * copier)) (ft : tag * ty) : Prop :=
  match opOf (tg_name ft.1) ops with Some c => completes ft.2 c | None => flat ft.2 end.

Lemma opOf_Some f c ops : NoDup ops.*1 → (f, c) ∈ ops → opOf f ops = Some c.
Proof.
  induction ops as [|[g d] ops IH]; simpl; [set_solver|]. intros [Hg Hnd]%NoDup_cons [[= <- <-]|Hin]%elem_of_cons.
  - by rewrite String.eqb_refl.
  - destruct (String.eqb_spec g f) as [->|]; [|by apply IH]. exfalso. apply Hg.
    by apply (list_elem_of_fmap_2 fst) in Hin.
Qed.
Lemma opOf_None f ops : opOf f ops = None → f ∉ ops.*1.
Proof.
  induction ops as [|[g d] ops IH]; simpl; [set_solver|].
  destruct (String.eqb_spec g f) as [->|]; [done|]. intros ?%IH. set_solver.
Qed.
Lemma opOf_elem f c ops : opOf f ops = Some c → (f, c) ∈ ops.
Proof.
  induction ops as [|[g d] ops IH]; simpl; [done|].
  destruct (String.eqb_spec g f) as [->|]; [intros [= ->]; set_solver|]. intros ?%IH. set_solver.
Qed.
Lemma denoteFields_inv h fs vs xs :
  denoteFields h fs vs = Some xs →
  Forall2 (λ ft x, ∃ v, getField (tg_name ft.1) vs = Some v ∧ denote h ft.2 v = Some x ∧
                        reach h ft.2 v ⊆ reachFields h fs vs) fs xs.
Proof.
  revert xs. induction fs as [|[tg t] fs IH]; simpl; intros xs; [intros [= <-]; constructor|].
  destruct (getField (tg_name tg) vs) as [v|] eqn:Hv; [|done]. simpl. intros. simplify_option_eq.
  constructor; [exists v; simpl; set_solver|]. eapply Forall2_impl; [by apply IH|].
  intros ? ? (w & ? & ? & ?). exists w. set_solver.
Qed.
Lemma denoteFields_intro h (X : gset nat) fs ws xs :
  Forall2 (λ ft x, ∃ w, getField (tg_name ft.1) ws = Some w ∧ denote h ft.2 w = Some x ∧
                        reach h ft.2 w ## X) fs xs →
  denoteFields h fs ws = Some xs ∧ reachFields h fs ws ## X.
Proof.
  induction 1 as [|[tg t] x fs xs (w & Hw & Hx & Hr) _ [IHd IHr]]; simpl in *; [set_solver|].
  rewrite Hw. simpl. rewrite Hx. simpl. rewrite IHd. set_solver.
Qed.

Section struct.
Context (fs : list (tag * ty)) (in_ out : place) (h0 : heap) (vs : list (string * val)).
Hypothesis in_value : load h0 in_ = Some (VStruct vs).
Hypothesis places : pl_loc out ≠ pl_loc in_.

(** The field [f] of the original: its type, its value and what it stands for. *)
Definition original (f : string) (t : ty) (x : tree) : Prop :=
  ∃ v, getField f vs = Some v ∧ denote h0 t v = Some x ∧ pl_loc out ∉ reach h0 t v.
Definition replaced (h : heap) (ws : list (string * val)) (f : string) (t : ty) (x : tree) : Prop :=
  ∃ w, getField f ws = Some w ∧ denote h t w = Some x ∧ reach h t w ## dom h0.

Lemma in_kept h w : extends h0 h out w → load h in_ = Some (VStruct vs).
Proof.
  intros Hext. rewrite <- in_value. apply load_agree.
  apply (extends_agree _ _ _ _ {[pl_loc in_]} Hext); [|set_solver..].
  apply load_inv in in_value as (? & ? & ?%elem_of_dom_2 & _). set_solver.
Qed.
Lemma replaced_kept h h' ws ws' f t x :
  extends h0 h out (VStruct ws) → extends h h' out (VStruct ws') →
  getField f ws' = getField f ws → replaced h ws f t x → replaced h' ws' f t x.
Proof.
  intros Hext Hext' Hf (w & Hw & Hd & Hr). exists w. rewrite Hf. split; [done|].
  destruct (denote_agree h h' t w) as [-> ->]; [|done].
  eapply extends_agree; [done|by eapply denote_reach|]. pose proof (extends_loc _ _ _ _ Hext). set_solver.
Qed.

(** The statement for one field. *)
Lemma op_ok h ws f c t x :
  extends h0 h out (VStruct ws) → original f t x → completes t c → getField f ws = getField f vs →
  ∃ h' ws', on f c in_ out h = Some h' ∧ extends h h' out (VStruct ws') ∧ replaced h' ws' f t x ∧
    ∀ g, g ≠ f → getField g ws' = getField g ws.
Proof.
  intros Hext (v & Hv & Hd & Hr) Hc Hf. pose proof (extends_load _ _ _ _ Hext) as Hout.
  destruct (denote_agree h0 h t v) as [Hd' Hr'].
  { eapply extends_agree; [done|by eapply denote_reach|done]. }
  destruct (Hc h (field in_ f) (field out f) v x) as (h' & Hrun & w & Hw & Hdw & Hrw).
  { rewrite load_field, (in_kept _ _ Hext). done. }
  { by rewrite Hd'. }
  { rewrite load_field, Hout, Hf. done. }
  { done. }
  { by rewrite Hr'. }
  destruct (setField_is_Some f w ws) as [ws' Hws]; [rewrite Hf; eauto|]. exists h', ws'.
  split_and!; [done|by eapply extends_field|..].
  - exists w. erewrite getField_setField by done. rewrite decide_True by done.
    pose proof (extends_dom _ _ _ _ Hext). set_solver.
  - intros g Hg. erewrite getField_setField by done. by rewrite decide_False.
Qed.

Lemma runOps_ok ops h ws :
  extends h0 h out (VStruct ws) → NoDup ops.*1 →
  (∀ f c, (f, c) ∈ ops → getField f ws = getField f vs ∧ ∃ t x, original f t x ∧ completes t c) →
  ∃ h' ws', runOps ops in_ out h = Some h' ∧ extends h h' out (VStruct ws') ∧
    (∀ f t x c, (f, c) ∈ ops → original f t x → completes t c → replaced h' ws' f t x) ∧
    ∀ f, f ∉ ops.*1 → getField f ws' = getField f ws.
Proof.
  revert h ws. induction ops as [|[f c] ops IH]; intros h ws Hext Hnd Hops.
  { exists h, ws. split_and!; [done|by eapply extends_same, extends_load|set_solver|done]. }
  apply NoDup_cons in Hnd as [Hf Hnd]. destruct (Hops f c) as (Hfw & t & x & Ho & Hc); [set_solver|].
  destruct (op_ok h ws f c t x) as (h1 & ws1 & Hrun & Hext1 & Hrep & Hoth); [done..|].
  pose proof (extends_trans _ _ _ _ _ _ Hext Hext1) as Hext01.
  destruct (IH h1 ws1) as (h' & ws' & Hrun' & Hext' & Hrep' & Hoth'); [done|done|..].
  { intros g d Hg. destruct (Hops g d) as [Hgw ?]; [set_solver|]. rewrite Hoth; [done|].
    intros ->. apply Hf. by apply (list_elem_of_fmap_2 fst) in Hg. }
  exists h', ws'. simpl. rewrite Hrun. split_and!; [done|by eapply extends_trans|..].
  - intros g t' x' d [[= -> ->]|Hg]%elem_of_cons Ho' Hc'; [|by eapply Hrep'].
    destruct (op_ok h ws f c t' x') as (h1' & ws1' & Hrun1 & Hext1' & Hrep1 & _); [done..|]. simplify_eq.
    apply extends_load in Hext1 as Hl1. apply extends_load in Hext1' as Hl1'. simplify_eq.
    eapply replaced_kept; eauto.
  - intros g Hg. simpl in Hg. rewrite Hoth', Hoth by set_solver. done.
Qed.
End struct.
Lemma Forall2_Forall_l {A B} (P : A → Prop) (R : A → B → Prop) l k :
  Forall2 R l k → Forall P l → Forall2 (λ x y, R x y ∧ P x) l k.
Proof. induction 1; intros HP; inv HP; constructor; auto. Qed.

Lemma fields_ok fs ops :
  namesFields fs ops.*1 → Forall (copiesField ops) fs → deepCopies (TStruct fs) (fields ops).
Proof.
  intros [Hnd Hnames]%andb_True Hops h in_ out v x Hin Hd Hout Hne Hr.
  apply bool_decide_unpack in Hnd. unfold fields, assign. rewrite Hin. simpl.
  destruct v as [| | | |vs]; try done. rewrite denote_struct in Hd. rewrite reach_struct in Hr.
  destruct (denoteFields h fs vs) as [xs|] eqn:Hxs; [|done]. injection Hd as <-.
  apply denoteFields_inv in Hxs as HF. destruct (store_is_Some h out (VStruct vs) Hout) as [h1 Hs].
  rewrite Hs. simpl. assert (extends h h1 out (VStruct vs)) as Hext by (by exists h1).
  assert (∀ ft y v, getField (tg_name ft.1) vs = Some v ∧ denote h ft.2 v = Some y ∧
    reach h ft.2 v ⊆ reachFields h fs vs → original out h vs (tg_name ft.1) ft.2 y) as Horig.
  { intros ft y v (? & ? & ?). exists v. set_solver. }
  destruct (runOps_ok in_ out h vs Hin Hne ops h1 vs) as (h' & ws & Hrun & Hext' & Hrep & Hoth);
    [done|done|..].
  { intros f c Hfc. split; [done|]. apply (list_elem_of_fmap_2 fst) in Hfc as Hf.
    rewrite forallb_True, Forall_forall in Hnames.
    apply Hnames, bool_decide_unpack, list_elem_of_fmap in Hf as (ft & Hf & Hft).
    destruct (list_elem_of_lookup_1 _ _ Hft) as [i Hi].
    destruct (Forall2_lookup_l _ _ _ _ _ HF Hi) as (y & _ & v & Hv). simpl in Hf. subst f.
    exists ft.2, y. split; [by eapply Horig|]. rewrite Forall_forall in Hops. apply Hops in Hft.
    unfold copiesField in Hft. by rewrite (opOf_Some _ _ _ Hnd Hfc) in Hft. }
  exists h'. split; [done|]. exists (VStruct ws). split; [by eapply extends_trans|].
  rewrite denote_struct, reach_struct.
  destruct (denoteFields_intro h' (dom h) fs ws xs) as [-> ?]; [|done].
  eapply Forall2_impl; [by apply Forall2_Forall_l|]. intros ft y [(v & Hv) Hft].
  unfold copiesField in Hft. destruct (opOf (tg_name ft.1) ops) as [c|] eqn:Hc.
  - eapply Hrep; [by apply opOf_elem|by eapply Horig|done].
  - destruct Hv as (Hv & Hd & _). exists v. rewrite Hoth by (by apply opOf_None). split; [done|].
    by apply flat_kept with h.
Qed.

(** ** [DeepCopy] *)

(** The result is a new variable with an equal value that shares no memory with
    anything that existed, and all that existed is as it was. *)
Lemma DeepCopy_ok t into p h v x :
  deepCopies t into → load h p = Some v → denote h t v = Some x →
  ∃ h' l w, DeepCopy t into (Some p) h = Some (h', Some (element l 0)) ∧
    h ⊆ h' ∧ load h' (element l 0) = Some w ∧ denote h' t w = Some x ∧ {[l]} ∪ reach h' t w ## dom h.
Proof.
  intros Hc Hp Hd. pose proof (freshLoc_spec h) as Hl.
  destruct (new_ok t into h (<[freshLoc h := Arr [zero t]]> h) (freshLoc h) p v x)
    as (h' & w & Hrun & Hsub & Hden & Hr); try done.
  { apply lookup_insert_eq. }
  { rewrite dom_insert. set_solver. }
  { intros k Hk. apply load_inv in Hp as (? & ? & Hp%elem_of_dom_2 & _).
    apply denote_reach in Hd. rewrite lookup_insert_ne; [done|]. intros <-. apply Hl.
    apply elem_of_union in Hk as [->%elem_of_singleton|Hk]; auto. }
  exists h', (freshLoc h), w. simpl in Hden, Hr. unfold DeepCopy. rewrite Hrun.
  rewrite insert_insert_eq in Hsub.
  assert (load h' (element (freshLoc h) 0) = Some w) as Hw.
  { unfold load. simpl. by erewrite lookup_weaken; [|apply lookup_insert_eq|apply Hsub]. }
  rewrite Hw in Hden, Hr. simpl in Hden. destruct (denote h' t w) as [y|]; [|done].
  injection Hden as ->. split; [done|]. split; [|done].
  etrans; [|apply Hsub]. by apply insert_subseteq, not_elem_of_dom.
Qed.
Lemma DeepCopyObject_DeepCopy t into in_ h : DeepCopyObject t into in_ h = DeepCopy t into in_ h.
Proof. unfold DeepCopyObject. by destruct (DeepCopy t into in_ h) as [[? []]|]. Qed.

(** What the callers of a function that returns a copy rely on: [nil] for
    [nil]; else a pointer to an equal value, with the original as it was, such
    that neither is affected by what is done to the memory of the other. *)
Definition independentCopies (t : ty) (copy : option place → heap → option (heap * option place)) : Prop :=
  (∀ h, copy None h = Some (h, None)) ∧
  ∀ h p v x, load h p = Some v → denote h t v = Some x →
    ∃ h' q w, copy (Some p) h = Some (h', Some q) ∧
      load h' p = Some v ∧ denote h' t v = Some x ∧
      load h' q = Some w ∧ denote h' t w = Some x ∧
      (∀ h'', agree (dom h) h' h'' → load h'' p = Some v ∧ denote h'' t v = Some x) ∧
      (∀ h'', agree (dom h' ∖ dom h) h' h'' → load h'' q = Some w ∧ denote h'' t w = Some x).

Lemma DeepCopy_independent t into : deepCopies t into → independentCopies t (DeepCopy t into).
Proof.
  intros Hc. split; [done|]. intros h p v x Hp Hd.
  destruct (DeepCopy_ok t into p h v x Hc Hp Hd) as (h' & l & w & Hrun & Hsub & Hw & Hdw & Hdisj).
  assert (∀ h'', agree (dom h) h h'' → load h'' p = Some v ∧ denote h'' t v = Some x) as Horig.
  { intros h'' Hag. split.
    - rewrite <- Hp. apply load_agree, Hag. by apply load_inv in Hp as (? & ? & ?%elem_of_dom_2 & _).
    - destruct (denote_agree h h'' t v) as [-> _]; [|done].
      intros k Hk. apply Hag. by eapply denote_reach. }
  assert (agree (dom h) h h') as Hag.
  { intros k [c Hk]%elem_of_dom. rewrite Hk. by eapply lookup_weaken. }
  destruct (Horig h' Hag) as [Hp' Hd']. exists h', (element l 0), w. split_and!; [done..| |].
  - intros h'' Hag'. apply Horig. intros k Hk. by rewrite Hag', Hag.
  - intros h'' Hag'. pose proof (denote_reach _ _ _ _ Hdw) as Hrd.
    apply load_inv in Hw as Hl. destruct Hl as (? & ? & Hl%elem_of_dom_2 & _). simpl in Hl. split.
    + rewrite <- Hw. apply load_agree, Hag'. simpl. set_solver.
    + destruct (denote_agree h' h'' t w) as [-> _]; [|done]. intros k Hk. apply Hag'. set_solver.
Qed.
Lemma DeepCopyObject_independent t into :
  deepCopies t into → independentCopies t (DeepCopyObject t into).
Proof.
  intros [_ Hc]%DeepCopy_independent. split; [done|]. intros h p v x Hp Hd.
  destruct (Hc h p v x Hp Hd) as (h' & q & w & Hrun & Hspec). exists h', q, w.
  by rewrite DeepCopyObject_DeepCopy.
Qed.

Lemma methods_independent t m : deepCopies t (DeepCopyInto m) → generated t m →
  deepCopies t (DeepCopyInto m) ∧ independentCopies t (m_DeepCopy m) ∧
  ∀ copy, m_DeepCopyObject m = Some copy → independentCopies t copy.
Proof.
  intros Hc [->| ->]; (split; [done|]; split; [by apply DeepCopy_independent|]); intros copy; [done|].
  intros [= <-]. by apply DeepCopyObject_independent.
Qed.

(** ** Automation

    [deep_copy] proves [deepCopies] of a struct's copy function from the lemmas
    of the functions it calls, [copy_fields] of the body of one. *)
Create HintDb deepcopy discriminated.
#[export] Hint Constants Opaque : deepcopy.
#[export] Hint Resolve slice_ok ptr_ok mapCopy_ok : deepcopy.
#[export] Hint Extern 1 (completes _ assign) => apply deepCopies_completes, assign_ok : deepcopy.
#[export] Hint Extern 1 (deepCopies _ assign) => apply assign_ok : deepcopy.
#[export] Hint Extern 2 (completes _ _) => apply deepCopies_completes : deepcopy.
#[export] Hint Extern 1 (Is_true (flat _)) => exact I : deepcopy.
Ltac copy_fields :=
  apply fields_ok; [vm_compute; exact I|];
  repeat (apply Forall_cons_2; [unfold copiesField; simpl opOf; cbv iota; simpl fst; simpl snd;
                                eauto 5 with deepcopy nocore|]); apply Forall_nil_2.
Ltac deep_copy :=
  match goal with |- deepCopies ?t (DeepCopyInto ?m) => unfold t, m end;
  match goal with
  | |- deepCopies _ (DeepCopyInto (value ?t ?body)) => change (DeepCopyInto (value t body)) with body
  | |- deepCopies _ (DeepCopyInto (object ?t ?body)) => change (DeepCopyInto (object t body)) with body
  end; copy_fields.
