(* ===== verification/ApiJson.v ===== *)
(** * JSON of the API types

    What [encoding/json] makes of a value of a Go type by the tags of its
    structs, and back. *)

From S2P Require Import Prelude Go Api Json GoHeap.

(** ** Values of a type *)

Fixpoint hasType (t : ty) (x : tree) {struct t} : bool :=
  match t, x with
  | TBool, Leaf (SBool _) | TString, Leaf (SString _) => true
  | TInt bits, Leaf (SInt z) => bool_decide (inRange bits z)
  | TPtr _, Nil | TSlice _, Nil | TMap, Nil | TMap, Tab _ => true
  | TPtr t, Ref x => hasType t x
  | TSlice t, Seq xs => forallb (hasType t) xs
  | TStruct fs, Rec xs =>
      (fix go (fs : list (tag * ty)) (xs : list tree) : bool :=
         match fs, xs with
         | [], [] => true
         | (_, t) :: fs, x :: xs => hasType t x && go fs xs
         | _, _ => false
         end) fs xs
  | TNamed _ t, x => hasType t x
  | _, _ => false
  end.

(** What a new variable holds. *)
Fixpoint zeroTree (t : ty) : tree :=
  match t with
  | TBool => Leaf (SBool false)
  | TInt _ => Leaf (SInt 0)
  | TString => Leaf (SString "")
  | TPtr _ | TSlice _ | TMap => Nil
  | TStruct fs => Rec ((λ '(_, t), zeroTree t) <$> fs)
  | TNamed _ t => zeroTree t
  end.

(** The values that [omitempty] omits; a struct is never one. *)
Definition isEmpty (x : tree) : bool :=
  match x with
  | Leaf (SBool b) => negb b
  | Leaf (SInt z) => bool_decide (z = 0%Z)
  | Leaf (SString s) => bool_decide (s = "")
  | Nil | Seq [] => true
  | Tab m => bool_decide (m = ∅)
  | _ => false
  end.

(** ** Encoding and decoding *)

(** The types with an encoding of their own, [metav1.Time] and
    [intstr.IntOrString], are not of this repository. *)
Class Codecs := {
  encodeNamed : string → tree → json;
  decodeNamed : string → json → option tree;
  (** The values that their encoding can express: the times of whole seconds,
      the numbers and strings that are tagged as what they are. *)
  onWire : string → tree → bool
}.
Class CodecLaws `{Codecs} := {
  decodeNamed_encodeNamed n x : onWire n x → decodeNamed n (encodeNamed n x) = Some x
}.

Definition members (j : json) : list (string * json) :=
  match j with JObject ms => ms | _ => [] end.
(** Of members of the same name the last counts. *)
Fixpoint lookupMember (k : string) (ms : list (string * json)) : option json :=
  match ms with
  | [] => None
  | (k', j) :: ms =>
      match lookupMember k ms with
      | Some j => Some j
      | None => if String.eqb k' k then Some j else None
      end
  end.

Section codec.
Context `{Codecs}.

Fixpoint encode (t : ty) (x : tree) {struct t} : json :=
  match t, x with
  | TNamed n _, x => encodeNamed n x
  | _, Nil => JNull
  | TBool, Leaf (SBool b) => JBool b
  | TInt _, Leaf (SInt z) => JNumber (FormatInt z)
  | TString, Leaf (SString s) => JString s
  | TPtr t, Ref x => encode t x
  | TSlice t, Seq xs => JArray (encode t <$> xs)
  | TMap, Tab m => JObject (asMember <$> sortedEntries m)
  | TStruct fs, Rec xs =>
      JObject
        ((fix go (fs : list (tag * ty)) (xs : list tree) : list (string * json) :=
            match fs, xs with
            | (tg, t) :: fs, x :: xs =>
                (if String.eqb (tg_json tg) "" then members (encode t x)
                 else if tg_omitempty tg && isEmpty x then []
                 else [(tg_json tg, encode t x)]) ++ go fs xs
            | _, _ => []
            end) fs xs)
  | _, _ => JNull
  end.

Definition decodeInt (bits : Z) (literal : string) : option tree :=
  z ← ParseInt literal; if decide (inRange bits z) then Some (Leaf (SInt z)) else None.

(** Into a new variable. *)
Fixpoint decode (t : ty) (j : json) {struct t} : option tree :=
  match t, j with
  | TNamed n _, j => decodeNamed n j
  | t, JNull => Some (zeroTree t)
  | TBool, JBool b => Some (Leaf (SBool b))
  | TInt bits, JNumber literal => decodeInt bits literal
  | TString, JString s => Some (Leaf (SString s))
  | TPtr t, j => x ← decode t j; Some (Ref x)
  | TSlice t, JArray js => xs ← mapM (decode t) js; Some (Seq xs)
  | TMap, JObject ms => m ← decodeClusters ms ∅; Some (Tab m)
  | TStruct fs, JObject ms =>
      xs ← (fix go (fs : list (tag * ty)) : option (list tree) :=
              match fs with
              | [] => Some []
              | (tg, t) :: fs =>
                  x ← (if String.eqb (tg_json tg) "" then decode t (JObject ms)
                       else match lookupMember (tg_json tg) ms with
                            | Some j => decode t j
                            | None => Some (zeroTree t)
                            end);
                  xs ← go fs; Some (x :: xs)
              end) fs;
      Some (Rec xs)
  | _, _ => None
  end.

(** What a value is after it has been written and read: what [omitempty] has
    omitted is the zero value of its type, and a pointer to something that is
    written as null is [nil]. *)
Fixpoint canon (t : ty) (x : tree) {struct t} : tree :=
  match t, x with
  | TPtr t, Ref x => match encode t x with JNull => Nil | _ => Ref (canon t x) end
  | TSlice t, Seq xs => Seq (canon t <$> xs)
  | TStruct fs, Rec xs =>
      Rec ((fix go (fs : list (tag * ty)) (xs : list tree) : list tree :=
              match fs, xs with
              | (tg, t) :: fs, x :: xs =>
                  (if negb (String.eqb (tg_json tg) "") && tg_omitempty tg && isEmpty x
                   then zeroTree t else canon t x) :: go fs xs
              | _, _ => []
              end) fs xs)
  | _, x => x
  end.

(** The parts of a value whose types have an encoding of their own can be
    expressed by it. *)
Fixpoint expressible (t : ty) (x : tree) {struct t} : bool :=
  match t, x with
  | TNamed n _, x => onWire n x
  | TPtr t, Ref x => expressible t x
  | TSlice t, Seq xs => forallb (expressible t) xs
  | TStruct fs, Rec xs =>
      (fix go (fs : list (tag * ty)) (xs : list tree) : bool :=
         match fs, xs with
         | (_, t) :: fs, x :: xs => expressible t x && go fs xs
         | _, _ => true
         end) fs xs
  | _, _ => true
  end.
End codec.

(** The names of the members of a struct, those of inlined structs included. *)
Fixpoint jsonKeys (t : ty) : list string :=
  match t with
  | TStruct fs =>
      flat_map (λ '(tg, t), if String.eqb (tg_json tg) "" then jsonKeys t else [tg_json tg]) fs
  | _ => []
  end.
Definition isStruct (t : ty) : bool := match t with TStruct _ => true | _ => false end.
(** The tags are in order: no name is used twice in a struct, only structs are
    inlined, and integers fit what is read. *)
Fixpoint tagsOk (t : ty) : bool :=
  match t with
  | TPtr t | TSlice t => tagsOk t
  | TInt bits => bool_decide (bits ≤ 64)%Z
  | TStruct fs =>
      bool_decide (NoDup (jsonKeys t)) &&
      forallb (λ '(tg, t), (negb (String.eqb (tg_json tg) "") || isStruct t) && tagsOk t) fs
  | _ => true
  end.

(** ** The round trip *)

Section roundtrip.
Context `{CodecLaws}.

(** The same for the fields of a struct. *)
Fixpoint hasTypes (fs : list (tag * ty)) (xs : list tree) : bool :=
  match fs, xs with
  | [], [] => true
  | (_, t) :: fs, x :: xs => hasType t x && hasTypes fs xs
  | _, _ => false
  end.
Fixpoint expressibles (fs : list (tag * ty)) (xs : list tree) : bool :=
  match fs, xs with
  | (_, t) :: fs, x :: xs => expressible t x && expressibles fs xs
  | _, _ => true
  end.
Definition encodeField (tg : tag) (t : ty) (x : tree) : list (string * json) :=
  if String.eqb (tg_json tg) "" then members (encode t x)
  else if tg_omitempty tg && isEmpty x then [] else [(tg_json tg, encode t x)].
Fixpoint encodeFields (fs : list (tag * ty)) (xs : list tree) : list (string * json) :=
  match fs, xs with
  | (tg, t) :: fs, x :: xs => encodeField tg t x ++ encodeFields fs xs
  | _, _ => []
  end.
Definition decodeField (tg : tag) (t : ty) (ms : list (string * json)) : option tree :=
  if String.eqb (tg_json tg) "" then decode t (JObject ms)
  else match lookupMember (tg_json tg) ms with Some j => decode t j | None => Some (zeroTree t) end.
Definition decodeAll (fs : list (tag * ty)) (ms : list (string * json)) : option (list tree) :=
  mapM (λ ft, decodeField ft.1 ft.2 ms) fs.
Definition canonField (tg : tag) (t : ty) (x : tree) : tree :=
  if negb (String.eqb (tg_json tg) "") && tg_omitempty tg && isEmpty x then zeroTree t else canon t x.
Fixpoint canonFields (fs : list (tag * ty)) (xs : list tree) : list tree :=
  match fs, xs with
  | (tg, t) :: fs, x :: xs => canonField tg t x :: canonFields fs xs
  | _, _ => []
  end.
Definition fieldKeys (ft : tag * ty) : list string :=
  if String.eqb (tg_json ft.1) "" then jsonKeys ft.2 else [tg_json ft.1].

Lemma hasType_struct fs xs : hasType (TStruct fs) (Rec xs) = hasTypes fs xs.
Proof. reflexivity. Qed.
Lemma expressible_struct fs xs : expressible (TStruct fs) (Rec xs) = expressibles fs xs.
Proof. reflexivity. Qed.
Lemma encode_struct fs xs : encode (TStruct fs) (Rec xs) = JObject (encodeFields fs xs).
Proof. reflexivity. Qed.
Lemma decode_struct fs ms :
  decode (TStruct fs) (JObject ms) = (xs ← decodeAll fs ms; Some (Rec xs)).
Proof.
  simpl. f_equal. unfold decodeAll. induction fs as [|[tg t] fs IH]; [done|]. simpl. by rewrite IH.
Qed.
Lemma canon_struct fs xs : canon (TStruct fs) (Rec xs) = Rec (canonFields fs xs).
Proof. reflexivity. Qed.
Lemma jsonKeys_struct fs : jsonKeys (TStruct fs) = flat_map fieldKeys fs.
Proof. simpl. induction fs as [|[tg t] fs IH]; [done|]. simpl. by rewrite IH. Qed.

Lemma lookupMember_app k ms1 ms2 :
  lookupMember k (ms1 ++ ms2) =
  match lookupMember k ms2 with Some j => Some j | None => lookupMember k ms1 end.
Proof.
  induction ms1 as [|[k' j] ms1 IH]; simpl; [by destruct (lookupMember k ms2)|].
  rewrite IH. by destruct (lookupMember k ms2).
Qed.
Lemma lookupMember_None k ms : k ∉ ms.*1 → lookupMember k ms = None.
Proof.
  induction ms as [|[k' j] ms IH]; simpl; [done|]. intros Hk. rewrite IH by set_solver.
  destruct (String.eqb_spec k' k); [set_solver|done].
Qed.
(** The members of a field have its names. *)
Lemma encodeFields_keys fs xs :
  Forall (λ ft, isStruct ft.2 → tagsOk ft.2 → ∀ x, (members (encode ft.2 x)).*1 ⊆ jsonKeys ft.2) fs →
  forallb (λ '(tg, t), (negb (String.eqb (tg_json tg) "") || isStruct t) && tagsOk t) fs →
  (encodeFields fs xs).*1 ⊆ flat_map fieldKeys fs.
Proof.
  revert xs. induction fs as [|[tg t] fs IH]; intros [|x xs]; simpl; try set_solver.
  intros HF [Hok Hoks]%andb_True. inv HF as [|? ? Hx HF']. rewrite fmap_app.
  specialize (IH xs HF' Hoks). simpl in Hx. unfold encodeField, fieldKeys. simpl.
  destruct (String.eqb (tg_json tg) ""); simpl in *.
  - apply andb_True in Hok as [Hs Ht]. specialize (Hx Hs Ht x). set_solver.
  - destruct (tg_omitempty tg && isEmpty x); set_solver.
Qed.
Lemma encode_keys t : isStruct t → tagsOk t → ∀ x, (members (encode t x)).*1 ⊆ jsonKeys t.
Proof.
  induction t as [| | | | | |fs IH|] using ty_ind'; try done. intros _ [_ Hok]%andb_True [| | | | |xs];
    try (simpl; set_solver).
  rewrite encode_struct, jsonKeys_struct. by apply encodeFields_keys.
Qed.

(** What the proof below shows of a type: a value is read back, also when it is
    inlined among other members. *)
Definition reads (t : ty) : Prop := ∀ x, hasType t x → expressible t x → tagsOk t →
  decode t (encode t x) = Some (canon t x) ∧
  (isStruct t → ∀ pre post, pre.*1 ## jsonKeys t → post.*1 ## jsonKeys t →
     decode t (JObject (pre ++ members (encode t x) ++ post)) = Some (canon t x)).

Lemma decodeField_reads tg t x pre post :
  reads t → hasType t x → expressible t x → tagsOk t → (negb (String.eqb (tg_json tg) "") || isStruct t) →
  pre.*1 ## fieldKeys (tg, t) → post.*1 ## fieldKeys (tg, t) →
  decodeField tg t (pre ++ encodeField tg t x ++ post) = Some (canonField tg t x).
Proof.
  intros Hr Hx Hw Hok Hs Hpre Hpost. destruct (Hr x Hx Hw Hok) as [Hd Hin].
  unfold decodeField, encodeField, canonField, fieldKeys in *. simpl in *.
  destruct (String.eqb (tg_json tg) "") eqn:Hinl; simpl in *; [by apply Hin|].
  rewrite !lookupMember_app. rewrite (lookupMember_None _ post), (lookupMember_None _ pre) by set_solver.
  destruct (tg_omitempty tg && isEmpty x); simpl; [done|]. by rewrite String.eqb_refl.
Qed.

Lemma decodeAll_reads fs xs pre post :
  Forall (λ ft, reads ft.2) fs → hasTypes fs xs → expressibles fs xs → NoDup (flat_map fieldKeys fs) →
  forallb (λ '(tg, t), (negb (String.eqb (tg_json tg) "") || isStruct t) && tagsOk t) fs →
  pre.*1 ## flat_map fieldKeys fs → post.*1 ## flat_map fieldKeys fs →
  decodeAll fs (pre ++ encodeFields fs xs ++ post) = Some (canonFields fs xs).
Proof.
  revert xs pre. induction fs as [|[tg t] fs IH]; intros [|x xs] pre HF Hxs Hws Hnd Hok Hpre Hpost; try done.
  inv HF as [|? ? Hr HF']. simpl in Hxs, Hws, Hok, Hnd, Hpre, Hpost.
  apply andb_True in Hxs as [Hx Hxs], Hws as [Hw Hws], Hok as [Hok Hoks]. apply andb_True in Hok as [Hs Ht].
  apply NoDup_app in Hnd as (_ & Hdisj & Hnd).
  assert ((encodeField tg t x).*1 ⊆ fieldKeys (tg, t)) as Hkeys.
  { unfold encodeField, fieldKeys. simpl. destruct (String.eqb (tg_json tg) ""); simpl in *.
    - by apply encode_keys.
    - destruct (tg_omitempty tg && isEmpty x); set_solver. }
  assert ((encodeFields fs xs).*1 ⊆ flat_map fieldKeys fs) as Hrest.
  { apply encodeFields_keys; [|done]. apply Forall_forall. intros ft _. apply encode_keys. }
  unfold decodeAll in *. simpl. rewrite <- (app_assoc (encodeField tg t x)).
  rewrite decodeField_reads by (done || (rewrite ?fmap_app; set_solver)). simpl.
  rewrite (app_assoc pre). rewrite IH; [done|done|done|done|done|done| |set_solver].
  rewrite fmap_app. set_solver.
Qed.

Lemma mapM_reads t xs :
  reads t → tagsOk t → forallb (hasType t) xs → forallb (expressible t) xs →
  mapM (decode t) (encode t <$> xs) = Some (canon t <$> xs).
Proof.
  intros Hr Hok Hxs Hws. apply mapM_Some. induction xs as [|x xs IH]; [constructor|].
  simpl in Hxs, Hws. apply andb_True in Hxs as [Hx Hxs], Hws as [Hw Hws]. constructor; [by apply Hr|by apply IH].
Qed.
Lemma decodeInt_FormatInt bits z : (bits ≤ 64)%Z → inRange bits z → decodeInt bits (FormatInt z) = Some (Leaf (SInt z)).
Proof.
  intros Hb Hz. unfold decodeInt. rewrite ParseInt_FormatInt, bool_decide_true.
  { simpl. by rewrite decide_True. }
  unfold inRange, minInt64, maxInt64 in *.
  assert (2 ^ (bits - 1) ≤ 2 ^ 63)%Z by (apply Z.pow_le_mono_r; lia). lia.
Qed.

Lemma all_reads t : reads t.
Proof.
  induction t as [|bits| |t IH|t IH| |fs IH|n t IH] using ty_ind'; intros x Hx Hw Hok.
  - by destruct x as [[]| | | | |].
  - destruct x as [[]| | | | |]; try done. split; [|done]. simpl in *.
    apply bool_decide_unpack in Hx, Hok. by apply decodeInt_FormatInt.
  - by destruct x as [[]| | | | |].
  - destruct x as [| |x| | |]; try done. split; [|done]. simpl in *.
    destruct (IH x Hx Hw Hok) as [Hd _]. destruct (encode t x) eqn:He; [done|by rewrite Hd..].
  - destruct x as [| | |xs| |]; try done. split; [|done]. simpl in *. by rewrite mapM_reads.
  - destruct x as [| | | |m|]; try done. split; [|done]. simpl. by rewrite decodeClusters_sorted.
  - destruct x as [| | | | |xs]; try done. rewrite hasType_struct in Hx.
    rewrite expressible_struct in Hw. pose proof Hok as [Hnd Hfs]%andb_True. apply bool_decide_unpack in Hnd.
    rewrite jsonKeys_struct in Hnd. rewrite encode_struct, canon_struct, jsonKeys_struct. split.
    + rewrite decode_struct. rewrite <- (app_nil_r (encodeFields fs xs)), <- (app_nil_l (_ ++ [])).
      rewrite decodeAll_reads by (done || set_solver). done.
    + intros _ pre post Hpre Hpost. simpl members. rewrite decode_struct.
      by rewrite decodeAll_reads.
  - split; [|done]. by apply decodeNamed_encodeNamed.
Qed.

Lemma decode_encode t x :
  tagsOk t → hasType t x → expressible t x → decode t (encode t x) = Some (canon t x).
Proof. intros Hok Hx Hw. by apply all_reads. Qed.
End roundtrip.

(** What is in memory has its type. *)
Lemma denote_hasType h t v x : denote h t v = Some x → hasType t x.
Proof.
  revert v x. induction t as [|bits| |t IH|t IH| |fs IH|n t IH] using ty_ind'; intros v x Hd.
  - destruct v as [[]| | | |]; try done. by injection Hd as <-.
  - destruct v as [[]| | | |]; try done. simpl in Hd. case_decide; [|done]. injection Hd as <-.
    by apply bool_decide_pack.
  - destruct v as [[]| | | |]; try done. by injection Hd as <-.
  - destruct v as [|[p|]| | |]; try done; simpl in Hd; simplify_option_eq; [|done]. simpl. eauto.
  - destruct v as [| |[[[l o] n]|]| |]; try done; simpl in Hd; simplify_option_eq; [|done]. simpl.
    rewrite forallb_True. match goal with H : mapM _ _ = Some _ |- _ => apply mapM_Some in H end.
    eapply Forall2_Forall_r; [done|]. apply Forall_forall. eauto.
  - destruct v as [| | |[l|]|]; try done; simpl in Hd; simplify_option_eq; done.
  - destruct v as [| | | |vs]; try done. rewrite denote_struct in Hd.
    destruct (denoteFields h fs vs) as [xs|] eqn:Hxs; [|done]. injection Hd as <-.
    rewrite hasType_struct. revert xs Hxs.
    induction fs as [|[tg t] fs IHfs]; simpl; intros xs Hxs; [by injection Hxs as <-|]. inv IH.
    destruct (getField (tg_name tg) vs) as [v|]; [|done]. simplify_option_eq. simpl.
    apply andb_True. eauto.
  - simpl in *. eauto.
Qed.
