(* ===== verification/ApiMachinery.v ===== *)
(** * Types of the Kubernetes modules

    The types of k8s.io/apimachinery and k8s.io/api that the structs of
    src/api contain, and the copy functions of those that have one, which the
    generated code calls. *)

From S2P Require Import Prelude GoHeap GoCopy ApiJson.

Class Machinery := {
  (** k8s.io/apimachinery. *)
  TypeMeta : ty; ListMeta : ty; ObjectMeta : ty; Condition : ty; Time : ty;
  IntOrString : ty; UID : ty;
  (** k8s.io/api. *)
  EndpointPort : ty; SessionAffinityConfig : ty; LoadBalancerStatus : ty;
  Protocol : ty; ServiceAffinity : ty; ServiceType : ty; AddressType : ty;
  ListMeta_DeepCopyInto : copier;
  ObjectMeta_DeepCopyInto : copier;
  Condition_DeepCopyInto : copier;
  Time_DeepCopyInto : copier;
  EndpointPort_DeepCopyInto : copier;
  SessionAffinityConfig_DeepCopyInto : copier;
  LoadBalancerStatus_DeepCopyInto : copier
}.

(** The copy functions copy; the types that the generated code assigns hold no
    references. *)
Class MachineryLaws `{Machinery} := {
  TypeMeta_flat : flat TypeMeta;
  IntOrString_flat : flat IntOrString;
  UID_flat : flat UID;
  Protocol_flat : flat Protocol;
  ServiceAffinity_flat : flat ServiceAffinity;
  ServiceType_flat : flat ServiceType;
  AddressType_flat : flat AddressType;
  ListMeta_ok : deepCopies ListMeta ListMeta_DeepCopyInto;
  ObjectMeta_ok : deepCopies ObjectMeta ObjectMeta_DeepCopyInto;
  Condition_ok : deepCopies Condition Condition_DeepCopyInto;
  Time_ok : deepCopies Time Time_DeepCopyInto;
  EndpointPort_ok : deepCopies EndpointPort EndpointPort_DeepCopyInto;
  SessionAffinityConfig_ok : deepCopies SessionAffinityConfig SessionAffinityConfig_DeepCopyInto;
  LoadBalancerStatus_ok : deepCopies LoadBalancerStatus LoadBalancerStatus_DeepCopyInto
}.
#[export] Hint Resolve TypeMeta_flat IntOrString_flat UID_flat Protocol_flat ServiceAffinity_flat
  ServiceType_flat AddressType_flat ListMeta_ok ObjectMeta_ok Condition_ok Time_ok EndpointPort_ok
  SessionAffinityConfig_ok LoadBalancerStatus_ok : deepcopy.

(** Their tags are in order; the type and version of an object are inlined in
    it under the names of the API conventions. *)
Class MachineryTags `{Machinery} := {
  TypeMeta_struct : isStruct TypeMeta = true;
  TypeMeta_keys : jsonKeys TypeMeta = ["kind"; "apiVersion"];
  TypeMeta_tags : tagsOk TypeMeta = true;
  ListMeta_tags : tagsOk ListMeta = true;
  ObjectMeta_tags : tagsOk ObjectMeta = true;
  Condition_tags : tagsOk Condition = true;
  Time_tags : tagsOk Time = true;
  IntOrString_tags : tagsOk IntOrString = true;
  UID_tags : tagsOk UID = true;
  EndpointPort_tags : tagsOk EndpointPort = true;
  SessionAffinityConfig_tags : tagsOk SessionAffinityConfig = true;
  LoadBalancerStatus_tags : tagsOk LoadBalancerStatus = true;
  Protocol_tags : tagsOk Protocol = true;
  ServiceAffinity_tags : tagsOk ServiceAffinity = true;
  ServiceType_tags : tagsOk ServiceType = true;
  AddressType_tags : tagsOk AddressType = true
}.
#[export] Hint Rewrite @TypeMeta_struct @TypeMeta_keys @TypeMeta_tags @ListMeta_tags @ObjectMeta_tags
  @Condition_tags @Time_tags @IntOrString_tags @UID_tags @EndpointPort_tags @SessionAffinityConfig_tags
  @LoadBalancerStatus_tags @Protocol_tags @ServiceAffinity_tags @ServiceType_tags @AddressType_tags
  using typeclasses eauto : tags.
