(* ===== verification/ApiV1Alpha1.v ===== *)
(** * [api/v1alpha1]

    The Go types of the version, with their JSON tags, and the generated
    functions that copy their values. *)

From S2P Require Import Prelude GoHeap GoCopy ApiMachinery.

Module v1alpha1.
Section api.
Context `{Machinery} `{RangeOrder}.

(** ** The types *)

Definition ExportedObjectReference : ty := TStruct [
    (Tag "ClusterID" "clusterId" false, TString);
    (Tag "APIVersion" "apiVersion" true, TString);
    (Tag "Kind" "kind" false, TString);
    (Tag "Namespace" "namespace" false, TString);
    (Tag "Name" "name" false, TString);
    (Tag "ResourceVersion" "resourceVersion" false, TString);
    (Tag "Generation" "generation" false, TInt 64);
    (Tag "UID" "uid" false, UID);
    (Tag "NamespacedName" "namespacedName" false, TString);
    (Tag "ExportedSince" "exportedSince" true, Time)].
Definition ClusterID : ty := TString.
Definition ClusterNamespace : ty := TString.
Definition ServiceInUseBy : ty := TStruct [
    (Tag "MemberClusters" "MemberClusters" false, TMap)].
Definition Endpoint : ty := TStruct [
    (Tag "Addresses" "addresses" false, TSlice TString)].
Definition OwnerServiceReference : ty := TStruct [
    (Tag "Namespace" "namespace" false, TString);
    (Tag "Name" "name" false, TString);
    (Tag "NamespacedName" "namespacedName" false, TString)].
Definition EndpointSliceExportSpec : ty := TStruct [
    (Tag "AddressType" "addressType" false, AddressType);
    (Tag "Endpoints" "endpoints" false, TSlice Endpoint);
    (Tag "Ports" "ports" false, TSlice EndpointPort);
    (Tag "EndpointSliceReference" "endpointSliceReference" false, ExportedObjectReference);
    (Tag "OwnerServiceReference" "ownerServiceReference" false, OwnerServiceReference)].
Definition EndpointSliceExport : ty := TStruct [
    (Tag "TypeMeta" "" false, TypeMeta);
    (Tag "ObjectMeta" "metadata" true, ObjectMeta);
    (Tag "Spec" "spec" false, EndpointSliceExportSpec)].
Definition EndpointSliceExportList : ty := TStruct [
    (Tag "TypeMeta" "" false, TypeMeta);
    (Tag "ListMeta" "metadata" true, ListMeta);
    (Tag "Items" "items" false, TSlice EndpointSliceExport)].
Definition EndpointSliceImport : ty := TStruct [
    (Tag "TypeMeta" "" false, TypeMeta);
    (Tag "ObjectMeta" "metadata" true, ObjectMeta);
    (Tag "Spec" "spec" false, EndpointSliceExportSpec)].
Definition EndpointSliceImportList : ty := TStruct [
    (Tag "TypeMeta" "" false, TypeMeta);
    (Tag "ListMeta" "metadata" true, ListMeta);
    (Tag "Items" "items" false, TSlice EndpointSliceImport)].
Definition ServicePort : ty := TStruct [
    (Tag "Name" "name" true, TString);
    (Tag "Protocol" "protocol" true, Protocol);
    (Tag "AppProtocol" "appProtocol" true, TPtr TString);
    (Tag "Port" "port" false, TInt 32);
    (Tag "TargetPort" "targetPort" true, IntOrString)].
Definition InternalServiceExportSpec : ty := TStruct [
    (Tag "Ports" "ports" false, TSlice ServicePort);
    (Tag "ServiceReference" "serviceReference" false, ExportedObjectReference);
    (Tag "Type" "type" true, ServiceType);
    (Tag "IsDNSLabelConfigured" "isDNSLabelConfigured" true, TBool);
    (Tag "IsInternalLoadBalancer" "isInternalLoadBalancer" true, TBool);
    (Tag "PublicIPResourceID" "publicIPResourceID" true, TPtr TString);
    (Tag "Weight" "weight" true, TPtr (TInt 64))].
Definition InternalServiceExportStatus : ty := TStruct [
    (Tag "Conditions" "conditions" true, TSlice Condition)].
Definition InternalServiceExport : ty := TStruct [
    (Tag "TypeMeta" "" false, TypeMeta);
    (Tag "ObjectMeta" "metadata" true, ObjectMeta);
    (Tag "Spec" "spec" true, InternalServiceExportSpec);
    (Tag "Status" "status" true, InternalServiceExportStatus)].
Definition InternalServiceExportList : ty := TStruct [
    (Tag "TypeMeta" "" false, TypeMeta);
    (Tag "ListMeta" "metadata" true, ListMeta);
    (Tag "Items" "items" false, TSlice InternalServiceExport)].
Definition InternalServiceImportSpec : ty := TStruct [
    (Tag "ServiceImportReference" "serviceImportReference" false, ExportedObjectReference)].
Definition ServiceImportType : ty := TString.
Definition ClusterStatus : ty := TStruct [
    (Tag "Cluster" "cluster" false, TString)].
Definition ServiceImportStatus : ty := TStruct [
    (Tag "IPs" "ips" true, TSlice TString);
    (Tag "Type" "type" true, ServiceImportType);
    (Tag "SessionAffinity" "sessionAffinity" true, ServiceAffinity);
    (Tag "SessionAffinityConfig" "sessionAffinityConfig" true, TPtr SessionAffinityConfig);
    (Tag "Ports" "ports" true, TSlice ServicePort);
    (Tag "Clusters" "clusters" true, TSlice ClusterStatus)].
Definition InternalServiceImport : ty := TStruct [
    (Tag "TypeMeta" "" false, TypeMeta);
    (Tag "ObjectMeta" "metadata" true, ObjectMeta);
    (Tag "Spec" "spec" false, InternalServiceImportSpec);
    (Tag "Status" "status" true, ServiceImportStatus)].
Definition InternalServiceImportList : ty := TStruct [
    (Tag "TypeMeta" "" false, TypeMeta);
    (Tag "ListMeta" "metadata" true, ListMeta);
    (Tag "Items" "items" false, TSlice InternalServiceImport)].
Definition ServiceImportRef : ty := TStruct [
    (Tag "Name" "name" false, TString)].
Definition MultiClusterServiceSpec : ty := TStruct [
    (Tag "ServiceImport" "serviceImport" true, ServiceImportRef)].
Definition MultiClusterServiceStatus : ty := TStruct [
    (Tag "LoadBalancer" "loadBalancer" true, LoadBalancerStatus);
    (Tag "Conditions" "conditions" true, TSlice Condition)].
Definition MultiClusterService : ty := TStruct [
    (Tag "TypeMeta" "" false, TypeMeta);
    (Tag "ObjectMeta" "metadata" true, ObjectMeta);
    (Tag "Spec" "spec" false, MultiClusterServiceSpec);
    (Tag "Status" "status" true, MultiClusterServiceStatus)].
Definition MultiClusterServiceList : ty := TStruct [
    (Tag "TypeMeta" "" false, TypeMeta);
    (Tag "ListMeta" "metadata" true, ListMeta);
    (Tag "Items" "items" false, TSlice MultiClusterService)].
Definition ServiceExportStatus : ty := TStruct [
    (Tag "Conditions" "conditions" true, TSlice Condition)].
Definition ServiceExport : ty := TStruct [
    (Tag "TypeMeta" "" false, TypeMeta);
    (Tag "ObjectMeta" "metadata" true, ObjectMeta);
    (Tag "Status" "status" true, ServiceExportStatus)].
Definition ServiceExportList : ty := TStruct [
    (Tag "TypeMeta" "" false, TypeMeta);
    (Tag "ListMeta" "metadata" true, ListMeta);
    (Tag "Items" "items" false, TSlice ServiceExport)].
Definition ServiceImport : ty := TStruct [
    (Tag "TypeMeta" "" false, TypeMeta);
    (Tag "ObjectMeta" "metadata" true, ObjectMeta);
    (Tag "Status" "status" true, ServiceImportStatus)].
Definition ServiceImportList : ty := TStruct [
    (Tag "TypeMeta" "" false, TypeMeta);
    (Tag "ListMeta" "metadata" true, ListMeta);
    (Tag "Items" "items" false, TSlice ServiceImport)].
Definition TrafficManagerProfileRef : ty := TStruct [
    (Tag "Name" "name" false, TString)].
Definition TrafficManagerBackendRef : ty := TStruct [
    (Tag "Name" "name" false, TString)].
Definition TrafficManagerBackendSpec : ty := TStruct [
    (Tag "Profile" "profile" false, TrafficManagerProfileRef);
    (Tag "Backend" "backend" false, TrafficManagerBackendRef);
    (Tag "Weight" "weight" true, TPtr (TInt 64))].
Definition FromCluster : ty := TStruct [
    (Tag "ClusterStatus" "" false, ClusterStatus);
    (Tag "Weight" "weight" true, TPtr (TInt 64))].
Definition TrafficManagerEndpointStatus : ty := TStruct [
    (Tag "Name" "name" false, TString);
    (Tag "ResourceID" "resourceID" true, TString);
    (Tag "Weight" "weight" true, TPtr (TInt 64));
    (Tag "Target" "target" true, TPtr TString);
    (Tag "From" "from" true, TPtr FromCluster)].
Definition TrafficManagerBackendStatus : ty := TStruct [
    (Tag "Endpoints" "endpoints" true, TSlice TrafficManagerEndpointStatus);
    (Tag "Conditions" "conditions" true, TSlice Condition)].
Definition TrafficManagerBackend : ty := TStruct [
    (Tag "TypeMeta" "" false, TypeMeta);
    (Tag "ObjectMeta" "metadata" true, ObjectMeta);
    (Tag "Spec" "spec" false, TrafficManagerBackendSpec);
    (Tag "Status" "status" true, TrafficManagerBackendStatus)].
Definition TrafficManagerBackendList : ty := TStruct [
    (Tag "TypeMeta" "" false, TypeMeta);
    (Tag "ListMeta" "metadata" true, ListMeta);
    (Tag "Items" "items" false, TSlice TrafficManagerBackend)].
Definition TrafficManagerMonitorProtocol : ty := TString.
Definition MonitorConfigCustomHeader : ty := TStruct [
    (Tag "Name" "name" false, TString);
    (Tag "Value" "value" false, TString)].
Definition MonitorConfig : ty := TStruct [
    (Tag "IntervalInSeconds" "intervalInSeconds" true, TPtr (TInt 64));
    (Tag "Path" "path" true, TPtr TString);
    (Tag "Port" "port" true, TPtr (TInt 64));
    (Tag "Protocol" "protocol" true, TPtr TrafficManagerMonitorProtocol);
    (Tag "CustomHeaders" "customHeaders" true, TSlice MonitorConfigCustomHeader);
    (Tag "TimeoutInSeconds" "timeoutInSeconds" true, TPtr (TInt 64));
    (Tag "ToleratedNumberOfFailures" "toleratedNumberOfFailures" true, TPtr (TInt 64))].
Definition TrafficManagerProfileSpec : ty := TStruct [
    (Tag "ResourceGroup" "resourceGroup" false, TString);
    (Tag "MonitorConfig" "monitorConfig" true, TPtr MonitorConfig)].
Definition TrafficManagerProfileStatus : ty := TStruct [
    (Tag "DNSName" "dnsName" true, TPtr TString);
    (Tag "ResourceID" "resourceID" true, TString);
    (Tag "Conditions" "conditions" true, TSlice Condition)].
Definition TrafficManagerProfile : ty := TStruct [
    (Tag "TypeMeta" "" false, TypeMeta);
    (Tag "ObjectMeta" "metadata" true, ObjectMeta);
    (Tag "Spec" "spec" false, TrafficManagerProfileSpec);
    (Tag "Status" "status" true, TrafficManagerProfileStatus)].
Definition TrafficManagerProfileList : ty := TStruct [
    (Tag "TypeMeta" "" false, TypeMeta);
    (Tag "ListMeta" "metadata" true, ListMeta);
    (Tag "Items" "items" false, TSlice TrafficManagerProfile)].

(** ** [zz_generated.deepcopy.go] *)

Definition ClusterStatus_methods : methods := value ClusterStatus (fields []).
Definition Endpoint_methods : methods := value Endpoint (fields [
    ("Addresses", slice TString assign)]).
Definition ExportedObjectReference_methods : methods := value ExportedObjectReference (fields [
    ("ExportedSince", Time_DeepCopyInto)]).
Definition EndpointSliceExportSpec_methods : methods := value EndpointSliceExportSpec (fields [
    ("Endpoints", slice Endpoint (DeepCopyInto Endpoint_methods));
    ("Ports", slice EndpointPort EndpointPort_DeepCopyInto);
    ("EndpointSliceReference", (DeepCopyInto ExportedObjectReference_methods));
    ("OwnerServiceReference", assign)]).
Definition EndpointSliceExport_methods : methods := object EndpointSliceExport (fields [
    ("TypeMeta", assign);
    ("ObjectMeta", ObjectMeta_DeepCopyInto);
    ("Spec", (DeepCopyInto EndpointSliceExportSpec_methods))]).
Definition EndpointSliceExportList_methods : methods := object EndpointSliceExportList (fields [
    ("TypeMeta", assign);
    ("ListMeta", ListMeta_DeepCopyInto);
    ("Items", slice EndpointSliceExport (DeepCopyInto EndpointSliceExport_methods))]).
Definition EndpointSliceImport_methods : methods := object EndpointSliceImport (fields [
    ("TypeMeta", assign);
    ("ObjectMeta", ObjectMeta_DeepCopyInto);
    ("Spec", (DeepCopyInto EndpointSliceExportSpec_methods))]).
Definition EndpointSliceImportList_methods : methods := object EndpointSliceImportList (fields [
    ("TypeMeta", assign);
    ("ListMeta", ListMeta_DeepCopyInto);
    ("Items", slice EndpointSliceImport (DeepCopyInto EndpointSliceImport_methods))]).
Definition FromCluster_methods : methods := value FromCluster (fields [
    ("ClusterStatus", assign);
    ("Weight", ptr (TInt 64) assign)]).
Definition ServicePort_methods : methods := value ServicePort (fields [
    ("AppProtocol", ptr TString assign);
    ("TargetPort", assign)]).
Definition InternalServiceExportSpec_methods : methods := value InternalServiceExportSpec (fields [
    ("Ports", slice ServicePort (DeepCopyInto ServicePort_methods));
    ("ServiceReference", (DeepCopyInto ExportedObjectReference_methods));
    ("PublicIPResourceID", ptr TString assign);
    ("Weight", ptr (TInt 64) assign)]).
Definition InternalServiceExportStatus_methods : methods := value InternalServiceExportStatus (fields [
    ("Conditions", slice Condition Condition_DeepCopyInto)]).
Definition InternalServiceExport_methods : methods := object InternalServiceExport (fields [
    ("TypeMeta", assign);
    ("ObjectMeta", ObjectMeta_DeepCopyInto);
    ("Spec", (DeepCopyInto InternalServiceExportSpec_methods));
    ("Status", (DeepCopyInto InternalServiceExportStatus_methods))]).
Definition InternalServiceExportList_methods : methods := object InternalServiceExportList (fields [
    ("TypeMeta", assign);
    ("ListMeta", ListMeta_DeepCopyInto);
    ("Items", slice InternalServiceExport (DeepCopyInto InternalServiceExport_methods))]).
Definition InternalServiceImportSpec_methods : methods := value InternalServiceImportSpec (fields [
    ("ServiceImportReference", (DeepCopyInto ExportedObjectReference_methods))]).
Definition ServiceImportStatus_methods : methods := value ServiceImportStatus (fields [
    ("IPs", slice TString assign);
    ("SessionAffinityConfig", ptr SessionAffinityConfig SessionAffinityConfig_DeepCopyInto);
    ("Ports", slice ServicePort (DeepCopyInto ServicePort_methods));
    ("Clusters", slice ClusterStatus assign)]).
Definition InternalServiceImport_methods : methods := object InternalServiceImport (fields [
    ("TypeMeta", assign);
    ("ObjectMeta", ObjectMeta_DeepCopyInto);
    ("Spec", (DeepCopyInto InternalServiceImportSpec_methods));
    ("Status", (DeepCopyInto ServiceImportStatus_methods))]).
Definition InternalServiceImportList_methods : methods := object InternalServiceImportList (fields [
    ("TypeMeta", assign);
    ("ListMeta", ListMeta_DeepCopyInto);
    ("Items", slice InternalServiceImport (DeepCopyInto InternalServiceImport_methods))]).
Definition MonitorConfig_methods : methods := value MonitorConfig (fields [
    ("IntervalInSeconds", ptr (TInt 64) assign);
    ("Path", ptr TString assign);
    ("Port", ptr (TInt 64) assign);
    ("Protocol", ptr TrafficManagerMonitorProtocol assign);
    ("CustomHeaders", slice MonitorConfigCustomHeader assign);
    ("TimeoutInSeconds", ptr (TInt 64) assign);
    ("ToleratedNumberOfFailures", ptr (TInt 64) assign)]).
Definition MonitorConfigCustomHeader_methods : methods := value MonitorConfigCustomHeader (fields []).
Definition MultiClusterServiceStatus_methods : methods := value MultiClusterServiceStatus (fields [
    ("LoadBalancer", LoadBalancerStatus_DeepCopyInto);
    ("Conditions", slice Condition Condition_DeepCopyInto)]).
Definition MultiClusterService_methods : methods := object MultiClusterService (fields [
    ("TypeMeta", assign);
    ("ObjectMeta", ObjectMeta_DeepCopyInto);
    ("Spec", assign);
    ("Status", (DeepCopyInto MultiClusterServiceStatus_methods))]).
Definition MultiClusterServiceList_methods : methods := object MultiClusterServiceList (fields [
    ("TypeMeta", assign);
    ("ListMeta", ListMeta_DeepCopyInto);
    ("Items", slice MultiClusterService (DeepCopyInto MultiClusterService_methods))]).
Definition MultiClusterServiceSpec_methods : methods := value MultiClusterServiceSpec (fields [
    ("ServiceImport", assign)]).
Definition OwnerServiceReference_methods : methods := value OwnerServiceReference (fields []).
Definition ServiceExportStatus_methods : methods := value ServiceExportStatus (fields [
    ("Conditions", slice Condition Condition_DeepCopyInto)]).
Definition ServiceExport_methods : methods := object ServiceExport (fields [
    ("TypeMeta", assign);
    ("ObjectMeta", ObjectMeta_DeepCopyInto);
    ("Status", (DeepCopyInto ServiceExportStatus_methods))]).
Definition ServiceExportList_methods : methods := object ServiceExportList (fields [
    ("TypeMeta", assign);
    ("ListMeta", ListMeta_DeepCopyInto);
    ("Items", slice ServiceExport (DeepCopyInto ServiceExport_methods))]).
Definition ServiceImport_methods : methods := object ServiceImport (fields [
    ("TypeMeta", assign);
    ("ObjectMeta", ObjectMeta_DeepCopyInto);
    ("Status", (DeepCopyInto ServiceImportStatus_methods))]).
Definition ServiceImportList_methods : methods := object ServiceImportList (fields [
    ("TypeMeta", assign);
    ("ListMeta", ListMeta_DeepCopyInto);
    ("Items", slice ServiceImport (DeepCopyInto ServiceImport_methods))]).
Definition ServiceImportRef_methods : methods := value ServiceImportRef (fields []).
Definition ServiceInUseBy_methods : methods := value ServiceInUseBy (fields [
    ("MemberClusters", mapCopy)]).
Definition TrafficManagerBackendSpec_methods : methods := value TrafficManagerBackendSpec (fields [
    ("Profile", assign);
    ("Backend", assign);
    ("Weight", ptr (TInt 64) assign)]).
Definition TrafficManagerEndpointStatus_methods : methods := value TrafficManagerEndpointStatus (fields [
    ("Weight", ptr (TInt 64) assign);
    ("Target", ptr TString assign);
    ("From", ptr FromCluster (DeepCopyInto FromCluster_methods))]).
Definition TrafficManagerBackendStatus_methods : methods := value TrafficManagerBackendStatus (fields [
    ("Endpoints", slice TrafficManagerEndpointStatus (DeepCopyInto TrafficManagerEndpointStatus_methods));
    ("Conditions", slice Condition Condition_DeepCopyInto)]).
Definition TrafficManagerBackend_methods : methods := object TrafficManagerBackend (fields [
    ("TypeMeta", assign);
    ("ObjectMeta", ObjectMeta_DeepCopyInto);
    ("Spec", (DeepCopyInto TrafficManagerBackendSpec_methods));
    ("Status", (DeepCopyInto TrafficManagerBackendStatus_methods))]).
Definition TrafficManagerBackendList_methods : methods := object TrafficManagerBackendList (fields [
    ("TypeMeta", assign);
    ("ListMeta", ListMeta_DeepCopyInto);
    ("Items", slice TrafficManagerBackend (DeepCopyInto TrafficManagerBackend_methods))]).
Definition TrafficManagerBackendRef_methods : methods := value TrafficManagerBackendRef (fields []).
Definition TrafficManagerProfileSpec_methods : methods := value TrafficManagerProfileSpec (fields [
    ("MonitorConfig", ptr MonitorConfig (DeepCopyInto MonitorConfig_methods))]).
Definition TrafficManagerProfileStatus_methods : methods := value TrafficManagerProfileStatus (fields [
    ("DNSName", ptr TString assign);
    ("Conditions", slice Condition Condition_DeepCopyInto)]).
Definition TrafficManagerProfile_methods : methods := object TrafficManagerProfile (fields [
    ("TypeMeta", assign);
    ("ObjectMeta", ObjectMeta_DeepCopyInto);
    ("Spec", (DeepCopyInto TrafficManagerProfileSpec_methods));
    ("Status", (DeepCopyInto TrafficManagerProfileStatus_methods))]).
Definition TrafficManagerProfileList_methods : methods := object TrafficManagerProfileList (fields [
    ("TypeMeta", assign);
    ("ListMeta", ListMeta_DeepCopyInto);
    ("Items", slice TrafficManagerProfile (DeepCopyInto TrafficManagerProfile_methods))]).
Definition TrafficManagerProfileRef_methods : methods := value TrafficManagerProfileRef (fields []).

(** Every type with generated methods. *)
Definition copyable : list (ty * methods) := [
    (ClusterStatus, ClusterStatus_methods);
    (Endpoint, Endpoint_methods);
    (EndpointSliceExport, EndpointSliceExport_methods);
    (EndpointSliceExportList, EndpointSliceExportList_methods);
    (EndpointSliceExportSpec, EndpointSliceExportSpec_methods);
    (EndpointSliceImport, EndpointSliceImport_methods);
    (EndpointSliceImportList, EndpointSliceImportList_methods);
    (ExportedObjectReference, ExportedObjectReference_methods);
    (FromCluster, FromCluster_methods);
    (InternalServiceExport, InternalServiceExport_methods);
    (InternalServiceExportList, InternalServiceExportList_methods);
    (InternalServiceExportSpec, InternalServiceExportSpec_methods);
    (InternalServiceExportStatus, InternalServiceExportStatus_methods);
    (InternalServiceImport, InternalServiceImport_methods);
    (InternalServiceImportList, InternalServiceImportList_methods);
    (InternalServiceImportSpec, InternalServiceImportSpec_methods);
    (MonitorConfig, MonitorConfig_methods);
    (MonitorConfigCustomHeader, MonitorConfigCustomHeader_methods);
    (MultiClusterService, MultiClusterService_methods);
    (MultiClusterServiceList, MultiClusterServiceList_methods);
    (MultiClusterServiceSpec, MultiClusterServiceSpec_methods);
    (MultiClusterServiceStatus, MultiClusterServiceStatus_methods);
    (OwnerServiceReference, OwnerServiceReference_methods);
    (ServiceExport, ServiceExport_methods);
    (ServiceExportList, ServiceExportList_methods);
    (ServiceExportStatus, ServiceExportStatus_methods);
    (ServiceImport, ServiceImport_methods);
    (ServiceImportList, ServiceImportList_methods);
    (ServiceImportRef, ServiceImportRef_methods);
    (ServiceImportStatus, ServiceImportStatus_methods);
    (ServiceInUseBy, ServiceInUseBy_methods);
    (ServicePort, ServicePort_methods);
    (TrafficManagerBackend, TrafficManagerBackend_methods);
    (TrafficManagerBackendList, TrafficManagerBackendList_methods);
    (TrafficManagerBackendRef, TrafficManagerBackendRef_methods);
    (TrafficManagerBackendSpec, TrafficManagerBackendSpec_methods);
    (TrafficManagerBackendStatus, TrafficManagerBackendStatus_methods);
    (TrafficManagerEndpointStatus, TrafficManagerEndpointStatus_methods);
    (TrafficManagerProfile, TrafficManagerProfile_methods);
    (TrafficManagerProfileList, TrafficManagerProfileList_methods);
    (TrafficManagerProfileRef, TrafficManagerProfileRef_methods);
    (TrafficManagerProfileSpec, TrafficManagerProfileSpec_methods);
    (TrafficManagerProfileStatus, TrafficManagerProfileStatus_methods)].

(** ** The methods copy *)

Context `{!MachineryLaws}.

Lemma ClusterStatus_v1alpha1 : deepCopies ClusterStatus (DeepCopyInto ClusterStatus_methods).
Proof. deep_copy. Qed.
#[local] Hint Resolve ClusterStatus_v1alpha1 : deepcopy.
Lemma Endpoint_v1alpha1 : deepCopies Endpoint (DeepCopyInto Endpoint_methods).
Proof. deep_copy. Qed.
#[local] Hint Resolve Endpoint_v1alpha1 : deepcopy.
Lemma ExportedObjectReference_v1alpha1 : deepCopies ExportedObjectReference (DeepCopyInto ExportedObjectReference_methods).
Proof. deep_copy. Qed.
#[local] Hint Resolve ExportedObjectReference_v1alpha1 : deepcopy.
Lemma EndpointSliceExportSpec_v1alpha1 : deepCopies EndpointSliceExportSpec (DeepCopyInto EndpointSliceExportSpec_methods).
Proof. deep_copy. Qed.
#[local] Hint Resolve EndpointSliceExportSpec_v1alpha1 : deepcopy.
Lemma EndpointSliceExport_v1alpha1 : deepCopies EndpointSliceExport (DeepCopyInto EndpointSliceExport_methods).
Proof. deep_copy. Qed.
#[local] Hint Resolve EndpointSliceExport_v1alpha1 : deepcopy.
Lemma EndpointSliceExportList_v1alpha1 : deepCopies EndpointSliceExportList (DeepCopyInto EndpointSliceExportList_methods).
Proof. deep_copy. Qed.
#[local] Hint Resolve EndpointSliceExportList_v1alpha1 : deepcopy.
Lemma EndpointSliceImport_v1alpha1 : deepCopies EndpointSliceImport (DeepCopyInto EndpointSliceImport_methods).
Proof. deep_copy. Qed.
#[local] Hint Resolve EndpointSliceImport_v1alpha1 : deepcopy.
Lemma EndpointSliceImportList_v1alpha1 : deepCopies EndpointSliceImportList (DeepCopyInto EndpointSliceImportList_methods).
Proof. deep_copy. Qed.
#[local] Hint Resolve EndpointSliceImportList_v1alpha1 : deepcopy.
Lemma FromCluster_v1alpha1 : deepCopies FromCluster (DeepCopyInto FromCluster_methods).
Proof. deep_copy. Qed.
#[local] Hint Resolve FromCluster_v1alpha1 : deepcopy.
Lemma ServicePort_v1alpha1 : deepCopies ServicePort (DeepCopyInto ServicePort_methods).
Proof. deep_copy. Qed.
#[local] Hint Resolve ServicePort_v1alpha1 : deepcopy.
Lemma InternalServiceExportSpec_v1alpha1 : deepCopies InternalServiceExportSpec (DeepCopyInto InternalServiceExportSpec_methods).
Proof. deep_copy. Qed.
#[local] Hint Resolve InternalServiceExportSpec_v1alpha1 : deepcopy.
Lemma InternalServiceExportStatus_v1alpha1 : deepCopies InternalServiceExportStatus (DeepCopyInto InternalServiceExportStatus_methods).
Proof. deep_copy. Qed.
#[local] Hint Resolve InternalServiceExportStatus_v1alpha1 : deepcopy.
Lemma InternalServiceExport_v1alpha1 : deepCopies InternalServiceExport (DeepCopyInto InternalServiceExport_methods).
Proof. deep_copy. Qed.
#[local] Hint Resolve InternalServiceExport_v1alpha1 : deepcopy.
Lemma InternalServiceExportList_v1alpha1 : deepCopies InternalServiceExportList (DeepCopyInto InternalServiceExportList_methods).
Proof. deep_copy. Qed.
#[local] Hint Resolve InternalServiceExportList_v1alpha1 : deepcopy.
Lemma InternalServiceImportSpec_v1alpha1 : deepCopies InternalServiceImportSpec (DeepCopyInto InternalServiceImportSpec_methods).
Proof. deep_copy. Qed.
#[local] Hint Resolve InternalServiceImportSpec_v1alpha1 : deepcopy.
Lemma ServiceImportStatus_v1alpha1 : deepCopies ServiceImportStatus (DeepCopyInto ServiceImportStatus_methods).
Proof. deep_copy. Qed.
#[local] Hint Resolve ServiceImportStatus_v1alpha1 : deepcopy.
Lemma InternalServiceImport_v1alpha1 : deepCopies InternalServiceImport (DeepCopyInto InternalServiceImport_methods).
Proof. deep_copy. Qed.
#[local] Hint Resolve InternalServiceImport_v1alpha1 : deepcopy.
Lemma InternalServiceImportList_v1alpha1 : deepCopies InternalServiceImportList (DeepCopyInto InternalServiceImportList_methods).
Proof. deep_copy. Qed.
#[local] Hint Resolve InternalServiceImportList_v1alpha1 : deepcopy.
Lemma MonitorConfig_v1alpha1 : deepCopies MonitorConfig (DeepCopyInto MonitorConfig_methods).
Proof. deep_copy. Qed.
#[local] Hint Resolve MonitorConfig_v1alpha1 : deepcopy.
Lemma MonitorConfigCustomHeader_v1alpha1 : deepCopies MonitorConfigCustomHeader (DeepCopyInto MonitorConfigCustomHeader_methods).
Proof. deep_copy. Qed.
#[local] Hint Resolve MonitorConfigCustomHeader_v1alpha1 : deepcopy.
Lemma MultiClusterServiceStatus_v1alpha1 : deepCopies MultiClusterServiceStatus (DeepCopyInto MultiClusterServiceStatus_methods).
Proof. deep_copy. Qed.
#[local] Hint Resolve MultiClusterServiceStatus_v1alpha1 : deepcopy.
Lemma MultiClusterService_v1alpha1 : deepCopies MultiClusterService (DeepCopyInto MultiClusterService_methods).
Proof. deep_copy. Qed.
#[local] Hint Resolve MultiClusterService_v1alpha1 : deepcopy.
Lemma MultiClusterServiceList_v1alpha1 : deepCopies MultiClusterServiceList (DeepCopyInto MultiClusterServiceList_methods).
Proof. deep_copy. Qed.
#[local] Hint Resolve MultiClusterServiceList_v1alpha1 : deepcopy.
Lemma MultiClusterServiceSpec_v1alpha1 : deepCopies MultiClusterServiceSpec (DeepCopyInto MultiClusterServiceSpec_methods).
Proof. deep_copy. Qed.
#[local] Hint Resolve MultiClusterServiceSpec_v1alpha1 : deepcopy.
Lemma OwnerServiceReference_v1alpha1 : deepCopies OwnerServiceReference (DeepCopyInto OwnerServiceReference_methods).
Proof. deep_copy. Qed.
#[local] Hint Resolve OwnerServiceReference_v1alpha1 : deepcopy.
Lemma ServiceExportStatus_v1alpha1 : deepCopies ServiceExportStatus (DeepCopyInto ServiceExportStatus_methods).
Proof. deep_copy. Qed.
#[local] Hint Resolve ServiceExportStatus_v1alpha1 : deepcopy.
Lemma ServiceExport_v1alpha1 : deepCopies ServiceExport (DeepCopyInto ServiceExport_methods).
Proof. deep_copy. Qed.
#[local] Hint Resolve ServiceExport_v1alpha1 : deepcopy.
Lemma ServiceExportList_v1alpha1 : deepCopies ServiceExportList (DeepCopyInto ServiceExportList_methods).
Proof. deep_copy. Qed.
#[local] Hint Resolve ServiceExportList_v1alpha1 : deepcopy.
Lemma ServiceImport_v1alpha1 : deepCopies ServiceImport (DeepCopyInto ServiceImport_methods).
Proof. deep_copy. Qed.
#[local] Hint Resolve ServiceImport_v1alpha1 : deepcopy.
Lemma ServiceImportList_v1alpha1 : deepCopies ServiceImportList (DeepCopyInto ServiceImportList_methods).
Proof. deep_copy. Qed.
#[local] Hint Resolve ServiceImportList_v1alpha1 : deepcopy.
Lemma ServiceImportRef_v1alpha1 : deepCopies ServiceImportRef (DeepCopyInto ServiceImportRef_methods).
Proof. deep_copy. Qed.
#[local] Hint Resolve ServiceImportRef_v1alpha1 : deepcopy.
Lemma ServiceInUseBy_v1alpha1 : deepCopies ServiceInUseBy (DeepCopyInto ServiceInUseBy_methods).
Proof. deep_copy. Qed.
#[local] Hint Resolve ServiceInUseBy_v1alpha1 : deepcopy.
Lemma TrafficManagerBackendSpec_v1alpha1 : deepCopies TrafficManagerBackendSpec (DeepCopyInto TrafficManagerBackendSpec_methods).
Proof. deep_copy. Qed.
#[local] Hint Resolve TrafficManagerBackendSpec_v1alpha1 : deepcopy.
Lemma TrafficManagerEndpointStatus_v1alpha1 : deepCopies TrafficManagerEndpointStatus (DeepCopyInto TrafficManagerEndpointStatus_methods).
Proof. deep_copy. Qed.
#[local] Hint Resolve TrafficManagerEndpointStatus_v1alpha1 : deepcopy.
Lemma TrafficManagerBackendStatus_v1alpha1 : deepCopies TrafficManagerBackendStatus (DeepCopyInto TrafficManagerBackendStatus_methods).
Proof. deep_copy. Qed.
#[local] Hint Resolve TrafficManagerBackendStatus_v1alpha1 : deepcopy.
Lemma TrafficManagerBackend_v1alpha1 : deepCopies TrafficManagerBackend (DeepCopyInto TrafficManagerBackend_methods).
Proof. deep_copy. Qed.
#[local] Hint Resolve TrafficManagerBackend_v1alpha1 : deepcopy.
Lemma TrafficManagerBackendList_v1alpha1 : deepCopies TrafficManagerBackendList (DeepCopyInto TrafficManagerBackendList_methods).
Proof. deep_copy. Qed.
#[local] Hint Resolve TrafficManagerBackendList_v1alpha1 : deepcopy.
Lemma TrafficManagerBackendRef_v1alpha1 : deepCopies TrafficManagerBackendRef (DeepCopyInto TrafficManagerBackendRef_methods).
Proof. deep_copy. Qed.
#[local] Hint Resolve TrafficManagerBackendRef_v1alpha1 : deepcopy.
Lemma TrafficManagerProfileSpec_v1alpha1 : deepCopies TrafficManagerProfileSpec (DeepCopyInto TrafficManagerProfileSpec_methods).
Proof. deep_copy. Qed.
#[local] Hint Resolve TrafficManagerProfileSpec_v1alpha1 : deepcopy.
Lemma TrafficManagerProfileStatus_v1alpha1 : deepCopies TrafficManagerProfileStatus (DeepCopyInto TrafficManagerProfileStatus_methods).
Proof. deep_copy. Qed.
#[local] Hint Resolve TrafficManagerProfileStatus_v1alpha1 : deepcopy.
Lemma TrafficManagerProfile_v1alpha1 : deepCopies TrafficManagerProfile (DeepCopyInto TrafficManagerProfile_methods).
Proof. deep_copy. Qed.
#[local] Hint Resolve TrafficManagerProfile_v1alpha1 : deepcopy.
Lemma TrafficManagerProfileList_v1alpha1 : deepCopies TrafficManagerProfileList (DeepCopyInto TrafficManagerProfileList_methods).
Proof. deep_copy. Qed.
#[local] Hint Resolve TrafficManagerProfileList_v1alpha1 : deepcopy.
Lemma TrafficManagerProfileRef_v1alpha1 : deepCopies TrafficManagerProfileRef (DeepCopyInto TrafficManagerProfileRef_methods).
Proof. deep_copy. Qed.
#[local] Hint Resolve TrafficManagerProfileRef_v1alpha1 : deepcopy.

Lemma copyable_v1alpha1 : Forall (λ '(t, m), deepCopies t (DeepCopyInto m) ∧ generated t m) copyable.
Proof.
  repeat (apply Forall_cons_2; [split; [auto with deepcopy nocore|first [by left|by right]]|]). apply Forall_nil_2.
Qed.
End api.
End v1alpha1.
