(* ===== verification/ApiV1Beta1.v ===== *)
(** * [api/v1beta1]

    The Go types of the version, with their JSON tags, and the generated
    functions that copy their values. *)

From S2P Require Import Prelude GoHeap GoCopy ApiMachinery.

Module v1beta1.
Section api.
Context `{Machinery} `{RangeOrder}.

(** ** The types *)

Definition ClusterStatus : ty := TStruct [
    (Tag "Cluster" "cluster" false, TString)].
Definition ServiceExportStatus : ty := TStruct [
    (Tag "Conditions" "conditions" true, TSlice Condition)].
Definition ServiceExport : ty := TStruct [
    (Tag "TypeMeta" "" false, TypeMeta);
    (Tag "ObjectMeta" "metadata" true, ObjectMeta);
    (Tag "Status" "status" true, ServiceExportStatus)].
Definition ServiceExportList : ty := TStruct [
    (Tag "TypeMeta" "" false, TypeMeta);
    (Tag "ListMeta" "metadata" true, ListMeta);
    (Tag "Items" "items" false, TSlice ServiceExport)].
Definition TrafficManagerProfileRef : ty := TStruct [
    (Tag "Name" "name" false, TString)].
Definition TrafficManagerBackendRef : ty := TStruct [
    (Tag "Name" "name" false, TString)].
Definition TrafficManagerBackendSpec : ty := TStruct [
    (Tag "Profile" "profile" false, TrafficManagerProfileRef);
    (Tag "Backend" "backend" false, TrafficManagerBackendRef);
    (Tag "Weight" "weight" true, TPtr (TInt 64))].
Definition FromCluster : ty := TStruct [
    (Tag "ClusterStatus" "" false, ClusterStatus);
    (Tag "Weight" "weight" true, TPtr (TInt 64))].
Definition TrafficManagerEndpointStatus : ty := TStruct [
    (Tag "Name" "name" false, TString);
    (Tag "ResourceID" "resourceID" true, TString);
    (Tag "Weight" "weight" true, TPtr (TInt 64));
    (Tag "Target" "target" true, TPtr TString);
    (Tag "From" "from" true, TPtr FromCluster)].
Definition TrafficManagerBackendStatus : ty := TStruct [
    (Tag "Endpoints" "endpoints" true, TSlice TrafficManagerEndpointStatus);
    (Tag "Conditions" "conditions" true, TSlice Condition)].
Definition TrafficManagerBackend : ty := TStruct [
    (Tag "TypeMeta" "" false, TypeMeta);
    (Tag "ObjectMeta" "metadata" true, ObjectMeta);
    (Tag "Spec" "spec" false, TrafficManagerBackendSpec);
    (Tag "Status" "status" true, TrafficManagerBackendStatus)].
Definition TrafficManagerBackendList : ty := TStruct [
    (Tag "TypeMeta" "" false, TypeMeta);
    (Tag "ListMeta" "metadata" true, ListMeta);
    (Tag "Items" "items" false, TSlice TrafficManagerBackend)].
Definition TrafficManagerMonitorProtocol : ty := TString.
Definition MonitorConfigCustomHeader : ty := TStruct [
    (Tag "Name" "name" false, TString);
    (Tag "Value" "value" false, TString)].
Definition MonitorConfig : ty := TStruct [
    (Tag "IntervalInSeconds" "intervalInSeconds" true, TPtr (TInt 64));
    (Tag "Path" "path" true, TPtr TString);
    (Tag "Port" "port" true, TPtr (TInt 64));
    (Tag "Protocol" "protocol" true, TPtr TrafficManagerMonitorProtocol);
    (Tag "CustomHeaders" "customHeaders" true, TSlice MonitorConfigCustomHeader);
    (Tag "TimeoutInSeconds" "timeoutInSeconds" true, TPtr (TInt 64));
    (Tag "ToleratedNumberOfFailures" "toleratedNumberOfFailures" true, TPtr (TInt 64))].
Definition TrafficManagerProfileSpec : ty := TStruct [
    (Tag "ResourceGroup" "resourceGroup" false, TString);
    (Tag "MonitorConfig" "monitorConfig" true, TPtr MonitorConfig)].
Definition TrafficManagerProfileStatus : ty := TStruct [
    (Tag "DNSName" "dnsName" true, TPtr TString);
    (Tag "ResourceID" "resourceID" true, TString);
    (Tag "Conditions" "conditions" true, TSlice Condition)].
Definition TrafficManagerProfile : ty := TStruct [
    (Tag "TypeMeta" "" false, TypeMeta);
    (Tag "ObjectMeta" "metadata" true, ObjectMeta);
    (Tag "Spec" "spec" false, TrafficManagerProfileSpec);
    (Tag "Status" "status" true, TrafficManagerProfileStatus)].
Definition TrafficManagerProfileList : ty := TStruct [
    (Tag "TypeMeta" "" false, TypeMeta);
    (Tag "ListMeta" "metadata" true, ListMeta);
    (Tag "Items" "items" false, TSlice TrafficManagerProfile)].

(** ** [zz_generated.deepcopy.go] *)

Definition ClusterStatus_methods : methods := value ClusterStatus (fields []).
Definition FromCluster_methods : methods := value FromCluster (fields [
    ("ClusterStatus", assign);
    ("Weight", ptr (TInt 64) assign)]).
Definition MonitorConfig_methods : methods := value MonitorConfig (fields [
    ("IntervalInSeconds", ptr (TInt 64) assign);
    ("Path", ptr TString assign);
    ("Port", ptr (TInt 64) assign);
    ("Protocol", ptr TrafficManagerMonitorProtocol assign);
    ("CustomHeaders", slice MonitorConfigCustomHeader assign);
    ("TimeoutInSeconds", ptr (TInt 64) assign);
    ("ToleratedNumberOfFailures", ptr (TInt 64) assign)]).
Definition MonitorConfigCustomHeader_methods : methods := value MonitorConfigCustomHeader (fields []).
Definition ServiceExportStatus_methods : methods := value ServiceExportStatus (fields [
    ("Conditions", slice Condition Condition_DeepCopyInto)]).
Definition ServiceExport_methods : methods := object ServiceExport (fields [
    ("TypeMeta", assign);
    ("ObjectMeta", ObjectMeta_DeepCopyInto);
    ("Status", (DeepCopyInto ServiceExportStatus_methods))]).
Definition ServiceExportList_methods : methods := object ServiceExportList (fields [
    ("TypeMeta", assign);
    ("ListMeta", ListMeta_DeepCopyInto);
    ("Items", slice ServiceExport (DeepCopyInto ServiceExport_methods))]).
Definition TrafficManagerBackendSpec_methods : methods := value TrafficManagerBackendSpec (fields [
    ("Profile", assign);
    ("Backend", assign);
    ("Weight", ptr (TInt 64) assign)]).
Definition TrafficManagerEndpointStatus_methods : methods := value TrafficManagerEndpointStatus (fields [
    ("Weight", ptr (TInt 64) assign);
    ("Target", ptr TString assign);
    ("From", ptr FromCluster (DeepCopyInto FromCluster_methods))]).
Definition TrafficManagerBackendStatus_methods : methods := value TrafficManagerBackendStatus (fields [
    ("Endpoints", slice TrafficManagerEndpointStatus (DeepCopyInto TrafficManagerEndpointStatus_methods));
    ("Conditions", slice Condition Condition_DeepCopyInto)]).
Definition TrafficManagerBackend_methods : methods := object TrafficManagerBackend (fields [
    ("TypeMeta", assign);
    ("ObjectMeta", ObjectMeta_DeepCopyInto);
    ("Spec", (DeepCopyInto TrafficManagerBackendSpec_methods));
    ("Status", (DeepCopyInto TrafficManagerBackendStatus_methods))]).
Definition TrafficManagerBackendList_methods : methods := object TrafficManagerBackendList (fields [
    ("TypeMeta", assign);
    ("ListMeta", ListMeta_DeepCopyInto);
    ("Items", slice TrafficManagerBackend (DeepCopyInto TrafficManagerBackend_methods))]).
Definition TrafficManagerBackendRef_methods : methods := value TrafficManagerBackendRef (fields []).
Definition TrafficManagerProfileSpec_methods : methods := value TrafficManagerProfileSpec (fields [
    ("MonitorConfig", ptr MonitorConfig (DeepCopyInto MonitorConfig_methods))]).
Definition TrafficManagerProfileStatus_methods : methods := value TrafficManagerProfileStatus (fields [
    ("DNSName", ptr TString assign);
    ("Conditions", slice Condition Condition_DeepCopyInto)]).
Definition TrafficManagerProfile_methods : methods := object TrafficManagerProfile (fields [
    ("TypeMeta", assign);
    ("ObjectMeta", ObjectMeta_DeepCopyInto);
    ("Spec", (DeepCopyInto TrafficManagerProfileSpec_methods));
    ("Status", (DeepCopyInto TrafficManagerProfileStatus_methods))]).
Definition TrafficManagerProfileList_methods : methods := object TrafficManagerProfileList (fields [
    ("TypeMeta", assign);
    ("ListMeta", ListMeta_DeepCopyInto);
    ("Items", slice TrafficManagerProfile (DeepCopyInto TrafficManagerProfile_methods))]).
Definition TrafficManagerProfileRef_methods : methods := value TrafficManagerProfileRef (fields []).

(** Every type with generated methods. *)
Definition copyable : list (ty * methods) := [
    (ClusterStatus, ClusterStatus_methods);
    (FromCluster, FromCluster_methods);
    (MonitorConfig, MonitorConfig_methods);
    (MonitorConfigCustomHeader, MonitorConfigCustomHeader_methods);
    (ServiceExport, ServiceExport_methods);
    (ServiceExportList, ServiceExportList_methods);
    (ServiceExportStatus, ServiceExportStatus_methods);
    (TrafficManagerBackend, TrafficManagerBackend_methods);
    (TrafficManagerBackendList, TrafficManagerBackendList_methods);
    (TrafficManagerBackendRef, TrafficManagerBackendRef_methods);
    (TrafficManagerBackendSpec, TrafficManagerBackendSpec_methods);
    (TrafficManagerBackendStatus, TrafficManagerBackendStatus_methods);
    (TrafficManagerEndpointStatus, TrafficManagerEndpointStatus_methods);
    (TrafficManagerProfile, TrafficManagerProfile_methods);
    (TrafficManagerProfileList, TrafficManagerProfileList_methods);
    (TrafficManagerProfileRef, TrafficManagerProfileRef_methods);
    (TrafficManagerProfileSpec, TrafficManagerProfileSpec_methods);
    (TrafficManagerProfileStatus, TrafficManagerProfileStatus_methods)].

(** ** The methods copy *)

Context `{!MachineryLaws}.

Lemma ClusterStatus_v1beta1 : deepCopies ClusterStatus (DeepCopyInto ClusterStatus_methods).
Proof. deep_copy. Qed.
#[local] Hint Resolve ClusterStatus_v1beta1 : deepcopy.
Lemma FromCluster_v1beta1 : deepCopies FromCluster (DeepCopyInto FromCluster_methods).
Proof. deep_copy. Qed.
#[local] Hint Resolve FromCluster_v1beta1 : deepcopy.
Lemma MonitorConfig_v1beta1 : deepCopies MonitorConfig (DeepCopyInto MonitorConfig_methods).
Proof. deep_copy. Qed.
#[local] Hint Resolve MonitorConfig_v1beta1 : deepcopy.
Lemma MonitorConfigCustomHeader_v1beta1 : deepCopies MonitorConfigCustomHeader (DeepCopyInto MonitorConfigCustomHeader_methods).
Proof. deep_copy. Qed.
#[local] Hint Resolve MonitorConfigCustomHeader_v1beta1 : deepcopy.
Lemma ServiceExportStatus_v1beta1 : deepCopies ServiceExportStatus (DeepCopyInto ServiceExportStatus_methods).
Proof. deep_copy. Qed.
#[local] Hint Resolve ServiceExportStatus_v1beta1 : deepcopy.
Lemma ServiceExport_v1beta1 : deepCopies ServiceExport (DeepCopyInto ServiceExport_methods).
Proof. deep_copy. Qed.
#[local] Hint Resolve ServiceExport_v1beta1 : deepcopy.
Lemma ServiceExportList_v1beta1 : deepCopies ServiceExportList (DeepCopyInto ServiceExportList_methods).
Proof. deep_copy. Qed.
#[local] Hint Resolve ServiceExportList_v1beta1 : deepcopy.
Lemma TrafficManagerBackendSpec_v1beta1 : deepCopies TrafficManagerBackendSpec (DeepCopyInto TrafficManagerBackendSpec_methods).
Proof. deep_copy. Qed.
#[local] Hint Resolve TrafficManagerBackendSpec_v1beta1 : deepcopy.
Lemma TrafficManagerEndpointStatus_v1beta1 : deepCopies TrafficManagerEndpointStatus (DeepCopyInto TrafficManagerEndpointStatus_methods).
Proof. deep_copy. Qed.
#[local] Hint Resolve TrafficManagerEndpointStatus_v1beta1 : deepcopy.
Lemma TrafficManagerBackendStatus_v1beta1 : deepCopies TrafficManagerBackendStatus (DeepCopyInto TrafficManagerBackendStatus_methods).
Proof. deep_copy. Qed.
#[local] Hint Resolve TrafficManagerBackendStatus_v1beta1 : deepcopy.
Lemma TrafficManagerBackend_v1beta1 : deepCopies TrafficManagerBackend (DeepCopyInto TrafficManagerBackend_methods).
Proof. deep_copy. Qed.
#[local] Hint Resolve TrafficManagerBackend_v1beta1 : deepcopy.
Lemma TrafficManagerBackendList_v1beta1 : deepCopies TrafficManagerBackendList (DeepCopyInto TrafficManagerBackendList_methods).
Proof. deep_copy. Qed.
#[local] Hint Resolve TrafficManagerBackendList_v1beta1 : deepcopy.
Lemma TrafficManagerBackendRef_v1beta1 : deepCopies TrafficManagerBackendRef (DeepCopyInto TrafficManagerBackendRef_methods).
Proof. deep_copy. Qed.
#[local] Hint Resolve TrafficManagerBackendRef_v1beta1 : deepcopy.
Lemma TrafficManagerProfileSpec_v1beta1 : deepCopies TrafficManagerProfileSpec (DeepCopyInto TrafficManagerProfileSpec_methods).
Proof. deep_copy. Qed.
#[local] Hint Resolve TrafficManagerProfileSpec_v1beta1 : deepcopy.
Lemma TrafficManagerProfileStatus_v1beta1 : deepCopies TrafficManagerProfileStatus (DeepCopyInto TrafficManagerProfileStatus_methods).
Proof. deep_copy. Qed.
#[local] Hint Resolve TrafficManagerProfileStatus_v1beta1 : deepcopy.
Lemma TrafficManagerProfile_v1beta1 : deepCopies TrafficManagerProfile (DeepCopyInto TrafficManagerProfile_methods).
Proof. deep_copy. Qed.
#[local] Hint Resolve TrafficManagerProfile_v1beta1 : deepcopy.
Lemma TrafficManagerProfileList_v1beta1 : deepCopies TrafficManagerProfileList (DeepCopyInto TrafficManagerProfileList_methods).
Proof. deep_copy. Qed.
#[local] Hint Resolve TrafficManagerProfileList_v1beta1 : deepcopy.
Lemma TrafficManagerProfileRef_v1beta1 : deepCopies TrafficManagerProfileRef (DeepCopyInto TrafficManagerProfileRef_methods).
Proof. deep_copy. Qed.
#[local] Hint Resolve TrafficManagerProfileRef_v1beta1 : deepcopy.

Lemma copyable_v1beta1 : Forall (λ '(t, m), deepCopies t (DeepCopyInto m) ∧ generated t m) copyable.
Proof.
  repeat (apply Forall_cons_2; [split; [auto with deepcopy nocore|first [by left|by right]]|]). apply Forall_nil_2.
Qed.
End api.
End v1beta1.
