(* ===== verification/ApiTypes.v ===== *)
(** * The API types in memory and on the wire

    The generated copy functions of both versions return independent copies;
    a value of an API type survives its JSON, also when it is written in one
    version and read in the other. *)

From S2P Require Import Prelude Go Json GoHeap GoCopy ApiJson ApiMachinery ApiV1Alpha1 ApiV1Beta1.

(** What the methods of a type promise. *)
Definition methodsCopy (t : ty) (m : methods) : Prop :=
  deepCopies t (DeepCopyInto m) ∧ independentCopies t (m_DeepCopy m) ∧
  ∀ copy, m_DeepCopyObject m = Some copy → independentCopies t copy.

Section copies.
Context `{MachineryLaws} `{RangeOrder}.

(** C12: every generated copy function copies.  [DeepCopyInto] of each type of
    both versions, applied to a variable that holds a value of the type and to
    another variable, ends without a panic with an equal value in the second
    that refers only to newly allocated memory, and changes nothing else.
    [DeepCopy] and [DeepCopyObject] return nil for nil and otherwise a pointer
    to an equal value; the original is as it was, and what is later done to
    the memory of the one does not affect the other. *)
Theorem generated_copies_are_independent :
  Forall (λ '(t, m), methodsCopy t m) (v1alpha1.copyable ++ v1beta1.copyable).
Proof.
  apply Forall_app. split; eapply Forall_impl; [apply v1alpha1.copyable_v1alpha1| |apply v1beta1.copyable_v1beta1|].
  all: intros [t m] [Hc Hm]; by apply methods_independent.
Qed.
End copies.

Section wire.
Context `{MachineryTags} `{RangeOrder}.

Lemma tags_in_order : Forall (λ '(t, _), tagsOk t = true) (v1alpha1.copyable ++ v1beta1.copyable).
Proof.
  repeat (apply Forall_cons_2; [simpl; autorewrite with tags; reflexivity|]). apply Forall_nil_2.
Qed.

(** The kinds that both versions serve, without a conversion other than of the
    version itself. *)
Definition servedTwice : list (ty * ty) := [
    (v1alpha1.ServiceExport, v1beta1.ServiceExport);
    (v1alpha1.TrafficManagerProfile, v1beta1.TrafficManagerProfile);
    (v1alpha1.TrafficManagerBackend, v1beta1.TrafficManagerBackend)].
Definition readsBack `{Codecs} (written read : ty) : Prop := ∀ h v x,
  denote h written v = Some x → expressible written x →
  decode read (encode written x) = Some (canon read x).

Lemma readsBack_refl `{CodecLaws} t : tagsOk t = true → readsBack t t.
Proof. intros Ht h v x Hx%denote_hasType Hw. apply decode_encode; [by rewrite Ht|done|done]. Qed.
Lemma versions_agree : Forall (λ '(a, b), a = b ∧ tagsOk b = true) servedTwice.
Proof.
  repeat (apply Forall_cons_2; [split; [reflexivity|simpl; autorewrite with tags; reflexivity]|]).
  apply Forall_nil_2.
Qed.

(** C13: an API object survives its JSON.  No two fields of a struct of the
    API, inlined ones included, share a JSON name, given that this holds of the
    structs of Kubernetes in it.  What a variable of any type of the API of
    either version holds is read back from what is written of it, with two
    exceptions: a field with omitempty that is empty is read as the zero value
    (an empty slice as nil), and a pointer to something that is written as null
    is read as nil.  Values of the types of Kubernetes with an encoding of their
    own, metav1.Time and IntOrString, are read back as they are if their
    encoding can express them; that is relied on, and required of the times and
    ports in the object.  For the kinds served in two versions, what is written
    as one version is read as the other with the same value. *)
Theorem api_objects_survive_json `{CodecLaws} :
  Forall (λ '(t, _), tagsOk t = true ∧ readsBack t t) (v1alpha1.copyable ++ v1beta1.copyable) ∧
  Forall (λ '(a, b), readsBack a b ∧ readsBack b a) servedTwice.
Proof.
  split.
  - eapply Forall_impl; [apply tags_in_order|]. intros [t m] Ht. split; [done|]. by apply readsBack_refl.
  - eapply Forall_impl; [apply versions_agree|]. intros [a b] [-> Hb]. by split; apply readsBack_refl.
Qed.
End wire.

(** ** An instance *)

Module Demo.

#[local] Notation str name json := (Tag name json true, TString).
#[local] Instance machinery : Machinery := {|
  TypeMeta := TStruct [str "Kind" "kind"; str "APIVersion" "apiVersion"];
  ListMeta := TStruct [str "ResourceVersion" "resourceVersion";
                       (Tag "RemainingItemCount" "remainingItemCount" true, TPtr (TInt 64))];
  ObjectMeta := TStruct [str "Name" "name"; str "Namespace" "namespace";
                         (Tag "Labels" "labels" true, TMap);
                         (Tag "Finalizers" "finalizers" true, TSlice TString)];
  Condition := TStruct [str "Type" "type"; str "Status" "status"; str "Reason" "reason"];
  Time := TNamed "Time" (TInt 64);
  IntOrString := TNamed "IntOrString" TString;
  UID := TString;
  EndpointPort := TStruct [(Tag "Name" "name" true, TPtr TString); (Tag "Port" "port" true, TPtr (TInt 32))];
  SessionAffinityConfig := TStruct [(Tag "ClientIP" "clientIP" true, TPtr (TStruct [
    (Tag "TimeoutSeconds" "timeoutSeconds" true, TPtr (TInt 32))]))];
  LoadBalancerStatus := TStruct [(Tag "Ingress" "ingress" true, TSlice (TStruct [str "IP" "ip"]))];
  Protocol := TString; ServiceAffinity := TString; ServiceType := TString; AddressType := TString;
  ListMeta_DeepCopyInto := fields [("RemainingItemCount", ptr (TInt 64) assign)];
  ObjectMeta_DeepCopyInto := fields [("Labels", @mapCopy {| range := map_to_list; range_perm _ := reflexivity _ |});
                                     ("Finalizers", slice TString assign)];
  Condition_DeepCopyInto := fields [];
  Time_DeepCopyInto := assign;
  EndpointPort_DeepCopyInto := fields [("Name", ptr TString assign); ("Port", ptr (TInt 32) assign)];
  SessionAffinityConfig_DeepCopyInto := fields [("ClientIP",
    ptr (TStruct [(Tag "TimeoutSeconds" "timeoutSeconds" true, TPtr (TInt 32))])
      (fields [("TimeoutSeconds", ptr (TInt 32) assign)]))];
  LoadBalancerStatus_DeepCopyInto := fields [("Ingress", slice (TStruct [str "IP" "ip"]) assign)]
|}.
#[local] Instance order : RangeOrder := {| range := map_to_list; range_perm _ := reflexivity _ |}.

#[local] Instance laws : MachineryLaws.
Proof.
  split; simpl; try exact I; try (apply assign_ok; exact I); try copy_fields.
  apply fields_ok; [done|]. apply Forall_singleton, ptr_ok. copy_fields.
Qed.
#[local] Instance tags : MachineryTags.
Proof. by split. Qed.

(** Times are written as numbers and the rest as strings. *)
#[local] Instance codecs : Codecs := {|
  encodeNamed _ x := match x with
                     | Leaf (SInt z) => JNumber (FormatInt z)
                     | Leaf (SString s) => JString s
                     | _ => JNull
                     end;
  decodeNamed _ j := Some match j with
                     | JNumber l => match ParseInt l with Some z => Leaf (SInt z) | None => Nil end
                     | JString s => Leaf (SString s)
                     | _ => Nil
                     end;
  onWire _ x := match x with
                | Leaf (SInt z) => bool_decide (minInt64 ≤ z ≤ maxInt64)%Z
                | Leaf (SString _) => true
                | _ => false
                end
|}.
#[local] Instance codec_laws : CodecLaws.
Proof. split. intros n [[]| | | | |]; try done. simpl. rewrite ParseInt_FormatInt. by case_bool_decide. Qed.

Lemma generated_copies_are_independent_witness :
  Forall (λ '(t, m), methodsCopy t m) (v1alpha1.copyable ++ v1beta1.copyable).
Proof. exact generated_copies_are_independent. Defined.
Lemma api_objects_survive_json_witness :
  Forall (λ '(t, _), tagsOk t = true ∧ readsBack t t) (v1alpha1.copyable ++ v1beta1.copyable) ∧
  Forall (λ '(a, b), readsBack a b ∧ readsBack b a) servedTwice.
Proof. exact api_objects_survive_json. Defined.

(** A profile with a monitor configuration and a condition: the objects at 1
    to 4 are what it refers to. *)
Definition profile : heap := {[
  0 := Arr [VStruct [
    ("TypeMeta", VStruct [("Kind", VScalar (SString "TrafficManagerProfile")); ("APIVersion", VScalar (SString "v1"))]);
    ("ObjectMeta", VStruct [("Name", VScalar (SString "p")); ("Namespace", VScalar (SString "ns"));
                            ("Labels", VMap (Some 3)); ("Finalizers", VSlice (Some (4, 0, 0)))]);
    ("Spec", VStruct [("ResourceGroup", VScalar (SString "rg")); ("MonitorConfig", VPtr (Some (element 1 0)))]);
    ("Status", VStruct [("DNSName", VPtr None); ("ResourceID", VScalar (SString "")); ("Conditions", VSlice None)])]];
  1 := Arr [VStruct [("IntervalInSeconds", VPtr (Some (element 2 0))); ("Path", VPtr None); ("Port", VPtr None);
                     ("Protocol", VPtr None); ("CustomHeaders", VSlice None); ("TimeoutInSeconds", VPtr None);
                     ("ToleratedNumberOfFailures", VPtr None)]];
  2 := Arr [VScalar (SInt 30)];
  3 := Table {["app" := "x"]};
  4 := Arr []
]}.
(** The copy has its own monitor configuration: setting the interval in the
    copy leaves the original at 30. *)
Example profile_copy :
  (λ '(h, q), (reach h v1beta1.TrafficManagerProfile <$> (q ≫= load h),
               v ← q ≫= load h; denote h v1beta1.TrafficManagerProfile v))
    <$> m_DeepCopy v1beta1.TrafficManagerProfile_methods (Some (element 0 0)) profile =
  Some (Some {[6; 7; 8; 9]}, v ← load profile (element 0 0); denote profile v1beta1.TrafficManagerProfile v).
Proof. vm_compute. reflexivity. Qed.
(** It is read back with nil finalizers instead of empty ones. *)
Example profile_survives :
  let read f := (v ← load profile (element 0 0); x ← denote profile v1alpha1.TrafficManagerProfile v;
    if expressible v1alpha1.TrafficManagerProfile x then f x : option tree else None) in
  read (λ x, decode v1beta1.TrafficManagerProfile (encode v1alpha1.TrafficManagerProfile x)) =
    read (λ x, Some (canon v1beta1.TrafficManagerProfile x)) ∧
  is_Some (read Some).
Proof. split; [vm_compute; reflexivity|]. vm_compute. by eexists. Qed.
(** On the wire the finalizers, which are empty, and the status are gone. *)
Example profile_json :
  (v ← load profile (element 0 0); x ← denote profile v1alpha1.TrafficManagerProfile v;
   Some (encode v1alpha1.TrafficManagerProfile x)) =
  Some (JObject [("kind", JString "TrafficManagerProfile"); ("apiVersion", JString "v1");
    ("metadata", JObject [("name", JString "p"); ("namespace", JString "ns");
                          ("labels", JObject [("app", JString "x")])]);
    ("spec", JObject [("resourceGroup", JString "rg");
                      ("monitorConfig", JObject [("intervalInSeconds", JNumber "30")])]);
    ("status", JObject [])]).
Proof. vm_compute. reflexivity. Qed.
End Demo.
